(* ===== verification/_CoqProject ===== *)
-Q . S2P
Prelude.v
GLib.v
GLibRef.v
Sys.v
Types.v
Util.v
Json.v
Namespace.v
Semver.v
Config.v
SpecHandlers.v
Mount.v
State.v
Memory.v
Status.v
Wire.v
Networking.v
Proxy.v
Hyperstart.v
GoProxy.v
Streams.v
GoClient.v
GoSetup.v
MockAgent.v
Shim.v
ShimSignals.v
Relay.v
Qmp.v
Hypervisor.v
Logging.v
Process.v
Launch.v
EndToEnd.v
Agent.v
Lifecycle.v
Events.v
Commands.v
Sessions.v
