(* ===== verification/Prelude.v ===== *)
(** * cc-oci-runtime: a verification development

    cc-oci-runtime starts OCI containers as virtual machines.  Three programs
    work together.  The runtime (src/src, C) is run once per command: it
    reads config.json of a bundle, creates a run-time directory with a state
    file, mounts, networks, starts the hypervisor and a shim, and asks the
    proxy to start or kill the workload.  The proxy (src/proxy, Go) is a
    daemon that holds the channels to the agent in each VM and multiplexes
    them between clients.  The shim (src/shim, C) stands for the workload on
    the host: it carries its input, output, signals and exit status.

    ** How the code is modelled

    Pure functions of the code are functions here.  A function that calls the
    operating system or a library with state is a value of the free monad
    [io] (Sys): a tree of calls with one continuation per reply.  [exec]
    relates a program to its traces, [wp] is the weakest precondition over
    all replies, [run h] executes it in a world given by a handler [h].  A
    failed [g_assert], a read through NULL, a call of [exit] and waiting for
    ever are outcomes of their own ([fault]), so a statement about [Done]
    says that none of them happens.  A structure the code changes in place is
    passed and returned.  Machine integers are in [Z] with their wrap-around
    written out ([wrapu], [wraps]); a [gchar *] is a [cstr], with [None] for
    NULL.  GLib and JSON-GLib are the class [GLib] with documented laws, and
    [glib_ref] (GLibRef) is an instance, used by the witnesses.  Values fixed
    when the program is built are the class [Build] (Config).

    ** The files

    - Prelude: integers, strings and their parsing and printing, lists.
    - GLib, GLibRef: the interface of the libraries, and an instance of it.
    - Sys: calls, programs, traces, weakest preconditions, handlers.
    - Types: the structures of src/src/oci.h.
    - Util, Json, Namespace, Semver: src/src/util.c, json.c, namespace.c,
      semver.c.  Descriptors are moved above the standard ones without loss;
      namespaces requested are joined or created in order and descriptors
      closed on every path; version comparison refines the precedence of
      SemVer 2.0.0.
    - Config, SpecHandlers: src/src/oci-config.c, runtime.c, annotation.c, the
      predicates of pod.c, and src/src/spec_handlers.  A configuration that is
      accepted is well formed; its process, platform, root and VM sections say
      what the launch needs, and the paths were found in the file system.
    - Mount: src/src/mount.c.  What is mounted is what is later unmounted, in
      the workload's directory only, and directories are removed only after.
    - State, Status: src/src/state.c.  The state file is read back as written,
      and its status can be read from the text that was written.
    - Memory: who owns the memory of a configuration and of a state.  The
      functions that free, and the bodies of kill, pause and resume, are the
      sequences of their accesses to blocks; these commands free nothing twice
      and use nothing after it was freed, and what they do not give back is
      listed.
    - Networking: src/src/networking.c and netlink.c.  Prefix lengths of
      netmasks; discovery of interfaces and routes.
    - Wire, Proxy: the framing of messages and src/src/proxy.c, the runtime's
      side of the proxy protocol: framing, sessions, environment.
    - Hyperstart: the messages of the vendored library the proxy uses to talk to
      the agent.
    - GoProxy: src/proxy.  The handlers are cut where goroutines interleave,
      and theorems are about every reachable state of the step relation.
    - Streams: along every execution of that relation, the numbers allocated to a
      client lead to its connection and no others do, until something is closed.
    - GoClient: src/proxy/api/client.go and fdpassing.go, and the loop that serves
      a connection.  Calls of the client do to the registry of the proxy what
      the operations do, and return their errors.
    - GoSetup: connections and start of the proxy: the sockets of a VM and what
      they leave open, the descriptors of an allocation, socket activation,
      the listening socket, the numbers of the clients, and the program.
    - MockAgent: the agent the vendored library has for tests without a VM
      (src/vendor/github.com/containers/virtcontainers/hyperstart/mock).  Commands
      sent to it one after the other are transactions.
    - Qmp, Hypervisor: src/src/network.c and hypervisor.c.  Pause and resume
      over the monitor's socket; the expansion of the hypervisor's arguments
      is the simultaneous substitution of the table in the parsed line.
    - Logging: src/src/logging.c.  What a message appends to which file.
    - Process, Launch: src/src/process.c and the containers of pod.c.  A
      child that fails before it executes its program writes to the error
      pipe, arguments and descriptors sent over pipes are those received, hooks
      run in order with the state on their input, and a launch forks its
      processes, writes the state file, runs the prestart hooks, feeds the
      shim, and writes the pid file last, or kills the shim if it fails.
    - EndToEnd: the programs together.  The options the runtime gives the shim
      are parsed by the shim to what was sent; the runtime's hello registers
      its VM with the proxy; both ends agree on the streams allocated.
    - Agent: the structures of src/vendor/github.com/hyperhq/runv/hyperstart/api/json.
      A container the runtime asks for arrives in them, through the proxy and the
      control channel.
    - Lifecycle: src/src/oci.c.  The protocols of start, kill and stop on the
      state file, signals, hooks, mounts and status, with the result of every
      failure of a kill.
    - Events, Commands: src/src/events.c, command.c, commands/, priv.c and
      main.c.  The events command ends with its container; numbers of users
      are cut to their width; a user without privileges changes nothing.
    - Shim: src/shim.  A session of the shim copies the output of the workload
      and exits with its status; input reaches the proxy.
    - Relay: the two loops of src/proxy/vm.go between a VM and its clients, with
      the agent and the shim at their ends.  What a workload writes is what is
      seen, what is typed is what it reads, whatever the pieces and whatever
      other workloads do.
    - ShimSignals: the signal handler of the shim with its pipe, and src/shim/log.c.
      Signals reach the proxy in order, up to the capacity of the pipe.
    - Sessions: the commands one after the other.  Whatever commands are given
      for a container, the statuses they write are a path of an abstract
      machine ([moves]), and a container that is over stays over.  The commands of a
      session run one at a time, and what reads the state file finds what was
      last written to it.

    ** Bounds and fuel

    Loops over data recurse on it.  A loop that a peer can prolong (polling,
    reading from a socket, waiting for a netlink answer) has fuel given by a
    class ([RecvFuel], [NlFuel], [QmpFuel], [EventsFuel]) or an argument; running out of it is the outcome
    [Blocked].  Theorems about such loops either hold for every fuel, or say
    how much is enough ([workload_seen] needs one turn of the shim per message,
    [events_end_with_container] one per event, [handleCtl_ends] one turn of the
    mock per byte and piece).  Reads and relays of the Go code recurse on the bytes
    that are left ([read_loop], [hyper_to_clients]), and the loop of
    [read_IO_message] has one more unit than the largest message.

    ** Not modelled

    The messages that functions log are left out (the handler that receives
    them is modelled by itself).  Memory is modelled in a file of its own, apart
    from the values: strings that a function allocates and frees itself are
    not followed.  The errors of Go's JSON package are one text.  The parser of command lines is GLib's: it is the class
    [OptionParser] (Commands).  The parsing of the proxy's command line, what
    libmnl says of an attribute of a route, the callbacks that only end a main
    loop, the text of the shim's usage and the dump of a tree for debugging,
    vendored packages for logging and assertions (glog, testify, spew, difflib),
    and the build are not modelled: they are calls of libraries and of the
    operating system, third-party code, text, or scripts. *)

From stdpp Require Export base gmap sets strings list option pretty.
From Stdlib Require Export Ascii ZArith Lia.

(** ** Notation scope and hint database of the development *)

Declare Scope cc_scope.
Delimit Scope cc_scope with cc.
#[export] Set Warnings "-clear-no-such-hyp".

Open Scope Z_scope.
Open Scope cc_scope.

Create HintDb cc.
Create Rewrite HintDb cc.

(** A C pointer to a NUL-terminated string: [None] is [NULL]. *)
Abbreviation cstr := (option string).

(** ** Machine integers: values in [Z], the wrap-around written out *)

Definition wrapu (w z : Z) : Z := z `mod` 2 ^ w.
Definition wraps (w z : Z) : Z := (z + 2 ^ (w - 1)) `mod` 2 ^ w - 2 ^ (w - 1).

Abbreviation u8 := (wrapu 8).
Abbreviation u32 := (wrapu 32).
Abbreviation u64 := (wrapu 64).
Abbreviation s32 := (wraps 32).
Abbreviation s64 := (wraps 64).

Definition INT_MIN : Z := - 2 ^ 31.
Definition INT_MAX : Z := 2 ^ 31 - 1.
Definition LONG_MIN : Z := - 2 ^ 63.
Definition LONG_MAX : Z := 2 ^ 63 - 1.

Lemma wrapu_small w z : 0 <= z < 2 ^ w -> wrapu w z = z.
Proof. apply Z.mod_small. Qed.

Lemma wrapu_range w z : 0 <= w -> 0 <= wrapu w z < 2 ^ w.
Proof. intros; apply Z.mod_pos_bound; lia. Qed.

Lemma pow_half w : 0 < w -> 2 ^ w = 2 * 2 ^ (w - 1).
Proof. intros. rewrite <- Z.pow_succ_r by lia. f_equal; lia. Qed.

Lemma wraps_small w z : 0 < w -> - 2 ^ (w - 1) <= z < 2 ^ (w - 1) -> wraps w z = z.
Proof.
  intros Hw Hz. unfold wraps. rewrite Z.mod_small; [lia|].
  rewrite (pow_half w Hw). lia.
Qed.

Lemma wraps_wrapu w z : 0 < w -> wraps w (wrapu w z) = wraps w z.
Proof.
  intros. unfold wraps, wrapu. rewrite Z.add_mod_idemp_l; [done|].
  apply Z.pow_nonzero; lia.
Qed.

Lemma s32_small z : INT_MIN <= z <= INT_MAX -> s32 z = z.
Proof. unfold INT_MIN, INT_MAX. intros. apply wraps_small; lia. Qed.

(** ** C strings *)

(** [s[0] == c] for a C string: the first byte, NUL for the empty string. *)
Definition first_char (s : string) : option Ascii.ascii :=
  match s with EmptyString => None | String c _ => Some c end.

Definition str_nonempty (s : string) : bool :=
  match s with EmptyString => false | _ => true end.

(** Bytes [n ..] of a string, and its first [n] bytes. *)
Fixpoint str_drop (n : nat) (s : string) : string :=
  match n, s with
  | O, _ => s
  | S n, EmptyString => EmptyString
  | S n, String _ s => str_drop n s
  end.

Fixpoint str_take (n : nat) (s : string) : string :=
  match n, s with
  | O, _ => EmptyString
  | S n, EmptyString => EmptyString
  | S n, String c s => String c (str_take n s)
  end.

(** What a [char buf[size]] holds after [snprintf (buf, size, "%s", s)] (or
    the [strlcpy] of [s] into it): at most [size - 1] bytes and a NUL. *)
Definition c_buf (size : nat) (s : string) : string := str_take (size - 1) s.

(** Concatenation with a separator, as [g_strjoinv] builds it. *)
Fixpoint join (sep : string) (l : list string) : string :=
  match l with
  | [] => EmptyString
  | [x] => x
  | x :: l => x +:+ sep +:+ join sep l
  end.

(** The byte [c] does not occur in [s]. *)
Definition str_free (c : ascii) (s : string) : Prop :=
  Forall (fun x => x <> c) (String.list_ascii_of_string s).

Definition NUL : ascii := "000".

(** The C string that starts a buffer: up to the first NUL. *)
Fixpoint c_str (s : string) : string :=
  match s with
  | EmptyString => EmptyString
  | String c s => if decide (c = NUL) then EmptyString else String c (c_str s)
  end.

(** [PATH_MAX] of Linux. *)
Definition PATH_MAX : nat := N.to_nat 4096.

(** The string in a [char buf[PATH_MAX]] fits it. *)
Definition path_ok (s : string) : Prop := (String.length s < PATH_MAX)%nat.

(** [strstr (hay, needle)]: offset of the first occurrence. *)
Fixpoint strstr (hay needle : string) : option nat :=
  if String.prefix needle hay then Some O
  else match hay with
       | EmptyString => None
       | String _ hay => S <$> strstr hay needle
       end.

(** [strcmp], up to the sign of its result: byte order, a proper prefix
    before the longer string. *)
Definition strcmp (a b : string) : Z :=
  match String.compare a b with Eq => 0 | Lt => -1 | Gt => 1 end.

Definition ascii_is_digit (c : Ascii.ascii) : bool :=
  let n := Ascii.N_of_ascii c in (48 <=? n)%N && (n <=? 57)%N.

Definition ascii_is_space (c : Ascii.ascii) : bool :=
  let n := Ascii.N_of_ascii c in (n =? 32)%N || ((9 <=? n)%N && (n <=? 13)%N).

Definition digit_val (c : Ascii.ascii) : Z := Z.of_N (Ascii.N_of_ascii c) - 48.

(** *** [strtol]/[strtoll] base 10, [atol], [atoi] (64-bit [long]) *)

(** Number of leading white-space bytes. *)
Fixpoint count_space (s : string) : nat :=
  match s with
  | String c s => if ascii_is_space c then S (count_space s) else O
  | EmptyString => O
  end.

(** Value of the leading digits, continuing from [acc], and their number. *)
Fixpoint scan_digits (acc : Z) (s : string) : Z * nat :=
  match s with
  | String c s' =>
      if ascii_is_digit c
      then let '(v, n) := scan_digits (acc * 10 + digit_val c) s' in (v, S n)
      else (acc, O)
  | EmptyString => (acc, O)
  end.

Definition scan_sign (s : string) : bool * nat * string :=
  match s with
  | String "-"%char s' => (true, 1%nat, s')
  | String "+"%char s' => (false, 1%nat, s')
  | _ => (false, O, s)
  end.

Record strtoll_result := StrtollResult {
  st_num : Z;        (* the returned number, saturated on overflow *)
  st_end : nat;      (* offset of [endptr]; 0 when no conversion was done *)
  st_erange : bool   (* errno is set to ERANGE *)
}.

Definition strtoll (s : string) : strtoll_result :=
  let k := count_space s in
  let '(neg, k1, s2) := scan_sign (str_drop k s) in
  let '(v, n) := scan_digits 0 s2 in
  match n with
  | O => StrtollResult 0 0 false
  | _ =>
      let v' := if neg : bool then - v else v in
      StrtollResult (Z.max LONG_MIN (Z.min LONG_MAX v')) (k + k1 + n)
        (negb ((LONG_MIN <=? v') && (v' <=? LONG_MAX)))
  end.

Definition atol (s : string) : Z := st_num (strtoll s).
Definition atoi (s : string) : Z := s32 (atol s).

(** [printf ("%d")]/[("%ld")] of an integer. *)
Definition fmt_d (z : Z) : string := pretty z.

(** ** Lemmas on strings *)

Lemma str_length_app a b : String.length (a +:+ b) = (String.length a + String.length b)%nat.
Proof. induction a; simpl; [done|]. unfold String.app in *; simpl. by rewrite IHa. Qed.

Lemma str_app_cons c a b : String c a +:+ b = String c (a +:+ b).
Proof. done. Qed.

Lemma str_app_nil_l b : EmptyString +:+ b = b.
Proof. done. Qed.

Lemma str_app_nil_r a : a +:+ EmptyString = a.
Proof. induction a; [done|]. by rewrite str_app_cons, IHa. Qed.

Lemma str_app_assoc a b c : (a +:+ b) +:+ c = a +:+ (b +:+ c).
Proof. induction a; [done|]. by rewrite !str_app_cons, IHa. Qed.

Lemma str_take_all n s : (String.length s <= n)%nat -> str_take n s = s.
Proof.
  revert n; induction s; intros [|n] H; simpl in *; try done; try lia.
  f_equal. apply IHs. lia.
Qed.

Lemma str_take_length_min n s : String.length (str_take n s) = Nat.min n (String.length s).
Proof. revert n; induction s; intros [|n]; simpl; try done. by rewrite IHs. Qed.

Lemma str_take_length n s : (String.length (str_take n s) <= n)%nat.
Proof. revert n; induction s; intros [|n]; simpl; try lia. specialize (IHs n); lia. Qed.

Lemma str_drop_app a b : str_drop (String.length a) (a +:+ b) = b.
Proof. induction a; [by destruct b|]. by rewrite str_app_cons. Qed.

Lemma str_take_app a b : str_take (String.length a) (a +:+ b) = a.
Proof. induction a; [by destruct b|]. rewrite str_app_cons; simpl. by rewrite IHa. Qed.

Lemma str_drop_length n s : String.length (str_drop n s) = (String.length s - n)%nat.
Proof. revert n; induction s; intros [|n]; simpl; try done. Qed.

Lemma str_take_drop n s : str_take n s +:+ str_drop n s = s.
Proof.
  revert n; induction s; intros [|n]; simpl; try done.
  by rewrite str_app_cons, IHs.
Qed.

Lemma c_buf_id s : path_ok s -> c_buf PATH_MAX s = s.
Proof. unfold path_ok, c_buf. intros. apply str_take_all. lia. Qed.

Lemma c_buf_path_ok s : path_ok (c_buf PATH_MAX s).
Proof.
  unfold path_ok, c_buf. pose proof (str_take_length (PATH_MAX - 1) s).
  assert (0 < PATH_MAX)%nat by (unfold PATH_MAX; lia). lia.
Qed.

Lemma str_take_app_le n a b : (n <= String.length a)%nat -> str_take n (a +:+ b) = str_take n a.
Proof.
  revert n. induction a as [|c a IH]; intros [|n] Hn; [done..|cbn in Hn; lia|done|].
  rewrite str_app_cons. cbn. f_equal. apply IH. cbn in Hn. lia.
Qed.

Lemma str_drop_app_le n a b : (n <= String.length a)%nat -> str_drop n (a +:+ b) = str_drop n a +:+ b.
Proof.
  revert n. induction a as [|c a IH]; intros [|n] Hn; [done..|cbn in Hn; lia|done|].
  rewrite str_app_cons. cbn. apply IH. cbn in Hn. lia.
Qed.

Lemma str_app_prefix a b c d : (String.length a <= String.length c)%nat -> a +:+ b = c +:+ d ->
  a = str_take (String.length a) c /\ b = str_drop (String.length a) c +:+ d.
Proof.
  intros Hl E. split.
  - rewrite <- (str_take_app_le (String.length a) c d), <- E by done. by rewrite str_take_app.
  - rewrite <- str_drop_app_le, <- E by done. by rewrite str_drop_app.
Qed.

Lemma str_drop_all n s : (String.length s <= n)%nat -> str_drop n s = EmptyString.
Proof.
  revert n. induction s as [|c s IH]; intros [|n] H; [done..|cbn in H; lia|]. cbn. apply IH. cbn in H. lia.
Qed.

Lemma prefix_app p s : String.prefix p (p +:+ s) = true.
Proof.
  induction p; [by destruct s|]. rewrite str_app_cons; simpl.
  destruct (Ascii.ascii_dec a a); [done|congruence].
Qed.

Lemma prefix_inv p s : String.prefix p s = true -> exists t, s = p +:+ t.
Proof.
  revert s; induction p as [|c p IH]; intros s H.
  - exists s. by rewrite str_app_nil_l.
  - destruct s as [|c' s]; simpl in H; [done|].
    destruct (Ascii.ascii_dec c c'); [subst|done].
    destruct (IH _ H) as [t ->]. exists t. by rewrite str_app_cons.
Qed.

(** [strstr] finds an occurrence and there is none before it. *)
Lemma strstr_Some hay n i :
  strstr hay n = Some i ->
  hay = str_take i hay +:+ n +:+ str_drop (i + String.length n) hay.
Proof.
  revert i; induction hay as [|c hay IH]; intros i H; cbn [strstr] in H.
  - by destruct n; simplify_eq/=.
  - destruct (String.prefix n (String c hay)) eqn:E.
    + simplify_eq. destruct (prefix_inv _ _ E) as [t Ht].
      rewrite Ht, Nat.add_0_l, str_drop_app. by destruct (n +:+ t).
    + destruct (strstr hay n) as [j|] eqn:Ej; simplify_eq/=.
      rewrite str_app_cons. f_equal. by apply IH.
Qed.

Lemma strstr_bound hay n i :
  strstr hay n = Some i -> (i + String.length n <= String.length hay)%nat.
Proof.
  revert i; induction hay as [|c hay IH]; intros i H; cbn [strstr] in H.
  - by destruct n; simplify_eq/=.
  - destruct (String.prefix n (String c hay)) eqn:E.
    + simplify_eq. destruct (prefix_inv _ _ E) as [t Ht].
      rewrite Ht, str_length_app. lia.
    + destruct (strstr hay n) as [j|] eqn:Ej; simplify_eq/=.
      specialize (IH _ eq_refl). lia.
Qed.

Lemma compare_refl a : String.compare a a = Eq.
Proof. induction a; simpl; [done|]. unfold Ascii.compare. by rewrite N.compare_refl. Qed.

(** Search for a single byte. *)
Lemma str_free_cons c c' s : str_free c (String c' s) <-> c' <> c /\ str_free c s.
Proof. unfold str_free. simpl. by rewrite Forall_cons. Qed.

Lemma str_free_app c a b : str_free c (a +:+ b) <-> str_free c a /\ str_free c b.
Proof.
  induction a as [|c' a IH].
  { rewrite str_app_nil_l. split; [by split; [constructor|]|by intros [_ ?]]. }
  rewrite str_app_cons, !str_free_cons, IH. tauto.
Qed.

Lemma c_str_free s : str_free NUL s -> c_str s = s.
Proof.
  induction s as [|c s IH]; [done|]. rewrite str_free_cons. intros [Hc Hs]. simpl.
  rewrite decide_False by done. by rewrite IH.
Qed.

Lemma c_str_cut a b : str_free NUL a -> c_str (a +:+ String NUL b) = a.
Proof.
  induction a as [|c a IH]; [by rewrite str_app_nil_l|].
  rewrite str_free_cons, str_app_cons. intros [Hc Hs]. simpl.
  rewrite decide_False by done. by rewrite IH.
Qed.

Lemma prefix_one c c' s : String.prefix (String c EmptyString) (String c' s) = bool_decide (c = c').
Proof. simpl. destruct (ascii_dec c c'); [rewrite bool_decide_eq_true_2|rewrite bool_decide_eq_false_2]; try done. by destruct s. Qed.

Lemma strstr_free c s : str_free c s -> strstr s (String c EmptyString) = None.
Proof.
  induction s as [|c' s IH]; [done|]. rewrite str_free_cons. intros [Hc Hs].
  cbn [strstr]. rewrite prefix_one, bool_decide_eq_false_2 by done. by rewrite IH.
Qed.

Lemma strstr_first c a b :
  str_free c a -> strstr (a +:+ String c b) (String c EmptyString) = Some (String.length a).
Proof.
  induction a as [|c' a IH].
  - intros _. rewrite str_app_nil_l. cbn [strstr]. by rewrite prefix_one, bool_decide_eq_true_2.
  - rewrite str_free_cons, str_app_cons. intros [Hc Hs].
    cbn [strstr]. rewrite prefix_one, bool_decide_eq_false_2 by done. by rewrite IH.
Qed.

(** The search for a byte splits the string at its first occurrence. *)

(** Search for a needle of two different bytes. *)
Lemma prefix_short n s t :
  (String.length n <= String.length s)%nat -> String.prefix n (s +:+ t) = String.prefix n s.
Proof.
  revert s. induction n as [|c n IH]; intros s Hl; [by destruct s, t|].
  destruct s as [|c' s]; [cbn in Hl; lia|]. rewrite str_app_cons. cbn. destruct (ascii_dec c c'); [|done].
  apply IH. cbn in Hl. lia.
Qed.

Lemma strstr_app_Some s t n i : strstr s n = Some i -> strstr (s +:+ t) n = Some i.
Proof.
  revert i. induction s as [|c s IH]; intros i H; pose proof (strstr_bound _ _ _ H) as Hb;
    rewrite ?str_app_cons; cbn [strstr] in H |- *.
  - destruct n; [|done]. injection H as <-. by destruct t.
  - rewrite <- str_app_cons, prefix_short by lia. destruct (String.prefix n (String c s)); [done|].
    destruct (strstr s n) as [j|]; [|done]. injection H as <-. by rewrite (IH j).
Qed.

Lemma strstr_two_app a b m r :
  a <> b -> strstr m (String a (String b EmptyString)) = None ->
  strstr (m +:+ String a (String b r)) (String a (String b EmptyString)) = Some (String.length m).
Proof.
  intros Hab. induction m as [|c m IH]; intros Hm.
  - rewrite str_app_nil_l. cbn. destruct (ascii_dec a a); [|done]. destruct (ascii_dec b b); [|done]. by destruct r.
  - cbn [strstr] in Hm. destruct (String.prefix _ (String c m)) eqn:E; [done|].
    rewrite str_app_cons. cbn [strstr String.length].
    destruct (strstr m _) eqn:Em; [done|]. rewrite IH by done.
    destruct (String.prefix _ (String c (m +:+ String a (String b r)))) eqn:E'; [|done]. exfalso.
    apply prefix_inv in E' as [u E']. injection E' as <- E'. destruct m as [|c' m].
    + injection E' as E' _. done.
    + injection E' as -> _. cbn in E. destruct (ascii_dec c c); [|done]. destruct (ascii_dec b b); [|done]. by destruct m.
Qed.

Lemma strstr_split c s :
  match strstr s (String c EmptyString) with
  | Some i => exists a b, s = a +:+ String c b /\ str_free c a /\ i = String.length a
  | None => str_free c s
  end.
Proof.
  induction s as [|c' s IH]; [constructor|]. cbn [strstr]. rewrite prefix_one.
  case_bool_decide as E.
  - subst. exists EmptyString, s. split_and!; [done|constructor|done].
  - destruct (strstr s (String c EmptyString)) as [i|]; cbn.
    + destruct IH as (a & b & -> & Ha & ->). exists (String c' a), b.
      rewrite str_free_cons. split_and!; [done|done|done|done].
    + by apply str_free_cons.
Qed.

Lemma strcmp_eq a b : strcmp a b = 0 <-> a = b.
Proof.
  unfold strcmp. split.
  - destruct (String.compare a b) eqn:E; intros; simplify_eq.
    by apply String.compare_eq_iff.
  - intros ->. by rewrite compare_refl.
Qed.

Lemma strcmp_antisym a b : strcmp b a = - strcmp a b.
Proof. unfold strcmp. rewrite String.compare_antisym. by destruct (String.compare a b). Qed.

(** ** Printing and reading decimal numbers *)

Lemma pretty_N_char_digit x :
  (x < 10)%N -> ascii_is_digit (pretty_N_char x) = true /\ digit_val (pretty_N_char x) = Z.of_N x.
Proof.
  intros H. destruct x as [|p]; [done|].
  do 4 (destruct p as [p|p|]; try lia; try done).
Qed.

Lemma scan_digits_pretty_go y s :
  scan_digits 0 (pretty_N_go y s) =
    (fst (scan_digits (Z.of_N y) s),
     (String.length (pretty_N_go y s) - String.length s + snd (scan_digits (Z.of_N y) s))%nat)
  /\ (String.length s <= String.length (pretty_N_go y s))%nat.
Proof.
  revert s. induction (N.lt_wf_0 y) as [y _ IH]. intros s.
  destruct (decide (y = 0%N)) as [->|Hy].
  - rewrite pretty_N_go_0, Nat.sub_diag. simpl. by destruct (scan_digits 0 s).
  - rewrite pretty_N_go_step by lia.
    pose proof (N.mod_lt y 10 ltac:(lia)) as Hm.
    destruct (pretty_N_char_digit _ Hm) as [Hd Hv].
    assert (y `div` 10 < y)%N as Hlt by (apply N.div_lt; lia).
    destruct (IH _ Hlt (String (pretty_N_char (y `mod` 10)) s)) as [IH1 IH2].
    rewrite IH1. simpl in *. rewrite Hd, Hv.
    replace (Z.of_N (y `div` 10) * 10 + Z.of_N (y `mod` 10)) with (Z.of_N y).
    2: { pose proof (N.div_mod y 10 ltac:(lia)). lia. }
    destruct (scan_digits (Z.of_N y) s); simpl. split; [f_equal|]; lia.
Qed.

Lemma scan_digits_pretty_pos p :
  scan_digits 0 (pretty (Npos p)) = (Zpos p, String.length (pretty (Npos p)))
  /\ (0 < String.length (pretty (Npos p)))%nat.
Proof.
  unfold pretty, pretty_N. rewrite decide_False by done.
  destruct (scan_digits_pretty_go (Npos p) EmptyString) as [-> _]. simpl.
  rewrite Nat.sub_0_r, Nat.add_0_r. split; [done|].
  rewrite pretty_N_go_step by lia.
  pose proof (scan_digits_pretty_go (Npos p `div` 10)
    (String (pretty_N_char (N.pos p `mod` 10)) EmptyString)) as [_ H]. simpl in H. lia.
Qed.

Lemma scan_digits_all acc s :
  snd (scan_digits acc s) = String.length s ->
  Forall (fun c => ascii_is_digit c = true) (String.list_ascii_of_string s).
Proof.
  revert acc. induction s as [|c s IH]; intros acc H; [constructor|].
  simpl in *. destruct (ascii_is_digit c) eqn:E; [|done].
  destruct (scan_digits (acc * 10 + digit_val c) s) eqn:E2. simpl in *.
  constructor; [done|]. apply (IH (acc * 10 + digit_val c)). rewrite E2; simpl. lia.
Qed.

Lemma pretty_N_go_length k x s :
  (x < 10 ^ N.of_nat k)%N -> (String.length (pretty_N_go x s) <= k + String.length s)%nat.
Proof.
  revert x s. induction k as [|k IH]; intros x s Hx.
  - simpl in Hx. replace x with 0%N by lia. rewrite pretty_N_go_0. lia.
  - destruct (decide (x = 0%N)) as [->|Hx0]; [rewrite pretty_N_go_0; lia|].
    rewrite pretty_N_go_step by lia. etransitivity; [apply IH|simpl; lia].
    apply N.Div0.div_lt_upper_bound. rewrite Nat2N.inj_succ, N.pow_succ_r' in Hx. lia.
Qed.

(** At most [k] digits and a sign. *)
Lemma fmt_d_length z k :
  -10 ^ Z.of_nat k < z < 10 ^ Z.of_nat k -> (String.length (fmt_d z) <= S (S k))%nat.
Proof.
  intros Hz. assert (forall p, Z.pos p < 10 ^ Z.of_nat k -> (String.length (pretty (N.pos p)) <= S k)%nat) as Hp.
  { intros p Hlt. unfold pretty, pretty_N. rewrite decide_False by done.
    etransitivity; [apply (pretty_N_go_length k)|simpl; lia].
    apply N2Z.inj_lt. rewrite N2Z.inj_pow, nat_N_Z. exact Hlt. }
  unfold fmt_d, pretty, pretty_Z. destruct z as [|p|p]; [simpl; lia|..].
  - etransitivity; [apply Hp; lia|lia].
  - specialize (Hp p ltac:(lia)). change (String.length ("-" +:+ pretty (N.pos p)) <= S (S k))%nat.
    rewrite str_length_app. simpl. lia.
Qed.

Lemma fmt_d_digits z :
  0 <= z -> Forall (fun c => ascii_is_digit c = true) (String.list_ascii_of_string (fmt_d z)).
Proof.
  intros Hz. destruct z as [|p|p]; [by repeat constructor| |lia].
  apply (scan_digits_all 0). apply (f_equal snd (proj1 (scan_digits_pretty_pos p))).
Qed.

Lemma fmt_d_free c z : 0 <= z -> ascii_is_digit c = false -> str_free c (fmt_d z).
Proof.
  intros Hz Hc. unfold str_free. eapply Forall_impl; [by apply fmt_d_digits|].
  intros x Hx ->. congruence.
Qed.

Lemma digit_not_space_sign c :
  ascii_is_digit c = true -> ascii_is_space c = false /\ forall s, scan_sign (String c s) = (false, O, String c s).
Proof. by destruct c as [[] [] [] [] [] [] [] []]. Qed.

Lemma pretty_pos_first p :
  exists c s, pretty (Npos p) = String c s /\ ascii_is_digit c = true.
Proof.
  destruct (scan_digits_pretty_pos p) as [H Hl].
  destruct (pretty (Npos p)) as [|c s]; simpl in *; [lia|].
  exists c, s. split; [done|]. destruct (ascii_is_digit c); [done|].
  simplify_eq/=.
Qed.

(** Reading back a printed 64-bit integer consumes all of it and gives the
    integer. *)
Lemma strtoll_fmt_d z :
  LONG_MIN <= z <= LONG_MAX ->
  strtoll (fmt_d z) = StrtollResult z (String.length (fmt_d z)) false
  /\ (0 < String.length (fmt_d z))%nat.
Proof.
  intros Hz. unfold fmt_d, pretty, pretty_Z. destruct z as [|p|p].
  - split; [vm_compute; done|simpl; lia].
  - change (pretty p) with (pretty (Npos p)).
    destruct (scan_digits_pretty_pos p) as [H Hl]. split; [|done].
    destruct (pretty_pos_first p) as (c & s & E & Hc). rewrite E in *.
    destruct (digit_not_space_sign c Hc) as [Hs Hg].
    unfold strtoll. simpl count_space. rewrite Hs. simpl str_drop.
    rewrite Hg, H. simpl. f_equal; lia.
  - change (pretty p) with (pretty (Npos p)).
    destruct (scan_digits_pretty_pos p) as [H Hl]. split; [|simpl; lia].
    unfold strtoll.
    change (count_space _) with O. cbn [str_drop].
    change (scan_sign _) with (true, 1%nat, pretty (Npos p)). cbv iota beta. rewrite H.
    change (String.length ("-" +:+ _)) with (S (String.length (pretty (Npos p)))).
    destruct (String.length (pretty (Npos p))) as [|n] eqn:E; [lia|].
    f_equal; lia.
Qed.

Lemma atoi_fmt_d z : INT_MIN <= z <= INT_MAX -> atoi (fmt_d z) = z.
Proof.
  intros H. unfold atoi, atol.
  rewrite (proj1 (strtoll_fmt_d z ltac:(unfold INT_MIN, INT_MAX, LONG_MIN, LONG_MAX in *; lia))).
  by apply s32_small.
Qed.

#[export] Hint Rewrite str_app_nil_l str_app_nil_r str_app_assoc str_length_app : cc.
#[export] Hint Resolve c_buf_path_ok : cc.

(** ** Lists *)

Lemma forallb_Forall {A} (f : A -> bool) l : forallb f l = true -> Forall (fun x => f x = true) l.
Proof. induction l as [|x l IH]; [constructor|]. cbn. intros [H1 H2]%andb_prop. constructor; auto. Qed.

Lemma Forall_filter_keep {A} (P Q : A -> Prop) `{forall x, Decision (Q x)} l :
  Forall P l -> Forall P (filter Q l).
Proof. rewrite !Forall_forall. intros H1 x [_ Hx]%list_elem_of_filter. auto. Qed.
