(* ===== verification/GLib.v ===== *)
(** * The libraries the program calls: GLib and JSON-GLib

    Their code is not part of the repository.  The string routines are the
    operations of the class [GLib]; each comes with the documented behaviour
    the program relies on as a law of the class, so every theorem of the
    development holds for any library that satisfies them.  [glib_ref] is a
    small executable instance: it shows that the laws can hold and lets the
    witnesses evaluate (file GLibRef).

    JSON values and the GNode trees built from them are plain data. *)

From S2P Require Import Prelude.
From Stdlib Require Import SpecFloat.

Set Warnings "-register-all".

Create Rewrite HintDb glib.

(** ** JSON-GLib values *)

(** A [JsonNode]; the members of an object are kept in insertion order, as
    [json_object_get_members] returns them. *)
Inductive json : Type :=
| JNull
| JBool (b : bool)
| JInt (z : Z)
| JDouble (d : spec_float)
| JString (s : string)
| JArray (l : list json)
| JObject (m : list (string * json)).

(** [json_object_set_member]: overwrite the member, or add it last. *)
Fixpoint json_object_set_member (m : list (string * json)) (k : string) (v : json)
    : list (string * json) :=
  match m with
  | [] => [(k, v)]
  | (k', v') :: m' =>
      if decide (k = k') then (k', v) :: m' else (k', v') :: json_object_set_member m' k v
  end.

Lemma set_member_fresh m k v : k ∉ m.*1 -> json_object_set_member m k v = m ++ [(k, v)].
Proof.
  induction m as [|[k' v'] m IH]; [done|]. simpl. rewrite not_elem_of_cons. intros [Hne Hm].
  rewrite decide_False by done. by rewrite IH.
Qed.

(** The typed setters: a [NULL] string or object is stored as JSON null. *)
Definition json_of_cstr (s : cstr) : json :=
  match s with Some s => JString s | None => JNull end.

Definition json_object_set_string_member m k (s : cstr) := json_object_set_member m k (json_of_cstr s).
Definition json_object_set_int_member m k (z : Z) := json_object_set_member m k (JInt z).
Definition json_object_set_boolean_member m k (b : bool) := json_object_set_member m k (JBool b).
Definition json_object_set_object_member m k (o : option (list (string * json))) :=
  json_object_set_member m k (match o with Some o => JObject o | None => JNull end).
Definition json_object_set_array_member m k (a : list json) := json_object_set_member m k (JArray a).

(** [json_reader_read_member (reader, k)] from the node [j]; the reader has no
    node when the document is empty. *)
Definition json_read_member (j : option json) (k : string) : option json :=
  match j with
  | Some (JObject m) => snd <$> List.find (fun kv => bool_decide (fst kv = k)) m
  | _ => None
  end.

(** ** GNode trees *)

Inductive gnode : Type :=
| GNode (data : cstr) (children : list gnode).

Definition gn_data (n : gnode) : cstr := let '(GNode d _) := n in d.
Definition gn_children (n : gnode) : list gnode := let '(GNode _ c) := n in c.

(** [node->children && node->children->data], the first child's data. *)
Definition first_child_data (n : gnode) : cstr :=
  match gn_children n with [] => None | c :: _ => gn_data c end.

(** ** Strings: the operations used and their documented behaviour *)

(** [strcmp] extended to NULL, which sorts first. *)
Definition strcmp_null (a b : cstr) : Z :=
  match a, b with
  | None, None => 0
  | None, Some _ => -1
  | Some _, None => 1
  | Some a, Some b => strcmp a b
  end.

Definition is_ascii (s : string) : Prop :=
  Forall (fun c => (N_of_ascii c < 128)%N) (String.list_ascii_of_string s).

(** Bytes that start a UTF-8 character (those that are not [10xxxxxx]). *)
Definition utf8_starts (s : string) : list ascii :=
  List.filter (fun c => negb ((128 <=? N_of_ascii c)%N && (N_of_ascii c <? 192)%N))
    (String.list_ascii_of_string s).

(** The white space [g_ascii_isspace] recognises: blank, tab, newline, form
    feed and carriage return. *)
Definition glib_space (c : ascii) : bool :=
  bool_decide (c ∈ [" "; "009"; "010"; "012"; "013"])%char.

(** A string without the leading, and without the trailing, characters of [p]. *)
Fixpoint str_chug (p : ascii -> bool) (s : string) : string :=
  match s with
  | EmptyString => EmptyString
  | String c s' => if p c then str_chug p s' else s
  end.

Fixpoint str_chomp (p : ascii -> bool) (s : string) : string :=
  match s with
  | EmptyString => EmptyString
  | String c s' =>
      match str_chomp p s' with
      | EmptyString => if p c then EmptyString else String c EmptyString
      | t => String c t
      end
  end.

(** The last occurrence of [needle]. *)
Fixpoint strrstr (hay needle : string) : option nat :=
  match hay with
  | EmptyString => if String.prefix needle hay then Some O else None
  | String _ hay' =>
      match strrstr hay' needle with
      | Some i => Some (S i)
      | None => if String.prefix needle hay then Some O else None
      end
  end.

Fixpoint str_map (f : ascii -> ascii) (s : string) : string :=
  match s with EmptyString => EmptyString | String c s => String (f c) (str_map f s) end.

Class GLib := {
  (** [g_strcmp0] *)
  g_strcmp0 : cstr -> cstr -> Z;
  (** [g_str_has_prefix (str, prefix)] *)
  g_str_has_prefix : string -> string -> bool;
  (** [g_strstr_len (haystack, len, needle)], a pointer as an offset *)
  g_strstr_len : string -> Z -> string -> option nat;
  (** [g_strsplit (string, delimiter, max_tokens)] *)
  g_strsplit : string -> string -> Z -> list string;
  (** [g_ascii_strtoll (nptr, &endptr, 10)] *)
  g_ascii_strtoll : string -> strtoll_result;
  (** [g_ascii_isdigit], [g_ascii_isspace] *)
  g_ascii_isdigit : ascii -> bool;
  g_ascii_isspace : ascii -> bool;
  (** [g_strstrip], on a copy *)
  g_strstrip : string -> string;
  (** [g_strrstr (haystack, needle)] *)
  g_strrstr : string -> string -> option nat;
  (** [g_strsplit_set (string, delimiters, max_tokens)] *)
  g_strsplit_set : string -> string -> Z -> list string;
  (** [g_strdelimit (string, delimiters, new)], on a copy *)
  g_strdelimit : string -> string -> ascii -> string;
  g_path_is_absolute : string -> bool;
  g_path_get_basename : string -> string;
  (** [g_utf8_strlen (p, max)] *)
  g_utf8_strlen : string -> Z -> Z;
  g_utf8_validate : string -> bool;
  (** [g_build_path ("/", first, second, NULL)] *)
  g_build_path : string -> string -> string;
  (** [g_path_get_dirname] *)
  g_path_get_dirname : string -> string;
  (** [g_snprintf (buffer, n, "%f", d)] without the truncation *)
  g_fmt_f : spec_float -> string;
  (** [json_generator_to_data] with the "pretty" property *)
  json_generator_to_data : json -> bool -> string;
  (** [json_parser_load_from_data] and [json_parser_get_root]: [None] on a
      parse error, an empty document has no root *)
  json_parser_load_from_data : string -> option (option json);
  (** [json_reader_get_boolean_value], [json_reader_get_int_value] *)
  json_get_boolean : json -> bool;
  json_get_int : json -> Z;

  g_strcmp0_spec a b : Z.sgn (g_strcmp0 a b) = strcmp_null a b;
  g_str_has_prefix_spec s p : g_str_has_prefix s p = String.prefix p s;
  g_strstr_len_spec h n : g_strstr_len h (-1) n = strstr h n;
  g_strstr_len_long h len n : Z.of_nat (String.length h) <= len -> g_strstr_len h len n = strstr h n;
  g_strsplit_empty d n : g_strsplit EmptyString d n = [];
  g_strsplit_last s d n :
    s <> EmptyString -> n = 1 \/ strstr s d = None -> g_strsplit s d n = [s];
  g_strsplit_cons s d n i :
    n <> 1 -> d <> EmptyString -> strstr s d = Some i ->
    let rest := str_drop (i + String.length d) s in
    g_strsplit s d n =
      str_take i s ::
        (if decide (rest = EmptyString) then [EmptyString] else g_strsplit rest d (n - 1));
  g_ascii_strtoll_spec s : g_ascii_strtoll s = strtoll s;
  g_ascii_isdigit_spec c : g_ascii_isdigit c = ascii_is_digit c;
  g_ascii_isspace_spec c : g_ascii_isspace c = glib_space c;
  g_strstrip_spec s : g_strstrip s = str_chomp glib_space (str_chug glib_space s);
  g_strrstr_spec h n : g_strrstr h n = strrstr h n;
  g_strsplit_set_spec s c n : g_strsplit_set s (String c EmptyString) n = g_strsplit s (String c EmptyString) n;
  g_strdelimit_spec s c new :
    g_strdelimit s (String c EmptyString) new = str_map (fun d => if decide (d = c) then new else d) s;
  g_path_is_absolute_spec s : g_path_is_absolute s = bool_decide (first_char s = Some "/"%char);
  g_utf8_validate_ascii s : is_ascii s -> g_utf8_validate s = true;
  g_utf8_strlen_spec s max :
    g_utf8_validate s = true -> max < 0 \/ Z.of_nat (String.length s) <= max ->
    g_utf8_strlen s max = Z.of_nat (length (utf8_starts s));
  json_get_boolean_spec b : json_get_boolean (JBool b) = b;
  json_get_int_spec z : json_get_int (JInt z) = z;
  g_build_path_spec a b :
    a <> EmptyString -> b <> EmptyString ->
    (forall a', a <> a' +:+ "/") -> (forall b', b <> "/" +:+ b') ->
    g_build_path a b = a +:+ "/" +:+ b
}.

(** [g_strcmp0 (a, b) == 0], the test the program uses for string equality. *)
Definition g_streq `{GLib} (a b : cstr) : bool := bool_decide (g_strcmp0 a b = 0).

Section glib_facts.
Context `{GL : GLib}.

Lemma strcmp_null_eq a b : strcmp_null a b = 0 <-> a = b.
Proof.
  destruct a as [a|], b as [b|]; simpl; try naive_solver.
  rewrite strcmp_eq. naive_solver.
Qed.

Lemma g_strcmp0_eq a b : g_strcmp0 a b = 0 <-> a = b.
Proof. rewrite <- strcmp_null_eq, <- g_strcmp0_spec. lia. Qed.

Lemma g_streq_spec a b : g_streq a b = bool_decide (a = b).
Proof. unfold g_streq. apply bool_decide_ext, g_strcmp0_eq. Qed.

Lemma g_streq_refl a : g_streq a a = true.
Proof. rewrite g_streq_spec. by apply bool_decide_eq_true. Qed.

Lemma g_streq_lit (a b : string) : g_streq (Some a) (Some b) = bool_decide (a = b).
Proof. rewrite g_streq_spec. apply bool_decide_ext. naive_solver. Qed.

Lemma g_streq_null_l (b : string) : g_streq None (Some b) = false.
Proof. rewrite g_streq_spec. by apply bool_decide_eq_false. Qed.

Lemma g_streq_null_r (a : string) : g_streq (Some a) None = false.
Proof. rewrite g_streq_spec. by apply bool_decide_eq_false. Qed.

(** Splitting a string whose tokens do not contain the delimiter. *)
Lemma utf8_starts_ascii s : is_ascii s -> length (utf8_starts s) = String.length s.
Proof.
  unfold is_ascii, utf8_starts. induction s as [|c s IH]; [done|]. simpl.
  rewrite Forall_cons. intros [Hc Hs]. destruct (N.leb_spec 128 (N_of_ascii c)); [lia|].
  simpl. f_equal. auto.
Qed.

Lemma g_utf8_strlen_ascii s max :
  is_ascii s -> max < 0 \/ Z.of_nat (String.length s) <= max ->
  g_utf8_strlen s max = Z.of_nat (String.length s).
Proof.
  intros Hs Hm. rewrite g_utf8_strlen_spec by (auto using g_utf8_validate_ascii).
  by rewrite utf8_starts_ascii.
Qed.

Lemma g_strsplit_step c a b n :
  n <> 1 -> str_free c a -> b <> EmptyString ->
  g_strsplit (a +:+ String c b) (String c EmptyString) n = a :: g_strsplit b (String c EmptyString) (n - 1).
Proof.
  intros Hn Ha Hb. pose proof (strstr_first c a b Ha) as Hs.
  rewrite (g_strsplit_cons (a +:+ String c b) (String c EmptyString) n _ Hn ltac:(done) Hs). cbn [String.length].
  rewrite str_take_app.
  replace (str_drop (String.length a + 1) (a +:+ String c b)) with b.
  - by rewrite decide_False.
  - change (a +:+ String c b) with (a +:+ (String c EmptyString +:+ b)).
    rewrite <- str_app_assoc, Nat.add_comm.
    replace (1 + String.length a)%nat with (String.length (a +:+ String c EmptyString)).
    + by rewrite str_drop_app.
    + rewrite str_length_app. simpl. lia.
Qed.

Lemma g_strsplit_join c l n :
  n < 1 -> l <> [] -> Forall (fun s => s <> EmptyString /\ str_free c s) l ->
  g_strsplit (join (String c EmptyString) l) (String c EmptyString) n = l.
Proof.
  revert n. induction l as [|x l IH]; intros n Hn Hl Hf; [done|].
  apply Forall_cons in Hf as [[Hx Hxc] Hf]. destruct l as [|y l].
  - apply g_strsplit_last; [done|]. right. by apply strstr_free.
  - change (join (String c EmptyString) (x :: y :: l))
      with (x +:+ String c (join (String c EmptyString) (y :: l))).
    rewrite g_strsplit_step; [f_equal; apply IH; [lia|done..]|lia|done|].
    apply Forall_cons in Hf as [[Hy _] _]. destruct l; [done|].
    destruct y; done.
Qed.

End glib_facts.

#[export] Hint Rewrite @g_streq_refl @g_streq_lit @g_streq_null_l @g_streq_null_r : glib.
