(* ===== verification/GLibRef.v ===== *)
(** * An executable instance of the library interface

    [glib_ref] implements the operations of [GLib] by small functions and
    proves the laws: the interface is satisfiable, and the witnesses of the
    development evaluate with it.  The JSON text it produces is not JSON but
    an encoding with a decoder ([json_decode]); only the fact that a written
    value is read back is used of it. *)

From stdpp Require Import countable.
From S2P Require Import Prelude GLib.
From Stdlib Require Import SpecFloat.

(** ** [g_strsplit] *)

(** Every step consumes the delimiter, so the length of the string bounds the
    number of steps. *)
Fixpoint strsplit_go (fuel : nat) (s d : string) (n : Z) : list string :=
  match fuel with
  | O => [s]
  | S fuel =>
      if decide (n = 1) then [s]
      else match strstr s d with
           | None => [s]
           | Some i => str_take i s :: strsplit_go fuel (str_drop (i + String.length d) s) d (n - 1)
           end
  end.

Definition strsplit (s d : string) (n : Z) : list string :=
  match s with EmptyString => [] | _ => strsplit_go (S (String.length s)) s d n end.

Lemma strsplit_go_fuel f1 f2 s d n :
  d <> EmptyString -> (String.length s < f1)%nat -> (String.length s < f2)%nat ->
  strsplit_go f1 s d n = strsplit_go f2 s d n.
Proof.
  intros Hd. revert f2 s n. induction f1 as [|f1 IH]; intros [|f2] s n H1 H2; try lia.
  cbn [strsplit_go]. destruct (decide (n = 1)); [done|].
  destruct (strstr s d) as [i|] eqn:E; [|done]. f_equal.
  pose proof (strstr_bound _ _ _ E).
  assert (0 < String.length d)%nat by (destruct d; simpl; [done|lia]).
  apply IH; rewrite str_drop_length; lia.
Qed.

Lemma strsplit_cons s d n i :
  n <> 1 -> d <> EmptyString -> strstr s d = Some i ->
  let rest := str_drop (i + String.length d) s in
  strsplit s d n =
    str_take i s :: (if decide (rest = EmptyString) then [EmptyString] else strsplit rest d (n - 1)).
Proof.
  intros Hn Hd Hi rest. unfold strsplit at 1.
  destruct s as [|c s']; [by destruct d|]. remember (String c s') as s eqn:Es.
  cbn [strsplit_go]. rewrite decide_False by done. rewrite Hi. fold rest. f_equal.
  pose proof (strstr_bound _ _ _ Hi) as Hb.
  assert (0 < String.length d)%nat by (destruct d; simpl; [done|lia]).
  assert (String.length rest < String.length s)%nat as Hl by (unfold rest; rewrite str_drop_length; lia).
  destruct (decide (rest = EmptyString)) as [->|Hr].
  - rewrite Es; cbn [String.length strsplit_go]. destruct (decide (n - 1 = 1)); [done|].
    by destruct d.
  - unfold strsplit. destruct rest as [|c0 r0]; [done|]. apply strsplit_go_fuel; [done|lia..].
Qed.

(** ** UTF-8 *)

Definition is_cont (b : N) : bool := (128 <=? b)%N && (b <? 192)%N.

Fixpoint utf8_ok (l : list N) : bool :=
  match l with
  | [] => true
  | b :: l1 =>
      if (b <? 128)%N then utf8_ok l1
      else if (b <? 194)%N then false
      else if (b <? 224)%N then
        match l1 with c1 :: l2 => is_cont c1 && utf8_ok l2 | _ => false end
      else if (b <? 240)%N then
        match l1 with c1 :: c2 :: l3 => is_cont c1 && is_cont c2 && utf8_ok l3 | _ => false end
      else if (b <? 245)%N then
        match l1 with
        | c1 :: c2 :: c3 :: l4 => is_cont c1 && is_cont c2 && is_cont c3 && utf8_ok l4
        | _ => false end
      else false
  end.

Definition utf8_validate (s : string) : bool :=
  utf8_ok (N_of_ascii <$> String.list_ascii_of_string s).

Lemma utf8_validate_ascii s : is_ascii s -> utf8_validate s = true.
Proof.
  unfold is_ascii, utf8_validate.
  induction (String.list_ascii_of_string s) as [|c l IH]; intros H; [done|].
  apply Forall_cons in H as [Hc H]. simpl.
  destruct (N.ltb_spec (N_of_ascii c) 128); [by apply IH|lia].
Qed.

(** ** JSON encoding, through stdpp's countable trees *)

Fixpoint json_to_tree (j : json) : gen_tree (string + Z) :=
  match j with
  | JNull => GenNode 0 []
  | JBool b => GenNode 1 [GenLeaf (inr (if b then 1 else 0))]
  | JInt z => GenLeaf (inr z)
  | JDouble _ => GenNode 2 []
  | JString s => GenLeaf (inl s)
  | JArray l => GenNode 3 (json_to_tree <$> l)
  | JObject m => GenNode 4 ((fun '(k, v) => GenNode 5 [GenLeaf (inl k); json_to_tree v]) <$> m)
  end.

Fixpoint json_of_tree (t : gen_tree (string + Z)) : json :=
  match t with
  | GenLeaf (inr z) => JInt z
  | GenLeaf (inl s) => JString s
  | GenNode 1 [GenLeaf (inr z)] => JBool (bool_decide (z = 1))
  | GenNode 3 l => JArray (json_of_tree <$> l)
  | GenNode 4 l =>
      JObject ((fun t => match t with
                         | GenNode 5 [GenLeaf (inl k); v] => (k, json_of_tree v)
                         | _ => (EmptyString, JNull)
                         end) <$> l)
  | _ => JNull
  end.

Fixpoint pos_to_bits (p : positive) : string :=
  match p with
  | xH => EmptyString
  | xO p => String "0" (pos_to_bits p)
  | xI p => String "1" (pos_to_bits p)
  end.

Fixpoint pos_of_bits (s : string) : positive :=
  match s with
  | String "0" s => xO (pos_of_bits s)
  | String _ s => xI (pos_of_bits s)
  | EmptyString => xH
  end.

Lemma pos_of_to_bits p : pos_of_bits (pos_to_bits p) = p.
Proof. induction p; simpl; by f_equal. Qed.

Definition json_encode (j : json) : string := pos_to_bits (encode (json_to_tree j)).
Definition json_decode (s : string) : option json := json_of_tree <$> decode (pos_of_bits s).

(** Induction on JSON values with hypotheses for the elements of arrays and
    the members of objects. *)
Section json_ind.
Variable P : json -> Prop.
Hypothesis Hnull : P JNull.
Hypothesis Hbool : forall b, P (JBool b).
Hypothesis Hint : forall z, P (JInt z).
Hypothesis Hdouble : forall d, P (JDouble d).
Hypothesis Hstring : forall s, P (JString s).
Hypothesis Harray : forall l, Forall P l -> P (JArray l).
Hypothesis Hobject : forall m, Forall (fun kv => P (snd kv)) m -> P (JObject m).

Fixpoint json_ind' (j : json) : P j :=
  match j with
  | JNull => Hnull
  | JBool b => Hbool b
  | JInt z => Hint z
  | JDouble d => Hdouble d
  | JString s => Hstring s
  | JArray l => Harray l ((fix go l : Forall P l := match l with
      | [] => List.Forall_nil _
      | j :: l => List.Forall_cons _ _ _ (json_ind' j) (go l) end) l)
  | JObject m => Hobject m ((fix go m : Forall (fun kv => P (snd kv)) m := match m with
      | [] => List.Forall_nil _
      | (k, j) :: m => List.Forall_cons _ (k, j) _ (json_ind' j) (go m) end) m)
  end.
End json_ind.

Fixpoint json_no_double (j : json) : bool :=
  match j with
  | JDouble _ => false
  | JArray l => forallb json_no_double l
  | JObject m => forallb (fun kv => json_no_double (snd kv)) m
  | _ => true
  end.

Lemma json_of_to_tree j : json_no_double j = true -> json_of_tree (json_to_tree j) = j.
Proof.
  induction j as [|[]| | | |l IH|m IH] using json_ind'; simpl; intros H; try done; f_equal.
  - induction IH as [|j l Hj _ IHl]; [done|]. simpl in *.
    apply andb_prop in H as [H1 H2]. f_equal; auto.
  - induction IH as [|[k j] m Hj _ IHm]; [done|]. simpl in *.
    apply andb_prop in H as [H1 H2]. f_equal; [f_equal; auto|auto].
Qed.

Lemma json_decode_encode j : json_no_double j = true -> json_decode (json_encode j) = Some j.
Proof.
  intros H. unfold json_decode, json_encode. rewrite pos_of_to_bits, decode_encode. simpl.
  by rewrite json_of_to_tree.
Qed.

(** ** Paths *)

Fixpoint ends_with_slash (s : string) : bool :=
  match s with
  | EmptyString => false
  | String "/" EmptyString => true
  | String _ s => ends_with_slash s
  end.

Lemma ends_with_slash_false a : (forall a', a <> a' +:+ "/") -> ends_with_slash a = false.
Proof.
  induction a as [|c a IH]; intros H; [done|].
  assert (ends_with_slash a = false) as Ha.
  { apply IH. intros a' ->. by apply (H (String c a')). }
  destruct a as [|c' a]; [|by destruct c as [[] [] [] [] [] [] [] []]].
  destruct (decide (c = "/"%char)) as [->|Hc]; [by destruct (H EmptyString)|].
  destruct c as [[] [] [] [] [] [] [] []]; try done.
Qed.

Definition build_path (a b : string) : string :=
  if ends_with_slash a then a +:+ b else a +:+ "/" +:+ b.

(** The part before the last slash, or ["."]. *)
Fixpoint dirname_go (acc : cstr) (seen s : string) : string :=
  match s with
  | EmptyString => default "." acc
  | String c s' =>
      dirname_go (if decide (c = "/"%char) then Some seen else acc) (seen +:+ String c EmptyString) s'
  end.

Definition path_get_dirname (s : string) : string := dirname_go None EmptyString s.

(** The part after the last slash. *)
Definition path_get_basename (s : string) : string :=
  match strrstr s "/" with None => s | Some i => str_drop (S i) s end.

#[export, refine] Instance glib_ref : GLib := {
  g_strcmp0 := strcmp_null;
  g_str_has_prefix s p := String.prefix p s;
  g_strstr_len h _ n := strstr h n;
  g_strsplit := strsplit;
  g_ascii_strtoll := strtoll;
  g_ascii_isdigit := ascii_is_digit;
  g_ascii_isspace := glib_space;
  g_strstrip s := str_chomp glib_space (str_chug glib_space s);
  g_strrstr := strrstr;
  g_strsplit_set := strsplit;
  g_strdelimit s d new := str_map (fun c => if decide (first_char d = Some c) then new else c) s;
  g_path_is_absolute s := bool_decide (first_char s = Some "/"%char);
  g_path_get_basename := path_get_basename;
  g_utf8_strlen s _ := Z.of_nat (length (utf8_starts s));
  g_utf8_validate := utf8_validate;
  g_build_path := build_path;
  g_path_get_dirname := path_get_dirname;
  g_fmt_f _ := "0.000000";
  json_generator_to_data j _ := json_encode j;
  json_parser_load_from_data s := Some <$> json_decode s;
  json_get_boolean j := match j with JBool b => b | _ => false end;
  json_get_int j := match j with JInt z => z | _ => 0 end
}.
Proof.
  - intros [a|] [b|]; simpl; try done. unfold strcmp. by destruct (String.compare a b).
  - done.
  - done.
  - done.
  - done.
  - intros s d n Hs H. unfold strsplit. destruct s; [done|]. cbn [strsplit_go].
    destruct (decide (n = 1)); [done|]. destruct H as [?| ->]; done.
  - apply strsplit_cons.
  - done.
  - done.
  - done.
  - done.
  - done.
  - done.
  - intros s c new. induction s as [|d s IH]; [done|]. cbn [str_map]. rewrite IH. f_equal.
    cbn [first_char]. repeat case_decide; congruence.
  - done.
  - apply utf8_validate_ascii.
  - done.
  - done.
  - done.
  - intros a b _ _ Ha _. unfold build_path. by rewrite ends_with_slash_false.
Defined.
