(* ===== verification/Sys.v ===== *)
(** * Effects: calls to the operating system and to library I/O

    A function of the program that performs I/O is a value of [io A]: a tree
    of calls, each with a continuation for every reply.  Nothing is assumed
    of a reply ([exec] and [wp] quantify over all of them); a theorem that
    needs the file system to keep what was written says so by a hypothesis
    on the handler of [run].  Programs are finite trees, so every execution
    ends: a loop of the code is a recursion on its data or carries fuel. *)

From S2P Require Import Prelude GLib.

Set Warnings "-register-all".

(** [struct stat], the fields the program reads. *)
Inductive file_kind := KReg | KDir | KOther.
Record stat_t := Stat { st_kind : file_kind; st_mode : Z; st_size : Z }.

Inductive file_test := FT_EXISTS | FT_IS_DIR | FT_EXISTS_OR_DIR.

(** [struct passwd], the fields the program reads. *)
Record passwd := Passwd { pw_uid : Z; pw_dir : string }.

(** A netlink request: the header, the fields of the [ifinfomsg] or [rtmsg]
    that follows it, and the attributes. *)
Inductive nlattr :=
| AttrStr (type : Z) (s : string)
| AttrU32 (type : Z) (v : Z)
| AttrBytes (type : Z) (l : list Z)
| AttrNest (type : Z) (l : list nlattr).
Record nlmsg := NlMsg {
  nlmsg_type : Z; nlmsg_flags : Z; nlmsg_seq : Z; nl_family : Z;
  ifi_index : Z; ifi_change : Z; ifi_flags : Z; nl_attrs : list nlattr
}.

(** An attribute of a route message: its type, what libmnl says of it (whether
    the type is in range, whether it is a 32-bit number, whether it is a nest of
    attributes), and its payload, as a 32-bit number and as bytes. *)
Record rtattr := RtAttr {
  rta_type : Z; rta_type_valid : bool; rta_is_u32 : bool; rta_is_nested : bool; rta_u32 : Z; rta_payload : list Z
}.

(** A route message of the kernel: the family and prefix lengths of its
    [rtmsg], and the attributes. *)
Record rtmsg := RtMsg { rtm_family : Z; rtm_src_len : Z; rtm_dst_len : Z; rtm_attrs : list rtattr }.

(** An entry of [getifaddrs]: name, and family and bytes of the address and
    of the netmask. *)
Record ifaddr := IfAddr {
  ifa_name : string; ifa_addr : option (Z * list Z); ifa_netmask : option (list Z)
}.

(** The calls.  Integer replies are the C return values. *)
Inductive call : Type :=
| Cstat (path : string)
| Cg_file_test (path : string) (t : file_test)
| Crealpath (path : string)
| Cg_mkdir_with_parents (path : string) (mode : Z)
| Ccreat (path : string) (mode : Z)
| Copen (path : string)
| Cclose (fd : Z)
| Cdup (fd : Z)
| Cfcntl_getfd (fd : Z)
| Cfcntl_setfd (fd flags : Z)
| Cmount (source target : cstr) (fstype : cstr) (flags : Z) (data : cstr)
| Cumount (target : string)
| Csystem (cmd : string)
| Cg_unlink (path : string)
| Cg_file_set_contents (path contents : string)
| Cg_file_get_contents (path : string)
| Cjson_load (path : string)
| Csetns (fd nstype : Z)
| Cunshare (nstype : Z)
| Ckill (pid sig : Z)
| Cpasswd (path : string)
| Cgetcwd
| Cchdir (path : string)
| Cgeteuid
| Cgetuid
| Ciso8601
| Csocket_new
| Cconnect (fd : Z) (path : string)
| Cg_socket_close (fd : Z)
| Cpoll_out (fd : Z)
| Cwrite_chars (fd : Z) (bytes : string)
| Cflush (fd : Z)
| Crecvmsg (fd : Z)
| Cfile_monitor (path : string)
| Cwait_changed (path : string)
| Cg_unix_socket_address_new (path : string)
| Ctun_create (fd : Z) (name : string)
| Ctun_persist (fd : Z)
| Cif_nametoindex (name : cstr)
| Cif_indextoname (index : Z)
| Cinet_socket
| Cget_hwaddr (fd : Z) (name : string)
| Cgetifaddrs
| Cinet_ntop (family : Z) (addr : list Z)
| Cmnl_socket_open
| Cmnl_socket_bind (nl : Z)
| Cmnl_socket_close (nl : Z)
| Cmnl_socket_get_portid (nl : Z)
| Cmnl_socket_sendto (nl : Z) (msg : nlmsg)
| Cmnl_socket_recvfrom (nl : Z)
| Cmnl_cb_run (seq portid : Z)
| Cmnl_cb_run_routes (seq portid : Z)
| Ctime
| Cread (fd : Z) (count : nat)
| Cwrite (fd : Z) (bytes : string)
| Cpoll (fds : list Z)
| Cwinsize (fd : Z)
| Cisatty (fd : Z)
| Ctcgetattr (fd : Z)
| Ctcsetattr (fd : Z)
| Cpipe
| Csigaction (sig : Z)
| Cfcntl_getfl (fd : Z)
| Cfcntl_setfl (fd flags : Z)
| Catexit
| Cg_socket_receive (fd : Z) (size : nat)
| Cg_socket_send (fd : Z) (bytes : string)
| Cfork
| Cgetpid
| Csetsid
| Cexecvp (argv : list string)
| Cdup2 (fd fd2 : Z)
| Copen_flags (path : string) (flags mode : Z)
| Cpipe2
| Csocketpair
| Cflock (fd : Z)
| Ctiocsctty (fd : Z)
| Copendir (path : string)
| Cclosedir (fd : Z)
| Csocket_from_fd (fd : Z)
| Creceive_fd (sock : Z)
| Csend_fd (sock fd : Z)
| Cspawn (argv : list string) (envp : option (list string))
| Cwait_child (pid : Z)
| Cchild_exit (pids : list Z)
| Cuuid
| Cfind_program (name : string)
| Cg_print (text : string)
| Cstderr (text : string)
| Csyslog (text : string)
| Cerrno
| Cg_dir_open (path : string)
| Caccess (path : string)
| Cmonitor_directory (path : string)
| Cloop_event (interval : Z)
| Cchannel_shutdown (fd : Z).

(** What wakes up the main loop of the events command: its timer, or a change
    of the monitored directory, with the name of the file if it was deleted. *)
Inductive loop_event := LoopTimer | LoopDeleted (path : cstr) | LoopChanged.

(** What [recvmsg] gives: an errno, or the bytes read and the descriptor of
    the control message, if there is one. *)
Inductive recv_reply := RecvErr (errno : Z) | RecvData (bytes : string) (cmsg : option Z).

Definition EINTR : Z := 4.
Definition EIO : Z := 5.
Definition EAGAIN : Z := 11.

Definition reply (c : call) : Type :=
  match c with
  | Cstat _ => option stat_t
  | Cg_file_test _ _ => bool
  | Crealpath _ => cstr
  | Cg_file_set_contents _ _ => bool
  | Cg_file_get_contents _ => cstr
  (* a parsed document, whose root may be missing; [None] on error *)
  | Cjson_load _ => option (option json)
  (* the entries [fgetpwent] returns; [None] when [fopen] fails *)
  | Cpasswd _ => option (list passwd)
  | Cgetcwd => cstr
  | Ciso8601 => cstr
  | Crecvmsg _ => recv_reply
  | Cif_indextoname _ => cstr
  (* the bytes, none at the end of the file; [None] is an error *)
  | Cread _ _ => cstr
  (* an errno, or which descriptors have events *)
  | Cpoll _ => Z + list bool
  (* rows and columns *)
  | Cwinsize _ => option (Z * Z)
  | Cisatty _ => bool
  | Cpipe => option (Z * Z)
  (* the bytes, none at the end of the stream; [None] is an error *)
  | Cg_socket_receive _ _ => cstr
  | Cpipe2 => option (Z * Z)
  | Csocketpair => option (Z * Z)
  (* the descriptor of the directory and the names its entries have *)
  | Copendir _ => option (Z * list string)
  | Csocket_from_fd _ => bool
  | Csend_fd _ _ => bool
  (* the pid and the descriptors of the three pipes *)
  | Cspawn _ _ => option (Z * Z * Z * Z)
  (* which of the children ended, and its status *)
  | Cchild_exit _ => Z * Z
  (* the bytes of a random uuid *)
  | Cuuid => list Z
  | Cfind_program _ => cstr
  | Cg_dir_open _ => option (list string)
  | Cloop_event _ => loop_event
  (* family and bytes of the hardware address; [None] when the ioctl fails *)
  | Cget_hwaddr _ _ => option (Z * list Z)
  | Cgetifaddrs => option (list ifaddr)
  | Cinet_ntop _ _ => cstr
  | Cmnl_socket_open => option Z
  (* the messages given to the callback and the value returned after them *)
  | Cmnl_cb_run_routes _ _ => list rtmsg * Z
  | _ => Z
  end.

(** How an execution can stop without a value: a failed [g_assert], an
    access through NULL, a process exit, a wait that never ends, an [abort],
    a process image replaced by that of a program, an access outside of an
    object or of its lifetime. *)
Inductive fault :=
| AssertFailed | NullDeref | Exited (code : Z) | Blocked | Aborted | Execed (argv : list string) | BadAccess.

Inductive outcome (A : Type) : Type := Done (a : A) | Fault (f : fault).
Arguments Done {A} a.
Arguments Fault {A} f.

Inductive io (A : Type) : Type :=
| Ret (a : A)
| Halt (f : fault)
| Call (c : call) (k : reply c -> io A).
Arguments Ret {A} a.
Arguments Halt {A} f.
Arguments Call {A} c k.

Fixpoint io_bind {A B : Type} (k : A -> io B) (m : io A) : io B :=
  match m with
  | Ret a => k a
  | Halt f => Halt f
  | Call c k' => Call c (fun v => io_bind k (k' v))
  end.

#[export] Instance io_mret : MRet io := @Ret.
#[export] Instance io_mbind : MBind io := @io_bind.

Definition call_ (c : call) : io (reply c) := Call c Ret.

(** ** Executions *)

Inductive event := Ev (c : call) (v : reply c).

(** [exec m tr o]: [m] can perform the calls and replies [tr] and end in
    [o]. *)
Fixpoint exec {A} (m : io A) (tr : list event) (o : outcome A) : Prop :=
  match m with
  | Ret a => tr = [] /\ o = Done a
  | Halt f => tr = [] /\ o = Fault f
  | Call c k => exists v tr', tr = Ev c v :: tr' /\ exec (k v) tr' o
  end.

(** What a function extracts from the events of an execution, in order. *)
Fixpoint tr_map {B} (f : event -> option B) (tr : list event) : list B :=
  match tr with
  | [] => []
  | e :: tr => match f e with Some b => b :: tr_map f tr | None => tr_map f tr end
  end.

Lemma tr_map_app {B} (f : event -> option B) tr1 tr2 :
  tr_map f (tr1 ++ tr2) = tr_map f tr1 ++ tr_map f tr2.
Proof. induction tr1 as [|e tr1 IH]; [done|]. simpl. destruct (f e); simpl; by rewrite IH. Qed.

Lemma elem_of_tr_map {B} (f : event -> option B) tr e b : f e = Some b -> e ∈ tr -> b ∈ tr_map f tr.
Proof.
  intros Hf. induction tr as [|e' tr IH]; [by intros ?%not_elem_of_nil|].
  intros [->|Hin]%elem_of_cons; simpl; [rewrite Hf; left|].
  destruct (f e'); [right|]; auto.
Qed.

Lemma tr_map_quiet {B} (f : event -> option B) tr : Forall (fun e => f e = None) tr -> tr_map f tr = [].
Proof. induction 1 as [|e tr He _ IH]; [done|]. simpl. by rewrite He. Qed.

(** Every execution of [m] satisfies [Q]. *)
Fixpoint wp {A} (m : io A) (Q : list event -> outcome A -> Prop) : Prop :=
  match m with
  | Ret a => Q [] (Done a)
  | Halt f => Q [] (Fault f)
  | Call c k => forall v, wp (k v) (fun tr o => Q (Ev c v :: tr) o)
  end.

(** Some reply to any call: failure, in the way each call reports it. *)
Definition fail_reply (c : call) : reply c :=
  match c return reply c with
  | Cstat _ => None
  | Cg_file_test _ _ => false
  | Crealpath _ => None
  | Cg_file_set_contents _ _ => false
  | Cg_file_get_contents _ => None
  | Cjson_load _ => None
  | Cpasswd _ => None
  | Cgetcwd => None
  | Ciso8601 => None
  | Crecvmsg _ => RecvErr EIO
  | Cif_indextoname _ => None
  | Cread _ _ => None
  | Cpoll _ => inl EIO
  | Cwinsize _ => None
  | Cisatty _ => false
  | Cpipe => None
  | Cg_socket_receive _ _ => None
  | Cpipe2 => None
  | Csocketpair => None
  | Copendir _ => None
  | Csocket_from_fd _ => false
  | Csend_fd _ _ => false
  | Cspawn _ _ => None
  | Cchild_exit _ => (-1, -1)
  | Cuuid => replicate 16 0
  | Cfind_program _ => None
  | Cg_dir_open _ => None
  | Cloop_event _ => LoopChanged
  | Cget_hwaddr _ _ => None
  | Cgetifaddrs => None
  | Cinet_ntop _ _ => None
  | Cmnl_socket_open => None
  | Cmnl_cb_run_routes _ _ => ([], -1)
  | _ => -1
  end.

(** A deterministic environment: it answers calls from a state of type [W]. *)
Definition handler (W : Type) : Type := forall c : call, W -> reply c * W.

(** The world in which every call fails. *)
Definition fail_handler : handler unit := fun c w => (fail_reply c, w).

Fixpoint run {W A} (h : handler W) (m : io A) (w : W) : outcome A * W :=
  match m with
  | Ret a => (Done a, w)
  | Halt f => (Fault f, w)
  | Call c k => let '(v, w') := h c w in run h (k v) w'
  end.

Lemma wp_exec {A} (m : io A) Q : wp m Q <-> forall tr o, exec m tr o -> Q tr o.
Proof.
  revert Q. induction m as [a|f|c k IH]; intros Q; simpl.
  - split; [by intros H tr o [-> ->]|eauto].
  - split; [by intros H tr o [-> ->]|eauto].
  - split.
    + intros H tr o (v & tr' & -> & He). apply (proj1 (IH v _) (H v)), He.
    + intros H v. apply IH. eauto.
Qed.

Lemma wp_mono {A} (m : io A) (Q Q' : list event -> outcome A -> Prop) :
  wp m Q -> (forall tr o, Q tr o -> Q' tr o) -> wp m Q'.
Proof. rewrite !wp_exec. eauto. Qed.

Lemma wp_bind {A B} (m : io A) (k : A -> io B) Q :
  wp (m ≫= k) Q <->
  wp m (fun tr o => match o with
                    | Done a => wp (k a) (fun tr' o' => Q (tr ++ tr') o')
                    | Fault f => Q tr (Fault f)
                    end).
Proof.
  revert Q. induction m as [a|f|c k' IH]; intros Q; simpl; [done..|].
  split; intros H v; apply (IH v (fun tr o => Q (Ev c v :: tr) o)), H.
Qed.

Lemma wp_ret {A} (a : A) Q : Q [] (Done a) -> wp (mret a) Q.
Proof. done. Qed.

Lemma exec_bind {A B} (m : io A) (k : A -> io B) tr o :
  exec (m ≫= k) tr o <->
  (exists f, exec m tr (Fault f) /\ o = Fault f) \/
  (exists tr1 a tr2, tr = tr1 ++ tr2 /\ exec m tr1 (Done a) /\ exec (k a) tr2 o).
Proof.
  revert tr. induction m as [a|f|c k' IH]; intros tr; simpl.
  - split.
    + intros H. right. exists [], a, tr. done.
    + intros [(f & [_ ?] & _)|(tr1 & a' & tr2 & -> & [-> Ha] & H)]; by simplify_eq.
  - split.
    + intros [-> ->]. left. by exists f.
    + intros [(f' & [-> ?] & ->)|(tr1 & a' & tr2 & -> & [-> Ha] & H)]; by simplify_eq.
  - split.
    + intros (v & tr' & -> & H). apply IH in H as [(f & H & ->)|(tr1 & a & tr2 & -> & H1 & H2)].
      * left. exists f. eauto.
      * right. exists (Ev c v :: tr1), a, tr2. simpl. eauto 10.
    + intros [(f & (v & tr' & -> & H) & ->)|(tr1 & a & tr2 & -> & (v & tr' & -> & H1) & H2)].
      * exists v, tr'. split; [done|]. apply IH. eauto.
      * exists v, (tr' ++ tr2). split; [done|]. apply IH. eauto 10.
Qed.

(** A deterministic run is one of the executions. *)
Lemma run_exec {W A} (h : handler W) (m : io A) w :
  exists tr, exec m tr (fst (run h m w)).
Proof.
  revert w. induction m as [a|f|c k IH]; intros w; simpl; [by exists []..|].
  destruct (h c w) as [v w']. destruct (IH v w') as [tr H]. exists (Ev c v :: tr). eauto.
Qed.

(** The run with its trace, to evaluate concrete executions. *)
Fixpoint run_tr {W A} (h : handler W) (m : io A) (w : W) : list event * outcome A :=
  match m with
  | Ret a => ([], Done a)
  | Halt f => ([], Fault f)
  | Call c k =>
      let '(v, w') := h c w in
      let '(tr, o) := run_tr h (k v) w' in (Ev c v :: tr, o)
  end.

Lemma run_tr_exec {W A} (h : handler W) (m : io A) w o :
  snd (run_tr h m w) = o -> exec m (fst (run_tr h m w)) o.
Proof.
  intros <-. revert w. induction m as [a|f|c k IH]; intros w; simpl; [done..|].
  destruct (h c w) as [v w']. specialize (IH v w'). destruct (run_tr h (k v) w') as [tr o].
  exists v, tr. done.
Qed.

Lemma run_wp {W A} (h : handler W) (m : io A) w (P : outcome A -> Prop) :
  wp m (fun _ o => P o) -> P (fst (run h m w)).
Proof. rewrite wp_exec. destruct (run_exec h m w) as [tr He]. eauto. Qed.

Lemma run_bind {W A B} (h : handler W) (m : io A) (k : A -> io B) w :
  run h (m ≫= k) w =
    match run h m w with
    | (Done a, w') => run h (k a) w'
    | (Fault f, w') => (Fault f, w')
    end.
Proof.
  revert w. induction m as [a|f|c k' IH]; intros w; simpl; [done..|].
  destruct (h c w) as [v w']. apply IH.
Qed.

Lemma run_ret_bind {W A B} (h : handler W) (a : A) (k : A -> io B) w :
  run h (mret a ≫= k) w = run h (k a) w.
Proof. done. Qed.

(** Step over the first call of a [run] in the goal, naming the reply, the
    next state and the equation of the handler. *)
Ltac run_call v w' E :=
  lazymatch goal with
  | |- context [run ?h (mbind ?k (call_ ?c)) ?w] =>
      change (run h (mbind k (call_ c)) w) with (let '(x, y) := h c w in run h (k x) y);
      destruct (h c w) as [v w'] eqn:E; cbn beta iota
  end.

(** ** Loops *)

(** [for (l = list; l && l->data; l = l->next) if (! body (l->data)) return false;]
    with a value threaded through the iterations. *)
Fixpoint io_fold {A S} (body : S -> A -> io S) (l : list A) (s : S) : io S :=
  match l with
  | [] => mret s
  | x :: l => s' ← body s x; io_fold body l s'
  end.

Lemma wp_fold {A S} (body : S -> A -> io S) (I : S -> Prop) l s :
  I s ->
  (forall s x, x ∈ l -> I s -> wp (body s x) (fun _ o => match o with Done s' => I s' | Fault _ => False end)) ->
  wp (io_fold body l s) (fun _ o => match o with Done s' => I s' | Fault _ => False end).
Proof.
  revert s. induction l as [|x l IH]; intros s Hs Hb; [done|].
  cbn [io_fold]. apply wp_bind. eapply wp_mono; [apply Hb; [set_solver|done]|].
  intros tr [s'|f]; [|done]. intros Hs'. apply IH; [done|]. intros. apply Hb; [set_solver|done].
Qed.

(** ** Programs that always return *)

Definition total {A} (m : io A) : Prop :=
  wp m (fun _ o => match o with Done _ => True | Fault _ => False end).

Lemma total_ret {A} (a : A) : total (mret a).
Proof. exact I. Qed.

Lemma total_call c : total (call_ c).
Proof. by intros v. Qed.

Lemma total_bind {A B} (m : io A) (k : A -> io B) :
  total m -> (forall a, total (k a)) -> total (m ≫= k).
Proof.
  intros Hm Hk. apply wp_bind. eapply wp_mono; [exact Hm|]. intros tr [a|f]; [|done].
  intros _. apply Hk.
Qed.

Lemma total_fold {A S} (body : S -> A -> io S) l s :
  (forall s x, total (body s x)) -> total (io_fold body l s).
Proof.
  intros H. revert s. induction l as [|x l IH]; intros s; [exact I|].
  apply total_bind; auto.
Qed.

(** A total program returns, and so does its run in any world. *)
Lemma total_run {W A} (h : handler W) (m : io A) w : total m -> exists a, fst (run h m w) = Done a.
Proof.
  intros Hm. pose proof (run_wp h m w (fun o => match o with Done _ => True | Fault _ => False end) Hm).
  destruct (fst (run h m w)); [eauto|done].
Qed.

(** Decide [total] by the structure of the program. *)
Ltac solve_total :=
  repeat first
    [ apply total_ret | solve [eauto with cc] | apply total_call | apply total_bind; [|intros ?]
    | apply total_fold; intros ? ? | case_match ].

(** ** Programs all of whose calls satisfy a predicate *)

Definition safe {A} (P : event -> Prop) (m : io A) : Prop := wp m (fun tr _ => Forall P tr).

Lemma safe_ret {A} P (a : A) : safe P (mret a).
Proof. constructor. Qed.

Lemma safe_halt {A} P f : safe P (@Halt A f).
Proof. constructor. Qed.

Lemma safe_call P c : (forall v, P (Ev c v)) -> safe P (call_ c).
Proof. intros H v. repeat constructor. apply H. Qed.

Lemma safe_bind {A B} P (m : io A) (k : A -> io B) :
  safe P m -> (forall a, safe P (k a)) -> safe P (m ≫= k).
Proof.
  intros Hm Hk. apply wp_bind. eapply wp_mono; [exact Hm|]. intros tr [a|f] Htr; [|done].
  eapply wp_mono; [apply Hk|]. intros tr' o Htr'. by apply Forall_app.
Qed.

Lemma safe_mono {A} (P Q : event -> Prop) (m : io A) :
  safe P m -> (forall e, P e -> Q e) -> safe Q m.
Proof. intros Hm HPQ. eapply wp_mono; [exact Hm|]. intros tr o H. eapply Forall_impl; [exact H|exact HPQ]. Qed.

Lemma safe_exec {A} P (m : io A) tr o : safe P m -> exec m tr o -> Forall P tr.
Proof. unfold safe. rewrite wp_exec. eauto. Qed.

Lemma safe_fold {A S} P (body : S -> A -> io S) l s :
  (forall s x, safe P (body s x)) -> safe P (io_fold body l s).
Proof. intros H. revert s. induction l as [|x l IH]; intros s; [constructor|]. apply safe_bind; auto. Qed.

(** Decide [safe] by the structure of the program, [tac] on the calls. *)
Ltac solve_safe tac :=
  repeat first
    [ apply safe_ret | apply safe_halt | solve [eauto with cc]
    | apply safe_call; intros ?; solve [tac] | apply safe_bind; [|intros ?]
    | apply safe_fold; intros ? ? | case_match ].

(** A program without events of interest in front of another. *)
Lemma wp_quiet_bind {A B C} (f : event -> option C) (m : io A) (k : A -> io B) (Q : list C -> outcome B -> Prop) :
  safe (fun e => f e = None) m -> (forall x, Q [] (Fault x)) ->
  (forall a, wp (k a) (fun tr o => Q (tr_map f tr) o)) ->
  wp (m ≫= k) (fun tr o => Q (tr_map f tr) o).
Proof.
  intros Hm Hf Hk. apply wp_bind. eapply wp_mono; [exact Hm|]. intros tr o Htr. apply tr_map_quiet in Htr.
  destruct o as [a|x]; [|by rewrite Htr].
  eapply wp_mono; [apply Hk|]. intros tr' o'. by rewrite tr_map_app, Htr.
Qed.


(** ** What a program returns, if it returns *)

Definition post {A} (R : A -> Prop) (m : io A) : Prop :=
  wp m (fun _ o => match o with Done a => R a | Fault _ => True end).

Lemma post_ret {A} (R : A -> Prop) a : R a -> post R (mret a).
Proof. done. Qed.

Lemma post_halt {A} (R : A -> Prop) f : post R (Halt f).
Proof. done. Qed.

Lemma post_bind {A B} (S : A -> Prop) (R : B -> Prop) (m : io A) (k : A -> io B) :
  post S m -> (forall a, S a -> post R (k a)) -> post R (m ≫= k).
Proof.
  intros Hm Hk. apply wp_bind. eapply wp_mono; [exact Hm|]. intros tr [a|f]; [|done]. intros Ha.
  eapply wp_mono; [by apply Hk|]. by intros tr' [].
Qed.

Lemma post_any {A B} (R : B -> Prop) (m : io A) (k : A -> io B) :
  (forall a, post R (k a)) -> post R (m ≫= k).
Proof. intros H. apply (post_bind (fun _ => True)); [|auto]. apply wp_exec. by intros tr []. Qed.

Lemma post_exec {A} (R : A -> Prop) (m : io A) tr a : post R m -> exec m tr (Done a) -> R a.
Proof. intros H He. exact (proj1 (wp_exec _ _) H _ _ He). Qed.

(** Prove [post] by the structure of the program, forgetting what the calls
    inside return; [tac] on the values returned. *)
Ltac solve_post tac :=
  repeat first
    [ apply post_ret; solve [tac] | apply post_halt | apply post_any; intros ? | case_match ].

(** Step over the first call of a goal [wp (x ← call_ c; k x) Q], without
    unfolding the rest. *)
Ltac wp_step :=
  lazymatch goal with
  | |- wp (mbind ?k (call_ ?c)) ?Q =>
      change (forall v : reply c, wp (k v) (fun tr o => Q (Ev c v :: tr) o)); cbn beta
  end.

(** From a goal about one execution, [exec m tr o -> G], to the weakest
    precondition of [m]. *)
Ltac exec_to_wp :=
  lazymatch goal with
  | |- exec ?m ?tr ?o -> ?G =>
      let Q := eval pattern tr in G in
      lazymatch Q with
      | ?F tr =>
          refine ((fun (H : wp m (fun tr' o' => o' = o -> F tr')) (He : exec m tr o) =>
                     proj1 (wp_exec m _) H tr o He eq_refl) _)
      end
  end.

(** Prove that a program has a concrete execution. *)
Ltac solve_exec :=
  vm_compute; repeat (eexists _, _; split; [reflexivity|]); split; reflexivity.
