(* ===== verification/Types.v ===== *)
(** * The data of the runtime (src/src/oci.h)

    The structures of the program as records, with the source's member names
    (a suffix or prefix keeps the names of different structures apart).  A
    [gchar *] is a [cstr], a [gchar **] a [strv], a [PATH_MAX] array a string,
    a [GSList] a list, a pointer to a structure an [option].  [X_zero] is
    the structure [g_malloc0] returns and [set_m] assigns member [m]. *)

From S2P Require Import Prelude GLib.

(** A [NULL]-terminated vector of strings, or [NULL]. *)
Abbreviation strv := (option (list string)).

(** [enum oci_status] *)
Inductive oci_status :=
| OCI_STATUS_CREATED | OCI_STATUS_RUNNING | OCI_STATUS_PAUSED | OCI_STATUS_STOPPED
| OCI_STATUS_STOPPING | OCI_STATUS_INVALID.

#[export] Instance oci_status_eq_dec : EqDecision oci_status.
Proof. solve_decision. Defined.

(** [enum oci_namespace]; [OCI_NS_ZERO] is the value of zeroed memory, which
    is none of the enumerators. *)
Inductive oci_namespace :=
| OCI_NS_PID | OCI_NS_NET | OCI_NS_MOUNT | OCI_NS_IPC | OCI_NS_UTS | OCI_NS_USER
| OCI_NS_CGROUP | OCI_NS_INVALID | OCI_NS_ZERO.

#[export] Instance oci_namespace_eq_dec : EqDecision oci_namespace.
Proof. solve_decision. Defined.

(** The values of the enumerators, the [CLONE_NEW*] flags of clone(2). *)
Definition oci_namespace_value (n : oci_namespace) : Z :=
  match n with
  | OCI_NS_PID => 536870912
  | OCI_NS_NET => 1073741824
  | OCI_NS_MOUNT => 131072
  | OCI_NS_IPC => 134217728
  | OCI_NS_UTS => 67108864
  | OCI_NS_USER => 268435456
  | OCI_NS_CGROUP => 33554432
  | OCI_NS_INVALID => -1
  | OCI_NS_ZERO => 0
  end.

(** [struct oci_cfg_platform]. *)
Record oci_cfg_platform := Platform {
  os : cstr; arch : cstr
}.

Definition oci_cfg_platform_zero : oci_cfg_platform :=
  Platform None None.

(** [struct oci_cfg_root]; [root_path] is a [PATH_MAX] buffer. *)
Record oci_cfg_root := Root {
  root_path : string; read_only : bool
}.

Definition oci_cfg_root_zero : oci_cfg_root :=
  Root EmptyString false.

(** [struct oci_cfg_user]; nothing sets [additionalGids]. *)
Record oci_cfg_user := User {
  uid : Z; gid : Z
}.

Definition oci_cfg_user_zero : oci_cfg_user :=
  User 0 0.

(** [struct oci_cfg_hook]. *)
Record oci_cfg_hook := Hook {
  hook_path : string; hook_args : strv; hook_env : strv; timeout : Z
}.

Definition oci_cfg_hook_zero : oci_cfg_hook :=
  Hook EmptyString None None 0.

(** [struct oci_cfg_hooks]. *)
Record oci_cfg_hooks := Hooks {
  prestart : list oci_cfg_hook; poststart : list oci_cfg_hook; poststop : list oci_cfg_hook
}.

Definition oci_cfg_hooks_zero : oci_cfg_hooks :=
  Hooks [] [] [].

(** [struct oci_cfg_annotation]. *)
Record oci_cfg_annotation := Annotation {
  key : string; value : cstr
}.

(** [struct oci_cfg_namespace]. *)
Record oci_cfg_namespace := Namespace {
  ns_type : oci_namespace; ns_path : cstr
}.

Definition oci_cfg_namespace_zero : oci_cfg_namespace :=
  Namespace OCI_NS_ZERO None.

(** [struct oci_cfg_process]. *)
Record oci_cfg_process := Process {
  args : strv; cwd : string; env : strv; terminal : bool; user : oci_cfg_user;
  stdio_stream : Z; stderr_stream : Z
}.

Definition oci_cfg_process_zero : oci_cfg_process :=
  Process None EmptyString None false oci_cfg_user_zero 0 0.

(** [struct cc_oci_mount], with the members of its [struct mntent] that are used. *)
Record cc_oci_mount := Mount {
  flags : Z; mnt_fsname : cstr; mnt_dir : cstr; mnt_type : cstr; mnt_opts : cstr;
  dest : string; ignore_mount : bool; directory_created : cstr
}.

Definition cc_oci_mount_zero : cc_oci_mount :=
  Mount 0 None None None None EmptyString false None.

(** [struct oci_cfg]; [namespaces] is the only member of [struct oci_cfg_linux]. *)
Record oci_cfg := Oci {
  oci_version : cstr; hooks : oci_cfg_hooks; hostname : cstr; mounts : list cc_oci_mount;
  annotations : list oci_cfg_annotation; platform : oci_cfg_platform; root : oci_cfg_root;
  process : oci_cfg_process; namespaces : list oci_cfg_namespace
}.

Definition oci_cfg_zero : oci_cfg :=
  Oci None oci_cfg_hooks_zero None [] [] oci_cfg_platform_zero oci_cfg_root_zero oci_cfg_process_zero [].

(** [struct cc_oci_vm_cfg]. *)
Record cc_oci_vm_cfg := VmCfg {
  hypervisor_path : string; image_path : string; kernel_path : string; workload_path : string;
  kernel_params : cstr; vm_pid : Z
}.

Definition cc_oci_vm_cfg_zero : cc_oci_vm_cfg :=
  VmCfg EmptyString EmptyString EmptyString EmptyString None 0.

(** [struct cc_oci_net_ipv4_cfg]. *)
Record cc_oci_net_ipv4_cfg := Ipv4Cfg {
  ip_address : cstr; subnet_mask : cstr
}.

(** [struct cc_oci_net_ipv6_cfg]. *)
Record cc_oci_net_ipv6_cfg := Ipv6Cfg {
  ipv6_address : cstr; ipv6_prefix : cstr
}.

(** [struct cc_oci_net_if_cfg]. *)
Record cc_oci_net_if_cfg := IfCfg {
  mac_address : cstr; ifname : cstr; bridge : cstr; tap_device : cstr;
  ipv4_addrs : list cc_oci_net_ipv4_cfg; ipv6_addrs : list cc_oci_net_ipv6_cfg
}.

Definition cc_oci_net_if_cfg_zero : cc_oci_net_if_cfg :=
  IfCfg None None None None [] [].

(** [struct cc_oci_net_ipv4_route]. *)
Record cc_oci_net_ipv4_route := Ipv4Route {
  rt_dest : cstr; rt_ifname : cstr; rt_gateway : cstr
}.

(** [struct cc_oci_net_cfg]. *)
Record cc_oci_net_cfg := NetCfg {
  net_hostname : cstr; dns_ip1 : cstr; dns_ip2 : cstr; interfaces : list cc_oci_net_if_cfg;
  routes : list cc_oci_net_ipv4_route
}.

Definition cc_oci_net_cfg_zero : cc_oci_net_cfg :=
  NetCfg None None None [] [].

(** [struct cc_oci_container_state]. *)
Record cc_oci_container_state := ContainerState {
  state_file_path : string; runtime_path : string; comms_path : string; procsock_path : string;
  workload_pid : Z; status : oci_status
}.

Definition cc_oci_container_state_zero : cc_oci_container_state :=
  ContainerState EmptyString EmptyString EmptyString EmptyString 0 OCI_STATUS_CREATED.

(** [struct cc_proxy]; [socket] is the descriptor of the connected socket. *)
Record cc_proxy := Proxy {
  socket : option Z; agent_ctl_socket : cstr; agent_tty_socket : cstr; vm_console_socket : cstr
}.

Definition cc_proxy_zero : cc_proxy :=
  Proxy None None None None.

(** [struct cc_pod]. *)
Record cc_pod := Pod {
  sandbox : bool; sandbox_name : cstr; sandbox_workloads : string
}.

Definition cc_pod_zero : cc_pod :=
  Pod false None EmptyString.

(** [struct cc_oci_config]. *)
Record cc_oci_config := Config {
  oci : oci_cfg; vm : option cc_oci_vm_cfg; net : cc_oci_net_cfg;
  state : cc_oci_container_state; pod : option cc_pod; bundle_path : cstr; pid_file : cstr;
  console : cstr; root_dir : cstr; optarg_container_id : cstr; dry_run_mode : bool;
  detached_mode : bool; proxy : option cc_proxy
}.

Definition cc_oci_config_zero : cc_oci_config :=
  Config oci_cfg_zero None cc_oci_net_cfg_zero cc_oci_container_state_zero None None None None None None false false None.

(** [struct oci_state], what state.json holds. *)
Record oci_state := State {
  s_oci_version : cstr; s_id : cstr; s_pid : Z; s_bundle_path : cstr; s_comms_path : cstr;
  s_procsock_path : cstr; s_status : oci_status; s_create_time : cstr;
  s_mounts : list cc_oci_mount; s_annotations : list oci_cfg_annotation; s_console : cstr;
  s_vm : option cc_oci_vm_cfg; s_proxy : option cc_proxy; s_pod : option cc_pod;
  s_process : option oci_cfg_process
}.

Definition oci_state_zero : oci_state :=
  State None None 0 None None None OCI_STATUS_CREATED None [] [] None None None None None.

(** ** Assignments to members *)

Definition set_os (v : cstr) (r : oci_cfg_platform) : oci_cfg_platform :=
  Platform v (arch r).

Definition set_arch (v : cstr) (r : oci_cfg_platform) : oci_cfg_platform :=
  Platform (os r) v.

Definition set_root_path (v : string) (r : oci_cfg_root) : oci_cfg_root :=
  Root v (read_only r).

Definition set_read_only (v : bool) (r : oci_cfg_root) : oci_cfg_root :=
  Root (root_path r) v.

Definition set_uid (v : Z) (r : oci_cfg_user) : oci_cfg_user :=
  User v (gid r).

Definition set_gid (v : Z) (r : oci_cfg_user) : oci_cfg_user :=
  User (uid r) v.

Definition set_hook_path (v : string) (r : oci_cfg_hook) : oci_cfg_hook :=
  Hook v (hook_args r) (hook_env r) (timeout r).

Definition set_hook_args (v : strv) (r : oci_cfg_hook) : oci_cfg_hook :=
  Hook (hook_path r) v (hook_env r) (timeout r).

Definition set_hook_env (v : strv) (r : oci_cfg_hook) : oci_cfg_hook :=
  Hook (hook_path r) (hook_args r) v (timeout r).

Definition set_timeout (v : Z) (r : oci_cfg_hook) : oci_cfg_hook :=
  Hook (hook_path r) (hook_args r) (hook_env r) v.

Definition set_prestart (v : list oci_cfg_hook) (r : oci_cfg_hooks) : oci_cfg_hooks :=
  Hooks v (poststart r) (poststop r).

Definition set_poststart (v : list oci_cfg_hook) (r : oci_cfg_hooks) : oci_cfg_hooks :=
  Hooks (prestart r) v (poststop r).

Definition set_poststop (v : list oci_cfg_hook) (r : oci_cfg_hooks) : oci_cfg_hooks :=
  Hooks (prestart r) (poststart r) v.

Definition set_ns_type (v : oci_namespace) (r : oci_cfg_namespace) : oci_cfg_namespace :=
  Namespace v (ns_path r).

Definition set_ns_path (v : cstr) (r : oci_cfg_namespace) : oci_cfg_namespace :=
  Namespace (ns_type r) v.

Definition set_args (v : strv) (r : oci_cfg_process) : oci_cfg_process :=
  Process v (cwd r) (env r) (terminal r) (user r) (stdio_stream r) (stderr_stream r).

Definition set_cwd (v : string) (r : oci_cfg_process) : oci_cfg_process :=
  Process (args r) v (env r) (terminal r) (user r) (stdio_stream r) (stderr_stream r).

Definition set_env (v : strv) (r : oci_cfg_process) : oci_cfg_process :=
  Process (args r) (cwd r) v (terminal r) (user r) (stdio_stream r) (stderr_stream r).

Definition set_terminal (v : bool) (r : oci_cfg_process) : oci_cfg_process :=
  Process (args r) (cwd r) (env r) v (user r) (stdio_stream r) (stderr_stream r).

Definition set_user (v : oci_cfg_user) (r : oci_cfg_process) : oci_cfg_process :=
  Process (args r) (cwd r) (env r) (terminal r) v (stdio_stream r) (stderr_stream r).

Definition set_stdio_stream (v : Z) (r : oci_cfg_process) : oci_cfg_process :=
  Process (args r) (cwd r) (env r) (terminal r) (user r) v (stderr_stream r).

Definition set_stderr_stream (v : Z) (r : oci_cfg_process) : oci_cfg_process :=
  Process (args r) (cwd r) (env r) (terminal r) (user r) (stdio_stream r) v.

Definition set_flags (v : Z) (r : cc_oci_mount) : cc_oci_mount :=
  Mount v (mnt_fsname r) (mnt_dir r) (mnt_type r) (mnt_opts r) (dest r) (ignore_mount r)
    (directory_created r).

Definition set_mnt_fsname (v : cstr) (r : cc_oci_mount) : cc_oci_mount :=
  Mount (flags r) v (mnt_dir r) (mnt_type r) (mnt_opts r) (dest r) (ignore_mount r)
    (directory_created r).

Definition set_mnt_dir (v : cstr) (r : cc_oci_mount) : cc_oci_mount :=
  Mount (flags r) (mnt_fsname r) v (mnt_type r) (mnt_opts r) (dest r) (ignore_mount r)
    (directory_created r).

Definition set_mnt_type (v : cstr) (r : cc_oci_mount) : cc_oci_mount :=
  Mount (flags r) (mnt_fsname r) (mnt_dir r) v (mnt_opts r) (dest r) (ignore_mount r)
    (directory_created r).

Definition set_mnt_opts (v : cstr) (r : cc_oci_mount) : cc_oci_mount :=
  Mount (flags r) (mnt_fsname r) (mnt_dir r) (mnt_type r) v (dest r) (ignore_mount r)
    (directory_created r).

Definition set_dest (v : string) (r : cc_oci_mount) : cc_oci_mount :=
  Mount (flags r) (mnt_fsname r) (mnt_dir r) (mnt_type r) (mnt_opts r) v (ignore_mount r)
    (directory_created r).

Definition set_ignore_mount (v : bool) (r : cc_oci_mount) : cc_oci_mount :=
  Mount (flags r) (mnt_fsname r) (mnt_dir r) (mnt_type r) (mnt_opts r) (dest r) v
    (directory_created r).

Definition set_directory_created (v : cstr) (r : cc_oci_mount) : cc_oci_mount :=
  Mount (flags r) (mnt_fsname r) (mnt_dir r) (mnt_type r) (mnt_opts r) (dest r)
    (ignore_mount r) v.

Definition set_oci_version (v : cstr) (r : oci_cfg) : oci_cfg :=
  Oci v (hooks r) (hostname r) (mounts r) (annotations r) (platform r) (root r) (process r)
    (namespaces r).

Definition set_hooks (v : oci_cfg_hooks) (r : oci_cfg) : oci_cfg :=
  Oci (oci_version r) v (hostname r) (mounts r) (annotations r) (platform r) (root r)
    (process r) (namespaces r).

Definition set_hostname (v : cstr) (r : oci_cfg) : oci_cfg :=
  Oci (oci_version r) (hooks r) v (mounts r) (annotations r) (platform r) (root r) (process r)
    (namespaces r).

Definition set_mounts (v : list cc_oci_mount) (r : oci_cfg) : oci_cfg :=
  Oci (oci_version r) (hooks r) (hostname r) v (annotations r) (platform r) (root r)
    (process r) (namespaces r).

Definition set_annotations (v : list oci_cfg_annotation) (r : oci_cfg) : oci_cfg :=
  Oci (oci_version r) (hooks r) (hostname r) (mounts r) v (platform r) (root r) (process r)
    (namespaces r).

Definition set_platform (v : oci_cfg_platform) (r : oci_cfg) : oci_cfg :=
  Oci (oci_version r) (hooks r) (hostname r) (mounts r) (annotations r) v (root r) (process r)
    (namespaces r).

Definition set_root (v : oci_cfg_root) (r : oci_cfg) : oci_cfg :=
  Oci (oci_version r) (hooks r) (hostname r) (mounts r) (annotations r) (platform r) v
    (process r) (namespaces r).

Definition set_process (v : oci_cfg_process) (r : oci_cfg) : oci_cfg :=
  Oci (oci_version r) (hooks r) (hostname r) (mounts r) (annotations r) (platform r) (root r) v
    (namespaces r).

Definition set_namespaces (v : list oci_cfg_namespace) (r : oci_cfg) : oci_cfg :=
  Oci (oci_version r) (hooks r) (hostname r) (mounts r) (annotations r) (platform r) (root r)
    (process r) v.

Definition set_hypervisor_path (v : string) (r : cc_oci_vm_cfg) : cc_oci_vm_cfg :=
  VmCfg v (image_path r) (kernel_path r) (workload_path r) (kernel_params r) (vm_pid r).

Definition set_image_path (v : string) (r : cc_oci_vm_cfg) : cc_oci_vm_cfg :=
  VmCfg (hypervisor_path r) v (kernel_path r) (workload_path r) (kernel_params r) (vm_pid r).

Definition set_kernel_path (v : string) (r : cc_oci_vm_cfg) : cc_oci_vm_cfg :=
  VmCfg (hypervisor_path r) (image_path r) v (workload_path r) (kernel_params r) (vm_pid r).

Definition set_workload_path (v : string) (r : cc_oci_vm_cfg) : cc_oci_vm_cfg :=
  VmCfg (hypervisor_path r) (image_path r) (kernel_path r) v (kernel_params r) (vm_pid r).

Definition set_kernel_params (v : cstr) (r : cc_oci_vm_cfg) : cc_oci_vm_cfg :=
  VmCfg (hypervisor_path r) (image_path r) (kernel_path r) (workload_path r) v (vm_pid r).

Definition set_vm_pid (v : Z) (r : cc_oci_vm_cfg) : cc_oci_vm_cfg :=
  VmCfg (hypervisor_path r) (image_path r) (kernel_path r) (workload_path r) (kernel_params r)
    v.

Definition set_mac_address (v : cstr) (r : cc_oci_net_if_cfg) : cc_oci_net_if_cfg :=
  IfCfg v (ifname r) (bridge r) (tap_device r) (ipv4_addrs r) (ipv6_addrs r).

Definition set_ifname (v : cstr) (r : cc_oci_net_if_cfg) : cc_oci_net_if_cfg :=
  IfCfg (mac_address r) v (bridge r) (tap_device r) (ipv4_addrs r) (ipv6_addrs r).

Definition set_bridge (v : cstr) (r : cc_oci_net_if_cfg) : cc_oci_net_if_cfg :=
  IfCfg (mac_address r) (ifname r) v (tap_device r) (ipv4_addrs r) (ipv6_addrs r).

Definition set_tap_device (v : cstr) (r : cc_oci_net_if_cfg) : cc_oci_net_if_cfg :=
  IfCfg (mac_address r) (ifname r) (bridge r) v (ipv4_addrs r) (ipv6_addrs r).

Definition set_ipv4_addrs (v : list cc_oci_net_ipv4_cfg) (r : cc_oci_net_if_cfg) : cc_oci_net_if_cfg :=
  IfCfg (mac_address r) (ifname r) (bridge r) (tap_device r) v (ipv6_addrs r).

Definition set_ipv6_addrs (v : list cc_oci_net_ipv6_cfg) (r : cc_oci_net_if_cfg) : cc_oci_net_if_cfg :=
  IfCfg (mac_address r) (ifname r) (bridge r) (tap_device r) (ipv4_addrs r) v.

Definition set_net_hostname (v : cstr) (r : cc_oci_net_cfg) : cc_oci_net_cfg :=
  NetCfg v (dns_ip1 r) (dns_ip2 r) (interfaces r) (routes r).

Definition set_dns_ip1 (v : cstr) (r : cc_oci_net_cfg) : cc_oci_net_cfg :=
  NetCfg (net_hostname r) v (dns_ip2 r) (interfaces r) (routes r).

Definition set_dns_ip2 (v : cstr) (r : cc_oci_net_cfg) : cc_oci_net_cfg :=
  NetCfg (net_hostname r) (dns_ip1 r) v (interfaces r) (routes r).

Definition set_interfaces (v : list cc_oci_net_if_cfg) (r : cc_oci_net_cfg) : cc_oci_net_cfg :=
  NetCfg (net_hostname r) (dns_ip1 r) (dns_ip2 r) v (routes r).

Definition set_routes (v : list cc_oci_net_ipv4_route) (r : cc_oci_net_cfg) : cc_oci_net_cfg :=
  NetCfg (net_hostname r) (dns_ip1 r) (dns_ip2 r) (interfaces r) v.

Definition set_state_file_path (v : string) (r : cc_oci_container_state) : cc_oci_container_state :=
  ContainerState v (runtime_path r) (comms_path r) (procsock_path r) (workload_pid r)
    (status r).

Definition set_runtime_path (v : string) (r : cc_oci_container_state) : cc_oci_container_state :=
  ContainerState (state_file_path r) v (comms_path r) (procsock_path r) (workload_pid r)
    (status r).

Definition set_comms_path (v : string) (r : cc_oci_container_state) : cc_oci_container_state :=
  ContainerState (state_file_path r) (runtime_path r) v (procsock_path r) (workload_pid r)
    (status r).

Definition set_procsock_path (v : string) (r : cc_oci_container_state) : cc_oci_container_state :=
  ContainerState (state_file_path r) (runtime_path r) (comms_path r) v (workload_pid r)
    (status r).

Definition set_workload_pid (v : Z) (r : cc_oci_container_state) : cc_oci_container_state :=
  ContainerState (state_file_path r) (runtime_path r) (comms_path r) (procsock_path r) v
    (status r).

Definition set_status (v : oci_status) (r : cc_oci_container_state) : cc_oci_container_state :=
  ContainerState (state_file_path r) (runtime_path r) (comms_path r) (procsock_path r)
    (workload_pid r) v.

Definition set_socket (v : option Z) (r : cc_proxy) : cc_proxy :=
  Proxy v (agent_ctl_socket r) (agent_tty_socket r) (vm_console_socket r).

Definition set_agent_ctl_socket (v : cstr) (r : cc_proxy) : cc_proxy :=
  Proxy (socket r) v (agent_tty_socket r) (vm_console_socket r).

Definition set_agent_tty_socket (v : cstr) (r : cc_proxy) : cc_proxy :=
  Proxy (socket r) (agent_ctl_socket r) v (vm_console_socket r).

Definition set_vm_console_socket (v : cstr) (r : cc_proxy) : cc_proxy :=
  Proxy (socket r) (agent_ctl_socket r) (agent_tty_socket r) v.

Definition set_sandbox (v : bool) (r : cc_pod) : cc_pod :=
  Pod v (sandbox_name r) (sandbox_workloads r).

Definition set_sandbox_name (v : cstr) (r : cc_pod) : cc_pod :=
  Pod (sandbox r) v (sandbox_workloads r).

Definition set_sandbox_workloads (v : string) (r : cc_pod) : cc_pod :=
  Pod (sandbox r) (sandbox_name r) v.

Definition set_oci (v : oci_cfg) (r : cc_oci_config) : cc_oci_config :=
  Config v (vm r) (net r) (state r) (pod r) (bundle_path r) (pid_file r) (console r)
    (root_dir r) (optarg_container_id r) (dry_run_mode r) (detached_mode r) (proxy r).

Definition set_vm (v : option cc_oci_vm_cfg) (r : cc_oci_config) : cc_oci_config :=
  Config (oci r) v (net r) (state r) (pod r) (bundle_path r) (pid_file r) (console r)
    (root_dir r) (optarg_container_id r) (dry_run_mode r) (detached_mode r) (proxy r).

Definition set_net (v : cc_oci_net_cfg) (r : cc_oci_config) : cc_oci_config :=
  Config (oci r) (vm r) v (state r) (pod r) (bundle_path r) (pid_file r) (console r)
    (root_dir r) (optarg_container_id r) (dry_run_mode r) (detached_mode r) (proxy r).

Definition set_state (v : cc_oci_container_state) (r : cc_oci_config) : cc_oci_config :=
  Config (oci r) (vm r) (net r) v (pod r) (bundle_path r) (pid_file r) (console r) (root_dir r)
    (optarg_container_id r) (dry_run_mode r) (detached_mode r) (proxy r).

Definition set_pod (v : option cc_pod) (r : cc_oci_config) : cc_oci_config :=
  Config (oci r) (vm r) (net r) (state r) v (bundle_path r) (pid_file r) (console r)
    (root_dir r) (optarg_container_id r) (dry_run_mode r) (detached_mode r) (proxy r).

Definition set_bundle_path (v : cstr) (r : cc_oci_config) : cc_oci_config :=
  Config (oci r) (vm r) (net r) (state r) (pod r) v (pid_file r) (console r) (root_dir r)
    (optarg_container_id r) (dry_run_mode r) (detached_mode r) (proxy r).

Definition set_pid_file (v : cstr) (r : cc_oci_config) : cc_oci_config :=
  Config (oci r) (vm r) (net r) (state r) (pod r) (bundle_path r) v (console r) (root_dir r)
    (optarg_container_id r) (dry_run_mode r) (detached_mode r) (proxy r).

Definition set_console (v : cstr) (r : cc_oci_config) : cc_oci_config :=
  Config (oci r) (vm r) (net r) (state r) (pod r) (bundle_path r) (pid_file r) v (root_dir r)
    (optarg_container_id r) (dry_run_mode r) (detached_mode r) (proxy r).

Definition set_root_dir (v : cstr) (r : cc_oci_config) : cc_oci_config :=
  Config (oci r) (vm r) (net r) (state r) (pod r) (bundle_path r) (pid_file r) (console r) v
    (optarg_container_id r) (dry_run_mode r) (detached_mode r) (proxy r).

Definition set_optarg_container_id (v : cstr) (r : cc_oci_config) : cc_oci_config :=
  Config (oci r) (vm r) (net r) (state r) (pod r) (bundle_path r) (pid_file r) (console r)
    (root_dir r) v (dry_run_mode r) (detached_mode r) (proxy r).

Definition set_dry_run_mode (v : bool) (r : cc_oci_config) : cc_oci_config :=
  Config (oci r) (vm r) (net r) (state r) (pod r) (bundle_path r) (pid_file r) (console r)
    (root_dir r) (optarg_container_id r) v (detached_mode r) (proxy r).

Definition set_detached_mode (v : bool) (r : cc_oci_config) : cc_oci_config :=
  Config (oci r) (vm r) (net r) (state r) (pod r) (bundle_path r) (pid_file r) (console r)
    (root_dir r) (optarg_container_id r) (dry_run_mode r) v (proxy r).

Definition set_proxy (v : option cc_proxy) (r : cc_oci_config) : cc_oci_config :=
  Config (oci r) (vm r) (net r) (state r) (pod r) (bundle_path r) (pid_file r) (console r)
    (root_dir r) (optarg_container_id r) (dry_run_mode r) (detached_mode r) v.

Definition set_s_oci_version (v : cstr) (r : oci_state) : oci_state :=
  State v (s_id r) (s_pid r) (s_bundle_path r) (s_comms_path r) (s_procsock_path r)
    (s_status r) (s_create_time r) (s_mounts r) (s_annotations r) (s_console r) (s_vm r)
    (s_proxy r) (s_pod r) (s_process r).

Definition set_s_id (v : cstr) (r : oci_state) : oci_state :=
  State (s_oci_version r) v (s_pid r) (s_bundle_path r) (s_comms_path r) (s_procsock_path r)
    (s_status r) (s_create_time r) (s_mounts r) (s_annotations r) (s_console r) (s_vm r)
    (s_proxy r) (s_pod r) (s_process r).

Definition set_s_pid (v : Z) (r : oci_state) : oci_state :=
  State (s_oci_version r) (s_id r) v (s_bundle_path r) (s_comms_path r) (s_procsock_path r)
    (s_status r) (s_create_time r) (s_mounts r) (s_annotations r) (s_console r) (s_vm r)
    (s_proxy r) (s_pod r) (s_process r).

Definition set_s_bundle_path (v : cstr) (r : oci_state) : oci_state :=
  State (s_oci_version r) (s_id r) (s_pid r) v (s_comms_path r) (s_procsock_path r)
    (s_status r) (s_create_time r) (s_mounts r) (s_annotations r) (s_console r) (s_vm r)
    (s_proxy r) (s_pod r) (s_process r).

Definition set_s_comms_path (v : cstr) (r : oci_state) : oci_state :=
  State (s_oci_version r) (s_id r) (s_pid r) (s_bundle_path r) v (s_procsock_path r)
    (s_status r) (s_create_time r) (s_mounts r) (s_annotations r) (s_console r) (s_vm r)
    (s_proxy r) (s_pod r) (s_process r).

Definition set_s_procsock_path (v : cstr) (r : oci_state) : oci_state :=
  State (s_oci_version r) (s_id r) (s_pid r) (s_bundle_path r) (s_comms_path r) v (s_status r)
    (s_create_time r) (s_mounts r) (s_annotations r) (s_console r) (s_vm r) (s_proxy r) (s_pod r)
    (s_process r).

Definition set_s_status (v : oci_status) (r : oci_state) : oci_state :=
  State (s_oci_version r) (s_id r) (s_pid r) (s_bundle_path r) (s_comms_path r)
    (s_procsock_path r) v (s_create_time r) (s_mounts r) (s_annotations r) (s_console r) (s_vm r)
    (s_proxy r) (s_pod r) (s_process r).

Definition set_s_create_time (v : cstr) (r : oci_state) : oci_state :=
  State (s_oci_version r) (s_id r) (s_pid r) (s_bundle_path r) (s_comms_path r)
    (s_procsock_path r) (s_status r) v (s_mounts r) (s_annotations r) (s_console r) (s_vm r)
    (s_proxy r) (s_pod r) (s_process r).

Definition set_s_mounts (v : list cc_oci_mount) (r : oci_state) : oci_state :=
  State (s_oci_version r) (s_id r) (s_pid r) (s_bundle_path r) (s_comms_path r)
    (s_procsock_path r) (s_status r) (s_create_time r) v (s_annotations r) (s_console r) (s_vm r)
    (s_proxy r) (s_pod r) (s_process r).

Definition set_s_annotations (v : list oci_cfg_annotation) (r : oci_state) : oci_state :=
  State (s_oci_version r) (s_id r) (s_pid r) (s_bundle_path r) (s_comms_path r)
    (s_procsock_path r) (s_status r) (s_create_time r) (s_mounts r) v (s_console r) (s_vm r)
    (s_proxy r) (s_pod r) (s_process r).

Definition set_s_console (v : cstr) (r : oci_state) : oci_state :=
  State (s_oci_version r) (s_id r) (s_pid r) (s_bundle_path r) (s_comms_path r)
    (s_procsock_path r) (s_status r) (s_create_time r) (s_mounts r) (s_annotations r) v (s_vm r)
    (s_proxy r) (s_pod r) (s_process r).

Definition set_s_vm (v : option cc_oci_vm_cfg) (r : oci_state) : oci_state :=
  State (s_oci_version r) (s_id r) (s_pid r) (s_bundle_path r) (s_comms_path r)
    (s_procsock_path r) (s_status r) (s_create_time r) (s_mounts r) (s_annotations r)
    (s_console r) v (s_proxy r) (s_pod r) (s_process r).

Definition set_s_proxy (v : option cc_proxy) (r : oci_state) : oci_state :=
  State (s_oci_version r) (s_id r) (s_pid r) (s_bundle_path r) (s_comms_path r)
    (s_procsock_path r) (s_status r) (s_create_time r) (s_mounts r) (s_annotations r)
    (s_console r) (s_vm r) v (s_pod r) (s_process r).

Definition set_s_pod (v : option cc_pod) (r : oci_state) : oci_state :=
  State (s_oci_version r) (s_id r) (s_pid r) (s_bundle_path r) (s_comms_path r)
    (s_procsock_path r) (s_status r) (s_create_time r) (s_mounts r) (s_annotations r)
    (s_console r) (s_vm r) (s_proxy r) v (s_process r).

Definition set_s_process (v : option oci_cfg_process) (r : oci_state) : oci_state :=
  State (s_oci_version r) (s_id r) (s_pid r) (s_bundle_path r) (s_comms_path r)
    (s_procsock_path r) (s_status r) (s_create_time r) (s_mounts r) (s_annotations r)
    (s_console r) (s_vm r) (s_proxy r) (s_pod r) v.
