(* ===== verification/Util.v ===== *)
(** * Utilities (src/src/util.c)

    Signal names, string replacement, files split into lines, the string
    vectors made from a tree, path resolution, descriptor flags and the move
    of a descriptor above stdio.  [cc_oci_get_iso8601_timestamp] is over the
    functions on dates of GLib, which are a parameter; its callers make the call
    [Ciso8601]. *)

From S2P Require Import Prelude GLib GLibRef Sys.

Definition LINE_MAX : Z := 2048.
Definition FD_CLOEXEC : Z := 1.
Definition CC_OCI_RM_CMD : string := "/bin/rm".

(** [struct cc_oci_signal_table signal_table], with the numbers of Linux on
    x86. *)
Definition signal_table : list (Z * string) := [
  (1, "SIGHUP"); (2, "SIGINT"); (3, "SIGQUIT"); (4, "SIGILL"); (5, "SIGTRAP"); (6, "SIGABRT");
  (6, "SIGIOT"); (7, "SIGBUS"); (8, "SIGFPE"); (9, "SIGKILL"); (10, "SIGUSR1");
  (11, "SIGSEGV"); (12, "SIGUSR2"); (13, "SIGPIPE"); (14, "SIGALRM"); (15, "SIGTERM");
  (16, "SIGSTKFLT"); (17, "SIGCLD"); (17, "SIGCHLD"); (18, "SIGCONT"); (19, "SIGSTOP");
  (20, "SIGTSTP"); (21, "SIGTTIN"); (22, "SIGTTOU"); (23, "SIGURG"); (24, "SIGXCPU");
  (25, "SIGXFSZ"); (26, "SIGVTALRM"); (27, "SIGPROF"); (28, "SIGWINCH"); (29, "SIGPOLL");
  (29, "SIGIO"); (30, "SIGPWR"); (31, "SIGSYS"); (31, "SIGUNUSED") ].

Definition SIGINT : Z := 2.
Definition SIGKILL : Z := 9.
Definition SIGTERM : Z := 15.
Definition SIGSTOP : Z := 19.

(** [big << 24 | ...] on bytes, as an unsigned 32-bit value. *)
Definition cc_oci_get_big_endian_32 (b0 b1 b2 b3 : Z) : Z :=
  u32 (Z.lor (Z.lor (Z.lor (Z.shiftl b0 24) (Z.shiftl b1 16)) (Z.shiftl b2 8)) b3).

(** A vector whose elements are copied with [g_strdup]: a child without data
    ends the vector for its readers. *)
Fixpoint strv_of_children (l : list gnode) : list string :=
  match l with
  | [] => []
  | n :: l => match gn_data n with None => [] | Some s => s :: strv_of_children l end
  end.

Definition node_to_strv (root : gnode) : option (list string) :=
  Some (strv_of_children (gn_children root)).

(** Dates of GLib: the current one, a date with hours added, the seconds and
    microseconds since 1970, and their text. *)
Class GDateTimeLib := {
  GDateTime : Type;
  g_date_time_new_now_local : option GDateTime;
  g_date_time_is_daylight_savings : GDateTime -> bool;
  g_date_time_add_hours : GDateTime -> Z -> option GDateTime;
  g_date_time_to_timeval : GDateTime -> option (Z * Z);
  g_time_val_to_iso8601 : Z * Z -> cstr
}.

Definition cc_oci_get_iso8601_timestamp `{GDateTimeLib} : cstr :=
  dt ← g_date_time_new_now_local;
  dt ← (if g_date_time_is_daylight_savings dt then g_date_time_add_hours dt 1 else Some dt);
  tv ← g_date_time_to_timeval dt;
  g_time_val_to_iso8601 tv.

Section util.
Context `{GL : GLib}.

Fixpoint signum_lookup (full_name : string) (t : list (Z * string)) : Z :=
  match t with
  | [] => -1
  | (num, name) :: t =>
      if g_streq (Some full_name) (Some name) then num else signum_lookup full_name t
  end.

Definition cc_oci_get_signum (signame : cstr) : Z :=
  match signame with
  | None => -1
  | Some signame =>
      let full_name := if g_str_has_prefix signame "SIG" then EmptyString else "SIG" in
      signum_lookup (c_buf 32 (full_name +:+ signame)) signal_table
  end.

Definition cc_oci_create_pidfile (pidfile : cstr) (pid : Z) : io bool :=
  match pidfile with
  | None => mret false
  | Some pidfile =>
      if negb (bool_decide (first_char pidfile = Some "/"%char)) then mret false
      else if pid <=? 0 then mret false
      else call_ (Cg_file_set_contents pidfile (fmt_d pid))
  end.

Definition rm_rf_cmd (path : string) : string :=
  CC_OCI_RM_CMD +:+ " -rf " +:+ String "034" (path +:+ String "034" " >/dev/null 2>&1").

Definition cc_oci_rm_rf (path : cstr) : io bool :=
  match path with
  | None => mret false
  | Some path =>
      if negb (str_nonempty path) then mret false
      else r ← call_ (Csystem (rm_rf_cmd path)); mret (r =? 0)
  end.

Definition cc_oci_json_obj_to_string (obj : option (list (string * json))) (pretty : bool) : cstr :=
  (fun m => json_generator_to_data (JObject m) pretty) <$> obj.

Definition cc_oci_json_arr_to_string (array : option (list json)) (pretty : bool) : cstr :=
  (fun l => json_generator_to_data (JArray l) pretty) <$> array.

(** The new value of [*str]; the function always returns true. *)
Definition cc_oci_replace_string (str : cstr) (from to : cstr) : cstr :=
  match from, to with
  | Some from, Some to =>
      if negb (str_nonempty from) then str
      else match str with
           | None => None
           | Some s =>
               match g_strstr_len s (-1) from with
               | None => str
               | Some pre =>
                   let post := str_drop (pre + Z.to_nat (g_utf8_strlen from LINE_MAX)) s in
                   Some (str_take pre s +:+ to +:+ post)
               end
           end
  | _, _ => str
  end.

(** The vector on success; a file without any field is an error. *)
Definition strv_drop_last_empty (l : list string) : option (list string) :=
  match last l with
  | None => None
  | Some EmptyString => Some (removelast l)
  | Some _ => Some l
  end.

Definition newline : string := String "010" EmptyString.

Definition cc_oci_file_to_strv (file : cstr) : io (option (list string)) :=
  match file with
  | None => mret None
  | Some file =>
      if negb (bool_decide (first_char file = Some "/"%char)) then mret None
      else contents ← call_ (Cg_file_get_contents file);
           mret (contents ≫= fun contents => strv_drop_last_empty (g_strsplit contents newline (-1)))
  end.

End util.

Definition cc_oci_resolve_path (path : cstr) : io cstr :=
  match path with
  | None => mret None
  | Some path =>
      if negb (str_nonempty path) then mret None
      else tmp ← call_ (Crealpath path); mret (option_map (c_buf PATH_MAX) tmp)
  end.

Definition cc_oci_fd_toggle_cloexec (fd : Z) (set : bool) : io bool :=
  if fd <? 0 then mret false
  else flags ← call_ (Cfcntl_getfd fd);
       if flags <? 0 then mret false
       else
         let flags := if set then Z.lor flags FD_CLOEXEC else Z.land flags (Z.lnot FD_CLOEXEC) in
         r ← call_ (Cfcntl_setfd fd flags);
         mret (negb (r <? 0)).

Definition cc_oci_enable_networking : io bool :=
  uid ← call_ Cgeteuid; mret (uid =? 0).

(** ** Moving a descriptor above stdio *)

(** The loop that fills [tmp_fds], [n] slots being left: the descriptors
    saved, in order, and the last value of [dup_fd]. *)
Fixpoint dup_loop (n : nat) (dup_fd : Z) : io (list Z * Z) :=
  match n with
  | O => mret ([], dup_fd)
  | S n =>
      if dup_fd <? 3 then
        d ← call_ (Cdup dup_fd);
        if d <? 0 then mret ([dup_fd], d)
        else r ← dup_loop n d; mret (dup_fd :: fst r, snd r)
      else mret ([], dup_fd)
  end.

(** The loop that closes the saved descriptors. *)
Fixpoint close_loop (fd : Z) (tmp_fds : list Z) (ret : bool) : io bool :=
  match tmp_fds with
  | [] => mret ret
  | t :: tmp_fds =>
      if negb ret && (t =? fd) then close_loop fd tmp_fds ret
      else if -1 <? t then
        r ← call_ (Cclose t);
        close_loop fd tmp_fds (if r =? -1 then false else ret)
      else close_loop fd tmp_fds ret
  end.

(** The result and the new value of [*fdp]. *)
Definition dup_over_stdio (fd : Z) : io (bool * Z) :=
  if fd <? 0 then mret (false, fd)
  else r ← call_ (Cfcntl_getfd fd);
  if r =? -1 then mret (false, fd)
  else if 2 <? fd then mret (true, fd)
  else
    '(tmp_fds, dup_fd) ← dup_loop 3 fd;
    if dup_fd <? 3 then
      _ ← (if negb (dup_fd =? fd) && (-1 <? dup_fd) then call_ (Cclose dup_fd) else mret 0);
      ret ← close_loop fd tmp_fds false;
      mret (ret, fd)
    else
      ret ← close_loop dup_fd tmp_fds true;
      mret (ret, dup_fd).

(** ** Lemmas *)

Lemma total_resolve_path p : total (cc_oci_resolve_path p).
Proof. unfold cc_oci_resolve_path. solve_total. Qed.
#[export] Hint Resolve total_resolve_path : cc.

Lemma total_rm_rf p : total (cc_oci_rm_rf p).
Proof. unfold cc_oci_rm_rf. solve_total. Qed.
#[export] Hint Resolve total_rm_rf : cc.

Section util_facts.
Context `{GL : GLib}.

Lemma signum_lookup_inv f t n : signum_lookup f t = n -> n <> -1 -> (n, f) ∈ t.
Proof.
  induction t as [|[m s] t IH]; simpl; [intros; congruence|]. rewrite g_streq_spec.
  case_bool_decide as H; [|intros; right; auto]. injection H as ->. intros -> _. left.
Qed.

Lemma signum_lookup_in f t n : NoDup t.*2 -> (n, f) ∈ t -> signum_lookup f t = n.
Proof.
  induction t as [|[m s] t IH]; simpl; [by intros _ ?%not_elem_of_nil|].
  rewrite NoDup_cons, g_streq_spec. intros [Hs Ht] [[= -> ->]|Hin]%elem_of_cons.
  - by rewrite bool_decide_eq_true_2.
  - rewrite bool_decide_eq_false_2; [by apply IH|]. intros [= ->].
    apply Hs, list_elem_of_fmap. by exists (n, s).
Qed.

(** Every name of the table is "SIG" and a tail that fits the buffer and does
    not start with "SIG" itself. *)
Definition signal_name_ok (name : string) : bool :=
  String.prefix "SIG" name && negb (String.prefix "SIG" (str_drop 3 name)) &&
  (String.length name <? 31)%nat.

Lemma signal_table_ok n name :
  (n, name) ∈ signal_table -> signal_name_ok name = true /\ 1 <= n <= 31.
Proof.
  assert (Forall (fun '(n, s) => signal_name_ok s = true /\ 1 <= n <= 31) signal_table) as H
    by (repeat (constructor; [split; [reflexivity|lia]|]); constructor).
  rewrite Forall_forall in H. apply (H (n, name)).
Qed.

Lemma signal_table_nodup : NoDup signal_table.*2.
Proof. apply (bool_decide_unpack _). vm_compute. exact I. Qed.

Lemma c_buf_short n s x :
  c_buf n s = x -> (String.length x < n - 1)%nat -> s = x.
Proof.
  unfold c_buf. intros <- H. rewrite str_take_length_min in H. symmetry. apply str_take_all. lia.
Qed.

(** ** Properties *)

(** A signal number is found exactly for the names of the table, written in
    full or without "SIG", and is the number the table gives the name. *)
Theorem get_signum_iff (s : string) (n : Z) :
  (cc_oci_get_signum (Some s) = n /\ n <> -1) <->
  exists name, (n, name) ∈ signal_table /\ (s = name \/ "SIG" +:+ s = name).
Proof.
  unfold cc_oci_get_signum. rewrite g_str_has_prefix_spec. split.
  - intros [H Hn]. apply signum_lookup_inv in H; [|done].
    eexists. split; [exact H|]. apply signal_table_ok in H as [Hok _].
    unfold signal_name_ok in Hok. apply andb_prop in Hok as [_ Hl%Nat.ltb_lt].
    rewrite <- (c_buf_short 32 _ _ eq_refl) by (simpl in *; lia).
    destruct (String.prefix "SIG" s); auto.
  - intros (name & Hin & Hs). pose proof (signal_table_ok _ _ Hin) as [Hok Hr].
    split; [|lia]. apply signum_lookup_in; [apply signal_table_nodup|].
    unfold signal_name_ok in Hok. apply andb_prop in Hok as [[Hp Hq]%andb_prop Hl%Nat.ltb_lt].
    assert ((if String.prefix "SIG" s then EmptyString else "SIG") +:+ s = name) as ->.
    { destruct Hs as [<- | <-]; [by rewrite Hp|]. change (str_drop 3 ("SIG" +:+ s)) with s in Hq.
      apply negb_true_iff in Hq. by rewrite Hq. }
    unfold c_buf. rewrite str_take_all by lia. done.
Qed.

(** Replacing an ASCII search string replaces its first occurrence and keeps
    the bytes before and after it. *)
Theorem replace_string_first (s a b from to : string) :
  is_ascii from -> from <> EmptyString -> Z.of_nat (String.length from) <= LINE_MAX ->
  s = a +:+ from +:+ b -> strstr s from = Some (String.length a) ->
  cc_oci_replace_string (Some s) (Some from) (Some to) = Some (a +:+ to +:+ b).
Proof.
  intros Ha Hne Hl -> Hf. unfold cc_oci_replace_string. destruct from as [|c from'] eqn:E; [done|].
  rewrite <- E in *. replace (str_nonempty from) with true by by rewrite E.
  cbn [negb]. rewrite g_strstr_len_spec, Hf, g_utf8_strlen_ascii by auto.
  rewrite Nat2Z.id, str_take_app, <- (str_app_assoc a from b), <- str_length_app, str_drop_app. done.
Qed.

End util_facts.

Lemma replace_string_first_witness :
  is_ascii "@NAME@" /\
  cc_oci_replace_string (GL := glib_ref) (Some "-name @NAME@ -x") (Some "@NAME@") (Some "id1")
    = Some "-name id1 -x".
Proof.
  split; [repeat constructor|].
  apply (replace_string_first (GL := glib_ref) "-name @NAME@ -x" "-name " " -x" "@NAME@" "id1");
    [repeat constructor|done|vm_compute; discriminate|reflexivity|reflexivity].
Defined.

(** ** The descriptor table *)

(** What POSIX says of a process's descriptors: dup(2) returns the lowest free
    number or fails without effect, and a descriptor that is open can be
    closed. *)
Class FdWorld {W F} (h : handler W) := {
  fds : W -> gmap Z F;
  fd_getfd fd w (v : Z) w' :
    h (Cfcntl_getfd fd) w = (v, w') -> fds w' = fds w /\ (v = -1 <-> fds w !! fd = None);
  fd_dup fd f w (v : Z) w' :
    h (Cdup fd) w = (v, w') -> fds w !! fd = Some f ->
    (v < 0 /\ fds w' = fds w) \/
    (0 <= v /\ fds w !! v = None /\ (forall k, 0 <= k < v -> fds w !! k <> None) /\
     fds w' = <[v:=f]> (fds w));
  fd_close fd f w (v : Z) w' :
    h (Cclose fd) w = (v, w') -> fds w !! fd = Some f -> v = 0 /\ fds w' = delete fd (fds w)
}.

Section fd_facts.
Context {W F : Type} (h : handler W) `{FW : !FdWorld (F := F) h}.

(** Closing the saved descriptors [l], all open on [f] and none of them the
    one to keep, removes them. *)
Lemma run_close_loop f fd l ret w :
  NoDup l -> (forall t, t ∈ l -> 0 <= t /\ fds w !! t = Some f) ->
  (ret = false -> fd ∈ l -> l !! 0%nat = Some fd) ->
  exists w', run h (close_loop fd l ret) w = (Done ret, w') /\
    forall k, fds w' !! k =
      (if decide (k ∈ l /\ ~ (ret = false /\ k = fd)) then None else fds w !! k).
Proof.
  revert w. induction l as [|t l IH]; intros w Hnd Hl Hfd.
  { exists w. split; [done|]. intros k. rewrite decide_False; [done|]. by intros [?%not_elem_of_nil _]. }
  apply NoDup_cons in Hnd as [Ht Hnd]. destruct (Hl t) as [Ht0 Htf]; [set_solver|].
  assert (ret = false -> fd ∈ l -> False) as Hno.
  { intros Hr Hin. specialize (Hfd Hr ltac:(set_solver)). simpl in Hfd. naive_solver. }
  cbn [close_loop]. destruct (negb ret && (t =? fd)) eqn:E.
  - apply andb_prop in E as [Er%negb_true_iff Et%Z.eqb_eq]. subst.
    destruct (IH w Hnd) as (w' & Hrun & Hw'); [set_solver|naive_solver|].
    exists w'. split; [done|]. intros k. rewrite Hw'.
    repeat case_decide; set_solver.
  - destruct (Z.ltb_spec (-1) t); [|lia]. run_call v w1 Ec.
    destruct (fd_close _ _ _ _ _ Ec Htf) as [-> Hw1].
    destruct (IH w1 Hnd) as (w' & Hrun & Hw').
    { intros t' Ht'. destruct (Hl t') as [? ?]; [set_solver|]. split; [done|].
      rewrite Hw1, lookup_delete_ne; [done|]. by intros ->. }
    { naive_solver. }
    exists w'. cbn. split; [done|]. intros k. rewrite Hw', Hw1.
    destruct (decide (k = t)) as [->|Hk].
    + rewrite lookup_delete_eq. destruct (decide (t ∈ t :: l /\ _)) as [_|Hn]; [by destruct (decide _)|].
      destruct Hn. split; [set_solver|]. intros [-> ->]. simpl in E. by rewrite Z.eqb_refl in E.
    + rewrite lookup_delete_ne by done. repeat case_decide; set_solver.
Qed.

Definition dup_spec (f : F) (fd0 : Z) (w : W) (n : nat) (l : list Z) (d : Z) (w' : W) : Prop :=
  NoDup l /\ (d ∉ l) /\ (forall t, t ∈ l -> 0 <= t < 3 /\ (t = fd0 \/ fds w !! t = None)) /\
  ((l = [] /\ d = fd0) \/ (exists l', l = fd0 :: l' /\ (0 <= d -> fds w !! d = None))) /\
  (0 <= d < 3 -> length l = n) /\
  (forall k, fds w' !! k = (if decide (0 <= k /\ (k ∈ l \/ k = d)) then Some f else fds w !! k)).

Lemma dup_loop_nil f fd0 w n :
  fds w !! fd0 = Some f -> n = O \/ 3 <= fd0 -> dup_spec f fd0 w n [] fd0 w.
Proof.
  intros Hf Hn. split_and!; [apply NoDup_nil_2|apply not_elem_of_nil| |by left| |].
  - by intros t ?%not_elem_of_nil.
  - destruct Hn; simpl; lia.
  - intros k. case_decide as Hk; [|done]. by destruct Hk as [_ [?%not_elem_of_nil| ->]].
Qed.

(** The duplicating loop: the saved descriptors are distinct, below 3 and open
    on the file of [fd0]; the last value is a failure or one more descriptor
    of that file; everything else is as before. *)
Lemma run_dup_loop f n fd0 w :
  fds w !! fd0 = Some f -> 0 <= fd0 ->
  exists l d w', run h (dup_loop n fd0) w = (Done (l, d), w') /\
    dup_spec f fd0 w n l d w'.
Proof.
  revert fd0 w. induction n as [|n IH]; intros fd0 w Hf H0.
  { exists [], fd0, w. split; [done|]. apply dup_loop_nil; auto. }
  cbn [dup_loop]. destruct (Z.ltb_spec fd0 3); cycle 1.
  { exists [], fd0, w. split; [done|]. apply dup_loop_nil; auto. }
  run_call d w1 Ed.
  destruct (fd_dup _ _ _ _ _ Ed Hf) as [[Hd Hw]|(Hd & Hdn & _ & Hw)].
  - destruct (Z.ltb_spec d 0); [|lia]. exists [fd0], d, w1. split; [done|].
    split_and!.
    + apply NoDup_singleton.
    + intros ->%list_elem_of_singleton. lia.
    + intros t ->%list_elem_of_singleton. lia.
    + right. exists []. split; [done|lia].
    + lia.
    + intros k. rewrite Hw. case_decide as Hk; [|done]. destruct Hk as [? [->%list_elem_of_singleton| ->]]; [done|lia].
  - destruct (Z.ltb_spec d 0); [lia|].
    assert (d <> fd0) as Hne by (intros ->; by rewrite Hf in Hdn).
    destruct (IH d w1) as (l & d' & w' & Hrun & Hnd & Hdl & Hl & Hsh & Hlen & Hk);
      [by rewrite Hw, lookup_insert_eq|lia|].
    rewrite run_bind, Hrun. cbn. exists (fd0 :: l), d', w'. split; [done|].
    assert (forall k, fds w1 !! k = None -> fds w !! k = None /\ k <> fd0) as Hnone.
    { intros k. rewrite Hw. destruct (decide (k = d)) as [->|]; [by rewrite lookup_insert_eq|].
      rewrite lookup_insert_ne by done. intros Hk0. split; [done|]. intros ->. by rewrite Hf in Hk0. }
    assert ((fd0 ∉ l) /\ fd0 <> d') as [Hfl Hfd'].
    { split.
      - intros Hin. destruct (Hl _ Hin) as [_ [?|[_ ?]%Hnone]]; congruence.
      - destruct Hsh as [[-> ->]|(l' & -> & Hn)]; [done|]. intros <-. by destruct (Hnone fd0 (Hn H0)). }
    split_and!.
    + by apply NoDup_cons.
    + by intros [?|?]%elem_of_cons.
    + intros t [->|Hin]%elem_of_cons; [lia|]. destruct (Hl t Hin) as [? [->|[? ?]%Hnone]]; auto.
    + right. exists l. split; [done|]. intros Hd'. destruct Hsh as [[-> ->]|(l' & -> & Hn)]; [done|].
      by apply Hnone, Hn.
    + simpl. intros. f_equal. auto.
    + intros k. rewrite Hk, Hw. destruct (decide (k = fd0)) as [->|].
      { rewrite lookup_insert_ne, Hf by done. repeat case_decide; done. }
      destruct (decide (k = d)) as [->|].
      { rewrite lookup_insert_eq.
        assert (d ∈ l \/ d = d') by (destruct Hsh as [[-> ->]|(l' & -> & _)]; [by right|left; left]).
        rewrite (decide_True (P := _ /\ (d ∈ fd0 :: l \/ _))); [by destruct (decide _)|].
        rewrite elem_of_cons. tauto. }
      rewrite lookup_insert_ne by done. apply decide_ext. rewrite elem_of_cons. tauto.
Qed.

Lemma three_fds (l : list Z) d :
  NoDup l -> d ∉ l -> (forall t, t ∈ l -> 0 <= t < 3) -> 0 <= d < 3 -> (length l < 3)%nat.
Proof.
  intros Hnd Hd Hl Hd3. assert (NoDup (d :: l)) as Hn by by apply NoDup_cons.
  assert (d :: l ⊆ [0; 1; 2]) as Hs.
  { intros t Ht. assert (0 <= t < 3) by (apply elem_of_cons in Ht as [->|]; auto).
    assert (t = 0 \/ t = 1 \/ t = 2) by lia. set_solver. }
  pose proof (submseteq_length _ _ (NoDup_submseteq _ _ Hn Hs)) as Hle. simpl in Hle. lia.
Qed.

(** [dup_over_stdio] on an open descriptor returns.  On success the new
    descriptor is above 2, refers to the same file, and is the only change
    to the table apart from the old number being closed; on failure the
    descriptor and the whole table are as before. *)
Theorem dup_over_stdio_moves (w : W) (fd : Z) (f : F) :
  fds w !! fd = Some f -> 0 <= fd ->
  exists ret fd' w', run h (dup_over_stdio fd) w = (Done (ret, fd'), w') /\
    if ret : bool
    then 2 < fd' /\ (fd' = fd \/ fds w !! fd' = None) /\ fds w' = <[fd':=f]> (delete fd (fds w))
    else fd' = fd /\ fds w' = fds w.
Proof.
  intros Hf H0. unfold dup_over_stdio. destruct (Z.ltb_spec fd 0); [lia|].
  run_call v w0 Eg.
  destruct (fd_getfd _ _ _ _ Eg) as [Hw0 Hv].
  destruct (Z.eqb_spec v (-1)) as [Hv1|_]; [apply Hv in Hv1; congruence|].
  destruct (Z.ltb_spec 2 fd).
  { exists true, fd, w0. split; [done|]. split_and!; [done|by left|].
    rewrite Hw0. by rewrite insert_delete_eq, insert_id. }
  rewrite run_bind. rewrite <- Hw0 in Hf.
  destruct (run_dup_loop f 3 fd w0 Hf H0) as (l & d & w1 & -> & Hnd & Hdl & Hl & Hsh & Hlen & Hk).
  destruct Hsh as [[-> ->]|(l' & -> & Hdn)]; [specialize (Hlen ltac:(lia)); done|].
  assert (forall t, t ∈ fd :: l' -> 0 <= t /\ fds w1 !! t = Some f) as Hlf.
  { intros t Ht. destruct (Hl t Ht). rewrite Hk, decide_True by (split; [lia|auto]). split; [lia|done]. }
  destruct (Z.ltb_spec d 3).
  - assert (d < 0) as Hd.
    { destruct (Z.lt_ge_cases d 0); [done|]. specialize (Hlen ltac:(lia)).
      pose proof (three_fds _ _ Hnd Hdl (fun t Ht => proj1 (Hl t Ht)) ltac:(lia)). lia. }
    destruct (Z.ltb_spec (-1) d); [lia|]. rewrite andb_false_r, run_ret_bind, run_bind. destruct (run_close_loop f fd (fd :: l') false w1) as (w2 & -> & Hw2); [done..|].
    exists false, fd, w2. split; [done|]. split; [done|]. apply map_eq. intros k.
    rewrite Hw2, Hk, <- Hw0. destruct (decide (k ∈ fd :: l' /\ _)) as [[Hc Hn]|Hc].
    + destruct (Hl k Hc) as [_ [->| ->]]; [by destruct Hn|done].
    + destruct (decide (0 <= k /\ _)) as [[? Hin]|]; [|done].
      destruct Hin as [Hin|?]; [|lia].
      destruct (decide (k = fd)) as [->|]; [done|]. destruct Hc. naive_solver.
  - rewrite run_bind. destruct (run_close_loop f d (fd :: l') true w1) as (w2 & -> & Hw2); [done..|].
    exists true, d, w2. split; [done|]. split_and!; [lia|right; rewrite <- Hw0; apply Hdn; lia|].
    apply map_eq. intros k. rewrite Hw2, Hk, <- Hw0.
    destruct (decide (k = d)) as [->|Hkd].
    { rewrite lookup_insert_eq, decide_False, decide_True; [done|split; [lia|auto]|]. by intros [? _]. }
    rewrite lookup_insert_ne by done. destruct (decide (k ∈ fd :: l' /\ _)) as [[Hc _]|Hc].
    + destruct (decide (k = fd)) as [->|]; [by rewrite lookup_delete_eq|].
      rewrite lookup_delete_ne by done. by destruct (Hl k Hc) as [_ [?| ->]].
    + rewrite decide_False, lookup_delete_ne; [done| |].
      * intros ->. destruct Hc. split; [left|]. by intros [? _].
      * intros [_ [Hin|?]]; [|done]. destruct Hc. split; [done|]. by intros [? _].
Qed.

End fd_facts.

(** A table of at most four descriptors. *)
Definition lowest_free (m : gmap Z string) : Z :=
  default (-1) (head (filter (fun k => m !! k = None) [0; 1; 2; 3])).

Definition fd_handler : handler (gmap Z string) := fun c w =>
  match c return reply c * gmap Z string with
  | Cfcntl_getfd fd => (match w !! fd with Some _ => 0 | None => -1 end, w)
  | Cdup fd =>
      match w !! fd with
      | Some f => let d := lowest_free w in if d <? 0 then (-1, w) else (d, <[d:=f]> w)
      | None => (-1, w)
      end
  | Cclose fd => match w !! fd with Some _ => (0, delete fd w) | None => (-1, w) end
  | c => (fail_reply c, w)
  end.

Lemma lowest_free_spec m :
  0 <= lowest_free m ->
  m !! lowest_free m = None /\ forall k, 0 <= k < lowest_free m -> m !! k <> None.
Proof.
  unfold lowest_free. intros H. repeat (rewrite filter_cons in *; case_decide; simpl in *);
    try (split; [done|]; intros k Hk);
    try (assert (k = 0 \/ k = 1 \/ k = 2) as [->|[-> | ->]] by lia; done || lia); lia.
Qed.

#[export, refine] Instance fd_handler_world : FdWorld (F := string) fd_handler := { fds w := w }.
Proof.
  - intros fd w v w' [= <- <-]. split; [done|]. destruct (w !! fd); split; done.
  - intros fd f w v w' Hh Hf. cbn in Hh. rewrite Hf in Hh. pose proof (lowest_free_spec w) as Hl.
    destruct (Z.ltb_spec (lowest_free w) 0); simplify_eq; [by left|right].
    destruct (Hl ltac:(lia)). done.
  - intros fd f w v w' Hh Hf. cbn in Hh. rewrite Hf in Hh. by simplify_eq.
Defined.

Lemma dup_over_stdio_moves_witness :
  let w : gmap Z string := {[0 := "tty"; 1 := "sock"]} in
  exists ret fd' w', run fd_handler (dup_over_stdio 1) w = (Done (ret, fd'), w') /\
    if ret : bool
    then 2 < fd' /\ (fd' = 1 \/ w !! fd' = None) /\ w' = <[fd':="sock"]> (delete 1 w)
    else fd' = 1 /\ w' = w.
Proof.
  intros w. exact (dup_over_stdio_moves fd_handler (F := string) w 1 "sock" eq_refl ltac:(lia)).
Defined.

(** ** Time stamps *)

(** The documented behaviour: adding hours moves a date by that time, whatever its
    time zone; [g_date_time_to_timeval] gives universal time. *)
Class GDateTimeLaws `{GDateTimeLib} := {
  add_hours_timeval dt n dt' s us : g_date_time_add_hours dt n = Some dt' -> g_date_time_to_timeval dt = Some (s, us) ->
    g_date_time_to_timeval dt' = Some (s + 3600 * n, us)
}.

(** The time stamp is that of the current time in universal time, except in summer,
    when it is an hour ahead. *)
Lemma timestamp_ahead `{GDateTimeLaws} dt dt1 s us :
  g_date_time_new_now_local = Some dt -> g_date_time_to_timeval dt = Some (s, us) -> g_date_time_add_hours dt 1 = Some dt1 ->
  cc_oci_get_iso8601_timestamp =
    g_time_val_to_iso8601 (s + (if g_date_time_is_daylight_savings dt then 3600 else 0), us).
Proof.
  intros Hn Ht Ha. unfold cc_oci_get_iso8601_timestamp. rewrite Hn. cbn [mbind option_bind].
  destruct (g_date_time_is_daylight_savings dt).
  - rewrite Ha. cbn [mbind option_bind]. by rewrite (add_hours_timeval dt 1 dt1 s us Ha Ht).
  - cbn [mbind option_bind]. rewrite Ht. cbn. by rewrite Z.add_0_r.
Qed.

(** Dates as seconds since 1970 and whether it is summer. *)
#[local] Instance dates_example (now : Z) (summer : bool) : GDateTimeLib := {|
  GDateTime := Z * bool; g_date_time_new_now_local := Some (now, summer); g_date_time_is_daylight_savings := snd;
  g_date_time_add_hours dt n := Some (dt.1 + 3600 * n, dt.2); g_date_time_to_timeval dt := Some (dt.1, 0);
  g_time_val_to_iso8601 tv := Some (fmt_d tv.1) |}.
#[local] Instance dates_example_laws now summer : @GDateTimeLaws (dates_example now summer).
Proof. constructor. by intros dt n dt' s us [= <-] [= <- <-]. Qed.

Example timestamp_summer : @cc_oci_get_iso8601_timestamp (dates_example 1000 true) = Some "4600".
Proof. reflexivity. Qed.
