(* ===== verification/Json.v ===== *)
(** * JSON documents as trees (src/src/json.c)

    A document is turned into a [GNode] tree: an object contributes an empty
    separator node and one node per member, an array the nodes of its
    elements, a value one node with its text. *)

From S2P Require Import Prelude GLib GLibRef Sys.

Definition NODE_BUF_SIZE : nat := 64.

Section json.
Context `{GL : GLib}.

(** Only called on values; the other cases never reach it. *)
Definition cc_oci_json_string (node : json) : string :=
  match node with
  | JString s => s
  | JDouble d => c_buf NODE_BUF_SIZE (g_fmt_f d)
  | JInt z => c_buf NODE_BUF_SIZE (fmt_d z)
  | JBool true => "true"
  | JBool false => "false"
  | _ => "Unknown type"
  end.

(** The nodes appended to the parent. *)
Fixpoint cc_oci_json_parse_aux (root : json) (parsing_array : bool) : list gnode :=
  match root with
  | JObject m =>
      GNode None [] ::
        map (fun kv => GNode (Some (fst kv)) (cc_oci_json_parse_aux (snd kv) false)) m
  | JArray l => flat_map (fun e => cc_oci_json_parse_aux e true) l
  | JNull => []
  | _ =>
      [GNode (Some (cc_oci_json_string root)) (if parsing_array then [GNode None []] else [])]
  end.

(** The tree on success; its root carries the name of the file. *)
Definition cc_oci_json_parse (filename : cstr) : io (option gnode) :=
  match filename with
  | None => mret None
  | Some filename =>
      if negb (str_nonempty filename) then mret None
      else
        parsed ← call_ (Cjson_load filename);
        match parsed with
        | None | Some None => mret None
        | Some (Some root) =>
            mret (Some (GNode (Some filename) (cc_oci_json_parse_aux root false)))
        end
  end.

(** ** Lemmas *)

Lemma json_string_int z :
  LONG_MIN <= z <= LONG_MAX ->
  cc_oci_json_string (JInt z) = fmt_d z.
Proof.
  intros Hz. simpl. unfold c_buf. apply str_take_all.
  pose proof (fmt_d_length z 19 ltac:(unfold LONG_MIN, LONG_MAX in Hz; lia)).
  unfold NODE_BUF_SIZE. lia.
Qed.

(** An array of values keeps their texts, one node each. *)
Lemma json_array_strings l :
  first_child_data <$> cc_oci_json_parse_aux (JArray (JString <$> l)) false = (fun _ => None) <$> l /\
  gn_data <$> cc_oci_json_parse_aux (JArray (JString <$> l)) false = Some <$> l.
Proof. split; (induction l as [|s l IH]; [done|]; simpl in *; f_equal; exact IH). Qed.

End json.
