(* ===== verification/Namespace.v ===== *)
(** * Namespaces (src/src/namespace.c) *)

From S2P Require Import Prelude GLib GLibRef Sys Types.

(** [oci_ns_map] *)
Definition oci_ns_map : list (oci_namespace * string) := [
  (OCI_NS_CGROUP, "cgroup"); (OCI_NS_IPC, "ipc"); (OCI_NS_MOUNT, "mount");
  (OCI_NS_NET, "network"); (OCI_NS_PID, "pid"); (OCI_NS_USER, "user"); (OCI_NS_UTS, "uts") ].

Definition cc_oci_ns_to_str (ns : oci_namespace) : cstr :=
  snd <$> List.find (fun p => bool_decide (fst p = ns)) oci_ns_map.

Section namespace.
Context `{GL : GLib}.

Definition cc_oci_str_to_ns (str : cstr) : oci_namespace :=
  match str with
  | None | Some EmptyString => OCI_NS_INVALID
  | Some _ =>
      match List.find (fun p => g_streq str (Some (snd p))) oci_ns_map with
      | Some p => fst p
      | None => OCI_NS_INVALID
      end
  end.

End namespace.

(** One iteration of the loop: [false] is the jump to [err]. *)
Definition ns_setup_one (ns : oci_cfg_namespace) : io bool :=
  if decide (ns_type ns = OCI_NS_INVALID) then mret true
  else if decide (ns_type ns <> OCI_NS_NET /\ ns_type ns <> OCI_NS_MOUNT) then mret true
  else
    match ns_path ns with
    | Some path =>
        fd ← call_ (Copen path);
        if fd <? 0 then mret false
        else
          r ← call_ (Csetns fd (oci_namespace_value (ns_type ns)));
          _ ← call_ (Cclose fd);
          mret (negb (r <? 0))
    | None =>
        r ← call_ (Cunshare (oci_namespace_value (ns_type ns)));
        mret (negb (r <? 0))
    end.

Fixpoint ns_setup_loop (l : list oci_cfg_namespace) : io bool :=
  match l with
  | [] => mret true
  | ns :: l => ok ← ns_setup_one ns; if ok : bool then ns_setup_loop l else mret false
  end.

Definition cc_oci_ns_setup (config : option cc_oci_config) : io bool :=
  match config with
  | None => mret false
  | Some config => ns_setup_loop (namespaces (oci config))
  end.

(** ** Properties *)

Section namespace_facts.
Context `{GL : GLib}.

(** The two namespace conversions are inverse: a string names a namespace
    exactly when the namespace prints as that string, and every other string
    is invalid. *)
Theorem str_to_ns_iff (s : string) (n : oci_namespace) :
  (cc_oci_str_to_ns (Some s) = n /\ n <> OCI_NS_INVALID) <-> cc_oci_ns_to_str n = Some s.
Proof.
  unfold cc_oci_str_to_ns, cc_oci_ns_to_str, oci_ns_map. simpl. rewrite !g_streq_spec. split.
  - destruct s as [|c s]; [naive_solver|].
    intros [Hn Hi]. repeat case_bool_decide; simplify_eq; done.
  - intros Hs. destruct n; simplify_eq/=; repeat case_bool_decide; done.
Qed.
End namespace_facts.

(** Descriptors opened and closed by an execution. *)
Definition opened (e : event) : option Z :=
  match e with
  | Ev c v => match c return reply c -> option Z with
              | Copen _ => fun fd => if fd <? 0 then None else Some fd
              | _ => fun _ => None
              end v
  end.

Definition closed (e : event) : option Z :=
  match e with Ev (Cclose fd) _ => Some fd | _ => None end.

(** The call changes the namespaces of the process by the given request. *)
Definition ns_change (e : event) : option Z :=
  match e with Ev (Csetns _ t) _ => Some t | Ev (Cunshare t) _ => Some t | _ => None end.

Definition ns_requested (ns : oci_cfg_namespace) : option Z :=
  match ns_type ns with
  | OCI_NS_NET | OCI_NS_MOUNT => Some (oci_namespace_value (ns_type ns))
  | _ => None
  end.

Lemma ns_setup_one_exec ns tr o :
  exec (ns_setup_one ns) tr o ->
  exists b, o = Done b /\ tr_map opened tr = tr_map closed tr /\
    if b : bool then tr_map ns_change tr = option_list (ns_requested ns)
    else tr_map ns_change tr `prefix_of` option_list (ns_requested ns).
Proof.
  unfold ns_setup_one. case_decide as H1; [intros [-> ->]; exists true; unfold ns_requested; by rewrite H1|].
  case_decide as H2.
  { intros [-> ->]. exists true. unfold ns_requested. destruct (ns_type ns); naive_solver. }
  assert (ns_requested ns = Some (oci_namespace_value (ns_type ns))) as ->.
  { unfold ns_requested. destruct (ns_type ns); naive_solver. }
  destruct (ns_path ns) as [path|]; cbn.
  - intros (fd & tr1 & -> & H). destruct (fd <? 0) eqn:E; cbn in H.
    + destruct H as [-> ->]. exists false. simpl. rewrite E. split_and!; try done. apply prefix_nil.
    + destruct H as (r & tr2 & -> & c & tr3 & -> & -> & ->). exists (negb (r <? 0)). simpl. rewrite E.
      split_and!; try done. destruct (r <? 0); simpl; reflexivity.
  - intros (r & tr1 & -> & -> & ->). exists (negb (r <? 0)). simpl. split_and!; try done.
    destruct (r <? 0); simpl; reflexivity.
Qed.

(** In every execution of the namespace setup, each descriptor opened is
    closed, in order, success or not; the namespaces changed are the network
    and mount ones requested, in the order of the configuration, all of them
    on success and a prefix on failure. *)
Theorem ns_setup_exec (config : cc_oci_config) (tr : list event) (o : outcome bool) :
  exec (cc_oci_ns_setup (Some config)) tr o ->
  tr_map opened tr = tr_map closed tr /\
  exists b, o = Done b /\
    let req := omap ns_requested (namespaces (oci config)) in
    if b : bool then tr_map ns_change tr = req else tr_map ns_change tr `prefix_of` req.
Proof.
  simpl. generalize (namespaces (oci config)). intros l. revert tr o.
  induction l as [|ns l IH]; intros tr o.
  { intros [-> ->]. split; [done|]. by exists true. }
  cbn [ns_setup_loop]. rewrite exec_bind.
  intros [(f & Hf & ->)|(tr1 & b & tr2 & -> & H1 & H2)].
  { by apply ns_setup_one_exec in Hf as (b & [=] & _). }
  apply ns_setup_one_exec in H1 as (? & [= <-] & Hfd & Hb). simpl. rewrite !tr_map_app, Hfd.
  destruct b.
  - apply IH in H2 as (Hfd2 & b & -> & Hch). split; [by rewrite Hfd2|]. exists b. split; [done|].
    rewrite Hb. destruct (ns_requested ns) as [t|]; simpl; destruct b; try (by rewrite Hch || done).
    by apply prefix_cons.
  - destruct H2 as [-> ->]. simpl. rewrite !app_nil_r. split; [done|]. exists false. split; [done|].
    destruct (ns_requested ns) as [t|]; simpl in *.
    + etransitivity; [exact Hb|]. apply prefix_cons, prefix_nil.
    + apply prefix_nil_inv in Hb as ->. apply prefix_nil.
Qed.

Definition ns_example : cc_oci_config :=
  set_oci (set_namespaces [Namespace OCI_NS_NET (Some "/proc/1/ns/net"); Namespace OCI_NS_PID None]
             oci_cfg_zero) cc_oci_config_zero.

Lemma ns_setup_exec_witness :
  let tr := [Ev (Copen "/proc/1/ns/net") 3; Ev (Csetns 3 1073741824) 0; Ev (Cclose 3) 0] in
  exec (cc_oci_ns_setup (Some ns_example)) tr (Done true) /\ tr_map opened tr = tr_map closed tr.
Proof.
  intros tr. assert (exec (cc_oci_ns_setup (Some ns_example)) tr (Done true)) as H.
  { exists 3, (tail tr). split; [done|]. exists 0, (tail (tail tr)). split; [done|].
    exists 0, []. by split. }
  split; [exact H|]. exact (proj1 (ns_setup_exec ns_example tr (Done true) H)).
Defined.
