(* ===== verification/Semver.v ===== *)
(** * Semantic version comparison (src/src/semver.c)

    The comparison is a pure function of two C strings.  Pointers into the
    duplicated patch string are offsets into a buffer, the writes of NUL
    bytes through them are kept ([str_set], [c_str]), the [long] difference of
    two numeric identifiers is truncated to [int] as the code does, and a
    version string with too few fields makes the code read through NULL. *)

From S2P Require Import Prelude GLib GLibRef Sys.

(** ** NUL bytes in buffers *)


Fixpoint str_set (i : nat) (c : ascii) (s : string) : string :=
  match i, s with
  | _, EmptyString => EmptyString
  | O, String _ s => String c s
  | S i, String c' s => String c' (str_set i c s)
  end.

Section semver.
Context `{GL : GLib}.

(** ** The program's functions *)

Fixpoint all_digits (s : string) : bool :=
  match s with
  | EmptyString => true
  | String c s => if g_ascii_isdigit c then all_digits s else false
  end.

Definition cc_oci_string_is_numeric (str : cstr) : bool :=
  match str with None => false | Some s => all_digits s end.

(** The loop over the dot-separated fields. *)
Fixpoint cmp_pre_release_fields (fields_a fields_b : list string) : Z :=
  match fields_a, fields_b with
  | _ :: _, [] => 1
  | [], _ :: _ => -1
  | [], [] => 0
  | fa :: fields_a, fb :: fields_b =>
      let ret :=
        if cc_oci_string_is_numeric (Some fa) && cc_oci_string_is_numeric (Some fb)
        then s32 (atol fa - atol fb)
        else g_strcmp0 (Some fa) (Some fb) in
      if decide (ret = 0) then cmp_pre_release_fields fields_a fields_b else ret
  end.

Definition cc_oci_semver_cmp_patch_pre_releases (pre_rel_a pre_rel_b : string) : Z :=
  cmp_pre_release_fields (g_strsplit pre_rel_a "." (-1)) (g_strsplit pre_rel_b "." (-1)).

(** [patch_num], [pre_release], [build_metadata]: the two pointers are found
    in the original string, then a NUL is written at each of them. *)
Definition cc_oci_semver_split_patch_version (patch_version : string) : Z * cstr * cstr :=
  let build_metadata := g_strstr_len patch_version (-1) "+" in
  let pre_release := g_strstr_len patch_version (-1) "-" in
  let buf := match pre_release with Some i => str_set i NUL patch_version | None => patch_version end in
  let buf := match build_metadata with Some i => str_set i NUL buf | None => buf end in
  (atoi (c_str buf),
   (fun i => c_str (str_drop (S i) buf)) <$> pre_release,
   (fun i => c_str (str_drop (S i) buf)) <$> build_metadata).

Definition cc_oci_semver_cmp_patch_versions (patch_a patch_b : string) : Z :=
  let '(pva, pra, _) := cc_oci_semver_split_patch_version patch_a in
  let '(pvb, prb, _) := cc_oci_semver_split_patch_version patch_b in
  if decide (pva > pvb) then 1
  else if decide (pva < pvb) then -1
  else match pra, prb with
       | Some _, None => -1
       | None, Some _ => 1
       | None, None => 0
       | Some pra, Some prb => cc_oci_semver_cmp_patch_pre_releases pra prb
       end.

(** [fields_a[0]], [fields_a[1]] are handed to [atol]: with fewer than two
    fields one of them is NULL.  [fields_a[2]] is only used by the full
    comparison, which asserts that it is set. *)
Definition cc_oci_semver_cmp_fields (fields_a fields_b : list string) (compatible : bool)
    : outcome Z :=
  match fields_a, fields_b with
  | major_a :: minor_a :: rest_a, major_b :: minor_b :: rest_b =>
      let maj_a := atol major_a in
      let min_a := atol minor_a in
      let maj_b := atol major_b in
      let min_b := atol minor_b in
      if decide (maj_a > maj_b) then Done 1
      else if decide (maj_a < maj_b) then Done (-1)
      else if compatible then Done 0
      else if decide (min_a > min_b) then Done 1
      else if decide (min_a < min_b) then Done (-1)
      else match rest_a, rest_b with
           | patch_a :: _, patch_b :: _ => Done (cc_oci_semver_cmp_patch_versions patch_a patch_b)
           | _, _ => Fault AssertFailed
           end
  | _, _ => Fault NullDeref
  end.

(** [g_assert (version_a)], [g_assert (version_b)], then the comparison of at
    most three dot-separated fields. *)
Definition cc_oci_semver_2_0_0_cmp (version_a version_b : cstr) (compatible : bool) : outcome Z :=
  match version_a, version_b with
  | Some version_a, Some version_b =>
      cc_oci_semver_cmp_fields (g_strsplit version_a "." 3) (g_strsplit version_b "." 3) compatible
  | _, _ => Fault AssertFailed
  end.

Definition cc_oci_semver_cmp_full (version_a version_b : cstr) : outcome Z :=
  cc_oci_semver_2_0_0_cmp version_a version_b false.

Definition cc_oci_semver_cmp (version_a version_b : cstr) : outcome Z :=
  cc_oci_semver_2_0_0_cmp version_a version_b true.

End semver.

(** ** SemVer 2.0.0 precedence, the specification of the comparison *)

Inductive ident := INum (n : Z) | IAlnum (s : string).

Record version := Version {
  v_major : Z; v_minor : Z; v_patch : Z;
  v_pre : list ident;       (* pre-release identifiers, [] when there are none *)
  v_build : option string   (* build metadata *)
}.

Definition print_ident (i : ident) : string :=
  match i with INum n => fmt_d n | IAlnum s => s end.

Definition print_pre (l : list ident) : string :=
  match l with [] => EmptyString | _ => "-" +:+ join "." (print_ident <$> l) end.

Definition print_build (b : option string) : string :=
  match b with None => EmptyString | Some b => "+" +:+ b end.

Definition print_patch (v : version) : string :=
  fmt_d (v_patch v) +:+ print_pre (v_pre v) +:+ print_build (v_build v).

Definition print_version (v : version) : string :=
  fmt_d (v_major v) +:+ "." +:+ fmt_d (v_minor v) +:+ "." +:+ print_patch v.

(** Rules 11.4.1 to 11.4.4 of the standard. *)
Definition cmp_ident (a b : ident) : comparison :=
  match a, b with
  | INum a, INum b => Z.compare a b
  | INum _, IAlnum _ => Lt
  | IAlnum _, INum _ => Gt
  | IAlnum a, IAlnum b => String.compare a b
  end.

Fixpoint cmp_idents (a b : list ident) : comparison :=
  match a, b with
  | [], [] => Eq
  | [], _ => Lt
  | _, [] => Gt
  | x :: a, y :: b => match cmp_ident x y with Eq => cmp_idents a b | c => c end
  end.

Definition cmp_pre (a b : list ident) : comparison :=
  match a, b with
  | [], [] => Eq
  | [], _ => Gt
  | _, [] => Lt
  | _, _ => cmp_idents a b
  end.

Definition precedence (a b : version) : comparison :=
  match Z.compare (v_major a) (v_major b) with
  | Eq => match Z.compare (v_minor a) (v_minor b) with
          | Eq => match Z.compare (v_patch a) (v_patch b) with
                  | Eq => cmp_pre (v_pre a) (v_pre b)
                  | c => c
                  end
          | c => c
          end
  | c => c
  end.

(** The versions for which the code implements the standard: numbers that fit
    an [int], alphanumeric identifiers that start with a letter, and no
    hyphen in the build metadata of a version without pre-release. *)
Definition wf_num (n : Z) : Prop := 0 <= n <= INT_MAX.

Definition wf_alnum (s : string) : Prop :=
  (exists c s', s = String c s' /\ (57 < N_of_ascii c)%N) /\
  str_free "." s /\ str_free "+" s /\ str_free NUL s.

Definition wf_ident (i : ident) : Prop :=
  match i with INum n => wf_num n | IAlnum s => wf_alnum s end.

Definition wf_version (v : version) : Prop :=
  wf_num (v_major v) /\ wf_num (v_minor v) /\ wf_num (v_patch v) /\
  Forall wf_ident (v_pre v) /\
  match v_build v with
  | None => True
  | Some b => str_free NUL b /\ (v_pre v = [] -> str_free "-" b)
  end.

Definition cmp_sign (c : comparison) : Z := match c with Eq => 0 | Lt => -1 | Gt => 1 end.

(** ** Lemmas *)

Section semver_facts.
Context `{GL : GLib}.

Lemma str_set_app a c c' b :
  str_set (String.length a) c (a +:+ String c' b) = a +:+ String c b.
Proof. induction a as [|x a IH]; [done|]. rewrite !str_app_cons. simpl. by rewrite IH. Qed.

Lemma str_drop_S_app a c b : str_drop (S (String.length a)) (a +:+ String c b) = b.
Proof. induction a as [|x a IH]; [by destruct b|]. rewrite str_app_cons. apply IH. Qed.

Lemma fmt_d_free_nul z : 0 <= z -> str_free NUL (fmt_d z).
Proof. intros. by apply fmt_d_free. Qed.

Lemma all_digits_spec s :
  Forall (fun c => ascii_is_digit c = true) (String.list_ascii_of_string s) -> all_digits s = true.
Proof.
  induction s as [|c s IH]; [done|]. simpl. rewrite Forall_cons. intros [Hc Hs].
  rewrite g_ascii_isdigit_spec, Hc. auto.
Qed.

Lemma atol_fmt_d z : LONG_MIN <= z <= LONG_MAX -> atol (fmt_d z) = z.
Proof. intros. unfold atol. by rewrite (proj1 (strtoll_fmt_d z ltac:(done))). Qed.

Lemma wf_num_long z : wf_num z -> LONG_MIN <= z <= LONG_MAX.
Proof. unfold wf_num, INT_MAX, LONG_MIN, LONG_MAX. lia. Qed.

Lemma wf_num_int z : wf_num z -> INT_MIN <= z <= INT_MAX.
Proof. unfold wf_num, INT_MIN, INT_MAX. lia. Qed.

Lemma fmt_d_nonempty z : LONG_MIN <= z <= LONG_MAX -> fmt_d z <> EmptyString.
Proof. intros H E. destruct (strtoll_fmt_d z H) as [_ Hl]. rewrite E in Hl. simpl in Hl. lia. Qed.

(** The patch field of a printed version is taken apart correctly. *)
Lemma print_ident_ok i :
  wf_ident i -> print_ident i <> EmptyString /\ str_free "." (print_ident i)
                /\ str_free "+" (print_ident i) /\ str_free NUL (print_ident i).
Proof.
  destruct i as [n|s]; simpl.
  - intros H. split; [by apply fmt_d_nonempty, wf_num_long|].
    unfold wf_num in H. split_and!; apply fmt_d_free; (lia || done).
  - intros ((c & s' & -> & _) & H). done.
Qed.

Lemma str_free_join c sep l :
  str_free c sep -> Forall (str_free c) l -> str_free c (join sep l).
Proof.
  intros Hs. induction l as [|x l IH]; [constructor|].
  rewrite Forall_cons. intros [Hx Hl]. destruct l; [done|].
  change (join sep (x :: s :: l)) with (x +:+ sep +:+ join sep (s :: l)).
  rewrite !str_free_app. auto.
Qed.

Lemma join_idents_ok l :
  Forall wf_ident l ->
  str_free "+" (join "." (print_ident <$> l)) /\ str_free NUL (join "." (print_ident <$> l)).
Proof.
  intros H. split; (apply str_free_join; [apply str_free_cons; split; [done|apply Forall_nil_2]|]);
    apply Forall_fmap; (eapply Forall_impl; [exact H|]); intros i Hi; by destruct (print_ident_ok i Hi) as (? & ? & ? & ?).
Qed.

Definition pre_string (v : version) : cstr :=
  match v_pre v with [] => None | _ => Some (join "." (print_ident <$> v_pre v)) end.

Definition tagged (c : ascii) (s : cstr) : string :=
  match s with None => EmptyString | Some s => String c s end.

Lemma split_patch_build n b :
  str_free "-" n -> str_free "+" n -> str_free NUL n -> str_free "-" (tagged "+" b) ->
  cc_oci_semver_split_patch_version (n +:+ tagged "+" b) = (atoi n, None, c_str <$> b).
Proof.
  intros H1 H2 H3 Hb. unfold cc_oci_semver_split_patch_version. rewrite !g_strstr_len_spec.
  rewrite (strstr_free "-") by by apply str_free_app.
  destruct b as [b|]; cbn [tagged].
  - rewrite strstr_first, str_set_app, c_str_cut by done.
    cbn [fmap option_fmap option_map]. by rewrite str_drop_S_app.
  - rewrite str_app_nil_r, strstr_free, c_str_free by done. done.
Qed.

Lemma split_patch_pre n pre b :
  str_free "-" n -> str_free "+" n -> str_free NUL n -> str_free "+" pre -> str_free NUL pre ->
  exists r, cc_oci_semver_split_patch_version (n +:+ String "-" pre +:+ tagged "+" b)
            = (atoi n, Some pre, r).
Proof.
  intros H1 H2 H3 Hp1 Hp2. unfold cc_oci_semver_split_patch_version. rewrite !g_strstr_len_spec.
  assert (str_free "+" (n +:+ String "-" pre)) as Hnp
    by (apply str_free_app; split; [done|by apply str_free_cons]).
  rewrite str_app_cons, (strstr_first "-" n), str_set_app by done.
  destruct b as [b|]; cbn [tagged].
  - rewrite <- !str_app_cons, <- !str_app_assoc.
    rewrite (strstr_first "+") by done.
    replace (String.length (n +:+ String "-" pre)) with (String.length (n +:+ String NUL pre))
      by by rewrite !str_length_app.
    rewrite str_set_app, str_app_assoc, str_app_cons, c_str_cut by done. cbn [fmap option_fmap option_map].
    rewrite str_drop_S_app, c_str_cut by done. by eexists.
  - rewrite str_app_nil_r, strstr_free, c_str_cut by done. cbn [fmap option_fmap option_map].
    rewrite str_drop_S_app, c_str_free by done. by eexists.
Qed.

Lemma split_patch_printed v :
  wf_version v ->
  exists b, cc_oci_semver_split_patch_version (print_patch v) = (v_patch v, pre_string v, b).
Proof.
  intros (_ & _ & Hp & Hi & Hb). unfold print_patch, pre_string. pose proof Hp as [Hp0 _].
  change (print_build (v_build v)) with (tagged "+" (v_build v)).
  pose proof (atoi_fmt_d (v_patch v) (wf_num_int _ Hp)) as Ha.
  assert (str_free "-" (fmt_d (v_patch v)) /\ str_free "+" (fmt_d (v_patch v))
          /\ str_free NUL (fmt_d (v_patch v))) as (? & ? & ?) by (split_and!; by apply fmt_d_free).
  destruct (v_pre v) as [|i l] eqn:Epre; cbn [print_pre].
  - rewrite str_app_nil_l. eexists. rewrite split_patch_build, Ha; try done.
    destruct (v_build v); [apply str_free_cons; split; [done|by apply Hb]|apply Forall_nil_2].
  - apply join_idents_ok in Hi as [Hi1 Hi2].
    destruct (split_patch_pre (fmt_d (v_patch v)) (join "." (print_ident <$> i :: l)) (v_build v))
      as [r Hr]; [done..|].
    rewrite Ha in Hr. by exists r.
Qed.

Lemma alnum_not_numeric s : wf_alnum s -> cc_oci_string_is_numeric (Some s) = false.
Proof.
  intros ((c & s' & -> & Hc) & _). simpl. rewrite g_ascii_isdigit_spec.
  unfold ascii_is_digit. destruct (N.leb_spec (N_of_ascii c) 57); [lia|]. by rewrite andb_false_r.
Qed.

Lemma num_lt_alnum n s : wf_num n -> wf_alnum s -> String.compare (fmt_d n) s = Lt.
Proof.
  intros Hn ((c & s' & -> & Hc) & _). pose proof (fmt_d_digits n ltac:(by destruct Hn)) as Hd.
  pose proof (fmt_d_nonempty n (wf_num_long _ Hn)).
  destruct (fmt_d n) as [|d t]; [done|]. simpl in *. apply Forall_cons in Hd as [Hd _].
  unfold ascii_is_digit in Hd. apply andb_prop in Hd as [_ Hd%N.leb_le].
  unfold Ascii.compare. rewrite (proj2 (N.compare_lt_iff _ _)) by lia. done.
Qed.

Lemma sgn_compare z : Z.sgn z = cmp_sign (Z.compare z 0).
Proof. by destruct z. Qed.

(** One field: the sign of the code's result is the standard's order. *)
Definition field_cmp (fa fb : string) : Z :=
  if cc_oci_string_is_numeric (Some fa) && cc_oci_string_is_numeric (Some fb)
  then s32 (atol fa - atol fb) else g_strcmp0 (Some fa) (Some fb).

Lemma field_cmp_sgn a b :
  wf_ident a -> wf_ident b -> Z.sgn (field_cmp (print_ident a) (print_ident b)) = cmp_sign (cmp_ident a b).
Proof.
  intros Ha Hb. unfold field_cmp. destruct a as [n|s], b as [m|t]; simpl in *.
  - pose proof Ha as [? ?]. pose proof Hb as [? ?].
    rewrite !all_digits_spec by by apply fmt_d_digits. simpl.
    rewrite !atol_fmt_d by by apply wf_num_long.
    unfold INT_MAX in *. rewrite s32_small by (unfold INT_MIN, INT_MAX; lia).
    rewrite sgn_compare. f_equal. by rewrite <- Z.compare_sub.
  - pose proof (alnum_not_numeric _ Hb) as Hx. simpl in Hx. rewrite Hx, andb_false_r.
    rewrite g_strcmp0_spec. simpl. unfold strcmp. by rewrite num_lt_alnum.
  - pose proof (alnum_not_numeric _ Ha) as Hx. simpl in Hx. rewrite Hx. simpl.
    rewrite g_strcmp0_spec. simpl. unfold strcmp.
    by rewrite String.compare_antisym, num_lt_alnum.
  - pose proof (alnum_not_numeric _ Ha) as Hx. simpl in Hx. rewrite Hx. simpl.
    rewrite g_strcmp0_spec. simpl. unfold strcmp. by destruct (String.compare s t).
Qed.

Lemma cmp_fields_sgn la lb :
  Forall wf_ident la -> Forall wf_ident lb ->
  Z.sgn (cmp_pre_release_fields (print_ident <$> la) (print_ident <$> lb)) = cmp_sign (cmp_idents la lb).
Proof.
  revert lb. induction la as [|a la IH]; intros [|b lb] Ha Hb; simpl; try done.
  apply Forall_cons in Ha as [Ha Hla]. apply Forall_cons in Hb as [Hb Hlb].
  pose proof (field_cmp_sgn a b Ha Hb) as Hf. unfold field_cmp in Hf. simpl in Hf.
  case_decide as Hd.
  - rewrite Hd in Hf. simpl in Hf. destruct (cmp_ident a b); try done. by apply IH.
  - rewrite Hf. destruct (cmp_ident a b); try done. simpl in Hf. lia.
Qed.

Lemma cmp_patch_printed a b :
  wf_version a -> wf_version b ->
  Z.sgn (cc_oci_semver_cmp_patch_versions (print_patch a) (print_patch b)) =
    cmp_sign (match Z.compare (v_patch a) (v_patch b) with
              | Eq => cmp_pre (v_pre a) (v_pre b) | c => c end).
Proof.
  intros Ha Hb. unfold cc_oci_semver_cmp_patch_versions.
  destruct (split_patch_printed a Ha) as [ba ->]. destruct (split_patch_printed b Hb) as [bb ->].
  destruct (Z.compare_spec (v_patch a) (v_patch b)) as [He|Hl|Hg];
    repeat case_decide; try lia; try done.
  destruct Ha as (_ & _ & _ & Hia & _), Hb as (_ & _ & _ & Hib & _).
  unfold pre_string, cmp_pre. destruct (v_pre a) as [|i la], (v_pre b) as [|j lb]; try done.
  unfold cc_oci_semver_cmp_patch_pre_releases.
  assert (forall l, l <> [] -> Forall wf_ident l ->
    g_strsplit (join "." (print_ident <$> l)) "." (-1) = print_ident <$> l) as Hsp.
  { intros l Hl Hw. apply (g_strsplit_join "."); [lia|by destruct l|].
    apply Forall_fmap. eapply Forall_impl; [exact Hw|]. intros x Hx.
    apply print_ident_ok in Hx as (? & ? & _). done. }
  rewrite !Hsp by done. by apply cmp_fields_sgn.
Qed.

Lemma split_printed v :
  wf_version v ->
  g_strsplit (print_version v) "." 3 = [fmt_d (v_major v); fmt_d (v_minor v); print_patch v].
Proof.
  intros (Hmaj & Hmin & Hp & _). unfold print_version.
  pose proof (fmt_d_nonempty _ (wf_num_long _ Hmin)). pose proof (fmt_d_nonempty _ (wf_num_long _ Hp)).
  assert (print_patch v <> EmptyString) by (unfold print_patch; by destruct (fmt_d (v_patch v))).
  change ("." +:+ ?x) with (String "." x).
  rewrite g_strsplit_step; [|lia|by destruct Hmaj; apply fmt_d_free|by destruct (fmt_d (v_minor v))].
  f_equal. change ("." +:+ ?x) with (String "." x).
  rewrite g_strsplit_step; [|lia|by destruct Hmin; apply fmt_d_free|done].
  f_equal. apply g_strsplit_last; [done|]. by left.
Qed.

Lemma cmp_sign_sgn c : Z.sgn (cmp_sign c) = cmp_sign c.
Proof. by destruct c. Qed.

Lemma g_strsplit_two s i :
  strstr s "." = Some i -> exists m rest, g_strsplit s "." 3 = str_take i s :: m :: rest.
Proof.
  intros Hi. rewrite (g_strsplit_cons s "." 3 i) by done. cbn zeta.
  set (r := str_drop _ s). case_decide; [by do 2 eexists|].
  destruct (strstr r ".") as [j|] eqn:E.
  - rewrite (g_strsplit_cons r "." _ j) by done. by do 2 eexists.
  - rewrite g_strsplit_last by auto. by do 2 eexists.
Qed.

Lemma g_strsplit_short s :
  strstr s "." = None -> g_strsplit s "." 3 = [] \/ g_strsplit s "." 3 = [s].
Proof.
  intros Hi. destruct (decide (s = EmptyString)) as [->|]; [left; apply g_strsplit_empty|].
  right. apply g_strsplit_last; auto.
Qed.

(** ** Properties *)

(** C33.  For versions whose numbers fit an int, whose alphanumeric identifiers
    start with a letter and whose build metadata of a release has no hyphen,
    the full comparison returns, and the sign of its result is the SemVer
    2.0.0 precedence of the two versions (build metadata ignored). *)
Theorem semver_cmp_full_precedence (a b : version) :
  wf_version a -> wf_version b ->
  exists r, cc_oci_semver_cmp_full (Some (print_version a)) (Some (print_version b)) = Done r /\
            Z.sgn r = cmp_sign (precedence a b).
Proof.
  intros Ha Hb. unfold cc_oci_semver_cmp_full, cc_oci_semver_2_0_0_cmp, precedence.
  rewrite !split_printed by done. cbn [cc_oci_semver_cmp_fields].
  pose proof (cmp_patch_printed a b Ha Hb) as Hpatch.
  destruct Ha as (Ha1 & Ha2 & _), Hb as (Hb1 & Hb2 & _).
  rewrite !atol_fmt_d by by apply wf_num_long.
  destruct (Z.compare_spec (v_major a) (v_major b)), (Z.compare_spec (v_minor a) (v_minor b));
    repeat case_decide; try lia; try by eexists.
Qed.

(** The compatibility comparison is the three-way comparison of the numbers
    before the first dot, for any two strings that have a dot; if either has
    none, the code reads through a NULL field. *)
Theorem semver_cmp_compat (a b : string) :
  cc_oci_semver_cmp (Some a) (Some b) =
    match strstr a ".", strstr b "." with
    | Some i, Some j => Done (cmp_sign (Z.compare (atol (str_take i a)) (atol (str_take j b))))
    | _, _ => Fault NullDeref
    end.
Proof.
  unfold cc_oci_semver_cmp, cc_oci_semver_2_0_0_cmp.
  destruct (strstr a ".") as [i|] eqn:Ea.
  - destruct (g_strsplit_two a i Ea) as (m & r & ->).
    destruct (strstr b ".") as [j|] eqn:Eb.
    + destruct (g_strsplit_two b j Eb) as (m' & r' & ->). cbn [cc_oci_semver_cmp_fields].
      destruct (Z.compare_spec (atol (str_take i a)) (atol (str_take j b)));
        repeat case_decide; done || lia.
    + by destruct (g_strsplit_short b Eb) as [-> | ->].
  - by destruct (g_strsplit_short a Ea) as [-> | ->].
Qed.

End semver_facts.

Lemma semver_cmp_full_precedence_witness :
  let a := Version 1 0 0 [IAlnum "alpha"; INum 2] None in
  let b := Version 1 0 0 [] (Some "build.5") in
  exists r, cc_oci_semver_cmp_full (GL := glib_ref) (Some (print_version a)) (Some (print_version b))
            = Done r /\ Z.sgn r = cmp_sign (precedence a b) /\ precedence a b = Lt.
Proof.
  intros a b.
  assert (wf_num 1 /\ wf_num 0 /\ wf_num 2) as (? & ? & ?) by (unfold wf_num, INT_MAX; lia).
  assert (wf_version a) as Ha.
  { split_and!; [done..| |exact I]. constructor; [|by repeat constructor].
    split; [by exists "a"%char, "lpha"|]. split_and!; repeat constructor; discriminate. }
  assert (wf_version b) as Hb.
  { split_and!; [done..|constructor|]. split; [|intros _]; repeat constructor; discriminate. }
  destruct (semver_cmp_full_precedence (GL := glib_ref) a b Ha Hb) as (r & Hr & Hs).
  exists r. split; [exact Hr|]. split; [exact Hs|reflexivity].
Defined.

(** ** Where the code departs from the standard *)

(** The standard ranks a numeric identifier below any alphanumeric one; the
    code compares "5" and "1a" byte by byte. *)
Example semver_mixed_identifiers :
  cc_oci_semver_cmp_full (GL := glib_ref) (Some "1.0.0-5") (Some "1.0.0-1a") = Done 1.
Proof. vm_compute. reflexivity. Qed.

(** A hyphen in the build metadata is taken for the start of a pre-release. *)
Example semver_build_hyphen :
  cc_oci_semver_cmp_full (GL := glib_ref) (Some "1.0.0+a-b") (Some "1.0.0") = Done (-1).
Proof. vm_compute. reflexivity. Qed.

(** The difference of two [long]s is truncated to [int]. *)
Example semver_truncated_difference :
  cc_oci_semver_cmp_full (GL := glib_ref) (Some "1.0.0-4294967296") (Some "1.0.0-0") = Done 0.
Proof. vm_compute. reflexivity. Qed.
