(* ===== verification/Config.v ===== *)
(** * Paths, versions and pods of a configuration

    src/src/runtime.c, src/src/oci-config.c (without the spec handlers),
    src/src/annotation.c, the path helpers of src/src/oci.c and the predicates
    and annotations of src/src/pod.c.  A function that changes the
    configuration returns the changed one with its result. *)

From S2P Require Import Prelude GLib GLibRef Sys Types Util Semver.

(** ** Constants *)

(** Directories chosen when the program is configured. *)
Class Build := {
  LOCALSTATEDIR : string;
  SYSCONFDIR : string;
  DEFAULTSDIR : string;
  LIBEXECDIR : string
}.

Definition CC_OCI_SUPPORTED_SPEC_VERSION : string := "1.0.0-rc1".
Definition CC_OCI_CONFIG_FILE : string := "config.json".
Definition CC_OCI_STATE_FILE : string := "state.json".
Definition CC_OCI_HYPERVISOR_SOCKET : string := "hypervisor.sock".
Definition CC_OCI_PROCESS_SOCKET : string := "process.sock".
Definition CC_OCI_VM_CONFIG : string := "vm.json".
Definition CC_POD_SANDBOX_ROOTFS : string := "workloads".
Definition CC_OCI_EXPECTED_PLATFORM : string := "linux".
Definition CC_OCI_EXPECTED_ARCHITECTURE : string := "amd64".
Definition CC_OCI_DIR_MODE : Z := 488.      (* 0750 *)
Definition MS_BIND : Z := 4096.
Definition EINVAL : Z := 22.

Definition CC_OCI_RUNTIME_DIR_PREFIX `{Build} : string := LOCALSTATEDIR +:+ "/run/cc-oci-runtime".

(** [g_snprintf (buf, size, "%s", s)]: the C library prints a NULL string as
    "(null)". *)
Definition fmt_s (s : cstr) : string := default "(null)" s.

Section config.
Context `{GL : GLib} `{BD : Build}.

(** ** src/src/runtime.c *)

(** The new configuration, when the function succeeds. *)
Definition cc_oci_runtime_path_get (config : cc_oci_config) : option cc_oci_config :=
  match optarg_container_id config with
  | None => None
  | Some id =>
      let dir := default CC_OCI_RUNTIME_DIR_PREFIX (root_dir config) in
      Some (set_state (set_runtime_path (c_buf PATH_MAX (dir +:+ "/" +:+ id)) (state config)) config)
  end.

Definition set_socket_paths (config : cc_oci_config) : cc_oci_config :=
  let st := state config in
  let st := set_comms_path
              (c_buf PATH_MAX (runtime_path st +:+ "/" +:+ CC_OCI_HYPERVISOR_SOCKET)) st in
  let st := set_procsock_path
              (c_buf PATH_MAX (runtime_path st +:+ "/" +:+ CC_OCI_PROCESS_SOCKET)) st in
  set_state st config.

Definition cc_oci_runtime_dir_setup (config : cc_oci_config) : io (bool * cc_oci_config) :=
  match (if str_nonempty (runtime_path (state config)) then Some config
         else cc_oci_runtime_path_get config) with
  | None => mret (false, config)
  | Some config =>
      let config := set_socket_paths config in
      let path := runtime_path (state config) in
      _ ← call_ (Cg_mkdir_with_parents (g_path_get_dirname path) CC_OCI_DIR_MODE);
      r ← call_ (Cg_mkdir_with_parents path CC_OCI_DIR_MODE);
      mret (r =? 0, config)
  end.

Definition cc_oci_runtime_dir_delete (config : cc_oci_config) : io bool :=
  if negb (bool_decide (first_char (runtime_path (state config)) = Some "/"%char)) then mret false
  else cc_oci_rm_rf (Some (runtime_path (state config))).

(** ** src/src/oci-config.c and the path helpers of src/src/oci.c *)

Definition cc_oci_config_check (config : cc_oci_config) : outcome bool :=
  match oci_version (oci config) with
  | None => Done false
  | Some v =>
      match cc_oci_semver_cmp (Some CC_OCI_SUPPORTED_SPEC_VERSION) (Some v) with
      | Done ret => Done (negb (ret <? 0))
      | Fault f => Fault f
      end
  end.

Definition cc_oci_get_bundlepath_file (bundle_path file : cstr) : cstr :=
  match bundle_path, file with
  | Some b, Some f => if str_nonempty b && str_nonempty f then Some (g_build_path b f) else None
  | _, _ => None
  end.

Definition cc_oci_config_file_path (bundle_path : cstr) : cstr :=
  match bundle_path with
  | None => None
  | Some _ => cc_oci_get_bundlepath_file bundle_path (Some CC_OCI_CONFIG_FILE)
  end.

Definition cc_oci_config_create : cc_oci_config :=
  set_proxy (Some cc_proxy_zero) cc_oci_config_zero.

Definition cc_oci_get_workload_dir (config : cc_oci_config) : string :=
  match pod config with
  | Some p => sandbox_workloads p
  | None => root_path (root (oci config))
  end.

(** ** src/src/annotation.c *)

Definition cc_oci_annotations_to_json (config : cc_oci_config) : list (string * json) :=
  fold_left (fun obj a => json_object_set_string_member obj (key a) (value a))
    (annotations (oci config)) [].

(** ** src/src/pod.c *)

Definition cc_pod_container_id (config : cc_oci_config) : cstr :=
  match pod config with
  | Some p => if sandbox p then optarg_container_id config else sandbox_name p
  | None => optarg_container_id config
  end.

Definition cc_pod_is_sandbox (config : cc_oci_config) : bool :=
  match pod config with Some p => sandbox p | None => false end.

Definition cc_pod_is_vm (config : cc_oci_config) : bool :=
  match pod config with Some p => sandbox p | None => true end.

(** Only called with [config->pod] set.  The result has the mount added
    last. *)
Definition add_container_mount (config : cc_oci_config) : cc_oci_config :=
  let m := set_flags MS_BIND cc_oci_mount_zero in
  let m := set_mnt_dir
             (Some (c_buf PATH_MAX ("/" +:+ fmt_s (optarg_container_id config) +:+ "/rootfs"))) m in
  let m := set_mnt_fsname (Some (root_path (root (oci config)))) m in
  let m := set_mnt_type (Some "bind") m in
  set_oci (set_mounts (mounts (oci config) ++ [m]) (oci config)) config.

Definition sandbox_workloads_path (name : cstr) : string :=
  c_buf PATH_MAX
    (CC_OCI_RUNTIME_DIR_PREFIX +:+ "/" +:+ fmt_s name +:+ "/" +:+ CC_POD_SANDBOX_ROOTFS).

(** The result is 0 or a negated errno. *)
Definition cc_pod_handle_annotations (config : cc_oci_config) (a : oci_cfg_annotation)
    : Z * cc_oci_config :=
  match value a with
  | None => (- EINVAL, config)
  | Some v =>
      if negb (String.prefix "ocid/" (key a)) then (0, config)
      else
        let p := default cc_pod_zero (pod config) in
        let config := set_pod (Some p) config in
        if g_streq (Some (key a)) (Some "ocid/container_type") then
          if g_streq (Some v) (Some "sandbox") then
            let p := set_sandbox_name (optarg_container_id config) (set_sandbox true p) in
            let config := add_container_mount (set_pod (Some p) config) in
            let p := set_sandbox_workloads (sandbox_workloads_path (optarg_container_id config)) p in
            (0, set_pod (Some p) config)
          else if g_streq (Some v) (Some "container") then
            (0, set_pod (Some (set_sandbox false p)) config)
          else (0, config)
        else if g_streq (Some (key a)) (Some "ocid/sandbox_name") then
          let p := set_sandbox_name (Some v) p in
          let p := set_sandbox_workloads (sandbox_workloads_path (Some v)) p in
          (0, add_container_mount (set_pod (Some p) config))
        else (0, config)
  end.

End config.
