(* ===== verification/SpecHandlers.v ===== *)
(** * The handlers of the sections of config.json

    src/src/spec_handlers/*.c, src/src/spec_handler.c and
    [cc_oci_process_config] of src/src/oci-config.c.  The handlers walk the
    tree that src/src/json.c builds.  Three of them collect an element in a
    static variable until its separator comes; the statics are part of the
    state ([statics]), so that what one call leaves behind is seen by the
    next.  [error_detected] is reset when a section starts. *)

From S2P Require Import Prelude GLib GLibRef Sys Types Util Json Namespace Semver Config.

Record statics := Statics {
  current_hook : option oci_cfg_hook;
  current_ns : option oci_cfg_namespace;
  current_mount : option cc_oci_mount
}.

Definition statics_zero : statics := Statics None None None.

(** What the callbacks of one section share: the list being built, the
    element being collected and [error_detected]. *)
Record collect (A : Type) := Collect {
  col_list : list A; col_current : option A; col_error : bool
}.
Arguments Collect {A}.
Arguments col_list {A}.
Arguments col_current {A}.
Arguments col_error {A}.

(** [mnt_flag_map], with the [MS_*] values of mount(2). *)
Definition MS_REC : Z := 16384.
Definition MS_PRIVATE : Z := 262144.
Definition MS_SLAVE : Z := 524288.
Definition MS_SHARED : Z := 1048576.

Definition mnt_flag_map : list (string * Z) := [
  ("bind", MS_BIND); ("dirsync", 128); ("mandlock", 64); ("move", 8192); ("noatime", 1024);
  ("nodev", 4); ("nodiratime", 2048); ("noexec", 8); ("nosuid", 2); ("ro", 1);
  ("relatime", 2097152); ("remount", 32); ("silent", 32768); ("strictatime", 16777216);
  ("sync", 16); ("rbind", Z.lor MS_BIND MS_REC); ("rprivate", Z.lor MS_PRIVATE MS_REC);
  ("private", MS_PRIVATE); ("rslave", Z.lor MS_SLAVE MS_REC); ("slave", MS_SLAVE);
  ("rshared", Z.lor MS_SHARED MS_REC); ("shared", MS_SHARED) ].

Section spec_handlers.
Context `{GL : GLib} `{BD : Build}.

(** [g_ascii_strtoll (s, &endptr, 10)]; NULL gives 0. *)
Definition strtoll_null (s : cstr) : Z :=
  match s with None => 0 | Some s => st_num (g_ascii_strtoll s) end.

(** ** src/src/spec_handlers/annotations.c *)

Definition handle_annotation (config : cc_oci_config) (n : gnode) : cc_oci_config :=
  match gn_children n, gn_data n with
  | c :: _, Some k =>
      if negb (str_nonempty k) then config
      else
        let v := match gn_data c with
                 | Some v => if str_nonempty v then Some v else None
                 | None => None
                 end in
        let a := Annotation k v in
        let config := snd (cc_pod_handle_annotations config a) in
        set_oci (set_annotations (a :: annotations (oci config)) (oci config)) config
  | _, _ => config
  end.

Definition annotations_handle_section (n : gnode) (config : cc_oci_config) : bool * cc_oci_config :=
  (true, fold_left handle_annotation (gn_children n) config).

(** ** src/src/spec_handlers/hooks.c *)

Definition save_current_hook (s : collect oci_cfg_hook) : collect oci_cfg_hook :=
  match col_current s with
  | None => s
  | Some h =>
      if str_nonempty (hook_path h) then Collect (col_list s ++ [h]) None (col_error s)
      else Collect (col_list s) None true
  end.

Definition handle_hook (s : collect oci_cfg_hook) (n : gnode) : collect oci_cfg_hook :=
  if col_error s then s
  else
    match gn_data n with
    | None => save_current_hook s
    | Some _ =>
        match gn_children n with
        | [] => s
        | c :: _ =>
            let h := default oci_cfg_hook_zero (col_current s) in
            let h :=
              if g_streq (gn_data n) (Some "path")
              then set_hook_path (c_buf PATH_MAX (fmt_s (gn_data c))) h
              else if g_streq (gn_data n) (Some "args") then set_hook_args (node_to_strv n) h
              else if g_streq (gn_data n) (Some "env") then set_hook_env (node_to_strv n) h
              else if g_streq (gn_data n) (Some "timeout")
              then set_timeout (s32 (strtoll_null (gn_data c))) h
              else h in
            Collect (col_list s) (Some h) (col_error s)
        end
    end.

(** [config->oci.hooks], [current_hook] and [error_detected] *)
Definition hooks_state : Type := oci_cfg_hooks * option oci_cfg_hook * bool.

(** The nodes of one list, then the last hook. *)
Definition collect_hooks (n : gnode) (l : list oci_cfg_hook) (cur : option oci_cfg_hook) (err : bool)
    : collect oci_cfg_hook :=
  save_current_hook (fold_left handle_hook (gn_children n) (Collect l cur err)).

Definition handle_hooks_section (s : hooks_state) (n : gnode) : hooks_state :=
  let '(hs, cur, err) := s in
  match gn_children n with
  | [] => s
  | _ :: _ =>
      if err then s
      else if g_streq (gn_data n) (Some "prestart") then
        let c := collect_hooks n (prestart hs) cur err in
        (set_prestart (col_list c) hs, col_current c, col_error c)
      else if g_streq (gn_data n) (Some "poststart") then
        let c := collect_hooks n (poststart hs) cur err in
        (set_poststart (col_list c) hs, col_current c, col_error c)
      else if g_streq (gn_data n) (Some "poststop") then
        let c := collect_hooks n (poststop hs) cur err in
        (set_poststop (col_list c) hs, col_current c, col_error c)
      else s
  end.

Definition hooks_handle_section (n : gnode) (config : cc_oci_config) (st : statics)
    : bool * cc_oci_config * statics :=
  let '(hs, cur, err) :=
    fold_left handle_hooks_section (gn_children n) (hooks (oci config), current_hook st, false) in
  (negb err, set_oci (set_hooks hs (oci config)) config,
   Statics cur (current_ns st) (current_mount st)).

(** ** src/src/spec_handlers/linux.c *)

Definition save_current_ns (s : collect oci_cfg_namespace) : collect oci_cfg_namespace :=
  match col_current s with
  | None => s
  | Some ns => Collect (col_list s ++ [ns]) None (col_error s)
  end.

Definition handle_namespaces_section (s : collect oci_cfg_namespace) (n : gnode)
    : collect oci_cfg_namespace :=
  if col_error s then s
  else
    match gn_data n with
    | None => save_current_ns s
    | Some _ =>
        match gn_children n with
        | [] => s
        | c :: _ =>
            let ns := default oci_cfg_namespace_zero (col_current s) in
            if g_streq (gn_data n) (Some "type") then
              match gn_data c with
              | None => Collect (col_list s) None true
              | Some _ =>
                  let t := cc_oci_str_to_ns (gn_data c) in
                  if decide (t = OCI_NS_INVALID) then Collect (col_list s) None true
                  else Collect (col_list s) (Some (set_ns_type t ns)) (col_error s)
              end
            else if g_streq (gn_data n) (Some "path") then
              let ns := match gn_data c with
                        | Some p => if str_nonempty p then set_ns_path (Some p) ns else ns
                        | None => ns
                        end in
              Collect (col_list s) (Some ns) (col_error s)
            else Collect (col_list s) (Some ns) (col_error s)
        end
    end.

Definition handle_linux_section (s : collect oci_cfg_namespace) (n : gnode)
    : collect oci_cfg_namespace :=
  match gn_children n with
  | [] => s
  | _ :: _ =>
      if g_streq (gn_data n) (Some "namespaces")
      then fold_left handle_namespaces_section (gn_children n) s
      else s
  end.

Definition linux_handle_section (n : gnode) (config : cc_oci_config) (st : statics)
    : bool * cc_oci_config * statics :=
  let s := fold_left handle_linux_section (gn_children n)
             (Collect (namespaces (oci config)) (current_ns st) false) in
  let s := if col_error s then s else save_current_ns s in
  (negb (col_error s), set_oci (set_namespaces (col_list s) (oci config)) config,
   Statics (current_hook st) (col_current s) (current_mount st)).

(** ** src/src/spec_handlers/mounts.c *)

Definition mount_get_flag_value (flag : cstr) : Z :=
  match List.find (fun m => g_streq (Some (fst m)) flag) mnt_flag_map with
  | Some m => snd m
  | None => 0
  end.

(** [current_mount->flags] and the string [mount_flags]. *)
Definition handle_options_section (s : Z * string) (n : gnode) : Z * string :=
  let flag := mount_get_flag_value (gn_data n) in
  if decide (flag = 0) then (fst s, snd s +:+ fmt_s (gn_data n) +:+ ",")
  else (Z.lor (fst s) flag, snd s).

Definition save_current_mount (s : collect cc_oci_mount) : collect cc_oci_mount :=
  match col_current s with
  | None => s
  | Some m =>
      match mnt_dir m, mnt_type m, mnt_fsname m with
      | Some _, Some _, Some _ => Collect (col_list s ++ [m]) None (col_error s)
      | _, _, _ => Collect (col_list s) None true
      end
  end.

Definition mount_set_options (n : gnode) (m : cc_oci_mount) : cc_oci_mount :=
  let '(fl, opts) := fold_left handle_options_section (gn_children n) (flags m, EmptyString) in
  let m := set_flags fl m in
  if str_nonempty opts then set_mnt_opts (Some (str_take (String.length opts - 1) opts)) m else m.

Definition handle_mounts_section (s : collect cc_oci_mount) (n : gnode) : collect cc_oci_mount :=
  if col_error s then s
  else
    match gn_data n with
    | None => save_current_mount s
    | Some _ =>
        match gn_children n with
        | [] => s
        | c :: _ =>
            let m := default cc_oci_mount_zero (col_current s) in
            let m :=
              if g_streq (gn_data n) (Some "destination") then set_mnt_dir (gn_data c) m
              else if g_streq (gn_data n) (Some "type") then set_mnt_type (gn_data c) m
              else if g_streq (gn_data n) (Some "source") then set_mnt_fsname (gn_data c) m
              else if g_streq (gn_data n) (Some "options") then mount_set_options n m
              else m in
            Collect (col_list s) (Some m) (col_error s)
        end
    end.

Definition mounts_handle_section (n : gnode) (config : cc_oci_config) (st : statics)
    : bool * cc_oci_config * statics :=
  match mounts (oci config) with
  | _ :: _ => (true, config, st)
  | [] =>
      let s := fold_left handle_mounts_section (gn_children n) (Collect [] (current_mount st) false) in
      let s := if col_error s then s else save_current_mount s in
      (negb (col_error s), set_oci (set_mounts (col_list s) (oci config)) config,
       Statics (current_hook st) (current_ns st) (col_current s))
  end.

(** ** src/src/spec_handlers/platform.c *)

Definition handle_platform_section (p : oci_cfg_platform) (n : gnode) : oci_cfg_platform :=
  match gn_children n with
  | [] => p
  | c :: _ =>
      if g_streq (gn_data n) (Some "os") then set_os (gn_data c) p
      else if g_streq (gn_data n) (Some "arch") then set_arch (gn_data c) p
      else p
  end.

Definition platform_handle_section (n : gnode) (config : cc_oci_config) : bool * cc_oci_config :=
  let p := fold_left handle_platform_section (gn_children n) (platform (oci config)) in
  let ok :=
    match os p with
    | None => false
    | Some _ =>
        if negb (g_streq (os p) (Some CC_OCI_EXPECTED_PLATFORM)) then false
        else match arch p with
             | None => false
             | Some _ => g_streq (arch p) (Some CC_OCI_EXPECTED_ARCHITECTURE)
             end
    end in
  (ok, set_oci (set_platform p (oci config)) config).

(** ** src/src/spec_handlers/process.c *)

(** [atoi (root->children->data)]: either pointer may be NULL. *)
Definition child_atoi (n : gnode) : outcome Z :=
  match gn_children n with
  | [] => Fault NullDeref
  | c :: _ => match gn_data c with None => Fault NullDeref | Some s => Done (atoi s) end
  end.

Definition handle_user_section (u : oci_cfg_user) (n : gnode) : outcome oci_cfg_user :=
  if g_streq (gn_data n) (Some "uid") then
    match child_atoi n with Done z => Done (set_uid (u32 z) u) | Fault f => Fault f end
  else if g_streq (gn_data n) (Some "gid") then
    match child_atoi n with Done z => Done (set_gid (u32 z) u) | Fault f => Fault f end
  else Done u.

(** [g_node_children_foreach] with a callback that can fail. *)
Fixpoint foreach_fault {A} (f : A -> gnode -> outcome A) (l : list gnode) (a : A) : outcome A :=
  match l with
  | [] => Done a
  | n :: l => match f a n with Done a => foreach_fault f l a | Fault f => Fault f end
  end.

Definition handle_process_section (p : oci_cfg_process) (n : gnode) : outcome oci_cfg_process :=
  match gn_children n with
  | [] => Done p
  | c :: _ =>
      if g_streq (gn_data n) (Some "cwd") then Done (set_cwd (c_buf PATH_MAX (fmt_s (gn_data c))) p)
      else if g_streq (gn_data n) (Some "args") then Done (set_args (node_to_strv n) p)
      else if g_streq (gn_data n) (Some "env") then Done (set_env (node_to_strv n) p)
      else if g_streq (gn_data n) (Some "terminal") then
        Done (set_terminal (g_streq (gn_data c) (Some "true")) p)
      else if g_streq (gn_data n) (Some "user") then
        match foreach_fault handle_user_section (gn_children n) (user p) with
        | Done u => Done (set_user u p)
        | Fault f => Fault f
        end
      else if g_streq (gn_data n) (Some "stdio_stream") then
        match child_atoi n with Done z => Done (set_stdio_stream z p) | Fault f => Fault f end
      else if g_streq (gn_data n) (Some "stderr_stream") then
        match child_atoi n with Done z => Done (set_stderr_stream z p) | Fault f => Fault f end
      else Done p
  end.

Definition process_ok (p : oci_cfg_process) : bool :=
  bool_decide (first_char (cwd p) = Some "/"%char) &&
  match args p with None => false | Some _ => true end.

(** The section handler, on [config->oci.process]. *)
Definition process_parse (n : gnode) (p : oci_cfg_process) : outcome (bool * oci_cfg_process) :=
  let p := set_stderr_stream (-1) (set_stdio_stream (-1) p) in
  match foreach_fault handle_process_section (gn_children n) p with
  | Done p => Done (process_ok p, p)
  | Fault f => Fault f
  end.

Definition process_handle_section (n : gnode) (config : cc_oci_config)
    : outcome (bool * cc_oci_config) :=
  match process_parse n (process (oci config)) with
  | Done (ok, p) => Done (ok, set_oci (set_process p (oci config)) config)
  | Fault f => Fault f
  end.

(** ** src/src/spec_handlers/root.c *)

Definition handle_root_section (r : oci_cfg_root) (n : gnode) : io oci_cfg_root :=
  match gn_children n with
  | [] => mret r
  | c :: _ =>
      if g_streq (gn_data n) (Some "path") then
        full ← cc_oci_resolve_path (gn_data c);
        mret (match full with Some full => set_root_path (c_buf PATH_MAX full) r | None => r end)
      else if g_streq (gn_data n) (Some "readonly") then
        mret (if g_streq (gn_data c) (Some "true") then set_read_only true r
              else if g_streq (gn_data c) (Some "false") then set_read_only false r
              else r)
      else mret r
  end.

Definition root_handle_section (n : gnode) (config : cc_oci_config) : io (bool * cc_oci_config) :=
  r ← io_fold handle_root_section (gn_children n) (root (oci config));
  let config := set_oci (set_root r (oci config)) config in
  if negb (str_nonempty (root_path r)) then mret (false, config)
  else
    is_dir ← call_ (Cg_file_test (root_path r) FT_IS_DIR);
    mret (is_dir, config).

(** ** src/src/spec_handlers/vm.c *)

Definition handle_kernel_section (v : cc_oci_vm_cfg) (n : gnode) : io cc_oci_vm_cfg :=
  match gn_children n with
  | [] => mret v
  | c :: _ =>
      if g_streq (gn_data n) (Some "path") then
        path ← cc_oci_resolve_path (gn_data c);
        mret (match path with Some p => set_kernel_path (c_buf PATH_MAX p) v | None => v end)
      else if g_streq (gn_data n) (Some "parameters") then mret (set_kernel_params (gn_data c) v)
      else mret v
  end.

Definition handle_vm_section (v : cc_oci_vm_cfg) (n : gnode) : io cc_oci_vm_cfg :=
  match gn_children n with
  | [] => mret v
  | c :: _ =>
      if g_streq (gn_data n) (Some "path") then
        path ← cc_oci_resolve_path (gn_data c);
        mret (match path with Some p => set_hypervisor_path (c_buf PATH_MAX p) v | None => v end)
      else if g_streq (gn_data n) (Some "image") then
        path ← cc_oci_resolve_path (gn_data c);
        mret (match path with Some p => set_image_path (c_buf PATH_MAX p) v | None => v end)
      else if g_streq (gn_data n) (Some "kernel") then
        io_fold handle_kernel_section (gn_children n) v
      else mret v
  end.

(** [path[0] && stat (path, &st) >= 0] *)
Definition path_exists (path : string) : io bool :=
  if negb (str_nonempty path) then mret false
  else st ← call_ (Cstat path); mret (match st with Some _ => true | None => false end).

Definition vm_handle_section (n : gnode) (config : cc_oci_config) : io (bool * cc_oci_config) :=
  v ← io_fold handle_vm_section (gn_children n) (default cc_oci_vm_cfg_zero (vm config));
  hyp ← path_exists (hypervisor_path v);
  if negb hyp then mret (false, set_vm None config)
  else
    img ← path_exists (image_path v);
    if negb img then mret (false, set_vm None config)
    else
      krn ← path_exists (kernel_path v);
      if negb krn then mret (false, set_vm None config)
      else mret (true, set_vm (Some v) config).

(** ** src/src/spec_handler.c *)

Definition get_spec_vm_from_cfg_file (config : cc_oci_config) : io (bool * cc_oci_config) :=
  match vm config with
  | Some _ => mret (true, config)
  | None =>
      let sys_json_file := g_build_path SYSCONFDIR CC_OCI_VM_CONFIG in
      ex ← call_ (Cg_file_test sys_json_file FT_EXISTS);
      let sys_json_file :=
        if ex : bool then sys_json_file else g_build_path DEFAULTSDIR CC_OCI_VM_CONFIG in
      vm_config ← cc_oci_json_parse (Some sys_json_file);
      match vm_config with
      | None => mret (false, config)
      | Some tree =>
          match List.find (fun n => g_streq (gn_data n) (Some "vm")) (gn_children tree) with
          | None => mret (false, config)
          | Some vm_node =>
              '(_, config) ← vm_handle_section vm_node config;
              mret (match vm config with Some _ => true | None => false end, config)
          end
      end
  end.

(** ** [cc_oci_process_config] of src/src/oci-config.c *)

(** The [struct spec_handler] objects, by the handler they hold. *)
Inductive spec_handler :=
| annotations_spec_handler | hooks_spec_handler | mounts_spec_handler | platform_spec_handler
| process_spec_handler | root_spec_handler | vm_spec_handler | linux_spec_handler.

Definition spec_handler_name (h : spec_handler) : string :=
  match h with
  | annotations_spec_handler => "annotations"
  | hooks_spec_handler => "hooks"
  | mounts_spec_handler => "mounts"
  | platform_spec_handler => "platform"
  | process_spec_handler => "process"
  | root_spec_handler => "root"
  | vm_spec_handler => "vm"
  | linux_spec_handler => "linux"
  end.

Definition handle_section (h : spec_handler) (n : gnode) (config : cc_oci_config) (st : statics)
    : io (bool * cc_oci_config * statics) :=
  match h with
  | annotations_spec_handler => mret (annotations_handle_section n config, st)
  | hooks_spec_handler => mret (hooks_handle_section n config st)
  | mounts_spec_handler => mret (mounts_handle_section n config st)
  | platform_spec_handler => mret (platform_handle_section n config, st)
  | process_spec_handler =>
      match process_handle_section n config with
      | Done r => mret (r, st)
      | Fault f => Halt f
      end
  | root_spec_handler => r ← root_handle_section n config; mret (r, st)
  | vm_spec_handler => r ← vm_handle_section n config; mret (r, st)
  | linux_spec_handler => mret (linux_handle_section n config st)
  end.

(** The two members of config.json that have no handler. *)
Definition set_version_hostname (n : gnode) (config : cc_oci_config) : cc_oci_config :=
  match gn_children n with
  | [] => config
  | c :: _ =>
      let config := if g_streq (gn_data n) (Some "ociVersion")
                    then set_oci (set_oci_version (gn_data c) (oci config)) config else config in
      if g_streq (gn_data n) (Some "hostname")
      then set_oci (set_hostname (gn_data c) (oci config)) config else config
  end.

Fixpoint process_config_nodes (l : list gnode) (hs : list spec_handler)
    (config : cc_oci_config) (st : statics) : io (bool * cc_oci_config * statics) :=
  match l with
  | [] => mret (true, config, st)
  | n :: l =>
      match gn_data n with
      | None => process_config_nodes l hs config st
      | Some _ =>
          let config := set_version_hostname n config in
          match List.find (fun h => g_streq (Some (spec_handler_name h)) (gn_data n)) hs with
          | None => process_config_nodes l hs config st
          | Some h =>
              '(ok, config, st) ← handle_section h n config st;
              if ok : bool then process_config_nodes l hs config st
              else mret (false, config, st)
          end
      end
  end.

Definition cc_oci_process_config (tree : gnode) (config : cc_oci_config) (st : statics)
    (hs : list spec_handler) : io (bool * cc_oci_config * statics) :=
  process_config_nodes (gn_children tree) hs config st.

Definition start_spec_handlers : list spec_handler :=
  [annotations_spec_handler; hooks_spec_handler; mounts_spec_handler; platform_spec_handler;
   process_spec_handler; root_spec_handler; vm_spec_handler; linux_spec_handler].

End spec_handlers.

(** ** Well-formed configurations *)

Definition hook_wf (h : oci_cfg_hook) : Prop := hook_path h <> EmptyString.
Definition mount_wf (m : cc_oci_mount) : Prop :=
  is_Some (mnt_dir m) /\ is_Some (mnt_type m) /\ is_Some (mnt_fsname m).
Definition ns_wf (ns : oci_cfg_namespace) : Prop := ns_type ns <> OCI_NS_INVALID.

Definition hooks_wf (h : oci_cfg_hooks) : Prop :=
  Forall hook_wf (prestart h) /\ Forall hook_wf (poststart h) /\ Forall hook_wf (poststop h).

(** What the elements of a parsed configuration can be relied on to have. *)
Definition config_wf (c : cc_oci_config) : Prop :=
  hooks_wf (hooks (oci c)) /\ Forall mount_wf (mounts (oci c)) /\
  Forall ns_wf (namespaces (oci c)).

(** ** Lemmas *)

Section spec_handler_facts.
Context `{GL : GLib} `{BD : Build}.

(** Every element collected satisfies [P], and an error leaves nothing
    behind. *)
Definition collect_wf {A} (P Q : A -> Prop) (s : collect A) : Prop :=
  Forall P (col_list s) /\ (forall x, col_current s = Some x -> Q x) /\
  (col_error s = true -> col_current s = None).

Lemma fold_left_inv {A B} (I : A -> Prop) (f : A -> B -> A) l a :
  I a -> (forall a b, I a -> I (f a b)) -> I (fold_left f l a).
Proof. intros Ha Hf. revert a Ha. induction l; simpl; auto. Qed.

Lemma str_nonempty_spec s : str_nonempty s = true <-> s <> EmptyString.
Proof. by destruct s. Qed.

Lemma save_current_hook_wf s :
  collect_wf hook_wf (fun _ => True) s ->
  collect_wf hook_wf (fun _ => True) (save_current_hook s) /\ col_current (save_current_hook s) = None.
Proof.
  intros (Hl & _ & He). unfold save_current_hook. destruct (col_current s) as [h|] eqn:E.
  - destruct (str_nonempty (hook_path h)) eqn:Eh; (split; [|done]); split_and!; try done.
    apply Forall_app. split; [done|]. apply Forall_singleton. by apply str_nonempty_spec.
  - split; [|done]. split_and!; try done.
Qed.

Lemma handle_hook_wf s n :
  collect_wf hook_wf (fun _ => True) s -> collect_wf hook_wf (fun _ => True) (handle_hook s n).
Proof.
  intros H. unfold handle_hook. destruct (col_error s) eqn:E; [done|].
  destruct (gn_data n); [|by apply save_current_hook_wf]. destruct (gn_children n); [done|].
  destruct H as (Hl & _ & _). split_and!; [done..|]. simpl. congruence.
Qed.

Lemma collect_hooks_wf n l cur err :
  Forall hook_wf l -> (err = true -> cur = None) ->
  Forall hook_wf (col_list (collect_hooks n l cur err)) /\ col_current (collect_hooks n l cur err) = None.
Proof.
  intros Hl He. unfold collect_hooks.
  destruct (save_current_hook_wf (fold_left handle_hook (gn_children n) (Collect l cur err)))
    as [(H & _) Hc]; [|by split].
  apply (fold_left_inv (collect_wf hook_wf (fun _ => True))); [by split_and!|apply handle_hook_wf].
Qed.

Lemma handle_hooks_section_wf s n :
  hooks_wf (s.1.1) /\ s.1.2 = None ->
  hooks_wf ((handle_hooks_section s n).1.1) /\ (handle_hooks_section s n).1.2 = None.
Proof.
  destruct s as [[hs cur] err]. simpl. intros [(H1 & H2 & H3) ->]. unfold handle_hooks_section.
  destruct (gn_children n); [done|]. destruct err; [done|].
  repeat case_match; simpl; try done.
  - destruct (collect_hooks_wf n (prestart hs) None false H1) as [? ?]; [done|]. done.
  - destruct (collect_hooks_wf n (poststart hs) None false H2) as [? ?]; [done|]. done.
  - destruct (collect_hooks_wf n (poststop hs) None false H3) as [? ?]; [done|]. done.
Qed.

Lemma hooks_handle_section_wf n c st :
  config_wf c -> current_hook st = None ->
  let '(_, c', st') := hooks_handle_section n c st in
  config_wf c' /\ current_hook st' = None /\ current_ns st' = current_ns st /\
  current_mount st' = current_mount st.
Proof.
  intros (Hh & Hm & Hn) Hst. unfold hooks_handle_section.
  pose proof (fold_left_inv (fun s => hooks_wf (s.1.1) /\ s.1.2 = None) handle_hooks_section
    (gn_children n) (hooks (oci c), current_hook st, false)) as Hf.
  destruct (fold_left _ _ _) as [[hs cur] err]. destruct Hf as [? ?]; [done|apply handle_hooks_section_wf|].
  done.
Qed.

Lemma save_current_ns_wf s :
  collect_wf ns_wf ns_wf s ->
  collect_wf ns_wf ns_wf (save_current_ns s) /\ col_current (save_current_ns s) = None.
Proof.
  intros (Hl & Hc & He). unfold save_current_ns. destruct (col_current s) as [h|] eqn:E.
  - split; [|done]. split_and!; try done. apply Forall_app. split; [done|].
    apply Forall_singleton. auto.
  - split; [|done]. split_and!; try done; congruence.
Qed.

Lemma handle_namespaces_section_wf s n :
  collect_wf ns_wf ns_wf s -> collect_wf ns_wf ns_wf (handle_namespaces_section s n).
Proof.
  intros H. unfold handle_namespaces_section. destruct (col_error s) eqn:E; [done|].
  destruct (gn_data n); [|by apply save_current_ns_wf]. destruct (gn_children n) as [|c ?]; [done|].
  destruct H as (Hl & Hc & He).
  assert (ns_wf (default oci_cfg_namespace_zero (col_current s))) as Hd.
  { destruct (col_current s); simpl; [auto|done]. }
  repeat case_match; split_and!; simpl; try done; try congruence; intros x [= <-]; done.
Qed.

Lemma linux_handle_section_wf n c st :
  config_wf c -> current_ns st = None ->
  let '(_, c', st') := linux_handle_section n c st in
  config_wf c' /\ current_ns st' = None /\ current_hook st' = current_hook st /\
  current_mount st' = current_mount st.
Proof.
  intros (Hh & Hm & Hn) Hst. unfold linux_handle_section.
  set (s0 := fold_left _ _ _).
  assert (collect_wf ns_wf ns_wf s0) as Hs.
  { apply fold_left_inv; [by rewrite Hst; split_and!|]. intros s n' Hs. unfold handle_linux_section.
    destruct (gn_children n'); [done|]. destruct (g_streq _ _); [|done].
    by apply fold_left_inv; [|apply handle_namespaces_section_wf]. }
  destruct (col_error s0) eqn:E.
  - destruct Hs as (Hl & _ & He). simpl. split; [by split_and!|auto].
  - destruct (save_current_ns_wf s0 Hs) as [(Hl & _) Hc]. simpl. split; [by split_and!|auto].
Qed.

Lemma save_current_mount_wf s :
  collect_wf mount_wf (fun _ => True) s ->
  collect_wf mount_wf (fun _ => True) (save_current_mount s) /\
  col_current (save_current_mount s) = None.
Proof.
  intros (Hl & _ & He). unfold save_current_mount. destruct (col_current s) as [m|] eqn:E.
  - destruct (mnt_dir m) eqn:?, (mnt_type m) eqn:?, (mnt_fsname m) eqn:?;
      (split; [|done]); split_and!; try done.
    apply Forall_app. split; [done|]. apply Forall_singleton. split_and!; eauto.
  - split; [|done]. split_and!; done.
Qed.

Lemma handle_mounts_section_wf s n :
  collect_wf mount_wf (fun _ => True) s ->
  collect_wf mount_wf (fun _ => True) (handle_mounts_section s n).
Proof.
  intros H. unfold handle_mounts_section. destruct (col_error s) eqn:E; [done|].
  destruct (gn_data n); [|by apply save_current_mount_wf]. destruct (gn_children n); [done|].
  destruct H as (Hl & _ & _). split_and!; [done..|]. simpl. congruence.
Qed.

Lemma mounts_handle_section_wf n c st :
  config_wf c -> current_mount st = None ->
  let '(_, c', st') := mounts_handle_section n c st in
  config_wf c' /\ current_mount st' = None /\ current_hook st' = current_hook st /\
  current_ns st' = current_ns st.
Proof.
  intros (Hh & Hm & Hn) Hst. unfold mounts_handle_section.
  destruct (mounts (oci c)) as [|m l] eqn:Em; [|split; [|done]; split_and!; by rewrite ?Em].
  set (s0 := fold_left _ _ _).
  assert (collect_wf mount_wf (fun _ => True) s0) as Hs.
  { apply fold_left_inv; [by rewrite Hst; split_and!|apply handle_mounts_section_wf]. }
  destruct (col_error s0) eqn:E.
  - destruct Hs as (Hl & _ & He). simpl. split; [by split_and!|auto].
  - destruct (save_current_mount_wf s0 Hs) as [(Hl & _) Hc]. simpl. split; [by split_and!|auto].
Qed.

Lemma add_container_mount_wf c : config_wf c -> config_wf (add_container_mount c).
Proof.
  intros (Hh & Hm & Hn). split_and!; simpl; try done. apply Forall_app. split; [done|].
  apply Forall_singleton. split_and!; eauto.
Qed.

Lemma handle_annotation_wf c n : config_wf c -> config_wf (handle_annotation c n).
Proof.
  intros H. unfold handle_annotation. destruct (gn_children n); [done|].
  destruct (gn_data n) as [k|]; [|done]. destruct (negb _); [done|].
  assert (config_wf (cc_pod_handle_annotations c
    (Annotation k (match gn_data g with Some v => if str_nonempty v then Some v else None | None => None end))).2)
    as Hp; [|exact Hp].
  unfold cc_pod_handle_annotations. repeat (case_match; simpl; try done); by apply add_container_mount_wf.
Qed.

Lemma root_handle_section_wp n c :
  wp (root_handle_section n c)
     (fun _ o => exists ok r, o = Done (ok, set_oci (set_root r (oci c)) c)).
Proof.
  unfold root_handle_section. apply wp_bind. eapply wp_mono.
  - apply (total_fold handle_root_section). intros. unfold handle_root_section. solve_total.
  - intros tr [r|f]; [|done]. intros _. destruct (negb _); [by do 2 eexists|].
    intros v. by do 2 eexists.
Qed.

Lemma total_path_exists p : total (path_exists p).
Proof. unfold path_exists. solve_total. Qed.
Hint Resolve total_path_exists : cc.

Lemma vm_handle_section_wp n c :
  wp (vm_handle_section n c)
     (fun _ o => exists ok v, o = Done (ok, set_vm v c) /\ ok = bool_decide (is_Some v)).
Proof.
  unfold vm_handle_section. apply wp_bind. eapply wp_mono.
  { apply (total_fold handle_vm_section). intros. unfold handle_vm_section, handle_kernel_section.
    solve_total. }
  intros tr [v|f]; [|done]. intros _. 
  repeat (apply wp_bind; eapply wp_mono; [apply total_path_exists|]; intros ? [[]|]; [intros _|intros _|done];
    [|by exists false, None]).
  by exists true, (Some v).
Qed.

Definition statics_ok (r : bool * cc_oci_config * statics) : Prop :=
  config_wf r.1.2 /\ r.2 = statics_zero.

Lemma handle_section_wf h n c :
  config_wf c ->
  wp (handle_section h n c statics_zero)
     (fun _ o => match o with Done r => statics_ok r | Fault _ => h = process_spec_handler end).
Proof.
  intros H. destruct h; cbn [handle_section].
  - split; [|done]. simpl. apply fold_left_inv; [done|apply handle_annotation_wf].
  - pose proof (hooks_handle_section_wf n c statics_zero H eq_refl) as Hh.
    destruct (hooks_handle_section n c statics_zero) as [[b c'] [? ? ?]]. simpl in *.
    destruct Hh as (? & -> & -> & ->). done.
  - pose proof (mounts_handle_section_wf n c statics_zero H eq_refl) as Hh.
    destruct (mounts_handle_section n c statics_zero) as [[b c'] [? ? ?]]. simpl in *.
    destruct Hh as (? & -> & -> & ->). done.
  - done.
  - unfold process_handle_section. destruct (process_parse n _) as [[ok p]|f]; done.
  - apply wp_bind. eapply wp_mono; [apply root_handle_section_wp|]. by intros tr ? (ok & r & ->).
  - apply wp_bind. eapply wp_mono; [apply vm_handle_section_wp|]. by intros tr ? (ok & v & -> & _).
  - pose proof (linux_handle_section_wf n c statics_zero H eq_refl) as Hh.
    destruct (linux_handle_section n c statics_zero) as [[b c'] [? ? ?]]. simpl in *.
    destruct Hh as (? & -> & -> & ->). done.
Qed.

Lemma set_version_hostname_oci n c :
  exists v hn, set_version_hostname n c = set_oci (set_hostname hn (set_oci_version v (oci c))) c.
Proof.
  exists (oci_version (oci (set_version_hostname n c))), (hostname (oci (set_version_hostname n c))).
  unfold set_version_hostname. destruct c as [[]]. destruct (gn_children n); [done|].
  repeat case_match; done.
Qed.

Lemma set_version_hostname_wf n c : config_wf c -> config_wf (set_version_hostname n c).
Proof. intros H. destruct (set_version_hostname_oci n c) as (v & hn & ->). exact H. Qed.

(** What the sections with checks guarantee once their handlers have
    succeeded, with what was asked of the file system. *)
Definition process_checked (c : cc_oci_config) : Prop :=
  first_char (cwd (process (oci c))) = Some "/"%char /\ is_Some (args (process (oci c))).
Definition platform_checked (c : cc_oci_config) : Prop :=
  os (platform (oci c)) = Some "linux" /\ arch (platform (oci c)) = Some "amd64".
Definition root_checked (c : cc_oci_config) (tr : list event) : Prop :=
  root_path (root (oci c)) <> EmptyString /\ Ev (Cg_file_test (root_path (root (oci c))) FT_IS_DIR) true ∈ tr.
Definition vm_checked (c : cc_oci_config) (tr : list event) : Prop :=
  exists v, vm c = Some v /\
    Forall (fun p => p <> EmptyString /\ exists st, Ev (Cstat p) (Some st) ∈ tr) [hypervisor_path v; image_path v; kernel_path v].

Definition section_post (h : spec_handler) (c : cc_oci_config) (tr : list event) : Prop :=
  match h with
  | process_spec_handler => process_checked c
  | platform_spec_handler => platform_checked c
  | root_spec_handler => root_checked c tr
  | vm_spec_handler => vm_checked c tr
  | _ => True
  end.

Lemma section_post_incl h c tr tr' : tr ⊆ tr' -> section_post h c tr -> section_post h c tr'.
Proof.
  intros Hs. destruct h; try done; cbn.
  - intros [H1 H2]. split; [done|by apply Hs].
  - intros (v & Hv & H). exists v. split; [done|]. eapply Forall_impl; [exact H|]. intros p (Hp & st & He). split; [done|]. exists st. by apply Hs.
Qed.

Lemma platform_post n c c' :
  platform_handle_section n c = (true, c') -> platform_checked c'.
Proof.
  unfold platform_handle_section. intros [= Hok <-]. unfold platform_checked. simpl. revert Hok.
  destruct (fold_left _ _ _) as [[o|] [a|]]; simpl; rewrite ?g_streq_spec; try done.
  - repeat case_bool_decide; simpl; naive_solver.
  - destruct (negb _); done.
Qed.

Lemma wp_path_exists p :
  wp (path_exists p) (fun tr o => exists b, o = Done b /\
    (b = true -> p <> EmptyString /\ exists st, Ev (Cstat p) (Some st) ∈ tr)).
Proof.
  unfold path_exists. destruct (str_nonempty p) eqn:E; cbn [negb]; [|by exists false].
  intros [st|]; eexists; (split; [done|]); [|done]. intros _. split; [by apply str_nonempty_spec|]. exists st. by left.
Qed.

Lemma vm_section_checked n c :
  wp (vm_handle_section n c) (fun tr o => exists ok v, o = Done (ok, set_vm v c) /\ (ok = true -> vm_checked (set_vm v c) tr)).
Proof.
  unfold vm_handle_section. apply wp_bind. eapply wp_mono.
  { apply (total_fold handle_vm_section). intros. unfold handle_vm_section, handle_kernel_section. solve_total. }
  intros tr [v|f]; [|done]. intros _.
  apply wp_bind. eapply wp_mono; [apply wp_path_exists|]. intros tr1 o (b1 & -> & H1). destruct b1; [|by exists false, None].
  apply wp_bind. eapply wp_mono; [apply wp_path_exists|]. intros tr2 o (b2 & -> & H2). destruct b2; [|by exists false, None].
  apply wp_bind. eapply wp_mono; [apply wp_path_exists|]. intros tr3 o (b3 & -> & H3). destruct b3; [|by exists false, None].
  exists true, (Some v). split; [done|]. intros _. exists v. split; [done|].
  destruct (H1 eq_refl) as (N1 & s1 & E1), (H2 eq_refl) as (N2 & s2 & E2), (H3 eq_refl) as (N3 & s3 & E3).
  rewrite !Forall_cons. split_and!; [done|exists s1|done|exists s2|done|exists s3|constructor]; rewrite !elem_of_app; auto.
Qed.

Lemma root_section_checked n c :
  wp (root_handle_section n c) (fun tr o => forall ok c', o = Done (ok, c') -> ok = true -> root_checked c' tr).
Proof.
  unfold root_handle_section. apply wp_bind. eapply wp_mono.
  - apply (total_fold handle_root_section). intros. unfold handle_root_section. solve_total.
  - intros tr [r|f]; [|done]. intros _. destruct (str_nonempty (root_path r)) eqn:E; cbn; [|by intros ? ? [= <- <-]].
    intros v ok c' [= <- <-] ->. split; [by apply str_nonempty_spec|]. cbn. apply elem_of_app. right. by left.
Qed.

Lemma handle_section_post h n c st :
  wp (handle_section h n c st)
     (fun tr o => match o with Done (ok, c', _) => ok = true -> section_post h c' tr | Fault _ => True end).
Proof.
  destruct h; cbn [handle_section].
  - by intros _.
  - destruct (hooks_handle_section n c st) as [[? ?] ?]. by intros _.
  - destruct (mounts_handle_section n c st) as [[? ?] ?]. by intros _.
  - destruct (platform_handle_section n c) as [ok c'] eqn:E. cbn. intros ->. by apply platform_post in E.
  - unfold process_handle_section, process_parse.
    destruct (foreach_fault _ _ _) as [p|f]; cbn; [|done]. unfold process_ok. intros [H1%bool_decide_eq_true H2]%andb_prop.
    split; [done|]. cbn. by destruct (args p).
  - apply wp_bind. eapply wp_mono; [apply root_section_checked|]. intros tr [[ok c']|] H; [|done]. apply wp_ret. rewrite app_nil_r. by apply H.
  - apply wp_bind. eapply wp_mono; [apply vm_section_checked|]. intros tr ? (ok & v & -> & H). apply wp_ret. by rewrite app_nil_r.
  - destruct (linux_handle_section n c st) as [[? ?] ?]. by intros _.
Qed.

(** Pod annotations and mounts do not touch what the other sections set. *)
Lemma annotations_keep n c :
  let c' := snd (annotations_handle_section n c) in
  process (oci c') = process (oci c) /\ platform (oci c') = platform (oci c) /\
  root (oci c') = root (oci c) /\ vm c' = vm c.
Proof.
  cbn. apply (fold_left_inv (fun c' => process (oci c') = process (oci c) /\
    platform (oci c') = platform (oci c) /\ root (oci c') = root (oci c) /\ vm c' = vm c)); [done|].
  intros c1 n1 H. unfold handle_annotation, cc_pod_handle_annotations.
  repeat (case_match; simpl; try done).
Qed.

Lemma handle_section_keep h h' n c st tr0 :
  h <> h' -> section_post h' c tr0 ->
  wp (handle_section h n c st)
     (fun _ o => match o with Done (ok, c', _) => section_post h' c' tr0 | Fault _ => True end).
Proof.
  intros Hne Hp. destruct h; cbn [handle_section].
  - pose proof (annotations_keep n c) as H. destruct (annotations_handle_section n c) as [ok c'].
    cbn in *. destruct H as (H1 & H2 & H3 & H4). destruct h'; try done; cbn in *;
      unfold process_checked, platform_checked, root_checked, vm_checked in *; by rewrite ?H1, ?H2, ?H3, ?H4.
  - unfold hooks_handle_section. destruct (fold_left _ _ _) as [[? ?] ?]. by destruct h'.
  - unfold mounts_handle_section. destruct (mounts (oci c)); by destruct h'.
  - unfold platform_handle_section. by destruct h'.
  - unfold process_handle_section. destruct (process_parse _ _) as [[? ?]|]; by destruct h'.
  - apply wp_bind. eapply wp_mono; [apply root_handle_section_wp|].
    intros tr ? (ok & r & ->). by destruct h'.
  - apply wp_bind. eapply wp_mono; [apply vm_handle_section_wp|].
    intros tr ? (ok & v & -> & _). by destruct h'.
  - by destruct h'.
Qed.

Lemma find_handler hs n h :
  List.find (fun h => g_streq (Some (spec_handler_name h)) (gn_data n)) hs = Some h ->
  gn_data n = Some (spec_handler_name h) /\ h ∈ hs.
Proof.
  intros [Hin He]%List.find_some. rewrite g_streq_spec, bool_decide_eq_true in He.
  by apply list_elem_of_In in Hin.
Qed.

Lemma spec_handler_name_inj h h' : spec_handler_name h = spec_handler_name h' -> h = h'.
Proof. by destruct h, h'. Qed.

Lemma section_post_hostname h n c tr : section_post h c tr -> section_post h (set_version_hostname n c) tr.
Proof. destruct (set_version_hostname_oci n c) as (v & hn & ->). by destruct h. Qed.

Lemma process_config_nodes_wf l hs c :
  config_wf c ->
  wp (process_config_nodes l hs c statics_zero)
     (fun _ o => match o with Done r => statics_ok r | Fault f => process_spec_handler ∈ hs end).
Proof.
  revert c. induction l as [|n l IH]; intros c Hc; [done|]. cbn [process_config_nodes].
  destruct (gn_data n) as [d|] eqn:Ed; [|by apply IH].
  pose proof (set_version_hostname_wf n c Hc) as Hc'.
  rewrite <- Ed. destruct (List.find _ hs) as [h|] eqn:Ef; [|by apply IH].
  apply wp_bind. eapply wp_mono; [by apply handle_section_wf|].
  intros tr [[[ok c1] st1]|f]; [|intros ->; by apply find_handler in Ef as [_ ?]].
  intros [Hwf Hst]. simpl in Hst. subst st1. destruct ok; [by apply IH|done].
Qed.

(** Once established, a section's guarantee survives the rest of the file. *)
Lemma process_config_nodes_keep l hs c st h tr0 :
  section_post h c tr0 ->
  wp (process_config_nodes l hs c st)
     (fun tr o => match o with Done (ok, c', _) => ok = true -> section_post h c' (tr0 ++ tr) | Fault _ => True end).
Proof.
  revert c st tr0. induction l as [|n l IH]; intros c st tr0 Hp; [intros _; by rewrite app_nil_r|]. cbn [process_config_nodes].
  destruct (gn_data n) as [d|] eqn:Ed; [|by apply IH]. rewrite <- Ed.
  pose proof (section_post_hostname h n c tr0 Hp) as Hp'.
  destruct (List.find _ hs) as [h'|] eqn:Ef; [|by apply IH]. apply wp_bind.
  assert (wp (handle_section h' n (set_version_hostname n c) st) (fun tr o =>
    match o with Done (ok, c', _) => ok = true -> section_post h c' (tr0 ++ tr) | Fault _ => True end)) as Hh.
  { destruct (decide (spec_handler_name h' = spec_handler_name h)) as [->%spec_handler_name_inj|Hne].
    - eapply wp_mono; [apply handle_section_post|]. intros tr [[[ok c'] st']|] H; [|done].
      intros Hok. eapply section_post_incl; [|by apply H]. set_solver.
    - eapply wp_mono; [apply (handle_section_keep h' h _ _ _ tr0); [congruence|done]|]. intros tr [[[? ?] ?]|] H; [|done].
      intros _. eapply section_post_incl; [|exact H]. set_solver. }
  eapply wp_mono; [exact Hh|]. intros tr [[[[] c1] st1]|f]; [|done..]. intros H1.
  eapply wp_mono; [by apply IH, H1|]. intros tr' [[[ok c'] st']|] H; [|done]. by rewrite app_assoc.
Qed.

Lemma process_config_nodes_post l hs c st h n :
  n ∈ l -> h ∈ hs -> gn_data n = Some (spec_handler_name h) ->
  wp (process_config_nodes l hs c st)
     (fun tr o => match o with Done (ok, c', _) => ok = true -> section_post h c' tr | Fault _ => True end).
Proof.
  intros Hn Hh Hd. revert c st. induction l as [|n' l IH]; [by apply not_elem_of_nil in Hn|].
  intros c st. cbn [process_config_nodes]. apply elem_of_cons in Hn as [<-|Hn].
  - rewrite Hd. destruct (List.find _ hs) as [h'|] eqn:Ef; cycle 1.
    { apply List.find_none with (x := h) in Ef; [|by apply list_elem_of_In].
      by rewrite g_streq_refl in Ef. }
    rewrite <- Hd in Ef. apply find_handler in Ef as [He _]. rewrite Hd in He. injection He as ->%spec_handler_name_inj.
    apply wp_bind. eapply wp_mono; [apply handle_section_post|].
    intros tr [[[[] c1] st1]|f]; [|done..]. intros H1. by apply process_config_nodes_keep, H1.
  - specialize (IH Hn). destruct (gn_data n'); [|apply IH].
    destruct (List.find _ hs); [|apply IH]. apply wp_bind. eapply wp_mono; [apply handle_section_post|].
    intros tr [[[[] c1] st1]|f]; [|done..]. intros _. eapply wp_mono; [apply IH|].
    intros tr' [[[ok c'] st']|] H; [|done]. intros Hok. eapply section_post_incl; [|by apply H]. set_solver.
Qed.

(** Options that are flags, and those that are passed on as text. *)
Definition known_options (l : list string) : list string :=
  filter (fun s => mount_get_flag_value (Some s) <> 0) l.
Definition other_options (l : list string) : list string :=
  filter (fun s => mount_get_flag_value (Some s) = 0) l.

Definition options_node (l : list string) : gnode :=
  GNode (Some "options") (cc_oci_json_parse_aux (JArray (JString <$> l)) false).

Definition commas (l : list string) : string := fold_right (fun s r => s +:+ "," +:+ r) EmptyString l.

Lemma commas_join l : l <> [] -> commas l = join "," l +:+ ",".
Proof.
  induction l as [|x l IH]; [done|]. intros _. destruct l as [|y l].
  - simpl. by rewrite str_app_nil_r.
  - change (commas (x :: y :: l)) with (x +:+ "," +:+ commas (y :: l)). rewrite IH by done.
    change (join "," (x :: y :: l)) with (x +:+ "," +:+ join "," (y :: l)). by rewrite !str_app_assoc.
Qed.

Lemma fold_options l f s :
  fold_left handle_options_section (gn_children (options_node l)) (f, s) =
    (fold_left Z.lor ((fun s => mount_get_flag_value (Some s)) <$> known_options l) f,
     s +:+ commas (other_options l)).
Proof.
  revert f s. induction l as [|x l IH]; intros f s; [simpl; by rewrite str_app_nil_r|].
  change (gn_children (options_node (x :: l)))
    with (GNode (Some x) [GNode None []] :: gn_children (options_node l)).
  cbn [fold_left]. unfold handle_options_section at 2. cbn [gn_data fst snd fmt_s default].
  unfold known_options, other_options. rewrite !filter_cons.
  destruct (decide (mount_get_flag_value (Some x) = 0)) as [E|E].
  - rewrite (decide_False (P := _ <> 0)) by tauto. rewrite IH. cbn [commas fold_right].
    by rewrite !str_app_assoc.
  - rewrite (decide_True (P := _ <> 0)) by done. rewrite IH. done.
Qed.

(** ** Properties *)

(** C7.  However config.json is shaped, and whether or not it is accepted, the
    configuration built from it is well formed: every hook has a path, every
    mount a destination, a type and a source, no namespace the invalid type
    (a namespace without a type has the zero one);
    and the static variables of the handlers are left empty, so nothing of
    one document leaks into the next.  The only handler that can fault is
    the process one. *)
Theorem process_config_wf (tree : gnode) (c : cc_oci_config) (hs : list spec_handler)
    (tr : list event) (o : outcome (bool * cc_oci_config * statics)) :
  config_wf c ->
  exec (cc_oci_process_config tree c statics_zero hs) tr o ->
  match o with
  | Done (_, c', st) => config_wf c' /\ st = statics_zero
  | Fault _ => process_spec_handler ∈ hs
  end.
Proof.
  intros Hc He. pose proof (process_config_nodes_wf (gn_children tree) hs c Hc) as H.
  rewrite wp_exec in H. specialize (H tr o He). by destruct o as [[[ok c'] st]|].
Qed.

(** The document has a section that this handler is given. *)
Definition has_section (tree : gnode) (hs : list spec_handler) (h : spec_handler) : Prop :=
  h ∈ hs /\ exists n, n ∈ gn_children tree /\ gn_data n = Some (spec_handler_name h).

(** C8.  What holds of an accepted config.json, wherever its sections stand in the
    file and whatever else is in it.  If it has a process section, the working
    directory is absolute and there are arguments.  If it has a platform
    section, the platform is linux on amd64.  If it has a root section, the
    root path is not empty, and the file system said that it is a directory.
    If it has a VM section, there is VM data, and the paths of the hypervisor,
    the image and the kernel are not empty and were found in the file
    system. *)
Theorem process_config_sections (tree : gnode) (c c' : cc_oci_config) (st st' : statics)
    (hs : list spec_handler) (tr : list event) :
  exec (cc_oci_process_config tree c st hs) tr (Done (true, c', st')) ->
  (has_section tree hs process_spec_handler -> process_checked c') /\
  (has_section tree hs platform_spec_handler -> platform_checked c') /\
  (has_section tree hs root_spec_handler -> root_checked c' tr) /\
  (has_section tree hs vm_spec_handler -> vm_checked c' tr).
Proof.
  intros He. assert (forall h, has_section tree hs h -> section_post h c' tr) as H.
  { intros h (Hh & n & Hn & Hd). pose proof (process_config_nodes_post (gn_children tree) hs c st h n Hn Hh Hd) as H.
    rewrite wp_exec in H. exact (H tr _ He eq_refl). }
  split_and!; [apply (H process_spec_handler)|apply (H platform_spec_handler)|apply (H root_spec_handler)|apply (H vm_spec_handler)].
Qed.

(** The options of a mount are split without loss: the flags are those of the
    mount with the value of each known option added, and the options that are
    not flags are kept, in order, as one comma-separated string. *)
Theorem mount_options_split (l : list string) (m : cc_oci_mount) :
  flags (mount_set_options (options_node l) m) =
    fold_left Z.lor ((fun s => mount_get_flag_value (Some s)) <$> known_options l) (flags m) /\
  mnt_opts (mount_set_options (options_node l) m) =
    match other_options l with [] => mnt_opts m | o => Some (join "," o) end.
Proof.
  unfold mount_set_options. rewrite fold_options, str_app_nil_l.
  destruct (other_options l) as [|o ls] eqn:E; [done|]. rewrite commas_join by done.
  set (j := join "," (o :: ls)).
  assert (str_nonempty (j +:+ ",") = true) as -> by by destruct j.
  rewrite str_length_app. cbn [String.length]. rewrite Nat.add_sub, str_take_app. done.
Qed.

End spec_handler_facts.

(** ** Witnesses and examples *)

#[export] Instance build_ref : Build := {
  LOCALSTATEDIR := "/var"; SYSCONFDIR := "/etc/cc"; DEFAULTSDIR := "/usr/share/defaults/cc";
  LIBEXECDIR := "/usr/libexec"
}.

Definition process_example : json :=
  JObject [("cwd", JString "/work"); ("args", JArray [JString "/bin/sh"; JString "-c"]);
           ("terminal", JBool true); ("user", JObject [("uid", JInt 7); ("gid", JInt 8)])].

Definition config_example (m : list (string * json)) : gnode :=
  GNode (Some "config.json") (cc_oci_json_parse_aux (GL := glib_ref) (JObject m) false).

Lemma config_wf_create : config_wf cc_oci_config_create.
Proof. split; [split_and!; constructor|split; constructor]. Qed.

Lemma process_config_wf_witness :
  exists c', exec (cc_oci_process_config (config_example [("process", process_example)])
                     cc_oci_config_create statics_zero start_spec_handlers) []
               (Done (true, c', statics_zero)) /\ config_wf c'.
Proof.
  eexists. assert (exec (cc_oci_process_config (config_example [("process", process_example)])
    cc_oci_config_create statics_zero start_spec_handlers) [] (Done (true, _, statics_zero))) as H
    by (vm_compute; split; reflexivity).
  split; [exact H|]. exact (proj1 (process_config_wf _ _ _ _ _ config_wf_create H)).
Defined.

Definition full_example : gnode :=
  config_example
    [("platform", JObject [("os", JString "linux"); ("arch", JString "amd64")]); ("process", process_example);
     ("root", JObject [("path", JString "/b/rootfs")]);
     ("vm", JObject [("path", JString "/bin/qemu"); ("image", JString "/img"); ("kernel", JObject [("path", JString "/vmlinuz")])])].

(** Every path is there. *)
Definition existing : handler unit := fun c w =>
  match c return reply c * unit with
  | Crealpath p => (Some p, w)
  | Cg_file_test _ _ => (true, w)
  | Cstat _ => (Some (Stat KReg 0 0), w)
  | c => (fail_reply c, w)
  end.

Definition full_run : list event * outcome (bool * cc_oci_config * statics) :=
  run_tr existing (cc_oci_process_config full_example cc_oci_config_create statics_zero start_spec_handlers) tt.

Lemma has_section_find tree hs h n :
  h ∈ hs -> List.find (fun n => bool_decide (gn_data n = Some (spec_handler_name h))) (gn_children tree) = Some n ->
  has_section tree hs h.
Proof. intros Hh [Hn Hd%bool_decide_eq_true]%List.find_some. split; [done|]. exists n. by rewrite list_elem_of_In. Qed.

Lemma process_config_sections_witness :
  match snd full_run with
  | Done (true, c', _) => process_checked c' /\ platform_checked c' /\ root_checked c' (fst full_run) /\ vm_checked c' (fst full_run)
  | _ => False
  end.
Proof.
  assert (exists c' st', snd full_run = Done (true, c', st')) as (c' & st' & E) by (do 2 eexists; vm_compute; reflexivity).
  rewrite E.
  destruct (process_config_sections full_example cc_oci_config_create c' statics_zero st' start_spec_handlers (fst full_run))
    as (H1 & H2 & H3 & H4); [by apply run_tr_exec|].
  split_and!; [apply H1|apply H2|apply H3|apply H4]; (eapply has_section_find; [|vm_compute; reflexivity]);
    repeat (apply list_elem_of_here || apply list_elem_of_further).
Defined.

(** ** Where the order or the content of config.json matters *)

Definition mounts_example : json :=
  JArray [JObject [("destination", JString "/data"); ("type", JString "bind");
                   ("source", JString "/srv"); ("options", JArray [JString "rbind"; JString "uid=1"])]].

Definition annotations_example : json := JObject [("ocid/sandbox_name", JString "pod1")].

Definition parsed_destinations (m : list (string * json)) : outcome (list cstr) :=
  match fst (run fail_handler (cc_oci_process_config (config_example m) cc_oci_config_create
                                 statics_zero start_spec_handlers) tt) with
  | Done (_, c, _) => Done (mnt_dir <$> mounts (oci c))
  | Fault f => Fault f
  end.

(** A pod annotation adds the mount of the container's rootfs.  When it comes
    first in the file, the mounts handler finds a mount in place and skips
    the mounts of the file. *)
Example pod_annotation_drops_mounts :
  parsed_destinations [("mounts", mounts_example); ("annotations", annotations_example)]
    = Done [Some "/data"; Some "/(null)/rootfs"] /\
  parsed_destinations [("annotations", annotations_example); ("mounts", mounts_example)]
    = Done [Some "/(null)/rootfs"].
Proof. vm_compute. split; reflexivity. Qed.

(** A JSON null as user id is read through a NULL pointer. *)
Example null_uid_crashes :
  parsed_destinations [("process", JObject [("user", JObject [("uid", JNull)])])] = Fault NullDeref.
Proof. vm_compute. reflexivity. Qed.
