(* ===== verification/Mount.v ===== *)
(** * Mounts (src/src/mount.c)

    The list of mounts is updated in place by the code (destination, created
    directory, ignore flag), so the functions return the updated list. *)

From S2P Require Import Prelude GLib GLibRef Sys Types Util Json Namespace Semver Config.

(** [cc_oci_mounts_to_ignore]: only [mnt_dir] is set in the entries. *)
Definition cc_oci_mounts_to_ignore : list string :=
  ["/proc"; "/dev"; "/dev/pts"; "/dev/shm"; "/dev/mqueue"; "/sys"; "/sys/fs/cgroup"].

(** [g_strrstr (s, "/")] as an offset. *)
Fixpoint last_slash (s : string) : option nat :=
  match s with
  | EmptyString => None
  | String c s' =>
      match last_slash s' with
      | Some i => Some (S i)
      | None => if decide (c = "/"%char) then Some O else None
      end
  end.

Section mount.
Context `{GL : GLib}.

(** Whether the mount is ignored, and the mount with the flag set. *)
Definition cc_oci_mount_ignore (m : cc_oci_mount) : bool * cc_oci_mount :=
  if existsb (fun d => g_streq (Some d) (mnt_dir m)) cc_oci_mounts_to_ignore
  then (true, set_ignore_mount true m) else (false, m).

Definition cc_oci_perform_mount (m : cc_oci_mount) (dry_run : bool) : io bool :=
  if dry_run then mret true
  else
    st ← match mnt_fsname m with None => mret None | Some p => call_ (Cstat p) end;
    match st with
    | None => mret false
    | Some st =>
        ok ← match st_kind st with
             | KReg =>
                 fd ← call_ (Ccreat (dest m) (st_mode st));
                 if fd <? 0 then mret false
                 else _ ← call_ (Cclose fd); mret true
             | _ => mret true
             end;
        if negb ok then mret false
        else
          r ← call_ (Cmount (mnt_fsname m) (Some (dest m)) (mnt_type m) (flags m) (mnt_opts m));
          mret (r =? 0)
    end.

(** The do-while loop that looks for the first directory to create: [p] is
    the path before its last component is cut off.  The result is the path
    whose parent exists, or NULL when no separator is left.  Every round
    shortens the path. *)
Fixpoint first_parent_created (fuel : nat) (p : string) : io cstr :=
  match fuel with
  | O => mret None
  | S fuel =>
      match last_slash p with
      | None => mret None
      | Some i =>
          is_dir ← call_ (Cg_file_test (str_take i p) FT_IS_DIR);
          if is_dir : bool then mret (Some p) else first_parent_created fuel (str_take i p)
      end
  end.

(** The part of an iteration that creates the mount point and mounts;
    [dirname_dest] is the directory to create. *)
Definition mount_at (dry_run : bool) (m : cc_oci_mount) (dirname_dest : string)
    : io (bool * cc_oci_mount) :=
  is_dir ← call_ (Cg_file_test dirname_dest FT_IS_DIR);
  created ← (if is_dir : bool then mret None
             else first_parent_created (S (String.length dirname_dest)) dirname_dest);
  let m := match created with Some _ => set_directory_created created m | None => m end in
  r ← call_ (Cg_mkdir_with_parents dirname_dest CC_OCI_DIR_MODE);
  if r <? 0 then mret (false, m)
  else ok ← cc_oci_perform_mount m dry_run; mret (ok, m).

Definition handle_mount_one (workload_dir : string) (dry_run : bool) (m : cc_oci_mount)
    : io (bool * cc_oci_mount) :=
  let '(ignore, m) := cc_oci_mount_ignore m in
  if ignore : bool then mret (true, m)
  else
    let m := set_dest (c_buf PATH_MAX (workload_dir +:+ fmt_s (mnt_dir m))) m in
    match mnt_fsname m with
    | None => Halt NullDeref
    | Some src =>
        if decide (first_char src = Some "/"%char) then
          st ← call_ (Cstat src);
          match st with
          | None => mret (true, m)
          | Some st =>
              mount_at dry_run m
                (match st_kind st with KDir => dest m | _ => g_path_get_dirname (dest m) end)
          end
        else mount_at dry_run m (dest m)
    end.

(** The list is walked until a mount fails. *)
Fixpoint handle_mounts_loop (workload_dir : string) (dry_run : bool) (l : list cc_oci_mount)
    : io (bool * list cc_oci_mount) :=
  match l with
  | [] => mret (true, [])
  | m :: l =>
      '(ok, m) ← handle_mount_one workload_dir dry_run m;
      if ok : bool
      then '(ok, l) ← handle_mounts_loop workload_dir dry_run l; mret (ok, m :: l)
      else mret (false, m :: l)
  end.

Definition cc_oci_handle_mounts (config : cc_oci_config) : io (bool * cc_oci_config) :=
  '(ok, l) ← handle_mounts_loop (cc_oci_get_workload_dir config) (dry_run_mode config)
               (mounts (oci config));
  mret (ok, set_oci (set_mounts l (oci config)) config).

End mount.

Definition cc_oci_perform_unmount (m : cc_oci_mount) : io bool :=
  r ← call_ (Cumount (dest m)); mret (r =? 0).

Fixpoint umount_loop (l : list cc_oci_mount) : io bool :=
  match l with
  | [] => mret true
  | m :: l =>
      if ignore_mount m then umount_loop l
      else ok ← cc_oci_perform_unmount m; if ok : bool then umount_loop l else mret false
  end.

Fixpoint delete_created_loop (l : list cc_oci_mount) : io unit :=
  match l with
  | [] => mret tt
  | m :: l =>
      if ignore_mount m then delete_created_loop l
      else
        _ ← match directory_created m with
            | Some _ => cc_oci_rm_rf (directory_created m)
            | None => mret true
            end;
        delete_created_loop l
  end.

Definition cc_oci_handle_unmounts (config : cc_oci_config) : io bool :=
  ok ← umount_loop (mounts (oci config));
  if ok : bool then _ ← delete_created_loop (mounts (oci config)); mret true
  else mret false.

(** The JSON array of mounts to undo later. *)
Definition mount_to_json (m : cc_oci_mount) : json :=
  let o := json_object_set_string_member [] "destination" (Some (dest m)) in
  JObject (match directory_created m with
           | Some d => json_object_set_string_member o "directory_created" (Some d)
           | None => o
           end).

Definition cc_oci_mounts_to_json (config : cc_oci_config) : list json :=
  mount_to_json <$> filter (fun m => ignore_mount m = false) (mounts (oci config)).

(** ** Lemmas *)

Section mount_facts.
Context `{GL : GLib}.

Definition ignored_dir (m : cc_oci_mount) : Prop := exists d, d ∈ cc_oci_mounts_to_ignore /\ mnt_dir m = Some d.

Lemma mount_ignore_spec m :
  cc_oci_mount_ignore m = (true, set_ignore_mount true m) /\ ignored_dir m \/
  cc_oci_mount_ignore m = (false, m) /\ ~ ignored_dir m.
Proof.
  unfold cc_oci_mount_ignore. destruct (existsb _ _) eqn:E; [left|right]; (split; [done|]).
  - apply existsb_exists in E as (d & Hin%list_elem_of_In & He).
    rewrite g_streq_spec, bool_decide_eq_true in He. by exists d.
  - intros (d & Hin%list_elem_of_In & Hd). enough (existsb (fun d => g_streq (Some d) (mnt_dir m))
      cc_oci_mounts_to_ignore = true) by congruence.
    apply existsb_exists. exists d. split; [done|]. by rewrite Hd, g_streq_refl.
Qed.

(** The only mount an iteration performs is the configured one, below the
    workload directory. *)
Definition mount_event_ok (wd : string) (dry : bool) (m : cc_oci_mount) (e : event) : Prop :=
  match e with
  | Ev (Cmount s t ty fl op) _ =>
      dry = false /\ ~ ignored_dir m /\ s = mnt_fsname m /\ ty = mnt_type m /\ fl = flags m /\
      op = mnt_opts m /\ t = Some (c_buf PATH_MAX (wd +:+ fmt_s (mnt_dir m)))
  | _ => True
  end.

Lemma safe_first_parent P fuel p :
  (forall q v, P (Ev (Cg_file_test q FT_IS_DIR) v)) -> safe P (first_parent_created fuel p).
Proof.
  intros HP. revert p. induction fuel as [|fuel IH]; intros p; cbn [first_parent_created]; solve_safe auto.
Qed.

Lemma handle_mount_one_safe wd dry m :
  safe (mount_event_ok wd dry m) (handle_mount_one wd dry m).
Proof.
  unfold handle_mount_one.
  destruct (mount_ignore_spec m) as [[-> _]|[-> Hi]]; [apply safe_ret|]. cbn zeta.
  set (m1 := set_dest _ m).
  assert (forall d, safe (mount_event_ok wd dry m) (mount_at dry m1 d)) as Hat.
  { intros d. unfold mount_at. apply safe_bind; [by apply safe_call|]. intros [].
    all: apply safe_bind; [solve [apply safe_ret | by apply safe_first_parent]|]; intros c.
    all: apply safe_bind; [by apply safe_call|]; intros r; destruct (r <? 0); [apply safe_ret|].
    all: apply safe_bind; [|intros; apply safe_ret].
    all: destruct c; unfold cc_oci_perform_mount; destruct dry; try apply safe_ret.
    all: solve_safe ltac:(first [exact I | by cbn]). }
  solve_safe ltac:(exact I).
Qed.

(** Targets mounted and unmounted by an execution. *)
Definition mounted (e : event) : option string :=
  match e with
  | Ev c v => match c return reply c -> option string with
              | Cmount _ t _ _ _ => fun r => if r =? 0 then t else None
              | _ => fun _ => None
              end v
  end.

Definition unmounted (e : event) : option string :=
  match e with
  | Ev c v => match c return reply c -> option string with
              | Cumount t => fun r => if r =? 0 then Some t else None
              | _ => fun _ => None
              end v
  end.

(** The source of a mount was looked up and not found. *)
Definition missing_source (e : event) : bool :=
  match e with
  | Ev c v => match c return reply c -> bool with
              | Cstat _ => fun st => match st with None => true | Some _ => false end
              | _ => fun _ => false
              end v
  end.

Lemma perform_mount_wp m :
  wp (cc_oci_perform_mount m false)
     (fun tr o => match o with
                  | Done true => tr_map mounted tr = [dest m]
                  | Done false => tr_map mounted tr = []
                  | Fault _ => False
                  end).
Proof.
  unfold cc_oci_perform_mount. destruct (mnt_fsname m) as [p|]; [|done]. cbn.
  intros [st|]; [|done]. destruct (st_kind st); cbn.
  - intros fd. destruct (fd <? 0); cbn; [done|]. intros _ r. by destruct (r =? 0).
  - intros r. by destruct (r =? 0).
  - intros r. by destruct (r =? 0).
Qed.

Lemma mount_at_wp m d :
  wp (mount_at false m d)
     (fun tr o => match o with
                  | Done (true, m') => tr_map mounted tr = [dest m'] /\ dest m' = dest m /\
                                       ignore_mount m' = ignore_mount m
                  | Done (false, _) => True
                  | Fault _ => False
                  end).
Proof.
  unfold mount_at. cbn. intros is_dir. apply wp_bind.
  assert (wp (if is_dir then mret None else first_parent_created (S (String.length d)) d)
    (fun tr o => tr_map mounted tr = [] /\ exists c, o = Done c)) as Hc.
  { destruct is_dir; [by split; [|eexists]|]. generalize (S (String.length d)). intros n. revert d.
    induction n as [|n IH]; intros d; cbn; [eauto|]. destruct (last_slash d); cbn; [|eauto].
    intros []; cbn; [eauto|apply IH]. }
  eapply wp_mono; [exact Hc|]. intros tr ? [Htr [c ->]]. cbn. intros r.
  destruct (r <? 0); [done|]. apply wp_bind. eapply wp_mono; [apply perform_mount_wp|].
  intros tr' [[]|] Htr'; [|done..]. cbn. rewrite !tr_map_app, Htr. cbn. rewrite app_nil_r, Htr'.
  destruct c; done.
Qed.

Lemma handle_mount_one_wp wd m :
  ignore_mount m = false ->
  wp (handle_mount_one wd false m)
     (fun tr o => match o with
                  | Done (true, m') => Forall (fun e => missing_source e = false) tr ->
                      tr_map mounted tr = if ignore_mount m' then [] else [dest m']
                  | _ => True
                  end).
Proof.
  intros Hm. unfold handle_mount_one. destruct (mount_ignore_spec m) as [[-> _]|[-> _]]; [done|].
  cbn zeta. set (m1 := set_dest _ m). destruct (mnt_fsname m1) as [src|]; [|done].
  assert (forall d, wp (mount_at false m1 d) (fun tr o => match o with
    | Done (true, m') => tr_map mounted tr = if ignore_mount m' then [] else [dest m'] | _ => True end)) as Hat.
  { intros d. eapply wp_mono; [apply mount_at_wp|]. intros tr [[[] m']|]; [|done..].
    intros (-> & _ & ->). change (ignore_mount m1) with (ignore_mount m). by rewrite Hm. }
  destruct (decide _).
  - wp_step. intros [st|]; cbn beta iota; [|by intros [Hf _]%Forall_cons].
    eapply wp_mono; [apply Hat|]. intros tr [[[] m']|] H; [intros _; exact H|done..].
  - eapply wp_mono; [apply Hat|]. intros tr [[[] m']|] H; [intros _; exact H|done..].
Qed.

Lemma handle_mounts_loop_wp wd l :
  Forall (fun m => ignore_mount m = false) l ->
  wp (handle_mounts_loop wd false l)
     (fun tr o => match o with
                  | Done (true, l') => Forall (fun e => missing_source e = false) tr ->
                      tr_map mounted tr = dest <$> filter (fun m => ignore_mount m = false) l'
                  | _ => True
                  end).
Proof.
  induction 1 as [|m l Hm _ IH]; [done|]. cbn [handle_mounts_loop]. apply wp_bind.
  eapply wp_mono; [by apply handle_mount_one_wp|]. intros tr [[[] m']|] H1; [|done..].
  apply wp_bind. eapply wp_mono; [exact IH|]. intros tr' [[[] l']|] H2; [|done..].
  apply wp_ret. rewrite app_nil_r, tr_map_app, filter_cons. intros [Hf1 Hf2]%Forall_app. rewrite H1, H2 by done.
  destruct (ignore_mount m'); done.
Qed.

Lemma umount_loop_wp l :
  wp (umount_loop l)
     (fun tr o => exists b, o = Done b /\
        let t := dest <$> filter (fun m => ignore_mount m = false) l in
        if b : bool then tr_map unmounted tr = t else tr_map unmounted tr `prefix_of` t).
Proof.
  induction l as [|m l IH]; [by exists true|]. cbn [umount_loop]. rewrite filter_cons.
  destruct (ignore_mount m); [exact IH|]. unfold cc_oci_perform_unmount.
  change (_ ≫= _) with (r ← call_ (Cumount (dest m)); if r =? 0 then umount_loop l else mret false).
  wp_step. intros r. destruct (r =? 0) eqn:E.
  - eapply wp_mono; [exact IH|]. intros tr o (b & -> & Hb). exists b. split; [done|]. simpl.
    rewrite E. destruct b; simpl; [by rewrite Hb|by apply prefix_cons].
  - exists false. split; [done|]. simpl. rewrite E. apply prefix_nil.
Qed.

Lemma handle_mounts_loop_safe wd dry l :
  safe (fun e => match e with
                 | Ev (Cmount _ _ _ _ _) _ => exists m, m ∈ l /\ mount_event_ok wd dry m e
                 | _ => True
                 end) (handle_mounts_loop wd dry l).
Proof.
  induction l as [|m l IH]; [apply safe_ret|]. cbn [handle_mounts_loop].
  apply safe_bind.
  { eapply safe_mono; [apply handle_mount_one_safe|]. intros [[] v] H; try done.
    exists m. split; [left|exact H]. }
  intros [[] m']; [|apply safe_ret]. apply safe_bind; [|intros [? ?]; apply safe_ret].
  eapply safe_mono; [exact IH|]. intros [[] v]; try done. intros (m0 & Hin & H).
  exists m0. split; [by right|exact H].
Qed.

Lemma delete_created_loop_wp l :
  wp (delete_created_loop l)
     (fun tr o => o = Done tt /\
        tr_map (fun e => match e with Ev (Csystem c) _ => Some c | _ => None end) tr `sublist_of`
          (rm_rf_cmd <$> omap directory_created (filter (fun m => ignore_mount m = false) l)) /\
        Forall (fun e => match e with Ev (Csystem _) _ => True | _ => False end) tr).
Proof.
  induction l as [|m l IH]; [done|]. cbn [delete_created_loop]. rewrite filter_cons.
  destruct (ignore_mount m); [exact IH|].
  destruct (directory_created m) as [d|] eqn:Ed; cbn [omap list_omap]; simpl; rewrite Ed; [|exact IH].
  unfold cc_oci_rm_rf. destruct (str_nonempty d); cbn [negb].
  - change (_ ≫= _) with (r ← call_ (Csystem (rm_rf_cmd d)); delete_created_loop l).
    wp_step. intros r. eapply wp_mono; [exact IH|]. intros tr o (-> & Hs & Hf). split; [done|].
    split; [by apply sublist_skip|by constructor].
  - eapply wp_mono; [exact IH|]. intros tr o (-> & Hs & Hf). split; [done|].
    split; [by apply sublist_cons|done].
Qed.

Lemma umount_loop_safe l :
  safe (fun e => match e with Ev (Csystem _) _ => False | _ => True end) (umount_loop l).
Proof.
  induction l as [|m l IH]; [apply safe_ret|]. cbn [umount_loop]. unfold cc_oci_perform_unmount.
  solve_safe ltac:(exact I).
Qed.

Lemma last_slash_Some p i :
  last_slash p = Some i -> exists a b, p = a +:+ String "/" b /\ str_free "/" b /\ i = String.length a.
Proof.
  revert i. induction p as [|c p IH]; intros i; simpl; [done|].
  destruct (last_slash p) as [j|] eqn:E.
  - intros [= <-]. destruct (IH j eq_refl) as (a & b & -> & Hb & ->).
    exists (String c a), b. by rewrite str_app_cons.
  - case_decide as Hc; [|done]. intros [= <-]. subst c. exists EmptyString, p. split; [done|].
    split; [|done]. clear IH. induction p as [|c p IH]; [apply Forall_nil_2|]. simpl in E.
    destruct (last_slash p) eqn:E'; [done|]. case_decide; [done|]. apply str_free_cons. auto.
Qed.

Lemma last_slash_None p : last_slash p = None -> str_free "/" p.
Proof.
  induction p as [|c p IH]; [intros; apply Forall_nil_2|]. simpl. destruct (last_slash p); [done|].
  case_decide; [done|]. intros _. apply str_free_cons. auto.
Qed.

Lemma app_slash_inj a b q r :
  a +:+ String "/" b = q +:+ String "/" r -> str_free "/" b ->
  (q = a /\ r = b) \/ (exists r', a = q +:+ String "/" r').
Proof.
  revert a. induction q as [|c q IH]; intros [|c' a]; rewrite ?str_app_nil_l, ?str_app_cons.
  - intros [= ->]. auto.
  - intros [= <- E] Hb. right. by exists a.
  - intros [= <- E] Hb. subst b. apply str_free_app in Hb as [_ Hb%str_free_cons]. naive_solver.
  - intros [= <- E] Hb. destruct (IH a E Hb) as [[-> ->]|[r' ->]]; [by left|right].
    exists r'. by rewrite str_app_cons.
Qed.

(** ** Properties *)

(** C32.  Every mount(2) the runtime performs for a container is one of the mounts
    of the configuration, with its source, type, flags and options, is not
    on the list of ignored ones, and goes to its destination below the
    workload directory; in dry-run mode there is none.  Below means that the
    target is the path of the directory with the destination written after it, cut
    to the size of the buffer: a destination with [..] in it is not resolved. *)
Theorem handle_mounts_safe (config : cc_oci_config) (tr : list event)
    (o : outcome (bool * cc_oci_config)) (s t ty : cstr) (fl : Z) (op : cstr) (r : Z) :
  exec (cc_oci_handle_mounts config) tr o ->
  Ev (Cmount s t ty fl op) r ∈ tr ->
  dry_run_mode config = false /\
  exists m, m ∈ mounts (oci config) /\ ~ ignored_dir m /\
    s = mnt_fsname m /\ ty = mnt_type m /\ fl = flags m /\ op = mnt_opts m /\
    t = Some (c_buf PATH_MAX (cc_oci_get_workload_dir config +:+ fmt_s (mnt_dir m))).
Proof.
  intros He Hin. eapply safe_exec in He; cycle 1.
  { unfold cc_oci_handle_mounts. apply safe_bind; [apply handle_mounts_loop_safe|].
    intros [? ?]. apply safe_ret. }
  rewrite Forall_forall in He. destruct (He _ Hin) as (m & Hm & Hdry & H). naive_solver.
Qed.

(** C31.  What was mounted is what will be unmounted: when all mounts were handled and
    no source was missing, the targets mounted are exactly the destinations of
    the mounts the updated configuration does not mark as ignored, in order;
    and unmounting that configuration unmounts exactly these, or stops after
    a prefix of them. *)
Theorem mounts_match_unmounts (config config' : cc_oci_config) (tr tr' : list event) (ok : bool) :
  Forall (fun m => ignore_mount m = false) (mounts (oci config)) -> dry_run_mode config = false ->
  exec (cc_oci_handle_mounts config) tr (Done (true, config')) ->
  Forall (fun e => missing_source e = false) tr ->
  exec (cc_oci_handle_unmounts config') tr' (Done ok) ->
  if ok then tr_map unmounted tr' = tr_map mounted tr
  else tr_map unmounted tr' `prefix_of` tr_map mounted tr.
Proof.
  intros Hig Hdry He Hmiss Hu. unfold cc_oci_handle_mounts in He. rewrite Hdry in He.
  apply exec_bind in He as [(f & _ & ?)|(tr1 & [b l'] & tr2 & -> & H1 & H2)]; [done|].
  destruct H2 as [-> [= <- ->]]. rewrite app_nil_r in *.
  pose proof (handle_mounts_loop_wp (cc_oci_get_workload_dir config) _ Hig) as Hw.
  rewrite wp_exec in Hw. rewrite (Hw _ _ H1 Hmiss). clear Hw.
  unfold cc_oci_handle_unmounts in Hu. cbn [mounts oci set_oci set_mounts] in Hu.
  pose proof (umount_loop_wp l') as Hw. rewrite wp_exec in Hw.
  apply exec_bind in Hu as [(f & Hf & ?)|(tr3 & b & tr4 & -> & H3 & H4)]; [done|].
  destruct (Hw _ _ H3) as (b' & [= <-] & Hb). rewrite tr_map_app. destruct b.
  - apply exec_bind in H4 as [(f & Hf & ?)|(tr5 & [] & tr6 & -> & H5 & [-> [= ->]])]; [done|].
    pose proof (delete_created_loop_wp l') as Hd. rewrite wp_exec in Hd.
    destruct (Hd _ _ H5) as (_ & _ & Hs). rewrite app_nil_r, (tr_map_quiet unmounted tr5), app_nil_r; [done|].
    eapply Forall_impl; [exact Hs|]. by intros [[] v].
  - destruct H4 as [-> [= ->]]. by rewrite app_nil_r.
Qed.

(** Directories are removed from the root filesystem only after every mount
    recorded has been unmounted, and only those recorded as created. *)
Theorem unmounts_before_removal (config : cc_oci_config) (tr : list event) (o : outcome bool)
    (cmd : string) (r : Z) :
  exec (cc_oci_handle_unmounts config) tr o -> Ev (Csystem cmd) r ∈ tr ->
  exists tr1 tr2, tr = tr1 ++ tr2 /\ Ev (Csystem cmd) r ∈ tr2 /\
    tr_map unmounted tr1 = dest <$> filter (fun m => ignore_mount m = false) (mounts (oci config)) /\
    exists m d, m ∈ mounts (oci config) /\ ignore_mount m = false /\
      directory_created m = Some d /\ cmd = rm_rf_cmd d.
Proof.
  intros He Hin. unfold cc_oci_handle_unmounts in He.
  assert (forall tr b, exec (umount_loop (mounts (oci config))) tr b -> Ev (Csystem cmd) r ∉ tr) as Hno.
  { intros tr' b Hb Hs. pose proof (safe_exec _ _ _ _ (umount_loop_safe _) Hb) as Hf.
    rewrite Forall_forall in Hf. exact (Hf _ Hs). }
  apply exec_bind in He as [(f & Hf & ->)|(tr1 & b & tr2 & -> & H1 & H2)]; [by destruct (Hno _ _ Hf)|].
  pose proof (umount_loop_wp (mounts (oci config))) as Hw. rewrite wp_exec in Hw.
  destruct (Hw _ _ H1) as (b' & [= <-] & Hb). apply elem_of_app in Hin as [Hin|Hin]; [by destruct (Hno _ _ H1)|].
  destruct b; [|by destruct H2 as [-> _]; apply not_elem_of_nil in Hin].
  exists tr1, tr2. split_and!; [done..|].
  apply exec_bind in H2. pose proof (delete_created_loop_wp (mounts (oci config))) as Hd. rewrite wp_exec in Hd.
  destruct H2 as [(f & Hf & ->)|(tr3 & [] & tr4 & -> & H3 & [-> _])]; [by destruct (Hd _ _ Hf)|].
  rewrite app_nil_r in Hin. destruct (Hd _ _ H3) as (_ & Hs & _).
  assert (cmd ∈ rm_rf_cmd <$> omap directory_created
            (filter (fun m => ignore_mount m = false) (mounts (oci config)))) as Hc.
  { eapply elem_of_sublist; [|exact Hs]. by apply (elem_of_tr_map _ _ (Ev (Csystem cmd) r)). }
  apply list_elem_of_fmap in Hc as (d & -> & Hd'). apply list_elem_of_omap in Hd' as (m & Hm & Hmd).
  apply list_elem_of_filter in Hm as [Hig Hm]. by exists m, d.
Qed.

(** The search for the first directory a mount will create, in a file system
    whose directories are [isdir], for a path that is no directory: it stops
    at an ancestor-or-self of the path that does not exist and whose parent
    does, or finds that no ancestor exists. *)
Theorem first_parent_created_spec {W} (h : handler W) (isdir : string -> bool) (p : string) (w : W) :
  (forall q w, h (Cg_file_test q FT_IS_DIR) w = (isdir q, w)) -> isdir p = false ->
  exists c, run h (first_parent_created (S (String.length p)) p) w = (Done c, w) /\
    match c with
    | Some q => isdir q = false /\ (p = q \/ exists r, p = q +:+ String "/" r) /\
                exists parent name, q = parent +:+ String "/" name /\ isdir parent = true
    | None => forall q r, p = q +:+ String "/" r -> isdir q = false
    end.
Proof.
  intros Hh. assert (forall fuel, (String.length p < fuel)%nat -> isdir p = false ->
    exists c, run h (first_parent_created fuel p) w = (Done c, w) /\
    match c with
    | Some q => isdir q = false /\ (p = q \/ exists r, p = q +:+ String "/" r) /\
                exists parent name, q = parent +:+ String "/" name /\ isdir parent = true
    | None => forall q r, p = q +:+ String "/" r -> isdir q = false
    end) as H; [|apply H; lia].
  intros fuel. revert p. induction fuel as [|fuel IH]; intros p Hl Hp; [lia|].
  cbn [first_parent_created]. destruct (last_slash p) as [i|] eqn:E; cycle 1.
  { exists None. split; [done|]. intros q r ->. apply last_slash_None, str_free_app in E as [_ E].
    apply str_free_cons in E. naive_solver. }
  apply last_slash_Some in E as (a & b & -> & Hb & ->). rewrite str_take_app.
  run_call d w' Ed. rewrite Hh in Ed. injection Ed as <- <-. destruct (isdir a) eqn:Ea.
  - exists (Some (a +:+ String "/" b)). split; [done|]. split_and!; [done|by left|by exists a, b].
  - destruct (IH a) as (c & Hrun & Hc); [rewrite str_length_app in Hl; simpl in Hl; lia|done|].
    exists c. split; [done|]. destruct c as [q|].
    + destruct Hc as (Hq & Hpre & Hpar). split_and!; [done| |done]. right.
      destruct Hpre as [->|[r ->]]; [by exists b|]. exists (r +:+ String "/" b).
      by rewrite str_app_assoc, str_app_cons.
    + intros q r Hqr. apply app_slash_inj in Hqr as [[-> ->]|[r' Hr']]; [done| |done].
      by apply (Hc q r').
Qed.

End mount_facts.

(** ** Witnesses and examples *)

Definition mount_config (source : string) : cc_oci_config :=
  set_oci
    (set_root (Root "/r" false)
       (set_mounts [Mount MS_BIND (Some source) (Some "/data") (Some "bind") None EmptyString false None;
                    Mount 0 (Some "proc") (Some "/proc") (Some "proc") None EmptyString false None]
          oci_cfg_zero)) cc_oci_config_create.

(** The configuration after the mounts: the first has its destination, the
    second is ignored. *)
Definition mount_config' (source : string) : cc_oci_config :=
  set_oci
    (set_root (Root "/r" false)
       (set_mounts [Mount MS_BIND (Some source) (Some "/data") (Some "bind") None "/r/data" false None;
                    Mount 0 (Some "proc") (Some "/proc") (Some "proc") None EmptyString true None]
          oci_cfg_zero)) cc_oci_config_create.

Definition dir_stat : option stat_t := Some (Stat KDir 16877 4096).

Definition mount_trace : list event :=
  [Ev (Cstat "/srv") dir_stat; Ev (Cg_file_test "/r/data" FT_IS_DIR) true;
   Ev (Cg_mkdir_with_parents "/r/data" 488) 0; Ev (Cstat "/srv") dir_stat;
   Ev (Cmount (Some "/srv") (Some "/r/data") (Some "bind") 4096 None) 0].

Lemma mount_trace_exec :
  exec (cc_oci_handle_mounts (GL := glib_ref) (mount_config "/srv")) mount_trace
    (Done (true, mount_config' "/srv")).
Proof. solve_exec. Qed.

Lemma handle_mounts_safe_witness :
  exec (cc_oci_handle_mounts (GL := glib_ref) (mount_config "/srv")) mount_trace
    (Done (true, mount_config' "/srv")) /\ dry_run_mode (mount_config "/srv") = false.
Proof.
  split; [exact mount_trace_exec|].
  refine (proj1 (handle_mounts_safe (GL := glib_ref) _ _ _ _ _ _ _ _ 0 mount_trace_exec _)).
  do 4 right. left.
Defined.

Lemma mounts_match_unmounts_witness :
  let tr' := [Ev (Cumount "/r/data") 0] in
  tr_map unmounted tr' = tr_map mounted mount_trace.
Proof.
  intros tr'.
  refine (mounts_match_unmounts (GL := glib_ref) (mount_config "/srv") (mount_config' "/srv") mount_trace
    tr' true _ eq_refl mount_trace_exec _ _).
  - repeat constructor.
  - repeat constructor.
  - vm_compute. eexists _, _. split; [reflexivity|]. split; reflexivity.
Defined.

Lemma unmounts_before_removal_witness :
  let m := set_directory_created (Some "/r/data") (set_dest "/r/data" cc_oci_mount_zero) in
  let config := set_oci (set_mounts [m] oci_cfg_zero) cc_oci_config_create in
  exists tr1 tr2, [Ev (Cumount "/r/data") 0; Ev (Csystem (rm_rf_cmd "/r/data")) 0] = tr1 ++ tr2 /\
    tr_map unmounted tr1 = ["/r/data"].
Proof.
  intros m config.
  destruct (unmounts_before_removal config
    [Ev (Cumount "/r/data") 0; Ev (Csystem (rm_rf_cmd "/r/data")) 0] (Done true) (rm_rf_cmd "/r/data") 0)
    as (tr1 & tr2 & H1 & _ & H2 & _).
  - vm_compute. repeat (eexists _, _; split; [reflexivity|]). split; reflexivity.
  - right. left.
  - exists tr1, tr2. split; [exact H1|exact H2].
Defined.

Definition dirs_handler (isdir : string -> bool) : handler unit := fun c w =>
  match c return reply c * unit with
  | Cg_file_test p FT_IS_DIR => (isdir p, w)
  | c => (fail_reply c, w)
  end.

Lemma first_parent_created_spec_witness :
  let isdir := fun p => bool_decide (p = "/r") in
  exists c, run (dirs_handler isdir) (first_parent_created 10 "/r/a/b/c") tt = (Done c, tt) /\
    match c with Some q => isdir q = false | None => True end.
Proof.
  intros isdir.
  destruct (first_parent_created_spec (dirs_handler isdir) isdir "/r/a/b/c" tt) as (c & H & Hc);
    [reflexivity|reflexivity|].
  exists c. split; [exact H|]. destruct c; [exact (proj1 Hc)|exact I].
Defined.

(** A mount whose source does not exist is skipped but not marked as ignored:
    the container is created without it, and unmounting it later fails. *)
Example missing_source_unmounted :
  exec (cc_oci_handle_mounts (GL := glib_ref) (mount_config "/none")) [Ev (Cstat "/none") None]
    (Done (true, mount_config' "/none")) /\
  exec (cc_oci_handle_unmounts (mount_config' "/none")) [Ev (Cumount "/r/data") (-1)] (Done false).
Proof. split; solve_exec. Qed.

(** A source that is not a path, such as "tmpfs", is looked up as a file by
    the mount step, which fails when there is no such file. *)
Example tmpfs_source_fails :
  exec (cc_oci_handle_mounts (GL := glib_ref) (mount_config "tmpfs"))
    [Ev (Cg_file_test "/r/data" FT_IS_DIR) true; Ev (Cg_mkdir_with_parents "/r/data" 488) 0;
     Ev (Cstat "tmpfs") None]
    (Done (false, set_oci (set_mounts
       [Mount MS_BIND (Some "tmpfs") (Some "/data") (Some "bind") None "/r/data" false None;
        Mount 0 (Some "proc") (Some "/proc") (Some "proc") None EmptyString false None]
       (oci (mount_config "tmpfs"))) (mount_config "tmpfs"))).
Proof. solve_exec. Qed.
