(* ===== verification/State.v ===== *)
(** * The state file (src/src/state.c)

    state.json is written by one command of the runtime and read by the next;
    it is all they share.  [cc_oci_state_file_create] builds a JSON object
    from the configuration, [cc_oci_state_file_read] walks the tree of the
    parsed file with one handler per section, counting the elements found.
    [cc_oci_process_to_json] of src/src/oci.c is here too. *)

From S2P Require Import Prelude GLib GLibRef Sys Types Util Json Namespace Semver Config SpecHandlers Mount.

(** ** Status names *)

Definition oci_status_map : list (oci_status * string) := [
  (OCI_STATUS_CREATED, "created"); (OCI_STATUS_RUNNING, "running"); (OCI_STATUS_PAUSED, "paused");
  (OCI_STATUS_STOPPED, "stopped"); (OCI_STATUS_STOPPING, "stopping") ].

Definition cc_oci_status_to_str (status : oci_status) : cstr :=
  snd <$> List.find (fun p => bool_decide (fst p = status)) oci_status_map.

(** ** Sections *)

(** The handlers of [state_handlers]. *)
Inductive state_section :=
| S_ociVersion | S_id | S_pid | S_bundlePath | S_commsPath | S_processPath | S_status
| S_created | S_mounts | S_console | S_vm | S_proxy | S_pod | S_annotations.

(** Name, handler, [subelements_needed]. *)
Definition state_handlers : list (string * state_section * nat) := [
  ("ociVersion", S_ociVersion, 1%nat); ("id", S_id, 1%nat); ("pid", S_pid, 1%nat);
  ("bundlePath", S_bundlePath, 1%nat); ("commsPath", S_commsPath, 1%nat);
  ("processPath", S_processPath, 1%nat); ("status", S_status, 1%nat); ("created", S_created, 1%nat);
  ("mounts", S_mounts, 0%nat); ("console", S_console, 0%nat); ("vm", S_vm, 6%nat);
  ("proxy", S_proxy, 2%nat); ("pod", S_pod, 0%nat); ("annotations", S_annotations, 0%nat) ].

(** What a handler updates: the state and its own [subelements_count]. *)
Definition handler_data : Type := oci_state * nat.

(** [update_subelements_and_strdup] *)
Definition update_subelements_and_strdup (set : cstr -> oci_state -> oci_state) (n : gnode)
    (d : handler_data) : handler_data :=
  match gn_data n with
  | None => d
  | Some s => (set (Some s) (fst d), S (snd d))
  end.

Fixpoint alter_last {A} (f : A -> A) (l : list A) : list A :=
  match l with
  | [] => []
  | [x] => [f x]
  | x :: l => x :: alter_last f l
  end.

Section state.
Context `{GL : GLib} `{BD : Build}.

Definition cc_oci_str_to_status (str : cstr) : oci_status :=
  match List.find (fun p => g_streq str (Some (snd p))) oci_status_map with
  | Some p => fst p
  | None => OCI_STATUS_INVALID
  end.

Definition cc_oci_status_length : Z :=
  fold_left (fun max p => Z.max (s32 (g_utf8_strlen (snd p) LINE_MAX)) max) oci_status_map 0.

Definition handle_state_pid_section (n : gnode) (d : handler_data) : handler_data :=
  match gn_data n with
  | None => d
  | Some s =>
      let r := g_ascii_strtoll s in
      (set_s_pid (s32 (st_num r)) (fst d), if decide (st_end r = O) then snd d else S (snd d))
  end.

Definition handle_state_status_section (n : gnode) (d : handler_data) : handler_data :=
  match gn_data n with
  | None => d
  | Some _ => (set_s_status (cc_oci_str_to_status (gn_data n)) (fst d), S (snd d))
  end.

(** The sections with named values start with the same tests: the name of
    the node and the data of its first child. *)
Definition named_value (n : gnode) : option (string * string) :=
  match gn_data n, first_child_data n with
  | Some k, Some v => Some (k, v)
  | _, _ => None
  end.

Definition handle_state_mounts_section (n : gnode) (d : handler_data) : handler_data :=
  match named_value n with
  | None => d
  | Some (k, v) =>
      if g_streq (Some k) (Some "destination") then
        let m := set_ignore_mount false (set_dest (c_buf PATH_MAX v) cc_oci_mount_zero) in
        (set_s_mounts (s_mounts (fst d) ++ [m]) (fst d), snd d)
      else if g_streq (Some k) (Some "directory_created") then
        (set_s_mounts (alter_last (set_directory_created (Some v)) (s_mounts (fst d))) (fst d), snd d)
      else d
  end.

Definition handle_state_console_section (n : gnode) (d : handler_data) : handler_data :=
  match named_value n with
  | None => d
  | Some (k, v) =>
      if g_streq (Some k) (Some "path") then (set_s_console (Some v) (fst d), S (snd d)) else d
  end.

(** [g_assert (vm)] can fail. *)
Definition handle_state_vm_section (n : gnode) (d : handler_data) : outcome handler_data :=
  match named_value n with
  | None => Done d
  | Some (k, v) =>
      match s_vm (fst d) with
      | None => Fault AssertFailed
      | Some m =>
          let upd m := (set_s_vm (Some m) (fst d), S (snd d)) in
          Done (
            if g_streq (Some k) (Some "workload_path") then upd (set_workload_path (c_buf PATH_MAX v) m)
            else if g_streq (Some k) (Some "hypervisor_path")
            then upd (set_hypervisor_path (c_buf PATH_MAX v) m)
            else if g_streq (Some k) (Some "kernel_path") then upd (set_kernel_path (c_buf PATH_MAX v) m)
            else if g_streq (Some k) (Some "image_path") then upd (set_image_path (c_buf PATH_MAX v) m)
            else if g_streq (Some k) (Some "kernel_params") then upd (set_kernel_params (Some v) m)
            else if g_streq (Some k) (Some "pid") then
              let r := g_ascii_strtoll v in
              (set_s_vm (Some (set_vm_pid (s32 (st_num r)) m)) (fst d),
               if decide (st_end r = O) then snd d else S (snd d))
            else d)
      end
  end.

Definition handle_state_proxy_section (n : gnode) (d : handler_data) : outcome handler_data :=
  match named_value n with
  | None => Done d
  | Some (k, v) =>
      match s_proxy (fst d) with
      | None => Fault AssertFailed
      | Some p =>
          let upd p := (set_s_proxy (Some p) (fst d), S (snd d)) in
          Done (
            if g_streq (Some k) (Some "ctlSocket") then upd (set_agent_ctl_socket (Some v) p)
            else if g_streq (Some k) (Some "ioSocket") then upd (set_agent_tty_socket (Some v) p)
            else if g_streq (Some k) (Some "consoleSocket") then upd (set_vm_console_socket (Some v) p)
            else d)
      end
  end.

Definition handle_state_pod_section (n : gnode) (d : handler_data) : handler_data :=
  match named_value n with
  | None => d
  | Some (k, v) =>
      let p := default cc_pod_zero (s_pod (fst d)) in
      if g_streq (Some k) (Some "sandbox") then
        (set_s_pod (Some (set_sandbox (g_streq (Some v) (Some "true")) p)) (fst d), S (snd d))
      else if g_streq (Some k) (Some "sandbox_name") then
        (set_s_pod (Some (set_sandbox_name (Some v) p)) (fst d), S (snd d))
      else (set_s_pod (Some p) (fst d), snd d)
  end.

Definition handle_state_annotations_section (n : gnode) (d : handler_data) : handler_data :=
  match named_value n with
  | None => d
  | Some (k, v) => (set_s_annotations (Annotation k (Some v) :: s_annotations (fst d)) (fst d), snd d)
  end.

(** The process section is read by the handler of config.json, into a
    structure of its own. *)
Definition handle_state_process_section (n : gnode) (st : oci_state) : outcome oci_state :=
  match process_parse n oci_cfg_process_zero with
  | Done (_, p) => Done (set_s_process (Some p) st)
  | Fault f => Fault f
  end.

(** [handler->handle_section] *)
Definition handle_state_section (s : state_section) (d : handler_data) (n : gnode)
    : outcome handler_data :=
  match s with
  | S_ociVersion => Done (update_subelements_and_strdup set_s_oci_version n d)
  | S_id => Done (update_subelements_and_strdup set_s_id n d)
  | S_pid => Done (handle_state_pid_section n d)
  | S_bundlePath => Done (update_subelements_and_strdup set_s_bundle_path n d)
  | S_commsPath => Done (update_subelements_and_strdup set_s_comms_path n d)
  | S_processPath => Done (update_subelements_and_strdup set_s_procsock_path n d)
  | S_status => Done (handle_state_status_section n d)
  | S_created => Done (update_subelements_and_strdup set_s_create_time n d)
  | S_mounts => Done (handle_state_mounts_section n d)
  | S_console => Done (handle_state_console_section n d)
  | S_vm => handle_state_vm_section n d
  | S_proxy => handle_state_proxy_section n d
  | S_pod => Done (handle_state_pod_section n d)
  | S_annotations => Done (handle_state_annotations_section n d)
  end.

(** The position of the handler with the given name, and the handler. *)
Fixpoint find_state_handler (name : cstr) (i : nat) (hs : list (string * state_section * nat))
    : option (nat * state_section) :=
  match hs with
  | [] => None
  | (nm, s, _) :: hs =>
      if g_streq (Some nm) name then Some (i, s) else find_state_handler name (S i) hs
  end.

(** The state and the [subelements_count] of every handler. *)
Definition handle_state_sections (d : oci_state * list nat) (n : gnode)
    : outcome (oci_state * list nat) :=
  match gn_data n with
  | None => Done d
  | Some _ =>
      match find_state_handler (gn_data n) 0 state_handlers with
      | Some (i, s) =>
          match foreach_fault (handle_state_section s) (gn_children n) (fst d, nth i (snd d) 0%nat) with
          | Done (st, count) => Done (st, <[i:=count]> (snd d))
          | Fault f => Fault f
          end
      | None =>
          if g_streq (gn_data n) (Some "process") then
            match handle_state_process_section n (fst d) with
            | Done st => Done (st, snd d)
            | Fault f => Fault f
            end
          else Done d
      end
  end.

Definition counts_zero : list nat := (fun _ => 0%nat) <$> state_handlers.

(** [subelements_count >= subelements_needed] for every handler. *)
Definition counts_ok (counts : list nat) : bool :=
  forallb (fun p => (snd (fst p) <=? snd p)%nat) (zip state_handlers counts).

Definition oci_state_new : oci_state :=
  set_s_proxy (Some cc_proxy_zero) (set_s_vm (Some cc_oci_vm_cfg_zero) oci_state_zero).

(** From the tree of the file. *)
Definition state_of_tree (tree : gnode) : outcome (option oci_state) :=
  match foreach_fault handle_state_sections (gn_children tree) (oci_state_new, counts_zero) with
  | Done (st, counts) => Done (if counts_ok counts then Some st else None)
  | Fault f => Fault f
  end.

Definition cc_oci_state_file_read (file : cstr) : io (option oci_state) :=
  match file with
  | None => mret None
  | Some _ =>
      tree ← cc_oci_json_parse file;
      match tree with
      | None => mret None
      | Some tree =>
          match state_of_tree tree with
          | Done st => mret st
          | Fault f => Halt f
          end
      end
  end.

Definition cc_oci_state_file_get (config : cc_oci_config) : option cc_oci_config :=
  if negb (str_nonempty (runtime_path (state config))) then None
  else Some (set_state
    (set_state_file_path (c_buf PATH_MAX (runtime_path (state config) +:+ "/" +:+ CC_OCI_STATE_FILE))
       (state config)) config).

Definition cc_oci_state_file_exists (config : cc_oci_config) : io (bool * cc_oci_config) :=
  match cc_oci_runtime_path_get config with
  | None => mret (false, config)
  | Some config =>
      match cc_oci_state_file_get config with
      | None => mret (false, config)
      | Some config =>
          r ← call_ (Cg_file_test (state_file_path (state config)) FT_EXISTS); mret (r, config)
      end
  end.

Definition cc_oci_state_file_delete (config : cc_oci_config) : io bool :=
  if negb (str_nonempty (state_file_path (state config))) then Halt AssertFailed
  else r ← call_ (Cg_unlink (state_file_path (state config))); mret (r =? 0).

(** ** Writing *)

Definition cc_oci_process_to_json (p : oci_cfg_process) : option (list (string * json)) :=
  match args p with
  | None => None
  | Some args =>
      if negb (str_nonempty (cwd p)) then None
      else
        let o := json_object_set_string_member [] "cwd" (Some (cwd p)) in
        let o := json_object_set_boolean_member o "terminal" (terminal p) in
        let o := json_object_set_object_member o "user" (Some []) in
        let o := json_object_set_array_member o "args" (JString <$> args) in
        let o := json_object_set_array_member o "env" (JString <$> default [] (env p)) in
        let o := json_object_set_int_member o "stdio_stream" (stdio_stream p) in
        Some (json_object_set_int_member o "stderr_stream" (stderr_stream p))
  end.

Definition vm_to_json (v : cc_oci_vm_cfg) : list (string * json) :=
  let o := json_object_set_int_member [] "pid" (u32 (vm_pid v)) in
  let o := json_object_set_string_member o "hypervisor_path" (Some (hypervisor_path v)) in
  let o := json_object_set_string_member o "image_path" (Some (image_path v)) in
  let o := json_object_set_string_member o "kernel_path" (Some (kernel_path v)) in
  let o := json_object_set_string_member o "workload_path" (Some (workload_path v)) in
  json_object_set_string_member o "kernel_params" (Some (default EmptyString (kernel_params v))).

Definition proxy_to_json (p : cc_proxy) : list (string * json) :=
  let o := json_object_set_string_member [] "ctlSocket"
             (Some (default EmptyString (agent_ctl_socket p))) in
  let o := json_object_set_string_member o "ioSocket"
             (Some (default EmptyString (agent_tty_socket p))) in
  json_object_set_string_member o "consoleSocket" (Some (default EmptyString (vm_console_socket p))).

Definition pod_to_json (p : cc_pod) : list (string * json) :=
  let o := json_object_set_boolean_member [] "sandbox" (sandbox p) in
  json_object_set_string_member o "sandbox_name" (Some (default EmptyString (sandbox_name p))).

(** The object written, when the configuration is complete: a status with a
    name and a process with arguments. *)
Definition state_to_json (config : cc_oci_config) (id created : string) (b : string)
    (v : cc_oci_vm_cfg) (p : cc_proxy) : option (list (string * json)) :=
  let st := state config in
  let o := json_object_set_string_member [] "ociVersion" (Some CC_OCI_SUPPORTED_SPEC_VERSION) in
  let o := json_object_set_string_member o "id" (Some id) in
  let o := json_object_set_int_member o "pid" (u32 (workload_pid st)) in
  let o := json_object_set_string_member o "bundlePath" (Some b) in
  let o := json_object_set_string_member o "commsPath" (Some (comms_path st)) in
  let o := json_object_set_string_member o "processPath" (Some (procsock_path st)) in
  match cc_oci_status_to_str (status st) with
  | None => None
  | Some status =>
      let o := json_object_set_string_member o "status" (Some status) in
      let o := json_object_set_string_member o "created" (Some created) in
      let o := json_object_set_array_member o "mounts" (cc_oci_mounts_to_json config) in
      match cc_oci_process_to_json (process (oci config)) with
      | None => None
      | Some process =>
          let o := json_object_set_object_member o "process" (Some process) in
          let console := (fun c => json_object_set_string_member [] "path" (Some c)) <$> console config in
          let o := json_object_set_object_member o "console" console in
          let o := json_object_set_object_member o "vm" (Some (vm_to_json v)) in
          let o := json_object_set_object_member o "proxy" (Some (proxy_to_json p)) in
          let o := match pod config with
                   | Some pd => json_object_set_object_member o "pod" (Some (pod_to_json pd))
                   | None => o
                   end in
          Some (match annotations (oci config) with
                | [] => o
                | _ => json_object_set_object_member o "annotations"
                         (Some (cc_oci_annotations_to_json config))
                end)
      end
  end.

(** The guards at the start of [cc_oci_state_file_create]: what they let
    through. *)
Definition state_file_guards (config : cc_oci_config) (created : cstr)
    : option (string * string * string * cc_oci_vm_cfg * cc_proxy) :=
  match created, optarg_container_id config, bundle_path config, vm config, proxy config with
  | Some created, Some id, Some b, Some v, Some p =>
      if str_nonempty id && str_nonempty (runtime_path (state config)) &&
         str_nonempty (comms_path (state config)) && str_nonempty (procsock_path (state config))
      then Some (created, id, b, v, p) else None
  | _, _, _, _, _ => None
  end.

(** The document is written in one go. *)
Definition write_state_file (obj : list (string * json)) (config : cc_oci_config) : io (bool * cc_oci_config) :=
  r ← call_ (Cg_file_set_contents (state_file_path (state config)) (json_generator_to_data (JObject obj) true));
  mret (r, config).

Definition cc_oci_state_file_create (config : cc_oci_config) (created : cstr)
    : io (bool * cc_oci_config) :=
  match state_file_guards config created with
  | None => mret (false, config)
  | Some (created, id, b, v, p) =>
      match cc_oci_state_file_get config with
      | None => mret (false, config)
      | Some config =>
          match state_to_json config id created b v p with
          | None => mret (false, config)
          | Some obj => write_state_file obj config
          end
      end
  end.

(** The name of a configuration's status. *)
Definition cc_oci_status_get (config : option cc_oci_config) : cstr :=
  match config with None => None | Some config => cc_oci_status_to_str (status (state config)) end.

End state.

(** ** What the reader gets back *)

(** Documents a JSON library writes and reads back unchanged: text in UTF-8,
    64-bit integers, no two members of the same name, no floating point. *)
Fixpoint json_ok `{GLib} (j : json) : Prop :=
  match j with
  | JNull | JBool _ => True
  | JInt z => LONG_MIN <= z <= LONG_MAX
  | JDouble _ => False
  | JString s => g_utf8_validate s = true
  | JArray l => fold_right (fun j P => json_ok j /\ P) True l
  | JObject m =>
      NoDup m.*1 /\
      fold_right (fun kv P => (g_utf8_validate (fst kv) = true /\ json_ok (snd kv)) /\ P) True m
  end.

(** What is relied on of the file system and of JSON-GLib: a document written
    with success is loaded again. *)
Class JsonStore `{GLib} {W} (h : handler W) :=
  json_store : forall path j pretty w w1,
    json_ok j ->
    h (Cg_file_set_contents path (json_generator_to_data j pretty)) w = (true, w1) ->
    fst (h (Cjson_load path) w1) = Some (Some j).

Definition nonempty_strv (l : list string) : strv := match l with [] => None | _ => Some l end.

Definition saved_mount (m : cc_oci_mount) : cc_oci_mount :=
  set_directory_created (directory_created m) (set_dest (dest m) cc_oci_mount_zero).

Definition saved_process (p : oci_cfg_process) : oci_cfg_process :=
  Process (nonempty_strv (default [] (args p))) (cwd p) (nonempty_strv (default [] (env p)))
    (terminal p) oci_cfg_user_zero (stdio_stream p) (stderr_stream p).

Definition saved_vm (v : cc_oci_vm_cfg) : cc_oci_vm_cfg :=
  set_kernel_params (Some (default EmptyString (kernel_params v))) v.

Definition saved_proxy (p : cc_proxy) : cc_proxy :=
  Proxy None (Some (default EmptyString (agent_ctl_socket p)))
    (Some (default EmptyString (agent_tty_socket p)))
    (Some (default EmptyString (vm_console_socket p))).

Definition saved_pod (p : cc_pod) : cc_pod :=
  Pod (sandbox p) (Some (default EmptyString (sandbox_name p))) EmptyString.

Definition has_value (a : oci_cfg_annotation) : Prop := is_Some (value a).

#[export] Instance has_value_dec a : Decision (has_value a).
Proof. unfold has_value. apply _. Defined.

(** The state that reading the file gives: what the configuration holds,
    with the user ids, the unset strings and the scratch data of mounts and
    pods not saved, and the annotations in reverse order. *)
Definition state_of_config (config : cc_oci_config) (id created b : string)
    (v : cc_oci_vm_cfg) (p : cc_proxy) : oci_state :=
  State (Some CC_OCI_SUPPORTED_SPEC_VERSION) (Some id) (workload_pid (state config)) (Some b)
    (Some (comms_path (state config))) (Some (procsock_path (state config)))
    (status (state config)) (Some created)
    (saved_mount <$> filter (fun m => ignore_mount m = false) (mounts (oci config)))
    (rev (filter has_value (annotations (oci config))))
    (console config) (Some (saved_vm v)) (Some (saved_proxy p)) (saved_pod <$> pod config)
    (Some (saved_process (process (oci config)))).

Definition int_ok (z : Z) : Prop := INT_MIN <= z <= INT_MAX.

(** What every configuration built by the program satisfies: 32-bit numbers,
    buffers no longer than [PATH_MAX], a status that has a name, and
    annotations of distinct names. *)
Definition state_wf (config : cc_oci_config) (v : cc_oci_vm_cfg) : Prop :=
  int_ok (workload_pid (state config)) /\ int_ok (vm_pid v) /\
  int_ok (stdio_stream (process (oci config))) /\ int_ok (stderr_stream (process (oci config))) /\
  path_ok (hypervisor_path v) /\ path_ok (image_path v) /\ path_ok (kernel_path v) /\
  path_ok (workload_path v) /\ path_ok (cwd (process (oci config))) /\
  Forall (fun m => path_ok (dest m)) (mounts (oci config)) /\
  NoDup (key <$> annotations (oci config)).

(** ** Lemmas *)

Section state_facts.
Context `{GL : GLib} `{BD : Build}.

Lemma foreach_fault_app {A} (f : A -> gnode -> outcome A) l1 l2 a :
  foreach_fault f (l1 ++ l2) a =
    match foreach_fault f l1 a with Done a => foreach_fault f l2 a | Fault x => Fault x end.
Proof. revert a. induction l1 as [|n l1 IH]; intros a; [done|]. simpl. by destruct (f a n). Qed.

Lemma foreach_fault_cons {A} (f : A -> gnode -> outcome A) n l a a' :
  f a n = Done a' -> foreach_fault f (n :: l) a = foreach_fault f l a'.
Proof. intros H. simpl. by rewrite H. Qed.

Lemma alter_last_snoc {A} (f : A -> A) l x : alter_last f (l ++ [x]) = l ++ [f x].
Proof. induction l as [|y l IH]; [done|]. simpl. rewrite IH. by destruct l. Qed.

Lemma find_state_handler_ref name i hs :
  find_state_handler name i hs =
    (fix go i hs := match hs with
       | [] => None
       | (nm, s, _) :: hs => if bool_decide (Some nm = name) then Some (i, s) else go (S i) hs
       end) i hs.
Proof.
  revert i. induction hs as [|[[nm s] k] hs IH]; intros i; [done|]. simpl. rewrite g_streq_spec.
  by rewrite IH.
Qed.

(** Evaluate the comparisons of literal strings in the goal. *)
Ltac streq :=
  rewrite ?g_streq_spec;
  repeat first [ rewrite bool_decide_eq_true_2 by reflexivity
               | rewrite bool_decide_eq_false_2 by discriminate ].

(** The node of a member with a string value. *)
Definition leaf (s : string) : gnode := GNode (Some s) [].
Definition member (k s : string) : gnode := GNode (Some k) [leaf s].

Lemma section_step name i s nodes st counts st' c' :
  find_state_handler (Some name) 0 state_handlers = Some (i, s) ->
  foreach_fault (handle_state_section s) nodes (st, nth i counts 0%nat) = Done (st', c') ->
  handle_state_sections (st, counts) (GNode (Some name) nodes) = Done (st', <[i:=c']> counts).
Proof. intros Hf Hn. unfold handle_state_sections. cbn [gn_data gn_children fst snd]. by rewrite Hf, Hn. Qed.

(** *** Mounts *)

Definition mount_nodes (m : cc_oci_mount) : list gnode :=
  cc_oci_json_parse_aux (mount_to_json m) true.

Lemma mount_nodes_eq m :
  mount_nodes m =
    GNode None [] :: member "destination" (dest m) ::
      match directory_created m with Some d => [member "directory_created" d] | None => [] end.
Proof. unfold mount_nodes, mount_to_json. by destruct (directory_created m). Qed.

Lemma read_mount_nodes m st c :
  path_ok (dest m) ->
  foreach_fault (handle_state_section S_mounts) (mount_nodes m) (st, c) =
    Done (set_s_mounts (s_mounts st ++ [saved_mount m]) st, c).
Proof.
  intros Hp. rewrite mount_nodes_eq. cbn [foreach_fault handle_state_section].
  unfold handle_state_mounts_section at 1; cbn [named_value gn_data].
  unfold handle_state_mounts_section at 1; cbn [named_value gn_data member leaf first_child_data gn_children fst snd].
  streq. rewrite c_buf_id by done.
  destruct (directory_created m) as [d|] eqn:Ed; cbn [foreach_fault]; cycle 1.
  { unfold saved_mount. rewrite Ed. done. }
  unfold handle_state_section, handle_state_mounts_section.
  cbn [named_value gn_data member leaf first_child_data gn_children fst snd]. streq.
  cbn [s_mounts set_s_mounts]. rewrite alter_last_snoc. unfold saved_mount. by rewrite Ed.
Qed.

Lemma read_mounts l st c :
  Forall (fun m => path_ok (dest m)) l ->
  foreach_fault (handle_state_section S_mounts)
    (cc_oci_json_parse_aux (JArray (mount_to_json <$> l)) false) (st, c) =
    Done (set_s_mounts (s_mounts st ++ (saved_mount <$> l)) st, c).
Proof.
  intros Hl. revert st. induction Hl as [|m l Hm _ IH]; intros st.
  - cbn. rewrite app_nil_r. by destruct st.
  - change (cc_oci_json_parse_aux (JArray (mount_to_json <$> (m :: l))) false)
      with (mount_nodes m ++ cc_oci_json_parse_aux (JArray (mount_to_json <$> l)) false).
    rewrite foreach_fault_app, read_mount_nodes, IH by done. cbn [s_mounts set_s_mounts fmap list_fmap].
    by rewrite <- app_assoc.
Qed.

(** *** Annotations *)

Lemma annotations_json_eq l m :
  NoDup (key <$> l) -> (forall a, a ∈ l -> key a ∉ m.*1) ->
  fold_left (fun obj a => json_object_set_string_member obj (key a) (value a)) l m =
    m ++ ((fun a => (key a, json_of_cstr (value a))) <$> l).
Proof.
  revert m. induction l as [|a l IH]; intros m Hnd Hm; [simpl; by rewrite app_nil_r|].
  rewrite fmap_cons, NoDup_cons in Hnd. destruct Hnd as [Ha Hnd]. cbn [fold_left].
  unfold json_object_set_string_member at 2. rewrite set_member_fresh by (apply Hm; left).
  rewrite IH; [by rewrite <- app_assoc|done|]. intros a' Ha'.
  rewrite fmap_app, not_elem_of_app. split; [apply Hm; by right|]. simpl.
  rewrite list_elem_of_singleton. intros Heq. apply Ha. rewrite <- Heq. by apply list_elem_of_fmap_2.
Qed.

Lemma read_annotation_nodes l st c :
  foreach_fault (handle_state_section S_annotations)
    (map (fun kv => GNode (Some (fst kv)) (cc_oci_json_parse_aux (snd kv) false))
       ((fun a => (key a, json_of_cstr (value a))) <$> l)) (st, c) =
    Done (set_s_annotations (rev (filter has_value l) ++ s_annotations st) st, c).
Proof.
  revert st. induction l as [|a l IH]; intros st; [by destruct st|].
  rewrite fmap_cons. cbn [map foreach_fault handle_state_section].
  unfold handle_state_annotations_section at 1. rewrite filter_cons.
  destruct a as [k [v|]]; cbn.
  - rewrite IH. cbn. rewrite decide_True by (by eexists). cbn. by rewrite <- app_assoc.
  - rewrite IH. rewrite decide_False by (by intros [? [=]]). done.
Qed.

(** *** Numbers *)

Lemma u32_long z : LONG_MIN <= u32 z <= LONG_MAX.
Proof. pose proof (wrapu_range 32 z ltac:(lia)). unfold LONG_MIN, LONG_MAX. lia. Qed.

Lemma int_ok_long z : int_ok z -> LONG_MIN <= z <= LONG_MAX.
Proof. unfold int_ok, INT_MIN, INT_MAX, LONG_MIN, LONG_MAX. lia. Qed.

(** A pid survives being written as unsigned and read as signed. *)
Lemma read_pid z :
  int_ok z ->
  let r := g_ascii_strtoll (cc_oci_json_string (JInt (u32 z))) in
  s32 (st_num r) = z /\ st_end r <> O.
Proof.
  intros Hz. cbn zeta. rewrite json_string_int by apply u32_long. rewrite g_ascii_strtoll_spec.
  destruct (strtoll_fmt_d (u32 z) (u32_long z)) as [-> Hl].
  cbn [st_num st_end]. split; [|lia]. rewrite wraps_wrapu by lia. by apply s32_small.
Qed.

Lemma read_int z : int_ok z -> atoi (cc_oci_json_string (JInt z)) = z.
Proof. intros Hz. rewrite json_string_int by by apply int_ok_long. by apply atoi_fmt_d. Qed.

(** *** The process *)

Lemma strv_of_array l :
  strv_of_children (cc_oci_json_parse_aux (JArray (JString <$> l)) false) = l.
Proof. induction l as [|s l IH]; [done|]. cbn. f_equal. exact IH. Qed.

Definition process_members (p : oci_cfg_process) : list (string * json) :=
  [("cwd", JString (cwd p)); ("terminal", JBool (terminal p)); ("user", JObject []);
   ("args", JArray (JString <$> default [] (args p))); ("env", JArray (JString <$> default [] (env p)));
   ("stdio_stream", JInt (stdio_stream p)); ("stderr_stream", JInt (stderr_stream p))].

Lemma process_to_json_eq p o : cc_oci_process_to_json p = Some o -> o = process_members p.
Proof.
  unfold cc_oci_process_to_json, process_members. destruct (args p) as [a|]; [|done].
  destruct (str_nonempty (cwd p)); [|done]. by intros [= <-].
Qed.

Lemma handle_process_array k l p set :
  (forall v, handle_process_section p (GNode (Some k) v) =
     match v with [] => Done p | _ => Done (set (node_to_strv (GNode (Some k) v)) p) end) ->
  (l = [] -> set None p = p) ->
  handle_process_section p (GNode (Some k) (cc_oci_json_parse_aux (JArray (JString <$> l)) false)) =
    Done (set (nonempty_strv l) p).
Proof.
  intros Hk Hl. rewrite Hk. destruct l as [|s l]; [cbn; by rewrite Hl|].
  unfold node_to_strv. cbn [gn_children]. rewrite strv_of_array. done.
Qed.

Lemma read_process p nm :
  path_ok (cwd p) -> int_ok (stdio_stream p) -> int_ok (stderr_stream p) ->
  exists ok, process_parse (GNode nm (cc_oci_json_parse_aux (JObject (process_members p)) false))
    oci_cfg_process_zero = Done (ok, saved_process p).
Proof.
  intros Hc H1 H2. eexists. unfold process_parse, process_members.
  cbn [gn_children cc_oci_json_parse_aux map fst snd]. 
  set (A := flat_map _ (JString <$> default [] (args p))).
  set (E := flat_map _ (JString <$> default [] (env p))).
  rewrite (foreach_fault_cons _ _ _ _ (set_stderr_stream (-1) (set_stdio_stream (-1) oci_cfg_process_zero)))
    by done.
  erewrite foreach_fault_cons; cycle 1.
  { unfold handle_process_section. cbn [gn_children gn_data]. streq. cbn [fmt_s default cc_oci_json_string].
    rewrite c_buf_id by done. reflexivity. }
  erewrite foreach_fault_cons; cycle 1.
  { unfold handle_process_section. cbn [gn_children gn_data]. streq. reflexivity. }
  erewrite foreach_fault_cons; cycle 1.
  { unfold handle_process_section. cbn [gn_children gn_data]. streq. cbn [foreach_fault].
    unfold handle_user_section. cbn [gn_data]. streq. reflexivity. }
  erewrite foreach_fault_cons; cycle 1.
  { apply (handle_process_array "args" (default [] (args p)) _ set_args).
    - intros [|c v]; [done|]. unfold handle_process_section. cbn [gn_children gn_data]. streq. reflexivity.
    - done. }
  erewrite foreach_fault_cons; cycle 1.
  { apply (handle_process_array "env" (default [] (env p)) _ set_env).
    - intros [|c v]; [done|]. unfold handle_process_section. cbn [gn_children gn_data]. streq. reflexivity.
    - done. }
  erewrite foreach_fault_cons; cycle 1.
  { unfold handle_process_section. cbn [gn_children gn_data]. streq. cbn [child_atoi gn_children gn_data].
    rewrite read_int by done. reflexivity. }
  erewrite foreach_fault_cons; cycle 1.
  { unfold handle_process_section. cbn [gn_children gn_data]. streq. cbn [child_atoi gn_children gn_data].
    rewrite read_int by done. reflexivity. }
  cbn [foreach_fault]. do 2 f_equal. unfold saved_process. 
  destruct (terminal p); streq; reflexivity.
Qed.

(** *** The whole document *)

Definition vm_members (v : cc_oci_vm_cfg) : list (string * json) :=
  [("pid", JInt (u32 (vm_pid v))); ("hypervisor_path", JString (hypervisor_path v));
   ("image_path", JString (image_path v)); ("kernel_path", JString (kernel_path v));
   ("workload_path", JString (workload_path v));
   ("kernel_params", JString (default EmptyString (kernel_params v)))].

Definition state_members (config : cc_oci_config) (id created b : string) (v : cc_oci_vm_cfg)
    (p : cc_proxy) (status : string) : list (string * json) :=
  [("ociVersion", JString CC_OCI_SUPPORTED_SPEC_VERSION); ("id", JString id);
   ("pid", JInt (u32 (workload_pid (state config)))); ("bundlePath", JString b);
   ("commsPath", JString (comms_path (state config)));
   ("processPath", JString (procsock_path (state config))); ("status", JString status);
   ("created", JString created); ("mounts", JArray (cc_oci_mounts_to_json config));
   ("process", JObject (process_members (process (oci config))));
   ("console", match console config with Some c => JObject [("path", JString c)] | None => JNull end);
   ("vm", JObject (vm_members v));
   ("proxy", JObject [("ctlSocket", JString (default EmptyString (agent_ctl_socket p)));
                      ("ioSocket", JString (default EmptyString (agent_tty_socket p)));
                      ("consoleSocket", JString (default EmptyString (vm_console_socket p)))])].

Definition pod_members (config : cc_oci_config) : list (string * json) :=
  match pod config with
  | Some p => [("pod", JObject [("sandbox", JBool (sandbox p));
                                ("sandbox_name", JString (default EmptyString (sandbox_name p)))])]
  | None => []
  end.

Definition annotation_members (config : cc_oci_config) : list (string * json) :=
  match annotations (oci config) with
  | [] => []
  | l => [("annotations", JObject ((fun a => (key a, json_of_cstr (value a))) <$> l))]
  end.

Lemma state_to_json_eq config id created b v p obj :
  NoDup (key <$> annotations (oci config)) ->
  state_to_json config id created b v p = Some obj ->
  exists status, cc_oci_status_to_str (Types.status (state config)) = Some status /\
    obj = state_members config id created b v p status ++ pod_members config ++ annotation_members config.
Proof.
  intros Hnd. unfold state_to_json. destruct (cc_oci_status_to_str _) as [status|]; [|done].
  destruct (cc_oci_process_to_json _) as [po|] eqn:Ep; [|done]. apply process_to_json_eq in Ep as ->.
  intros [= <-]. exists status. split; [done|].
  assert (cc_oci_annotations_to_json config =
    ((fun a => (key a, json_of_cstr (value a))) <$> annotations (oci config))) as Ha.
  { unfold cc_oci_annotations_to_json. rewrite annotations_json_eq; [done|done|].
    intros a _. apply not_elem_of_nil. }
  unfold state_members, pod_members, annotation_members. rewrite Ha.
  destruct (annotations (oci config)) as [|a l], (pod config) as [pd|], (console config) as [c|];
    reflexivity.
Qed.

Lemma status_roundtrip st s :
  cc_oci_status_to_str st = Some s -> cc_oci_str_to_status (Some s) = st.
Proof.
  unfold cc_oci_str_to_status, cc_oci_status_to_str. simpl. rewrite !g_streq_spec.
  destruct st; intros [= <-]; done.
Qed.

(** Step over the first section; what its handler does is left to prove. *)
Ltac section_next :=
  erewrite foreach_fault_cons;
  [|eapply section_step; [rewrite find_state_handler_ref; reflexivity|]]; cycle 1.

Lemma read_pid_section z st c :
  int_ok z ->
  foreach_fault (handle_state_section S_pid) (cc_oci_json_parse_aux (JInt (u32 z)) false) (st, c) =
    Done (set_s_pid z st, S c).
Proof.
  intros Hz. destruct (read_pid z Hz) as [H1 H2].
  cbn [cc_oci_json_parse_aux foreach_fault handle_state_section].
  unfold handle_state_pid_section. cbn [gn_data fst snd]. by rewrite H1, decide_False.
Qed.

Lemma read_status_section s st c status :
  cc_oci_status_to_str status = Some s ->
  foreach_fault (handle_state_section S_status) (cc_oci_json_parse_aux (JString s) false) (st, c) =
    Done (set_s_status status st, S c).
Proof.
  intros Hs. cbn. unfold handle_state_status_section. cbn [gn_data fst snd].
  by rewrite (status_roundtrip status).
Qed.

Lemma read_console_section cs st c :
  foreach_fault (handle_state_section S_console)
    (cc_oci_json_parse_aux (match cs with Some c => JObject [("path", JString c)] | None => JNull end) false)
    (st, c) = Done (match cs with Some _ => set_s_console cs st | None => st end,
                    match cs with Some _ => S c | None => c end).
Proof.
  destruct cs as [s|]; [|done]. cbn. unfold handle_state_console_section. cbn [named_value gn_data first_child_data gn_children].
  streq. reflexivity.
Qed.

Lemma read_vm_section v st c :
  s_vm st = Some cc_oci_vm_cfg_zero -> int_ok (vm_pid v) ->
  path_ok (hypervisor_path v) -> path_ok (image_path v) -> path_ok (kernel_path v) ->
  path_ok (workload_path v) ->
  foreach_fault (handle_state_section S_vm) (cc_oci_json_parse_aux (JObject (vm_members v)) false) (st, c) =
    Done (set_s_vm (Some (saved_vm v)) st, (6 + c)%nat).
Proof.
  intros Hs Hp H1 H2 H3 H4. unfold vm_members. destruct (read_pid _ Hp) as [E1 E2].
  cbn [cc_oci_json_parse_aux map fst snd handle_state_section].
  erewrite foreach_fault_cons by reflexivity.
  do 6 (erewrite foreach_fault_cons; cycle 1;
    [unfold handle_state_section, handle_state_vm_section;
     cbn [named_value gn_data first_child_data gn_children fst snd s_vm set_s_vm]; rewrite ?Hs;
     streq; rewrite ?E1, ?(decide_False _ _ E2), ?c_buf_id by done; reflexivity|]).
  cbn [foreach_fault fst snd]. by destruct v.
Qed.

Lemma read_proxy_section p st c :
  s_proxy st = Some cc_proxy_zero ->
  foreach_fault (handle_state_section S_proxy)
    (cc_oci_json_parse_aux (JObject
       [("ctlSocket", JString (default EmptyString (agent_ctl_socket p)));
        ("ioSocket", JString (default EmptyString (agent_tty_socket p)));
        ("consoleSocket", JString (default EmptyString (vm_console_socket p)))]) false) (st, c) =
    Done (set_s_proxy (Some (saved_proxy p)) st, (3 + c)%nat).
Proof.
  intros Hs. cbn [cc_oci_json_parse_aux map fst snd].
  erewrite foreach_fault_cons by reflexivity.
  do 3 (erewrite foreach_fault_cons; cycle 1;
    [unfold handle_state_section, handle_state_proxy_section;
     cbn [named_value gn_data first_child_data gn_children fst snd s_proxy set_s_proxy]; rewrite ?Hs;
     streq; reflexivity|]).
  reflexivity.
Qed.

Lemma read_pod_section p st c :
  s_pod st = None ->
  foreach_fault (handle_state_section S_pod)
    (cc_oci_json_parse_aux (JObject
       [("sandbox", JBool (sandbox p));
        ("sandbox_name", JString (default EmptyString (sandbox_name p)))]) false) (st, c) =
    Done (set_s_pod (Some (saved_pod p)) st, (2 + c)%nat).
Proof.
  intros Hs. cbn [cc_oci_json_parse_aux map fst snd].
  erewrite foreach_fault_cons by reflexivity.
  do 2 (erewrite foreach_fault_cons; cycle 1;
    [unfold handle_state_section, handle_state_pod_section;
     cbn [named_value gn_data first_child_data gn_children fst snd s_pod set_s_pod]; rewrite ?Hs;
     streq; reflexivity|]).
  cbn. destruct (sandbox p) eqn:E; cbn; unfold saved_pod; rewrite E; by streq.
Qed.

Lemma process_section_step nodes st counts :
  handle_state_sections (st, counts) (GNode (Some "process") nodes) =
    match handle_state_process_section (GNode (Some "process") nodes) st with
    | Done st => Done (st, counts)
    | Fault f => Fault f
    end.
Proof.
  unfold handle_state_sections. cbn [gn_data gn_children fst snd].
  assert (find_state_handler (Some "process") 0 state_handlers = None) as ->
    by (rewrite find_state_handler_ref; reflexivity).
  by rewrite g_streq_refl.
Qed.

(** Reading back the fixed sections. *)
Lemma read_state_members config id created b v p status :
  state_wf config v -> cc_oci_status_to_str (Types.status (state config)) = Some status ->
  foreach_fault handle_state_sections
    (cc_oci_json_parse_aux (JObject (state_members config id created b v p status)) false)
    (oci_state_new, counts_zero) =
    Done (set_s_pod None (set_s_annotations [] (state_of_config config id created b v p)),
          [1; 1; 1; 1; 1; 1; 1; 1; 0; match console config with Some _ => 1 | None => 0 end; 6; 3; 0; 0]%nat).
Proof.
  intros (Hpid & Hvpid & Hio & Herr & Hh & Hi & Hk & Hw & Hcwd & Hm & _) Hst.
  change (cc_oci_json_parse_aux (JObject ?m) false)
    with (GNode None [] :: map (fun kv => GNode (Some (fst kv)) (cc_oci_json_parse_aux (snd kv) false)) m).
  erewrite foreach_fault_cons by reflexivity. unfold state_members. cbn [map fst snd].
  section_next; [reflexivity|]. section_next; [reflexivity|].
  section_next; [by apply read_pid_section|].
  do 3 (section_next; [reflexivity|]).
  section_next; [by apply read_status_section|]. section_next; [reflexivity|].
  section_next; [by apply read_mounts, Forall_filter_keep|].
  erewrite foreach_fault_cons; cycle 1.
  { rewrite process_section_step. unfold handle_state_process_section.
    destruct (read_process (process (oci config)) (Some "process")) as [ok Hok]; [done..|].
    rewrite Hok. reflexivity. }
  section_next; [apply read_console_section|].
  section_next; [apply read_vm_section; [destruct (console config); reflexivity|done..]|].
  section_next; [apply read_proxy_section; destruct (console config); reflexivity|].
  unfold state_of_config. destruct (console config); reflexivity.
Qed.

Lemma aux_object_app m1 m2 :
  cc_oci_json_parse_aux (JObject (m1 ++ m2)) false =
    cc_oci_json_parse_aux (JObject m1) false ++
      map (fun kv => GNode (Some (fst kv)) (cc_oci_json_parse_aux (snd kv) false)) m2.
Proof. cbn. by rewrite map_app. Qed.

(** Reading the whole document gives the saved state. *)
Lemma read_document config id created b v p status fn :
  state_wf config v -> cc_oci_status_to_str (Types.status (state config)) = Some status ->
  state_of_tree (GNode fn (cc_oci_json_parse_aux
    (JObject (state_members config id created b v p status ++ pod_members config
              ++ annotation_members config)) false)) =
    Done (Some (state_of_config config id created b v p)).
Proof.
  intros Hwf Hst. unfold state_of_tree. cbn [gn_children].
  rewrite aux_object_app, foreach_fault_app, read_state_members, map_app, foreach_fault_app by done.
  assert (exists c, foreach_fault handle_state_sections
    (map (fun kv => GNode (Some (fst kv)) (cc_oci_json_parse_aux (snd kv) false)) (pod_members config))
    (set_s_pod None (set_s_annotations [] (state_of_config config id created b v p)),
     [1; 1; 1; 1; 1; 1; 1; 1; 0; match console config with Some _ => 1 | None => 0 end; 6; 3; 0; 0]%nat)
    = Done (set_s_annotations [] (state_of_config config id created b v p),
       [1; 1; 1; 1; 1; 1; 1; 1; 0; match console config with Some _ => 1 | None => 0 end; 6; 3; c; 0]%nat))
    as [c ->].
  { unfold pod_members, state_of_config. destruct (pod config) as [pd|]; [|by exists 0%nat].
    eexists. cbn [map fst snd]. section_next; [by apply read_pod_section|]. reflexivity. }
  assert (exists d, foreach_fault handle_state_sections
    (map (fun kv => GNode (Some (fst kv)) (cc_oci_json_parse_aux (snd kv) false)) (annotation_members config))
    (set_s_annotations [] (state_of_config config id created b v p),
     [1; 1; 1; 1; 1; 1; 1; 1; 0; match console config with Some _ => 1 | None => 0 end; 6; 3; c; 0]%nat)
    = Done (state_of_config config id created b v p,
       [1; 1; 1; 1; 1; 1; 1; 1; 0; match console config with Some _ => 1 | None => 0 end; 6; 3; c; d]%nat))
    as [d ->].
  { unfold annotation_members, state_of_config. destruct (annotations (oci config)) as [|a l]; [by exists 0%nat|].
    eexists. cbn [map fst snd]. section_next.
    { change (cc_oci_json_parse_aux (JObject ?m) false)
        with (GNode None [] :: map (fun kv => GNode (Some (fst kv)) (cc_oci_json_parse_aux (snd kv) false)) m).
      erewrite foreach_fault_cons by reflexivity. apply read_annotation_nodes. }
    cbn [foreach_fault s_annotations set_s_annotations]. rewrite app_nil_r. reflexivity. }
  destruct (console config); reflexivity.
Qed.

(** Every string the document can contain. *)
Definition config_strings (config : cc_oci_config) (id created b : string) (v : cc_oci_vm_cfg)
    (p : cc_proxy) : list string :=
  [id; created; b; comms_path (state config); procsock_path (state config);
   cwd (process (oci config)); hypervisor_path v; image_path v; kernel_path v; workload_path v;
   default EmptyString (kernel_params v); default EmptyString (agent_ctl_socket p);
   default EmptyString (agent_tty_socket p); default EmptyString (vm_console_socket p)] ++
  default [] (args (process (oci config))) ++ default [] (env (process (oci config))) ++
  option_list (console config) ++
  option_list (pd ← pod config; sandbox_name pd) ++
  (key <$> annotations (oci config)) ++ omap value (annotations (oci config)) ++
  (dest <$> mounts (oci config)) ++ omap directory_created (mounts (oci config)).

Abbreviation utf8 := (fun s => g_utf8_validate s = true).

Lemma utf8_empty : utf8 EmptyString.
Proof. apply g_utf8_validate_ascii. constructor. Qed.

Lemma json_ok_array l : Forall json_ok l -> json_ok (JArray l).
Proof. induction 1; simpl; auto. Qed.

Lemma json_ok_object m :
  NoDup m.*1 -> Forall (fun kv => utf8 (fst kv) /\ json_ok (snd kv)) m -> json_ok (JObject m).
Proof. intros Hn H. split; [done|]. clear Hn. induction H; simpl; auto. Qed.

Lemma json_ok_strings l : Forall utf8 l -> json_ok (JArray (JString <$> l)).
Proof. intros H. apply json_ok_array, Forall_fmap. exact H. Qed.

(** Objects with literal member names. *)
Ltac json_object :=
  apply json_ok_object;
  [ apply (bool_decide_unpack _); vm_compute; exact I
  | repeat (apply Forall_cons; split; [split; [apply g_utf8_validate_ascii; repeat constructor|cbn [snd]]|]);
    try apply Forall_nil_2 ].

Lemma json_ok_mount m :
  utf8 (dest m) -> (forall d, directory_created m = Some d -> utf8 d) -> json_ok (mount_to_json m).
Proof.
  intros Hd Hc. unfold mount_to_json. destruct (directory_created m) as [d|].
  - change (json_ok (JObject [("destination", JString (dest m)); ("directory_created", JString d)])).
    json_object; [exact Hd|by apply Hc].
  - change (json_ok (JObject [("destination", JString (dest m))])). json_object. exact Hd.
Qed.

Lemma json_ok_process p :
  utf8 (cwd p) -> Forall utf8 (default [] (args p)) -> Forall utf8 (default [] (env p)) ->
  int_ok (stdio_stream p) -> int_ok (stderr_stream p) -> json_ok (JObject (process_members p)).
Proof.
  intros. unfold process_members. json_object; try done; try by apply json_ok_strings.
  - split; constructor.
  - by apply int_ok_long.
  - by apply int_ok_long.
Qed.

Lemma json_ok_annotations l :
  NoDup (key <$> l) -> Forall utf8 (key <$> l) -> Forall utf8 (omap value l) ->
  json_ok (JObject ((fun a => (key a, json_of_cstr (value a))) <$> l)).
Proof.
  intros Hn Hk Hv. apply json_ok_object.
  - by rewrite <- list_fmap_compose.
  - apply Forall_fmap, Forall_forall. rewrite Forall_forall in Hk, Hv. intros a Ha. split.
    + cbn. apply Hk. by apply list_elem_of_fmap_2.
    + cbn. destruct (value a) as [v|] eqn:E; [|done]. apply Hv, list_elem_of_omap. by exists a.
Qed.

Lemma json_ok_mounts l :
  Forall utf8 (dest <$> l) -> Forall utf8 (omap directory_created l) ->
  json_ok (JArray (mount_to_json <$> filter (fun m => ignore_mount m = false) l)).
Proof.
  intros Hd Hc. apply json_ok_array, Forall_fmap, Forall_filter_keep, Forall_forall. intros m Hm.
  rewrite Forall_forall in Hd, Hc. apply json_ok_mount.
  - apply Hd. by apply list_elem_of_fmap_2.
  - intros d Hmd. apply Hc, list_elem_of_omap. by exists m.
Qed.

Lemma utf8_status st s : cc_oci_status_to_str st = Some s -> utf8 s.
Proof. destruct st; intros [= <-]; apply g_utf8_validate_ascii; repeat constructor. Qed.

Lemma json_ok_document config id created b v p status :
  state_wf config v -> Forall utf8 (config_strings config id created b v p) ->
  cc_oci_status_to_str (Types.status (state config)) = Some status ->
  json_ok (JObject (state_members config id created b v p status ++ pod_members config
                    ++ annotation_members config)).
Proof.
  intros (Hpid & Hvpid & Hio & Herr & Hh & Hi & Hk & Hw & Hcwd & Hm & Hnd) Hs Hst.
  unfold config_strings in Hs. rewrite !Forall_app in Hs.
  destruct Hs as (Hf & Ha & He & Hcon & Hpod & Hkey & Hv & Hd & Hdc).
  repeat match goal with H : Forall _ (_ :: _) |- _ => apply Forall_cons in H as [? H] end.
  apply json_ok_object.
  { unfold pod_members, annotation_members.
    destruct (pod config), (annotations (oci config));
      apply (bool_decide_unpack _); vm_compute; exact I. }
  apply Forall_app. split; [|apply Forall_app; split].
  - unfold state_members. repeat (apply Forall_cons; split;
      [split; [apply g_utf8_validate_ascii; repeat constructor|cbn [snd]]|]); try apply Forall_nil_2;
      try done; try apply u32_long.
    + apply g_utf8_validate_ascii. repeat constructor.
    + by eapply utf8_status.
    + by apply json_ok_mounts.
    + by apply json_ok_process.
    + destruct (console config); [|done]. apply Forall_cons in Hcon as [? _]. by json_object.
    + unfold vm_members. json_object; try done. apply u32_long.
    + by json_object.
  - unfold pod_members. destruct (pod config) as [pd|]; [|apply Forall_nil_2].
    apply Forall_singleton. split; [apply g_utf8_validate_ascii; repeat constructor|].
    cbn [snd]. json_object; [done|]. cbn in Hpod. destruct (sandbox_name pd); cbn in *.
    + by apply Forall_cons in Hpod as [? _].
    + apply utf8_empty.
  - unfold annotation_members. destruct (annotations (oci config)) as [|a l]; [apply Forall_nil_2|].
    apply Forall_singleton. split; [apply g_utf8_validate_ascii; repeat constructor|].
    by apply json_ok_annotations.
Qed.

(** *** What any accepted file provides *)

(** The required string of each section, by the position of its handler. *)
Definition required (i : nat) (st : oci_state) : cstr :=
  match i with
  | 0%nat => s_oci_version st
  | 1%nat => s_id st
  | 3%nat => s_bundle_path st
  | 4%nat => s_comms_path st
  | 5%nat => s_procsock_path st
  | 7%nat => s_create_time st
  | _ => Some EmptyString
  end.

Definition section_index (s : state_section) : nat :=
  match s with
  | S_ociVersion => 0 | S_id => 1 | S_pid => 2 | S_bundlePath => 3 | S_commsPath => 4
  | S_processPath => 5 | S_status => 6 | S_created => 7 | S_mounts => 8 | S_console => 9
  | S_vm => 10 | S_proxy => 11 | S_pod => 12 | S_annotations => 13
  end%nat.

(** Nothing that is set is lost. *)
Definition state_le (st st' : oci_state) : Prop :=
  (forall i, is_Some (required i st) -> is_Some (required i st')) /\
  (is_Some (s_vm st) -> is_Some (s_vm st')) /\ (is_Some (s_proxy st) -> is_Some (s_proxy st')).

Lemma state_le_refl st : state_le st st.
Proof. by split_and!. Qed.

Lemma state_le_trans a b c : state_le a b -> state_le b c -> state_le a c.
Proof. unfold state_le. naive_solver. Qed.

Lemma handle_state_section_le s st c n st' c' :
  handle_state_section s (st, c) n = Done (st', c') ->
  state_le st st' /\
  ((0 < c -> is_Some (required (section_index s) st)) ->
   0 < c' -> is_Some (required (section_index s) st'))%nat.
Proof.
  destruct s; cbn [handle_state_section section_index];
    unfold update_subelements_and_strdup, handle_state_pid_section, handle_state_status_section,
      handle_state_mounts_section, handle_state_console_section, handle_state_vm_section,
      handle_state_proxy_section, handle_state_pod_section, handle_state_annotations_section;
    cbn [fst snd]; intros H; repeat case_match; simplify_eq;
    (split; [|intros ? ?; cbn in *; eauto]);
    (split; [|split]); try (intros i; do 8 (destruct i as [|i]; [cbn; by eauto|]); cbn; by eauto);
    cbn; by eauto.
Qed.

Lemma foreach_section_le s nodes st c st' c' :
  foreach_fault (handle_state_section s) nodes (st, c) = Done (st', c') ->
  state_le st st' /\
  ((0 < c -> is_Some (required (section_index s) st)) ->
   0 < c' -> is_Some (required (section_index s) st'))%nat.
Proof.
  revert st c. induction nodes as [|n nodes IH]; intros st c; simpl.
  - intros [= <- <-]. split; [apply state_le_refl|auto].
  - destruct (handle_state_section s (st, c) n) as [[st1 c1]|] eqn:E; [|done]. intros H.
    apply handle_state_section_le in E as [H1 H2]. apply IH in H as [H3 H4].
    split; [by eapply state_le_trans|auto].
Qed.

Lemma find_state_handler_index name i s :
  find_state_handler name 0 state_handlers = Some (i, s) -> i = section_index s.
Proof.
  rewrite find_state_handler_ref. unfold state_handlers. intros H.
  repeat (case_bool_decide; [by simplify_eq|]). done.
Qed.

Definition counts_inv (d : oci_state * list nat) : Prop :=
  length (snd d) = 14%nat /\ is_Some (s_vm (fst d)) /\ is_Some (s_proxy (fst d)) /\
  forall i, (0 < nth i (snd d) 0)%nat -> is_Some (required i (fst d)).

Lemma handle_state_sections_inv d n d' :
  handle_state_sections d n = Done d' -> counts_inv d -> counts_inv d'.
Proof.
  destruct d as [st counts], d' as [st' counts']. unfold handle_state_sections. cbn [fst snd].
  intros H (Hlen & Hv & Hp & Hc). cbn [fst snd] in Hlen. destruct (gn_data n) as [nm|]; [|by simplify_eq].
  destruct (find_state_handler _ _ _) as [[i s]|] eqn:Ef.
  - apply find_state_handler_index in Ef as ->.
    destruct (foreach_fault _ _ _) as [[st1 c1]|] eqn:E; [|done]. injection H as <- <-.
    apply foreach_section_le in E as [[Hle [Hle1 Hle2]] Hi]. split_and!; cbn [fst snd].
    + by rewrite length_insert.
    + auto.
    + auto.
    + intros j Hj. destruct (decide (j = section_index s)) as [->|Hne].
      * apply Hi; [apply Hc|].
        rewrite nth_lookup, list_lookup_insert_eq in Hj by (rewrite Hlen; destruct s; simpl; lia). done.
      * apply Hle, Hc. rewrite nth_lookup, list_lookup_insert_ne, <- nth_lookup in Hj by done. done.
  - destruct (g_streq _ _); [|by simplify_eq]. unfold handle_state_process_section in H.
    destruct (process_parse _ _) as [[ok p]|]; [|done]. injection H as <- <-.
    split_and!; cbn [fst snd s_vm s_proxy set_s_process]; try done.
Qed.

Lemma counts_inv_zero : counts_inv (oci_state_new, counts_zero).
Proof.
  split; [done|]. split; [by eexists|]. split; [by eexists|].
  intros i. do 14 (destruct i as [|i]; [cbn; lia|]). destruct i; cbn; lia.
Qed.

Lemma foreach_sections_inv l d d' :
  foreach_fault handle_state_sections l d = Done d' -> counts_inv d -> counts_inv d'.
Proof.
  revert d. induction l as [|n l IH]; intros d; simpl; [by intros [= <-]|].
  destruct (handle_state_sections d n) as [d1|] eqn:E; [|done].
  intros H Hd. apply (IH d1 H). by eapply handle_state_sections_inv.
Qed.

Lemma state_of_tree_complete tree st :
  state_of_tree tree = Done (Some st) ->
  is_Some (s_oci_version st) /\ is_Some (s_id st) /\ is_Some (s_bundle_path st) /\
  is_Some (s_comms_path st) /\ is_Some (s_procsock_path st) /\ is_Some (s_create_time st) /\
  is_Some (s_vm st) /\ is_Some (s_proxy st).
Proof.
  unfold state_of_tree. destruct (foreach_fault _ _ _) as [[st' counts]|] eqn:E; [|done].
  apply foreach_sections_inv in E as (Hlen & Hv & Hp & Hc); [|apply counts_inv_zero].
  destruct (counts_ok counts) eqn:Eo; [|done]. intros [= ->]. cbn [fst snd] in *.
  assert (forall i, (i < 8)%nat -> (0 < nth i counts 0)%nat) as Hpos.
  { intros i Hi. do 14 (destruct counts as [|? counts]; [done|]). destruct counts; [|done].
    cbn -[Nat.leb] in Eo. repeat (apply andb_prop in Eo as [?%Nat.leb_le Eo]).
    do 8 (destruct i as [|i]; [cbn; lia|]). lia. }
  pose proof (fun i Hi => Hc i (Hpos i Hi)) as H.
  split_and!; try done; [apply (H 0%nat)|apply (H 1%nat)|apply (H 3%nat)|apply (H 4%nat)|apply (H 5%nat)
    |apply (H 7%nat)]; lia.
Qed.

Lemma state_file_path_nonempty rp :
  str_nonempty rp = true -> str_nonempty (c_buf PATH_MAX (rp +:+ "/" +:+ CC_OCI_STATE_FILE)) = true.
Proof. by destruct rp. Qed.

(** ** Properties *)

(** C6.  The state file round trip.  Whatever the file system and the JSON library
    are, as long as a document written with success is loaded again: when a
    configuration has been saved, reading the file saved gives back, field
    by field, the state of that configuration: identity, pids, paths,
    status, timestamp, the mounts to undo, console, VM, proxy, pod and the
    process. *)
Theorem state_file_roundtrip {W} (h : handler W) `{!JsonStore h}
    (config config' : cc_oci_config) (created id b : string) (v : cc_oci_vm_cfg) (p : cc_proxy) (w w1 : W) :
  optarg_container_id config = Some id -> bundle_path config = Some b ->
  vm config = Some v -> proxy config = Some p ->
  state_wf config v -> Forall utf8 (config_strings config id created b v p) ->
  run h (cc_oci_state_file_create config (Some created)) w = (Done (true, config'), w1) ->
  fst (run h (cc_oci_state_file_read (Some (state_file_path (state config')))) w1) =
    Done (Some (state_of_config config id created b v p)).
Proof.
  intros Hid Hb Hv Hp Hwf Hs. unfold cc_oci_state_file_create, write_state_file, state_file_guards.
  rewrite Hid, Hb, Hv, Hp. destruct (_ && _) eqn:Eg; [|by intros [=]].
  repeat (apply andb_prop in Eg as [Eg ?]). unfold cc_oci_state_file_get.
  destruct (str_nonempty (runtime_path (state config))) eqn:Er; [|done]. cbn [negb].
  set (config1 := set_state _ config).
  destruct (state_to_json config1 id created b v p) as [obj|] eqn:Ej; [|by intros [=]].
  apply state_to_json_eq in Ej as (status & Est & ->); [|by destruct Hwf as (?&?&?&?&?&?&?&?&?&?&?)].
  run_call r w' Ew. intros [= -> <- ->].
  apply (json_store (h := h)) in Ew; [|by apply json_ok_document].
  unfold cc_oci_state_file_read, cc_oci_json_parse.
  change (state_file_path (state config1))
    with (c_buf PATH_MAX (runtime_path (state config) +:+ "/" +:+ CC_OCI_STATE_FILE)) in *.
  rewrite state_file_path_nonempty by done. cbn [negb]. rewrite run_bind.
  run_call j w2 Ej. cbn [fst] in Ew. subst j. cbn [run mret io_mret].
  rewrite read_document by done. done.
Qed.

(** C34.  Any file accepted as a state file, whoever wrote it, provides what the
    commands go on to use without a test: version, id, bundle and socket
    paths, timestamp, VM and proxy data are all set. *)
Theorem state_read_complete (file : cstr) (tr : list event) (st : oci_state) :
  exec (cc_oci_state_file_read file) tr (Done (Some st)) ->
  is_Some (s_oci_version st) /\ is_Some (s_id st) /\ is_Some (s_bundle_path st) /\
  is_Some (s_comms_path st) /\ is_Some (s_procsock_path st) /\ is_Some (s_create_time st) /\
  is_Some (s_vm st) /\ is_Some (s_proxy st).
Proof.
  destruct file as [file|]; [|by intros [_ [=]]]. unfold cc_oci_state_file_read. rewrite exec_bind.
  intros [(f & _ & [=])|(tr1 & [tree|] & tr2 & -> & _ & H)]; [|by destruct H as [_ [=]]].
  destruct (state_of_tree tree) as [st'|f] eqn:E; [|by destruct H as [_ [=]]].
  destruct H as [_ [= <-]]. by apply state_of_tree_complete in E.
Qed.

(** Statuses are printed and parsed back: a string is the name of a status
    exactly when it is read as that status, and all others are invalid. *)
Theorem status_names_iff (s : string) (st : oci_status) :
  (cc_oci_str_to_status (Some s) = st /\ st <> OCI_STATUS_INVALID) <-> cc_oci_status_to_str st = Some s.
Proof.
  unfold cc_oci_str_to_status, cc_oci_status_to_str, oci_status_map. simpl. rewrite !g_streq_spec. split.
  - intros [Hn Hi]. repeat case_bool_decide; simplify_eq; done.
  - intros Hs. destruct st; simplify_eq/=; repeat case_bool_decide; done.
Qed.

End state_facts.

(** ** Witnesses and examples *)

(** Files as a map, and the JSON encoding of [glib_ref]. *)
Definition fs_handler : handler (gmap string string) := fun c w =>
  match c return reply c * gmap string string with
  | Cg_file_set_contents p s => (true, <[p:=s]> w)
  | Cjson_load p => (s ← w !! p; Some <$> json_decode s, w)
  | c => (fail_reply c, w)
  end.

Lemma json_ok_no_double j : json_ok (H := glib_ref) j -> json_no_double j = true.
Proof.
  induction j as [| | | | |l IH|m IH] using json_ind'; try done; cbn.
  - induction IH as [|j l Hj _ IHl]; [done|]. simpl. intros [H1 H2]. by rewrite Hj, IHl.
  - intros [_ H]. induction IH as [|[k j] m Hj _ IHm]; [done|]. simpl in *.
    destruct H as [[_ H1] H2]. by rewrite Hj, IHm.
Qed.

#[export] Instance fs_handler_store : JsonStore (H := glib_ref) fs_handler.
Proof.
  intros path j pretty w w1 Hj [= <-]. cbn. rewrite lookup_insert_eq. cbn.
  by rewrite json_decode_encode by by apply json_ok_no_double.
Defined.

Definition saved_example : cc_oci_config :=
  let st := ContainerState EmptyString "/run/c1" "/run/c1/hypervisor.sock" "/run/c1/process.sock" 41
              OCI_STATUS_RUNNING in
  let pr := Process (Some ["/bin/sh"; "-c"]) "/work" None true (User 7 8) 1 2 in
  let mnt := Mount MS_BIND (Some "/srv") (Some "/data") (Some "bind") None "/r/data" false (Some "/r/data") in
  let o := Oci None oci_cfg_hooks_zero None [mnt] [Annotation "a" (Some "1"); Annotation "b" (Some "2")]
             oci_cfg_platform_zero oci_cfg_root_zero pr [] in
  Config o (Some (VmCfg "/usr/bin/qemu" "/img" "/vmlinuz" "/r/w" None 40)) cc_oci_net_cfg_zero st None
    (Some "/b") None (Some "/dev/pts/1") None (Some "c1") false false (Some cc_proxy_zero).

Lemma saved_example_wf : state_wf saved_example (VmCfg "/usr/bin/qemu" "/img" "/vmlinuz" "/r/w" None 40).
Proof.
  assert (forall s, (String.length s <? 100)%nat = true -> path_ok s) as Hp.
  { intros s Hs%Nat.ltb_lt. unfold path_ok, PATH_MAX. lia. }
  assert (int_ok 41 /\ int_ok 40 /\ int_ok 1 /\ int_ok 2) as (? & ? & ? & ?)
    by (unfold int_ok, INT_MIN, INT_MAX; lia).
  split_and!; try done; try (by apply Hp).
  - apply Forall_singleton. by apply Hp.
  - apply (bool_decide_unpack _). vm_compute. exact I.
Qed.

Lemma state_file_roundtrip_witness :
  exists config' w1,
    run fs_handler (cc_oci_state_file_create (GL := glib_ref) saved_example (Some "now")) ∅
      = (Done (true, config'), w1) /\
    fst (run fs_handler (cc_oci_state_file_read (GL := glib_ref) (Some (state_file_path (state config')))) w1)
      = Done (Some (state_of_config saved_example "c1" "now" "/b"
                      (VmCfg "/usr/bin/qemu" "/img" "/vmlinuz" "/r/w" None 40) cc_proxy_zero)).
Proof.
  assert (match fst (run fs_handler (cc_oci_state_file_create (GL := glib_ref) saved_example (Some "now")) ∅)
          with Done (true, _) => True | _ => False end) as Hok by (vm_compute; exact I).
  destruct (run fs_handler _ ∅) as [[[[] config']|f] w1] eqn:E; [|contradiction..].
  exists config', w1. split; [reflexivity|].
  refine (state_file_roundtrip (GL := glib_ref) fs_handler saved_example config' "now" "c1" "/b" _
    cc_proxy_zero ∅ w1 eq_refl eq_refl eq_refl eq_refl saved_example_wf _ E).
  repeat constructor.
Defined.

Definition state_example : json :=
  JObject (state_members saved_example "c1" "now" "/b" (VmCfg "/usr/bin/qemu" "/img" "/vmlinuz" "/r/w" None 40)
             cc_proxy_zero "running").

Definition state_example_read : oci_state :=
  set_s_annotations [] (state_of_config saved_example "c1" "now" "/b"
    (VmCfg "/usr/bin/qemu" "/img" "/vmlinuz" "/r/w" None 40) cc_proxy_zero).

Lemma state_read_complete_witness :
  exec (cc_oci_state_file_read (GL := glib_ref) (Some "/s"))
    [Ev (Cjson_load "/s") (Some (Some state_example))] (Done (Some state_example_read)) /\
  is_Some (s_comms_path state_example_read).
Proof.
  assert (exec (cc_oci_state_file_read (GL := glib_ref) (Some "/s"))
    [Ev (Cjson_load "/s") (Some (Some state_example))] (Done (Some state_example_read))) as H.
  { eexists _, _. split; [reflexivity|]. vm_compute. split; reflexivity. }
  split; [exact H|].
  exact (proj1 (proj2 (proj2 (proj2 (state_read_complete (GL := glib_ref) _ _ _ H))))).
Defined.

(** The user and group ids of the process are not saved. *)
Example state_loses_user :
  user (process (oci saved_example)) = User 7 8 /\
  (user <$> s_process (state_of_config saved_example "c1" "now" "/b" cc_oci_vm_cfg_zero cc_proxy_zero))
    = Some (User 0 0).
Proof. split; reflexivity. Qed.

(** ** [json_ok] for the reference instance, decided *)

Fixpoint json_okb (j : json) : bool :=
  match j with
  | JNull | JBool _ => true
  | JInt z => bool_decide (LONG_MIN <= z <= LONG_MAX)
  | JDouble _ => false
  | JString s => utf8_validate s
  | JArray l => forallb json_okb l
  | JObject m => bool_decide (NoDup m.*1) && forallb (fun kv => utf8_validate kv.1 && json_okb kv.2) m
  end.

Lemma json_okb_ok j : json_okb j = true -> @json_ok glib_ref j.
Proof.
  induction j as [| | | | |l IH|m IH] using json_ind'; try done; cbn.
  - by intros ?%bool_decide_eq_true.
  - induction IH as [|j l Hj _ IHl]; [done|]. cbn. intros [H1 H2]%andb_prop. auto.
  - intros [Hn Hm]%andb_prop. split; [by apply bool_decide_eq_true in Hn|]. clear Hn.
    induction IH as [|[k j] m Hj _ IHm]; [done|]. cbn in *. apply andb_prop in Hm as [[H1 H2]%andb_prop H3]. auto.
Qed.
