(* ===== verification/Memory.v ===== *)
(** * Ownership of the memory of configurations and states

    The functions that free a configuration, a state and what they point to
    (src/src/state.c, oci-config.c, networking.c, mount.c, annotation.c,
    namespace.c, pod.c, proxy.c, logging.c, network.c), the transfer of parts of
    a state to a configuration, and the commands around them.

    A structure is a value that holds the addresses of the blocks it points to,
    its own included.  A function gives the sequence of its accesses to them:
    [Read] for a block that is looked at or changed in place, [Free] for a block
    given back.  An access to a block that is not allocated has no result, so
    that a run with a result has neither a double free nor a use after free.

    The blocks that a function allocates for itself and does not store in one of
    the structures (JSON objects, messages) are not part of it.  The flags and the
    character arrays inside a block, and the results of the calls to the system, are
    arguments. *)

From S2P Require Import Prelude.

Set Warnings "-register-all".

Definition ptr : Type := option Z.

Inductive mop := Read (a : Z) | Free (a : Z).

(** The blocks allocated after the accesses. *)
Fixpoint run_mops (l : list mop) (h : gset Z) : option (gset Z) :=
  match l with
  | [] => Some h
  | Read a :: l => if decide (a ∈ h) then run_mops l h else None
  | Free a :: l => if decide (a ∈ h) then run_mops l (h ∖ {[a]}) else None
  end.

Definition g_free_if_set (p : ptr) : list mop := match p with Some a => [Free a] | None => [] end.

(** [gchar **], [NULL] terminated: the strings, then the vector. *)
Record strv := Strv { sv_self : Z; sv_strings : list Z }.
Definition g_strfreev (v : strv) : list mop := Read (sv_self v) :: (Free <$> sv_strings v) ++ [Free (sv_self v)].
Definition strv_free_if_set (v : option strv) : list mop := match v with Some v => g_strfreev v | None => [] end.

(** [GSList]: each cell with its data.  All the data are freed before the
    cells. *)
Definition gslist (A : Type) : Type := list (Z * A).
Definition g_slist_free_full {A} (destroy : A -> list mop) (l : gslist A) : list mop :=
  mjoin ((fun c => Read c.1 :: destroy c.2) <$> l) ++ (Free ∘ fst <$> l).

(** A structure that is freed after what its fields point to. *)
Definition free_struct (self : Z) (fields : list mop) : list mop := Read self :: fields ++ [Free self].

(** ** Structures and their functions *)

Record mount_p := MountP {
  mp_self : Z; mp_fsname : ptr; mp_dir : ptr; mp_type : ptr; mp_opts : ptr; mp_directory_created : ptr
}.
Definition cc_oci_mount_free (m : mount_p) : list mop :=
  free_struct (mp_self m)
    (g_free_if_set (mp_fsname m) ++ g_free_if_set (mp_dir m) ++ g_free_if_set (mp_type m)
     ++ g_free_if_set (mp_opts m) ++ g_free_if_set (mp_directory_created m)).
Definition cc_oci_mounts_free_all (l : gslist mount_p) : list mop := g_slist_free_full cc_oci_mount_free l.

Record annotation_p := AnnotationP { ap_self : Z; ap_key : ptr; ap_value : ptr }.
Definition cc_oci_annotation_free (a : annotation_p) : list mop :=
  free_struct (ap_self a) (g_free_if_set (ap_key a) ++ g_free_if_set (ap_value a)).
Definition cc_oci_annotations_free_all (l : gslist annotation_p) : list mop := g_slist_free_full cc_oci_annotation_free l.

Record ns_p := NsP { np_self : Z; np_path : ptr }.
Definition cc_oci_ns_free (n : ns_p) : list mop := free_struct (np_self n) (g_free_if_set (np_path n)).

Record hook_p := HookP { hp_self : Z; hp_args : option strv; hp_env : option strv }.
Definition cc_oci_hook_free (h : hook_p) : list mop :=
  free_struct (hp_self h) (strv_free_if_set (hp_args h) ++ strv_free_if_set (hp_env h)).

Record pod_p := PodP { pp_self : Z; pp_sandbox_name : ptr }.
Definition cc_pod_free (p : option pod_p) : list mop :=
  match p with Some p => free_struct (pp_self p) (g_free_if_set (pp_sandbox_name p)) | None => [] end.

(** The socket is an object with one reference. *)
Record proxy_p := ProxyP { xp_self : Z; xp_socket : ptr; xp_ctl : ptr; xp_tty : ptr; xp_console : ptr }.
Definition proxy_paths_free (p : proxy_p) : list mop :=
  g_free_if_set (xp_ctl p) ++ g_free_if_set (xp_tty p) ++ g_free_if_set (xp_console p).
Definition cc_proxy_free (p : option proxy_p) : list mop :=
  match p with
  | Some p => free_struct (xp_self p) (proxy_paths_free p ++ g_free_if_set (xp_socket p))
  | None => []
  end.

Record vm_p := VmP { vp_self : Z; vp_kernel_params : ptr }.
Definition vm_free (v : option vm_p) : list mop :=
  match v with Some v => free_struct (vp_self v) (g_free_if_set (vp_kernel_params v)) | None => [] end.

Record ipv4_p := Ipv4P { i4_self : Z; i4_ip_address : ptr; i4_subnet_mask : ptr }.
Definition cc_oci_net_ipv4_free (a : ipv4_p) : list mop :=
  free_struct (i4_self a) (g_free_if_set (i4_ip_address a) ++ g_free_if_set (i4_subnet_mask a)).

(** The prefix is not freed. *)
Record ipv6_p := Ipv6P { i6_self : Z; i6_address : ptr; i6_prefix : ptr }.
Definition cc_oci_net_ipv6_free (a : ipv6_p) : list mop := free_struct (i6_self a) (g_free_if_set (i6_address a)).

Record if_p := IfP {
  ip_self : Z; ip_mac : ptr; ip_ifname : ptr; ip_bridge : ptr; ip_tap : ptr;
  ip_ipv4 : gslist ipv4_p; ip_ipv6 : gslist ipv6_p
}.
Definition cc_oci_net_interface_free (i : if_p) : list mop :=
  free_struct (ip_self i)
    (g_free_if_set (ip_mac i) ++ g_free_if_set (ip_ifname i) ++ g_free_if_set (ip_bridge i) ++ g_free_if_set (ip_tap i)
     ++ g_slist_free_full cc_oci_net_ipv4_free (ip_ipv4 i) ++ g_slist_free_full cc_oci_net_ipv6_free (ip_ipv6 i)).

Record route_p := RouteP { rp_self : Z; rp_dest : ptr; rp_ifname : ptr; rp_gateway : ptr }.
Definition cc_oci_net_ipv4_route_free (r : route_p) : list mop :=
  free_struct (rp_self r) (g_free_if_set (rp_dest r) ++ g_free_if_set (rp_ifname r) ++ g_free_if_set (rp_gateway r)).

Record process_p := ProcessP { cp_args : option strv; cp_env : option strv }.
Definition process_free (p : process_p) : list mop := strv_free_if_set (cp_args p) ++ strv_free_if_set (cp_env p).

(** The process of a state is a block of its own. *)
Record state_p := StateP {
  sp_self : Z; sp_oci_version : ptr; sp_id : ptr; sp_bundle_path : ptr; sp_comms_path : ptr; sp_procsock_path : ptr;
  sp_create_time : ptr; sp_console : ptr; sp_process : option (Z * process_p); sp_mounts : gslist mount_p;
  sp_vm : option vm_p; sp_annotations : gslist annotation_p; sp_proxy : option proxy_p; sp_pod : option pod_p
}.

(** The socket of the proxy is not given back here. *)
Definition cc_oci_state_free (s : option state_p) : list mop :=
  match s with
  | None => []
  | Some s =>
      free_struct (sp_self s)
        (g_free_if_set (sp_oci_version s) ++ g_free_if_set (sp_id s) ++ g_free_if_set (sp_bundle_path s)
         ++ g_free_if_set (sp_comms_path s) ++ g_free_if_set (sp_procsock_path s) ++ g_free_if_set (sp_create_time s)
         ++ g_free_if_set (sp_console s)
         ++ match sp_process s with Some (self, p) => free_struct self (process_free p) | None => [] end
         ++ cc_oci_mounts_free_all (sp_mounts s)
         ++ vm_free (sp_vm s)
         ++ cc_oci_annotations_free_all (sp_annotations s)
         ++ match sp_proxy s with Some p => free_struct (xp_self p) (proxy_paths_free p) | None => [] end
         ++ cc_pod_free (sp_pod s))
  end.

Record config_p := ConfigP {
  kp_self : Z; kp_oci_version : ptr; kp_hostname : ptr; kp_console : ptr; kp_bundle_path : ptr; kp_root_dir : ptr;
  kp_pid_file : ptr; kp_vm : option vm_p; kp_pod : option pod_p; kp_process : process_p; kp_mounts : gslist mount_p;
  kp_annotations : gslist annotation_p; kp_os : ptr; kp_arch : ptr; kp_prestart : gslist hook_p;
  kp_poststart : gslist hook_p; kp_poststop : gslist hook_p; kp_namespaces : gslist ns_p; kp_net_hostname : ptr;
  kp_dns_ip1 : ptr; kp_dns_ip2 : ptr; kp_interfaces : gslist if_p; kp_routes : gslist route_p; kp_proxy : option proxy_p
}.

Definition cc_oci_config_free (c : config_p) : list mop :=
  free_struct (kp_self c)
    (g_free_if_set (kp_oci_version c) ++ g_free_if_set (kp_hostname c) ++ g_free_if_set (kp_console c)
     ++ g_free_if_set (kp_bundle_path c) ++ g_free_if_set (kp_root_dir c) ++ g_free_if_set (kp_pid_file c)
     ++ vm_free (kp_vm c)
     ++ cc_pod_free (kp_pod c)
     ++ process_free (kp_process c)
     ++ cc_oci_mounts_free_all (kp_mounts c)
     ++ cc_oci_annotations_free_all (kp_annotations c)
     ++ g_free_if_set (kp_os c) ++ g_free_if_set (kp_arch c)
     ++ g_slist_free_full cc_oci_hook_free (kp_prestart c)
     ++ g_slist_free_full cc_oci_hook_free (kp_poststart c)
     ++ g_slist_free_full cc_oci_hook_free (kp_poststop c)
     ++ g_slist_free_full cc_oci_ns_free (kp_namespaces c)
     ++ g_free_if_set (kp_net_hostname c) ++ g_free_if_set (kp_dns_ip1 c) ++ g_free_if_set (kp_dns_ip2 c)
     ++ g_slist_free_full cc_oci_net_interface_free (kp_interfaces c)
     ++ g_slist_free_full cc_oci_net_ipv4_route_free (kp_routes c)
     ++ cc_proxy_free (kp_proxy c)).

(** A new configuration has its own block and that of the proxy. *)
Definition config_p_create (self proxy : Z) : config_p :=
  ConfigP self None None None None None None None None (ProcessP None None) [] [] None None [] [] [] [] None None None [] []
    (Some (ProxyP proxy None None None None)).

(** Options of the log, which are not allocated. *)
Record log_p := LogP { lp_filename : ptr; lp_global_logfile : ptr; lp_hypervisor_log_dir : ptr }.
Definition cc_oci_log_free (o : log_p) : list mop :=
  g_free_if_set (lp_filename o) ++ g_free_if_set (lp_global_logfile o) ++ g_free_if_set (lp_hypervisor_log_dir o).

(** A [GString] is a block with its text. *)
Record gstring_p := GStringP { gs_self : Z; gs_str : Z }.
Definition cc_oci_net_msg_free (m : gstring_p) : list mop := free_struct (gs_self m) [Free (gs_str m)].
Definition cc_oci_net_msgs_free_all (l : gslist gstring_p) : list mop := g_slist_free_full cc_oci_net_msg_free l.

Record vm_conn_p := VmConnP { vc_self : Z; vc_socket_addr : Z; vc_socket : Z }.
Definition cc_oci_vm_conn_free (c : vm_conn_p) : list mop :=
  free_struct (vc_self c) [Free (vc_socket_addr c); Free (vc_socket c)].

(** ** Transfer from a state to a configuration *)

(** [if (from) { to = from; from = NULL; }]: the new values of [to] and [from],
    and the old value of [to] that was replaced. *)
Definition take_over {A} (is_set : bool) (none from to : A) : A * A * A :=
  if is_set then (from, none, to) else (to, from, none).

Definition is_some_b {A} (x : option A) : bool := match x with Some _ => true | None => false end.

(** [config->oci.process = *state->process], when there is one to take and the
    configuration has no arguments. *)
Definition takes_process (c : config_p) (s : state_p) : bool :=
  is_some_b (sp_process s) && negb (is_some_b (cp_args (kp_process c))).

Definition no_process : process_p := ProcessP None None.

Definition taken_process (c : config_p) (s : state_p) : process_p :=
  match sp_process s with Some (_, p) => if takes_process c s then p else kp_process c | None => kp_process c end.

(** The configuration and the state afterwards, and the accesses.  The old
    proxy and pod of the configuration are freed. *)
Definition cc_oci_config_update_p (c : config_p) (s : state_p) : config_p * state_p * list mop :=
  let '(mounts, s_mounts, _) := take_over (A := gslist mount_p) (negb (bool_decide (length (sp_mounts s) = O))) [] (sp_mounts s) (kp_mounts c) in
  let '(console, s_console, _) := take_over (A := ptr) (is_some_b (sp_console s)) None (sp_console s) (kp_console c) in
  let '(vm, s_vm, _) := take_over (is_some_b (sp_vm s)) None (sp_vm s) (kp_vm c) in
  let '(proxy, s_proxy, old_proxy) := take_over (is_some_b (sp_proxy s)) None (sp_proxy s) (kp_proxy c) in
  let '(pod, s_pod, old_pod) := take_over (is_some_b (sp_pod s)) None (sp_pod s) (kp_pod c) in
  let block := if takes_process c s then fst <$> sp_process s else None in
  (ConfigP (kp_self c) (kp_oci_version c) (kp_hostname c) console (kp_bundle_path c) (kp_root_dir c) (kp_pid_file c)
     vm pod (taken_process c s) mounts (kp_annotations c) (kp_os c) (kp_arch c) (kp_prestart c) (kp_poststart c)
     (kp_poststop c) (kp_namespaces c) (kp_net_hostname c) (kp_dns_ip1 c) (kp_dns_ip2 c) (kp_interfaces c) (kp_routes c) proxy,
   StateP (sp_self s) (sp_oci_version s) (sp_id s) (sp_bundle_path s) (sp_comms_path s) (sp_procsock_path s)
     (sp_create_time s) s_console (if takes_process c s then None else sp_process s) s_mounts s_vm (sp_annotations s) s_proxy s_pod,
   Read (kp_self c) :: Read (sp_self s) :: match block with Some a => free_struct a [] | None => [] end
     ++ cc_proxy_free old_proxy ++ cc_pod_free old_pod).

(** [config->bundle_path = g_strdup (state->bundle_path)] replaces the old
    path without freeing it. *)
Definition set_kp_bundle_path (p : ptr) (c : config_p) : config_p :=
  ConfigP (kp_self c) (kp_oci_version c) (kp_hostname c) (kp_console c) p (kp_root_dir c) (kp_pid_file c) (kp_vm c) (kp_pod c)
    (kp_process c) (kp_mounts c) (kp_annotations c) (kp_os c) (kp_arch c) (kp_prestart c) (kp_poststart c) (kp_poststop c)
    (kp_namespaces c) (kp_net_hostname c) (kp_dns_ip1 c) (kp_dns_ip2 c) (kp_interfaces c) (kp_routes c) (kp_proxy c).

(** The contents of a string, and of a vector of strings. *)
Definition of_ptr (p : ptr) : list Z := match p with Some a => [a] | None => [] end.
Definition of_strv (v : option strv) : list Z := match v with Some v => sv_self v :: sv_strings v | None => [] end.

(** The part of [cc_oci_get_config_and_state] after the state was read: the
    copy of the path is [copy] and the name of the file [file].  [state] keeps
    its value when the function fails. *)
Definition get_config_and_state_p (s : state_p) (copy file : Z) (c : config_p) : bool * option Z * config_p * list mop :=
  let read := Read <$> kp_self c :: sp_self s :: of_ptr (sp_bundle_path s) ++ of_ptr (sp_comms_path s) ++ of_ptr (sp_procsock_path s) in
  match sp_bundle_path s with
  | Some _ => (true, Some file, set_kp_bundle_path (Some copy) c, read)
  | None => (false, None, set_kp_bundle_path None c, read ++ cc_oci_state_free (Some s))
  end.

(** ** The bodies of [kill], [pause] and [resume] *)

(** What [cc_oci_state_file_create] finds in the arrays and flags of the blocks:
    whether its guards on the identifier and the paths hold, whether the status has
    a name, whether the process has a directory, the mounts that are ignored;
    and whether the text could be made and written. *)
Record file_r := FileR { fr_guards : bool; fr_status : bool; fr_cwd : bool; fr_ignored : Z -> bool; fr_written : bool }.

Definition mount_uses (r : file_r) (m : Z * mount_p) : list Z :=
  m.1 :: mp_self m.2 :: if fr_ignored r (mp_self m.2) then [] else of_ptr (mp_directory_created m.2).
Definition annotation_uses (a : Z * annotation_p) : list Z := a.1 :: ap_self a.2 :: of_ptr (ap_key a.2) ++ of_ptr (ap_value a.2).

(** The result of [cc_oci_state_file_create], and the blocks it looks at. *)
Definition cc_oci_state_file_create_p (r : file_r) (c : config_p) (created : ptr) : bool * list Z :=
  match created, kp_bundle_path c, kp_vm c, kp_proxy c with
  | Some created, Some bundle_path, Some vm, Some proxy =>
      if negb (fr_guards r) then (false, [kp_self c]) else
      if negb (fr_status r) then (false, [kp_self c; bundle_path]) else
      let head := kp_self c :: bundle_path :: created :: mjoin (mount_uses r <$> kp_mounts c) in
      match cp_args (kp_process c) with
      | None => (false, head)
      | Some args =>
          if negb (fr_cwd r) then (false, head) else
          (fr_written r,
           head ++ of_strv (Some args) ++ of_strv (cp_env (kp_process c)) ++ of_ptr (kp_console c)
           ++ (vp_self vm :: of_ptr (vp_kernel_params vm))
           ++ (xp_self proxy :: of_ptr (xp_ctl proxy) ++ of_ptr (xp_tty proxy) ++ of_ptr (xp_console proxy))
           ++ match kp_pod c with Some pod => pp_self pod :: of_ptr (pp_sandbox_name pod) | None => [] end
           ++ mjoin (annotation_uses <$> kp_annotations c) ++ [kp_self c])
      end
  | Some _, _, _, _ => (false, [kp_self c])
  | None, _, _, _ => (false, [])
  end.

(** The results of the calls of a session with the proxy; [sr_socket] is the new
    socket, when it could be made. *)
Record session_r := SessionR { sr_socket : ptr; sr_cloexec : bool; sr_connected : bool; sr_attached : bool; sr_replied : bool }.

Definition set_xp_socket (k : ptr) (p : proxy_p) : proxy_p := ProxyP (xp_self p) k (xp_ctl p) (xp_tty p) (xp_console p).
Definition set_kp_proxy (p : option proxy_p) (c : config_p) : config_p :=
  ConfigP (kp_self c) (kp_oci_version c) (kp_hostname c) (kp_console c) (kp_bundle_path c) (kp_root_dir c) (kp_pid_file c) (kp_vm c) (kp_pod c)
    (kp_process c) (kp_mounts c) (kp_annotations c) (kp_os c) (kp_arch c) (kp_prestart c) (kp_poststart c) (kp_poststop c)
    (kp_namespaces c) (kp_net_hostname c) (kp_dns_ip1 c) (kp_dns_ip2 c) (kp_interfaces c) (kp_routes c) p.

(** The proxy afterwards, the accesses, and the socket that was made.  One
    that cannot be marked stays in the structure; one that cannot be connected
    is given back. *)
Definition cc_proxy_connect_p (r : session_r) (p : proxy_p) : bool * proxy_p * list mop * list Z :=
  match xp_socket p, sr_socket r with
  | Some _, _ | None, None => (false, p, [Read (xp_self p)], [])
  | None, Some k =>
      if negb (sr_cloexec r) then (false, set_xp_socket (Some k) p, [Read (xp_self p); Read k], [k]) else
      if negb (sr_connected r) then (false, p, [Read (xp_self p); Read k; Free k], [k]) else
      (true, set_xp_socket (Some k) p, [Read (xp_self p); Read k], [k])
  end.

Definition cc_proxy_disconnect_p (p : proxy_p) : proxy_p * list mop :=
  match xp_socket p with
  | Some k => (set_xp_socket None p, [Read (xp_self p); Read k; Free k])
  | None => (p, [Read (xp_self p)])
  end.

(** A command over the socket ([cc_proxy_attach], [cc_proxy_run_hyper_cmd]). *)
Definition run_cmd_uses (p : proxy_p) : list Z := xp_self p :: of_ptr (xp_socket p).

(** The identifier of the VM: the name of the sandbox, for a container in a pod. *)
Definition container_id_p (sandbox : bool) (c : config_p) : bool * list Z :=
  match kp_pod c with
  | Some pod => if sandbox then (true, [pp_self pod]) else (is_some_b (pp_sandbox_name pod), [pp_self pod])
  | None => (true, [])
  end.
Definition container_id_text (sandbox : bool) (c : config_p) : list Z :=
  match kp_pod c with Some pod => if sandbox then [] else of_ptr (pp_sandbox_name pod) | None => [] end.

(** When the VM cannot be attached to, the socket stays in the structure. *)
Definition cc_proxy_hyper_kill_container_p (sandbox : bool) (r : session_r) (c : config_p) : bool * config_p * list mop * list Z :=
  match kp_proxy c with
  | None => (false, c, [Read (kp_self c)], [])
  | Some p =>
      let '(has_id, id) := container_id_p sandbox c in
      let start := Read <$> kp_self c :: id in
      if negb has_id then (false, c, start, []) else
      let '(ok, p, connect, new) := cc_proxy_connect_p r p in
      if negb ok then (false, set_kp_proxy (Some p) c, start ++ connect, new) else
      let attach := Read <$> run_cmd_uses p ++ container_id_text sandbox c in
      if negb (sr_attached r) then (false, set_kp_proxy (Some p) c, start ++ connect ++ attach, new) else
      let cmd := Read <$> kp_self c :: run_cmd_uses p in
      let '(p', disconnect) := cc_proxy_disconnect_p p in
      (sr_replied r, set_kp_proxy (Some p') c, start ++ connect ++ attach ++ cmd ++ disconnect, new)
  end.

(** The flag of the pod, the results of the two writes of the state file, of
    [kill] and of the session. *)
Record kill_r := KillR { kl_sandbox : bool; kl_first : file_r; kl_sent : bool; kl_session : session_r; kl_second : file_r }.

Definition revert_uses (ok : bool) (c : config_p) : list Z := if ok then [] else [kp_self c].

Definition cc_oci_kill_p (signum : Z) (r : kill_r) (c : config_p) (s : state_p) : config_p * list mop * list Z :=
  let pod := match kp_pod c with Some pod => [pp_self pod] | None => [] end in
  let '(ok, first) := cc_oci_state_file_create_p (kl_first r) c (sp_create_time s) in
  let start := Read <$> (kp_self c :: pod) ++ (sp_self s :: first) in
  let second c := cc_oci_state_file_create_p (kl_second r) c (sp_create_time s) in
  let stopped c := Read <$> (kp_self c :: sp_self s :: (second c).2) ++ revert_uses (second c).1 c in
  if is_some_b (kp_pod c) && kl_sandbox r then (c, start ++ (Read <$> revert_uses ok c), []) else
  if negb ok then (c, start ++ (Read <$> revert_uses ok c), []) else
  let start := start ++ [Read (sp_self s)] in
  if negb (kl_sent r) then (c, start ++ (Read <$> kp_self c :: sp_self s :: (second c).2), []) else
  if (signum =? 9) || (signum =? 19) then
    let '(ok, c', session, new) := cc_proxy_hyper_kill_container_p (kl_sandbox r) (kl_session r) c in
    if negb ok then (c', start ++ session, new) else (c', start ++ session ++ stopped c', new)
  else (c, start ++ stopped c, []).

(** Whether the VM is in the wanted state already, and the results of the
    request to the VM and of the write of the state file. *)
Record toggle_r := ToggleR { tg_already : bool; tg_asked : bool; tg_file : file_r }.

Definition cc_oci_toggle_p (r : toggle_r) (c : config_p) (s : state_p) : config_p * list mop * list Z :=
  if tg_already r then (c, [Read (sp_self s)], []) else
  let ask := Read <$> sp_self s :: of_ptr (sp_comms_path s) in
  if negb (tg_asked r) then (c, ask, []) else
  (c, ask ++ (Read <$> kp_self c :: sp_self s :: (cc_oci_state_file_create_p (tg_file r) c (sp_create_time s)).2), []).

(** The command, with what it meets. *)
Inductive command := Kill (signum : Z) (r : kill_r) | Toggle (r : toggle_r).

Definition body_p (cmd : command) (c : config_p) (s : state_p) : config_p * list mop * list Z :=
  match cmd with Kill signum r => cc_oci_kill_p signum r c s | Toggle r => cc_oci_toggle_p r c s end.

(** [kill], [pause] and [resume] up to the end of the program: [handler_kill] or
    [handle_command_toggle], then [cc_oci_config_free] of main.c.  With
    the accesses, the blocks that the body allocated. *)
Definition command_p (cmd : command) (s : state_p) (copy file : Z) (c : config_p) : list mop * list Z :=
  let '(ok, config_file, c, get) := get_config_and_state_p s copy file c in
  if negb (ok : bool) then (get ++ g_free_if_set config_file ++ cc_oci_state_free (Some s) ++ cc_oci_config_free c, [])
  else
    let '(c, s, update) := cc_oci_config_update_p c s in
    let '(c, body, new) := body_p cmd c s in
    (get ++ update ++ body ++ g_free_if_set config_file ++ cc_oci_state_free (Some s) ++ cc_oci_config_free c, new).

(** The tree of a JSON document: each node with its string.  [g_free_node] visits the
    nodes, children first, giving back the strings, and destroys the tree. *)
Inductive node_p := NodeP (self : Z) (data : ptr) (children : list node_p).
Fixpoint post_order (n : node_p) : gslist ptr :=
  let '(NodeP self data children) := n in mjoin (post_order <$> children) ++ [(self, data)].
Definition gnode_free (n : Z * ptr) : list mop := Read n.1 :: g_free_if_set n.2.
Definition g_free_node (n : option node_p) : list mop :=
  match n with
  | Some n => mjoin (gnode_free <$> post_order n) ++ (Free ∘ fst <$> post_order n)
  | None => []
  end.

(** The elements of the vector of additional arguments of the hypervisor. *)
Definition cc_free_pointer (str : ptr) : list mop := match str with None => [] | Some a => [Free a] end.

(** The end of the program: the options of the command line. *)
Definition cleanup (options : log_p) (criu root_dir shim_path proxy_socket_path : ptr) : list mop :=
  cc_oci_log_free options ++ g_free_if_set criu ++ g_free_if_set root_dir ++ g_free_if_set shim_path
  ++ g_free_if_set proxy_socket_path.

(** ** What is allocated *)

Class Blocks (A : Type) := blocks : A -> list Z.

#[global] Instance blocks_block : Blocks Z := fun a => [a].
#[global] Instance blocks_option `{Blocks A} : Blocks (option A) := fun x => from_option blocks [] x.
#[global] Instance blocks_pair `{Blocks A, Blocks B} : Blocks (A * B) := fun x => blocks x.1 ++ blocks x.2.
#[global] Instance blocks_list `{Blocks A} : Blocks (list A) := fun l => l ≫= blocks.
#[global] Instance blocks_strv : Blocks strv := fun v => sv_strings v ++ [sv_self v].
#[global] Instance blocks_mount : Blocks mount_p := fun m =>
  blocks (mp_fsname m) ++ blocks (mp_dir m) ++ blocks (mp_type m) ++ blocks (mp_opts m) ++ blocks (mp_directory_created m) ++ [mp_self m].
#[global] Instance blocks_annotation : Blocks annotation_p := fun a => blocks (ap_key a) ++ blocks (ap_value a) ++ [ap_self a].
#[global] Instance blocks_ns : Blocks ns_p := fun n => blocks (np_path n) ++ [np_self n].
#[global] Instance blocks_hook : Blocks hook_p := fun h => blocks (hp_args h) ++ blocks (hp_env h) ++ [hp_self h].
#[global] Instance blocks_pod : Blocks pod_p := fun p => blocks (pp_sandbox_name p) ++ [pp_self p].
#[global] Instance blocks_proxy : Blocks proxy_p := fun p =>
  blocks (xp_ctl p) ++ blocks (xp_tty p) ++ blocks (xp_console p) ++ blocks (xp_socket p) ++ [xp_self p].
#[global] Instance blocks_vm : Blocks vm_p := fun v => blocks (vp_kernel_params v) ++ [vp_self v].
#[global] Instance blocks_ipv4 : Blocks ipv4_p := fun a => blocks (i4_ip_address a) ++ blocks (i4_subnet_mask a) ++ [i4_self a].
#[global] Instance blocks_ipv6 : Blocks ipv6_p := fun a => blocks (i6_address a) ++ blocks (i6_prefix a) ++ [i6_self a].
#[global] Instance blocks_if : Blocks if_p := fun i =>
  blocks (ip_mac i) ++ blocks (ip_ifname i) ++ blocks (ip_bridge i) ++ blocks (ip_tap i) ++ blocks (ip_ipv4 i) ++ blocks (ip_ipv6 i) ++ [ip_self i].
#[global] Instance blocks_route : Blocks route_p := fun r => blocks (rp_dest r) ++ blocks (rp_ifname r) ++ blocks (rp_gateway r) ++ [rp_self r].
#[global] Instance blocks_process : Blocks process_p := fun p => blocks (cp_args p) ++ blocks (cp_env p).
#[global] Instance blocks_node : Blocks node_p := fun n => blocks (post_order n).
#[global] Instance blocks_log : Blocks log_p := fun o => blocks (lp_filename o) ++ blocks (lp_global_logfile o) ++ blocks (lp_hypervisor_log_dir o).
#[global] Instance blocks_state : Blocks state_p := fun s =>
  blocks (sp_oci_version s) ++ blocks (sp_id s) ++ blocks (sp_bundle_path s) ++ blocks (sp_comms_path s)
  ++ blocks (sp_procsock_path s) ++ blocks (sp_create_time s) ++ blocks (sp_console s) ++ blocks (sp_process s)
  ++ blocks (sp_mounts s) ++ blocks (sp_vm s) ++ blocks (sp_annotations s) ++ blocks (sp_proxy s) ++ blocks (sp_pod s) ++ [sp_self s].
#[global] Instance blocks_config : Blocks config_p := fun c =>
  blocks (kp_oci_version c) ++ blocks (kp_hostname c) ++ blocks (kp_console c) ++ blocks (kp_bundle_path c)
  ++ blocks (kp_root_dir c) ++ blocks (kp_pid_file c) ++ blocks (kp_vm c) ++ blocks (kp_pod c) ++ blocks (kp_process c)
  ++ blocks (kp_mounts c) ++ blocks (kp_annotations c) ++ blocks (kp_os c) ++ blocks (kp_arch c) ++ blocks (kp_prestart c)
  ++ blocks (kp_poststart c) ++ blocks (kp_poststop c) ++ blocks (kp_namespaces c) ++ blocks (kp_net_hostname c)
  ++ blocks (kp_dns_ip1 c) ++ blocks (kp_dns_ip2 c) ++ blocks (kp_interfaces c) ++ blocks (kp_routes c)
  ++ blocks (kp_proxy c) ++ [kp_self c].

(** ** Accesses that are in order *)

Definition freed (l : list mop) : list Z := omap (fun o => match o with Free a => Some a | Read _ => None end) l.

Lemma freed_app l1 l2 : freed (l1 ++ l2) = freed l1 ++ freed l2.
Proof. apply omap_app. Qed.

(** Whatever else is allocated, the accesses give back exactly the blocks they
    free, as soon as these are different blocks. *)
Definition tidy (l : list mop) : Prop := forall X : gset Z,
  NoDup (freed l) -> (forall a, a ∈ freed l -> a ∉ X) -> run_mops l (list_to_set (freed l) ∪ X) = Some X.

Lemma run_mops_app l1 l2 h : run_mops (l1 ++ l2) h = run_mops l1 h ≫= run_mops l2.
Proof. revert h. induction l1 as [|[a|a] l1 IH]; intros h; cbn; [done|case_decide..]; auto. Qed.

Lemma tidy_nil : tidy [].
Proof. intros X _ _. cbn. f_equal. set_solver. Qed.

Lemma tidy_app l1 l2 : tidy l1 -> tidy l2 -> tidy (l1 ++ l2).
Proof.
  intros H1 H2 X. rewrite freed_app, run_mops_app, list_to_set_app_L. intros (Hn1 & Hd & Hn2)%NoDup_app HX.
  rewrite <- (assoc_L (∪)), H1; [|done|].
  - cbn. apply H2; [done|]. intros a Ha. apply HX, elem_of_app. by right.
  - intros a Ha. rewrite elem_of_union, elem_of_list_to_set. intros [Hc|Hc]; [by eapply Hd|]. eapply HX, Hc. apply elem_of_app. by left.
Qed.

Lemma tidy_read a l : a ∈ freed l -> tidy l -> tidy (Read a :: l).
Proof. intros Ha H X Hn HX. cbn. rewrite decide_True; [by apply H|]. apply elem_of_union_l, elem_of_list_to_set, Ha. Qed.

Lemma tidy_free a : tidy [Free a].
Proof. intros X _ HX. cbn. rewrite decide_True by set_solver. f_equal. specialize (HX a). set_solver. Qed.

Lemma tidy_struct self l : tidy l -> tidy (free_struct self l).
Proof.
  intros H. apply tidy_read; [|by apply tidy_app, tidy_free]. rewrite freed_app. apply elem_of_app. right. apply list_elem_of_here.
Qed.

(** *** Blocks given back, and blocks that are not *)

Definition times (a : Z) (l : list Z) : nat := count_occ Z.eq_dec l a.

Lemma times_app a l1 l2 : times a (l1 ++ l2) = (times a l1 + times a l2)%nat.
Proof. apply count_occ_app. Qed.

(** The accesses give back the blocks of [B] except those of [L]. *)
Definition gives_back (l : list mop) (B L : list Z) : Prop :=
  tidy l /\ forall a, (times a (freed l) + times a L = times a B)%nat.

Lemma gives_back_nil : gives_back [] [] [].
Proof. split; [apply tidy_nil|done]. Qed.

Lemma gives_back_app l1 l2 B1 B2 L1 L2 :
  gives_back l1 B1 L1 -> gives_back l2 B2 L2 -> gives_back (l1 ++ l2) (B1 ++ B2) (L1 ++ L2).
Proof.
  intros [H1 E1] [H2 E2]. split; [by apply tidy_app|]. intros a. rewrite freed_app, !times_app. specialize (E1 a). specialize (E2 a). lia.
Qed.

Lemma gives_back_weaken l B B' L L' :
  gives_back l B L -> (forall a, times a B = times a B') -> (forall a, times a L = times a L') -> gives_back l B' L'.
Proof. intros [H E] HB HL. split; [done|]. intros a. rewrite <- HB, <- HL. apply E. Qed.

Lemma gives_back_struct self l B L : gives_back l B L -> gives_back (free_struct self l) (B ++ [self]) L.
Proof.
  intros [H E]. split; [by apply tidy_struct|]. intros a. unfold free_struct. cbn [freed omap list_omap].
  change (omap _ (l ++ [Free self])) with (freed (l ++ [Free self])). rewrite freed_app, !times_app. specialize (E a).
  change (freed [Free self]) with [self]. lia.
Qed.

Lemma gives_back_ptr (p : ptr) : gives_back (g_free_if_set p) (blocks p) [].
Proof. destruct p as [a|]; [|apply gives_back_nil]. split; [apply tidy_free|]. intros b. cbn. lia. Qed.

Lemma gives_back_frees (l : list Z) : gives_back (Free <$> l) l [].
Proof.
  induction l as [|a l [H E]]; [apply gives_back_nil|]. split; [by apply (tidy_app [Free a]), H; apply tidy_free|].
  intros b. specialize (E b). cbn [fmap list_fmap]. change (freed (Free a :: _)) with ([a] ++ freed (Free <$> l)).
  change (a :: l) with ([a] ++ l). rewrite !times_app. lia.
Qed.

Lemma gives_back_strv (v : option strv) : gives_back (strv_free_if_set v) (blocks v) [].
Proof. destruct v as [v|]; [|apply gives_back_nil]. apply gives_back_struct, gives_back_frees. Qed.

(** The data of a list are freed while its cells are still there. *)
Definition free_data {A} (destroy : A -> list mop) (l : gslist A) : list mop := mjoin ((fun c => Read c.1 :: destroy c.2) <$> l).

Lemma free_data_cons {A} (destroy : A -> list mop) c x l : free_data destroy ((c, x) :: l) = Read c :: destroy x ++ free_data destroy l.
Proof. done. Qed.

Lemma tidy_free_data {A} (destroy : A -> list mop) (l : gslist A) X :
  (forall x, tidy (destroy x)) -> tidy X -> (forall c, c ∈ l.*1 -> c ∈ freed X) -> tidy (free_data destroy l ++ X).
Proof.
  intros Hd HX. induction l as [|[c x] l IH]; intros Hl; [done|]. rewrite free_data_cons. cbn [app]. rewrite <- (assoc_L (++)).
  apply tidy_read; [|apply tidy_app, IH; [done|set_solver]]. rewrite !freed_app, !elem_of_app. right. right. apply Hl. set_solver.
Qed.

Lemma freed_cells {A} (l : gslist A) : freed (Free ∘ fst <$> l) = l.*1.
Proof. induction l as [|c l IH]; [done|]. cbn. by f_equal. Qed.

(** Lists, with what is not given back of each element. *)
Lemma gives_back_list `{Blocks A} (destroy : A -> list mop) (leak : A -> list Z) (l : gslist A) :
  (forall x, gives_back (destroy x) (blocks x) (leak x)) ->
  gives_back (g_slist_free_full destroy l) (blocks l) (l.*2 ≫= leak).
Proof.
  intros Hd. split.
  - apply tidy_free_data; [intros x; apply Hd| |by rewrite freed_cells].
    pose proof (proj1 (gives_back_frees l.*1)) as Ht. by rewrite <- list_fmap_compose in Ht.
  - intros a. unfold g_slist_free_full. change (mjoin _) with (free_data destroy l). rewrite freed_app, freed_cells, times_app.
    induction l as [|[c x] l IH]; [done|]. rewrite free_data_cons. change (freed (Read c :: ?y)) with (freed y).
    change (blocks ((c, x) :: l)) with (([c] ++ blocks x) ++ blocks (A := gslist A) l). rewrite !fmap_cons, bind_cons, freed_app, !times_app.
    change ((c, x).1 :: l.*1) with ([c] ++ l.*1). rewrite times_app. pose proof (proj2 (Hd x) a). cbn [snd]. lia.
Qed.

Lemma gives_back_all `{Blocks A} (destroy : A -> list mop) (l : gslist A) :
  (forall x, gives_back (destroy x) (blocks x) []) -> gives_back (g_slist_free_full destroy l) (blocks l) [].
Proof.
  intros Hd. apply (gives_back_weaken _ _ _ _ _ (gives_back_list destroy (fun _ => []) l Hd)); [done|].
  intros a. by induction l as [|x l IH].
Qed.

Create HintDb mem.

(** Structures field by field; the order of the blocks does not matter. *)
Ltac gives_back_fields :=
  first
    [ apply gives_back_ptr | apply gives_back_strv | apply gives_back_nil
    | eapply gives_back_app; [gives_back_fields|gives_back_fields]
    | apply gives_back_struct; gives_back_fields
    | solve [eauto with mem nocore] ].

Ltac unfold_blocks :=
  cbv beta delta [blocks blocks_mount blocks_annotation blocks_ns blocks_hook blocks_pod blocks_proxy blocks_vm blocks_ipv4
                  blocks_ipv6 blocks_if blocks_route blocks_process blocks_state blocks_config].

Ltac fields :=
  cbn [kp_annotations kp_arch kp_bundle_path kp_console kp_dns_ip1 kp_dns_ip2 kp_hostname kp_interfaces kp_mounts kp_namespaces kp_net_hostname kp_oci_version kp_os kp_pid_file kp_pod kp_poststart kp_poststop kp_prestart kp_process kp_proxy kp_root_dir kp_routes kp_self kp_vm sp_annotations sp_bundle_path sp_comms_path sp_console sp_create_time sp_id sp_mounts sp_oci_version sp_pod sp_process sp_procsock_path sp_proxy sp_self sp_vm].

Ltac count_blocks := intros ?a; unfold_blocks; rewrite ?times_app; change (times _ []) with O; try lia.

Ltac solve_gives_back := eapply gives_back_weaken; [gives_back_fields|count_blocks|count_blocks].

Lemma gives_back_mount m : gives_back (cc_oci_mount_free m) (blocks m) [].
Proof. unfold cc_oci_mount_free. solve_gives_back. Qed.

Lemma gives_back_annotation a : gives_back (cc_oci_annotation_free a) (blocks a) [].
Proof. unfold cc_oci_annotation_free. solve_gives_back. Qed.

Lemma gives_back_ns n : gives_back (cc_oci_ns_free n) (blocks n) [].
Proof. unfold cc_oci_ns_free. solve_gives_back. Qed.

(** A tree is given back whole. *)
Lemma gives_back_node (n : option node_p) : gives_back (g_free_node n) (blocks n) [].
Proof. destruct n as [n|]; [|apply gives_back_nil]. apply (gives_back_all g_free_if_set (post_order n)), gives_back_ptr. Qed.

(** The options of the command line too. *)
Lemma gives_back_cleanup o criu root_dir shim_path proxy_socket_path :
  gives_back (cleanup o criu root_dir shim_path proxy_socket_path)
    (blocks o ++ blocks criu ++ blocks root_dir ++ blocks shim_path ++ blocks proxy_socket_path) [].
Proof.
  unfold cleanup, cc_oci_log_free. eapply gives_back_weaken; [gives_back_fields| |done].
  intros a. cbv beta delta [blocks blocks_log]. rewrite !times_app. lia.
Qed.

Lemma gives_back_hook h : gives_back (cc_oci_hook_free h) (blocks h) [].
Proof. unfold cc_oci_hook_free. solve_gives_back. Qed.

Lemma gives_back_pod p : gives_back (cc_pod_free p) (blocks p) [].
Proof. destruct p as [p|]; [|apply gives_back_nil]. cbn [cc_pod_free]. change (blocks (Some p)) with (blocks p). solve_gives_back. Qed.

Lemma gives_back_proxy p : gives_back (cc_proxy_free p) (blocks p) [].
Proof.
  destruct p as [p|]; [|apply gives_back_nil]. cbn [cc_proxy_free]. change (blocks (Some p)) with (blocks p). unfold proxy_paths_free.
  solve_gives_back.
Qed.

Lemma gives_back_vm v : gives_back (vm_free v) (blocks v) [].
Proof. destruct v as [v|]; [|apply gives_back_nil]. cbn [vm_free]. change (blocks (Some v)) with (blocks v). solve_gives_back. Qed.

Lemma gives_back_ipv4 a : gives_back (cc_oci_net_ipv4_free a) (blocks a) [].
Proof. unfold cc_oci_net_ipv4_free. solve_gives_back. Qed.

Lemma gives_back_route r : gives_back (cc_oci_net_ipv4_route_free r) (blocks r) [].
Proof. unfold cc_oci_net_ipv4_route_free. solve_gives_back. Qed.

Lemma gives_back_process p : gives_back (process_free p) (blocks p) [].
Proof. unfold process_free. solve_gives_back. Qed.

(** The prefixes of the IPv6 addresses are not given back. *)
Lemma gives_back_ipv6 a : gives_back (cc_oci_net_ipv6_free a) (blocks a) (blocks (i6_prefix a)).
Proof.
  destruct (gives_back_struct (i6_self a) _ _ _ (gives_back_ptr (i6_address a))) as [H E]. split; [exact H|]. intros b. specialize (E b).
  unfold cc_oci_net_ipv6_free. revert E. unfold_blocks. rewrite !times_app. change (times b []) with O. lia.
Qed.

Definition if_prefixes (i : if_p) : list Z := (ip_ipv6 i).*2 ≫= (fun a => blocks (i6_prefix a)).

#[export] Hint Resolve gives_back_all gives_back_list gives_back_mount gives_back_annotation gives_back_ns gives_back_hook gives_back_pod gives_back_proxy gives_back_vm gives_back_ipv4 gives_back_ipv6 gives_back_route gives_back_process : mem.

Lemma gives_back_if i : gives_back (cc_oci_net_interface_free i) (blocks i) (if_prefixes i).
Proof.
  unfold cc_oci_net_interface_free, if_prefixes. eapply gives_back_weaken.
  - apply gives_back_struct. do 4 (eapply gives_back_app; [apply gives_back_ptr|]).
    eapply gives_back_app; [apply gives_back_all, gives_back_ipv4|apply gives_back_list, gives_back_ipv6].
  - count_blocks.
  - done.
Qed.

Definition prefixes (c : config_p) : list Z := (kp_interfaces c).*2 ≫= if_prefixes.

#[export] Hint Resolve gives_back_if : mem.

Lemma gives_back_state_proxy p :
  gives_back (match p with Some p => free_struct (xp_self p) (proxy_paths_free p) | None => [] end) (blocks p) (blocks (p ≫= xp_socket)).
Proof.
  destruct p as [p|]; [|apply gives_back_nil]. change (blocks (Some p)) with (blocks p). cbn [mbind option_bind].
  assert (gives_back (proxy_paths_free p) (blocks (xp_ctl p) ++ blocks (xp_tty p) ++ blocks (xp_console p)) []) as H.
  { unfold proxy_paths_free. eapply gives_back_weaken; [gives_back_fields|done|done]. }
  destruct (gives_back_struct (xp_self p) _ _ _ H) as [Ht E]. split; [exact Ht|]. intros a. specialize (E a). revert E.
  unfold_blocks. rewrite !times_app. change (times a []) with O. lia.
Qed.

Lemma gives_back_state_process p :
  gives_back (match p with Some (self, p) => free_struct self (process_free p) | None => [] end) (blocks p) [].
Proof.
  destruct p as [[self p]|]; [|apply gives_back_nil]. change (blocks (Some (self, p))) with ([self] ++ blocks p).
  eapply gives_back_weaken; [apply gives_back_struct, gives_back_process| |done]. intros a. rewrite !times_app. lia.
Qed.

#[export] Hint Resolve gives_back_state_proxy gives_back_state_process : mem.

(** Freeing a state gives back all of it but the socket of its proxy. *)
Lemma gives_back_state s : gives_back (cc_oci_state_free (Some s)) (blocks s) (blocks (sp_proxy s ≫= xp_socket)).
Proof. unfold cc_oci_state_free, cc_oci_mounts_free_all, cc_oci_annotations_free_all. solve_gives_back. Qed.

(** Freeing a configuration gives back all of it but the prefixes. *)
Lemma gives_back_config c : gives_back (cc_oci_config_free c) (blocks c) (prefixes c).
Proof. unfold cc_oci_config_free, cc_oci_mounts_free_all, cc_oci_annotations_free_all, prefixes. solve_gives_back. Qed.

(** ** A command from the state it reads to the end of the program *)

Lemma times_elem a l : a ∈ l <-> (0 < times a l)%nat.
Proof. rewrite list_elem_of_In. apply count_occ_In. Qed.

Lemma times_NoDup l : NoDup l <-> forall a, (times a l <= 1)%nat.
Proof. rewrite NoDup_ListNoDup. apply NoDup_count_occ. Qed.

Lemma gives_back_run l B L (X : gset Z) :
  gives_back l B L -> NoDup B -> (forall a, a ∈ B -> a ∉ X) -> run_mops l (list_to_set B ∪ X) = Some (list_to_set L ∪ X).
Proof.
  intros [H E] Hn HX. rewrite times_NoDup in Hn.
  replace (list_to_set B ∪ X) with (list_to_set (freed l) ∪ (list_to_set L ∪ X)).
  - apply H.
    + apply times_NoDup. intros a. specialize (E a). specialize (Hn a). lia.
    + intros a Ha. rewrite elem_of_union, elem_of_list_to_set. specialize (E a). specialize (Hn a). apply times_elem in Ha.
      intros [Hc|Hc]; [apply times_elem in Hc; lia|]. apply (HX a); [apply times_elem; lia|done].
  - apply set_eq. intros a. rewrite !elem_of_union, !elem_of_list_to_set, !times_elem. specialize (E a). split; [intros [?|[?|?]]|intros [?|?]].
    all: try (by right; right); try (by right); try (left; lia).
    destruct (times a L) eqn:EL; [left; lia|right; left; lia].
Qed.

Lemma gives_back_read a l B L : a ∈ freed l -> gives_back l B L -> gives_back (Read a :: l) B L.
Proof. intros Ha [H E]. split; [by apply tidy_read|exact E]. Qed.

(** Of the two values of a field, one is in use afterwards, and the other one
    was replaced. *)
Lemma take_over_blocks `{Blocks A} b (none from to : A) :
  blocks none = [] ->
  let '(to', from', old) := take_over b none from to in
  blocks old = (if b then blocks to else []) /\
  forall a, (times a (blocks to') + times a (blocks from') + times a (blocks old) = times a (blocks from) + times a (blocks to))%nat.
Proof. intros Hn. unfold take_over. destruct b; rewrite Hn; (split; [done|]); intros a; change (times a []) with O; lia. Qed.

(** What the transfer replaces without freeing it. *)
Definition update_leaks (s : state_p) (c : config_p) : list Z :=
  (if negb (bool_decide (length (sp_mounts s) = O)) then blocks (kp_mounts c) else [])
  ++ (if is_some_b (sp_console s) then blocks (kp_console c) else [])
  ++ (if is_some_b (sp_vm s) then blocks (kp_vm c) else [])
  ++ (if takes_process c s then blocks (kp_process c) else []).

(** What a command does not give back. *)
Definition command_leaks (s : state_p) (c : config_p) : list Z :=
  blocks (kp_bundle_path c) ++ update_leaks s c ++ prefixes c.

(** The accesses of the transfer with the frees that follow. *)
Lemma freed_state_self s : sp_self s ∈ freed (cc_oci_state_free (Some s)).
Proof. cbn [cc_oci_state_free]. unfold free_struct. change (freed (Read ?a :: ?l)) with (freed l). rewrite freed_app. apply elem_of_app. right. apply list_elem_of_here. Qed.

Lemma freed_config_self c : kp_self c ∈ freed (cc_oci_config_free c).
Proof. unfold cc_oci_config_free, free_struct. change (freed (Read ?a :: ?l)) with (freed l). rewrite freed_app. apply elem_of_app. right. apply list_elem_of_here. Qed.

Lemma process_taken c s a :
  let left := if takes_process c s then None else sp_process s in
  let block := if takes_process c s then fst <$> sp_process s else None in
  (times a (blocks (taken_process c s)) + times a (blocks left) + times a (blocks block)
   + times a (if takes_process c s then blocks (kp_process c) else [])
   = times a (blocks (kp_process c)) + times a (blocks (sp_process s)))%nat.
Proof.
  unfold taken_process. destruct (takes_process c s) eqn:E; cbv zeta.
  - unfold takes_process in E. destruct (sp_process s) as [[self p]|]; [|done]. cbn [fmap option_fmap option_map fst].
    change (blocks (Some (self, p))) with ([self] ++ blocks p). change (blocks (Some self)) with [self].
    change (blocks None) with (@nil Z). rewrite times_app. change (times a []) with O. lia.
  - destruct (sp_process s) as [[self p]|]; change (blocks (@None Z)) with (@nil Z); change (times a []) with O; lia.
Qed.

Lemma gives_back_block (p : ptr) : gives_back (match p with Some a => free_struct a [] | None => [] end) (blocks p) [].
Proof. destruct p as [a|]; [|apply gives_back_nil]. apply (gives_back_struct a [] [] []), gives_back_nil. Qed.

(** Every block of the two structures is in one of them after the transfer, or
    was freed, or is lost. *)
Lemma update_blocks c s :
  let '(c', s', ops) := cc_oci_config_update_p c s in
  kp_self c' = kp_self c /\ sp_self s' = sp_self s /\ prefixes c' = prefixes c /\ sp_proxy s' = None /\
  exists ops' U, ops = Read (kp_self c) :: Read (sp_self s) :: ops' /\ gives_back ops' U [] /\
    forall a, (times a (blocks c') + times a (blocks s') + times a U + times a (update_leaks s c) = times a (blocks c) + times a (blocks s))%nat.
Proof.
  unfold cc_oci_config_update_p, update_leaks.
  pose proof (take_over_blocks (A := gslist mount_p) (negb (bool_decide (length (sp_mounts s) = O))) [] (sp_mounts s) (kp_mounts c) eq_refl) as Hm.
  pose proof (take_over_blocks (A := ptr) (is_some_b (sp_console s)) None (sp_console s) (kp_console c) eq_refl) as Hk.
  pose proof (take_over_blocks (is_some_b (sp_vm s)) None (sp_vm s) (kp_vm c) eq_refl) as Hv.
  pose proof (take_over_blocks (is_some_b (sp_proxy s)) None (sp_proxy s) (kp_proxy c) eq_refl) as Hx.
  pose proof (take_over_blocks (is_some_b (sp_pod s)) None (sp_pod s) (kp_pod c) eq_refl) as Hp.
  pose proof (process_taken c s) as Hr. cbv zeta in Hr.
  assert ((take_over (is_some_b (sp_proxy s)) None (sp_proxy s) (kp_proxy c)).1.2 = None) as Hxn by by destruct (sp_proxy s).
  destruct (take_over _ _ (sp_mounts s) _) as [[m sm] om]. destruct (take_over _ _ (sp_console s) _) as [[k sk] ok].
  destruct (take_over _ _ (sp_vm s) _) as [[v sv] ov]. destruct (take_over _ _ (sp_proxy s) _) as [[x sx] ox].
  destruct (take_over _ _ (sp_pod s) _) as [[p sp] op].
  destruct Hm as [<- Hm], Hk as [<- Hk], Hv as [<- Hv], Hx as [_ Hx], Hp as [_ Hp].
  split_and!; [done|done|done|exact Hxn|].
  eexists _, (blocks (if takes_process c s then fst <$> sp_process s else None) ++ blocks ox ++ blocks op).
  split; [reflexivity|]. split.
  - exact (gives_back_app _ _ _ _ [] [] (gives_back_block _) (gives_back_app _ _ _ _ [] [] (gives_back_proxy ox) (gives_back_pod op))).
  - intros a. specialize (Hm a). specialize (Hk a). specialize (Hv a). specialize (Hx a). specialize (Hp a). specialize (Hr a).
    revert Hm Hk Hv Hx Hp Hr. unfold_blocks. fields. rewrite !times_app. lia.
Qed.

Lemma bundle_path_blocks copy c a :
  (times a (blocks (set_kp_bundle_path (Some copy) c)) + times a (blocks (kp_bundle_path c)) = times a (blocks c) + times a [copy])%nat.
Proof.
  unfold set_kp_bundle_path. unfold_blocks. fields. rewrite !times_app. change (blocks_option (Some copy)) with [copy]. lia.
Qed.

(** *** The bodies *)

Lemma tidy_reads l R : (forall a, a ∈ l -> a ∈ freed R) -> tidy R -> tidy ((Read <$> l) ++ R).
Proof.
  intros Hl HR. induction l as [|a l IH]; [done|]. cbn [fmap list_fmap app]. apply tidy_read.
  - rewrite freed_app. apply elem_of_app. right. apply Hl. set_solver.
  - apply IH. set_solver.
Qed.

Lemma freed_reads l : freed (Read <$> l) = [].
Proof. by induction l. Qed.

(** What the bodies look at of a configuration: no socket and no interface. *)
Definition proxy_used (p : proxy_p) : list Z := xp_self p :: blocks (xp_ctl p) ++ blocks (xp_tty p) ++ blocks (xp_console p).
Definition used (c : config_p) : list Z :=
  kp_self c :: blocks (kp_bundle_path c) ++ blocks (kp_mounts c) ++ blocks (kp_process c) ++ blocks (kp_console c) ++ blocks (kp_vm c)
  ++ from_option proxy_used [] (kp_proxy c) ++ blocks (kp_pod c) ++ blocks (kp_annotations c).

Definition socket_of (c : config_p) : list Z := blocks (kp_proxy c ≫= xp_socket).

(** A block that a body may look at. *)
Definition seen (s : state_p) (c : config_p) (a : Z) : Prop := a ∈ used c ++ blocks s.

(** The accesses [ops], from the configuration [c] to [c'], are in order as long
    as what the configuration and the state hold is freed later, and a block of
    [new] is either freed or in the configuration. *)
Definition proper (s : state_p) (c c' : config_p) (ops : list mop) (new : list Z) : Prop :=
  used c' = used c /\ prefixes c' = prefixes c /\
  (forall R, tidy R -> (forall a, seen s c a -> a ∈ freed R) -> (forall a, a ∈ socket_of c' -> a ∈ freed R) -> tidy (ops ++ R)) /\
  forall a, (times a (freed ops) + times a (blocks c') = times a (blocks c) + times a new)%nat.

Lemma proper_nil s c : proper s c c [] [].
Proof. split_and!; [done..|]. intros a. change (freed []) with (@nil Z). lia. Qed.

Lemma proper_before s c c' l ops new :
  (forall a, a ∈ l -> seen s c a) -> proper s c c' ops new -> proper s c c' ((Read <$> l) ++ ops) new.
Proof.
  intros Hl (H1 & H2 & H3 & H4). split_and!; [done|done| |by rewrite freed_app, freed_reads].
  intros R HR Hu Hs. rewrite <- (assoc_L (++)). apply tidy_reads; [|by apply H3].
  intros a Ha. rewrite freed_app. apply elem_of_app. right. auto.
Qed.

Lemma proper_after s c c' l ops new :
  (forall a, a ∈ l -> seen s c a) -> proper s c c' ops new -> proper s c c' (ops ++ (Read <$> l)) new.
Proof.
  intros Hl (H1 & H2 & H3 & H4). split_and!; [done|done| |by rewrite freed_app, freed_reads, (right_id_L [] (++))].
  intros R HR Hu Hs. rewrite <- (assoc_L (++)). apply H3; [apply tidy_reads; auto|..].
  all: intros a Ha; rewrite freed_app, freed_reads; auto.
Qed.

Lemma proper_reads s c l : (forall a, a ∈ l -> seen s c a) -> proper s c c (Read <$> l) [].
Proof. intros Hl. rewrite <- (right_id_L [] (++) (Read <$> l)). by apply proper_before, proper_nil. Qed.

Lemma of_ptr_blocks (p : ptr) : of_ptr p = blocks p.
Proof. by destruct p. Qed.

(** Membership in lists that are put together from parts. *)
Ltac in_list := rewrite ?of_ptr_blocks; repeat (rewrite elem_of_app || rewrite elem_of_cons || rewrite elem_of_nil); tauto.

Lemma of_strv_blocks v a : a ∈ of_strv v -> a ∈ blocks v.
Proof. destruct v as [v|]; [|done]. change (a ∈ sv_self v :: sv_strings v -> a ∈ sv_strings v ++ [sv_self v]). set_solver. Qed.

Lemma uses_list `{Blocks A} (f : Z * A -> list Z) (l : gslist A) a :
  (forall c x, a ∈ f (c, x) -> a ∈ c :: blocks x) -> a ∈ mjoin (f <$> l) -> a ∈ blocks l.
Proof.
  intros Hf. induction l as [|[c x] l IH]; [done|]. change (blocks ((c, x) :: l)) with ((c :: blocks x) ++ blocks (A := gslist A) l).
  rewrite fmap_cons. cbn [mjoin list_join]. rewrite !elem_of_app. intros [Ha|Ha]; auto.
Qed.

Lemma mount_uses_blocks r (l : gslist mount_p) a : a ∈ mjoin (mount_uses r <$> l) -> a ∈ blocks l.
Proof.
  apply uses_list. intros c m. unfold mount_uses. cbn [fst snd]. unfold_blocks. rewrite of_ptr_blocks. unfold_blocks.
  destruct (fr_ignored r (mp_self m)); set_solver.
Qed.

Lemma annotation_uses_blocks (l : gslist annotation_p) a : a ∈ mjoin (annotation_uses <$> l) -> a ∈ blocks l.
Proof. apply uses_list. intros c m. unfold annotation_uses. cbn [fst snd]. rewrite !of_ptr_blocks. unfold_blocks. set_solver. Qed.

(** The state file is made of what is in use. *)
Lemma create_uses r c s a : a ∈ (cc_oci_state_file_create_p r c (sp_create_time s)).2 -> seen s c a.
Proof.
  unfold seen, cc_oci_state_file_create_p. destruct (sp_create_time s) as [t|] eqn:Et; [|by intros ?%elem_of_nil].
  assert (t ∈ blocks s) as Ht. { unfold_blocks. rewrite Et. set_solver. }
  assert (a = t -> a ∈ blocks s) as Ht' by by intros ->.
  pose proof (mount_uses_blocks r (kp_mounts c) a) as Hm. pose proof (annotation_uses_blocks (kp_annotations c) a) as Ha.
  pose proof (of_strv_blocks (cp_args (kp_process c)) a) as Hg. pose proof (of_strv_blocks (cp_env (kp_process c)) a) as He.
  unfold used. change (blocks (kp_process c)) with (blocks (cp_args (kp_process c)) ++ blocks (cp_env (kp_process c))).
  destruct (kp_bundle_path c) as [b|], (kp_vm c) as [v|], (kp_proxy c) as [p|]; cbn [from_option snd]; try in_list.
  change (blocks (Some b)) with [b]. change (blocks (Some v)) with (blocks (vp_kernel_params v) ++ [vp_self v]). unfold proxy_used.
  destruct (fr_guards r), (fr_status r), (fr_cwd r); cbn [negb snd]; try (destruct (cp_args (kp_process c)); cbn [snd]; in_list).
  destruct (kp_pod c) as [pod|]; [change (blocks (Some pod)) with (blocks (pp_sandbox_name pod) ++ [pp_self pod])|].
  all: destruct (cp_args (kp_process c)); cbn [snd]; in_list.
Qed.

(** The socket of a session: kept in the configuration, or closed. *)
Section session.
Context (s : state_p) (c : config_p) (p : proxy_p) (k : Z).
Hypothesis Hp : kp_proxy c = Some p.
Hypothesis Hk : xp_socket p = None.

Lemma set_socket_used q : used (set_kp_proxy (Some (set_xp_socket q p)) c) = used c.
Proof using Hp. unfold used. rewrite Hp. reflexivity. Qed.

Lemma set_socket_blocks q a : (times a (blocks (set_kp_proxy (Some (set_xp_socket q p)) c)) = times a (blocks c) + times a (blocks q))%nat.
Proof using Hp Hk.
  unfold set_kp_proxy. unfold_blocks. fields. rewrite Hp, !times_app. cbn [blocks_option from_option].
  unfold_blocks. unfold set_xp_socket. cbn [xp_socket xp_ctl xp_tty xp_console xp_self]. rewrite Hk, !times_app. unfold_blocks.
  change (times a (blocks_option None)) with O. lia.
Qed.

Lemma proper_kept l :
  (forall a, a ∈ l -> a = k \/ seen s c a) -> proper s c (set_kp_proxy (Some (set_xp_socket (Some k) p)) c) (Read <$> l) [k].
Proof using Hp Hk.
  intros Hl. split_and!; [apply set_socket_used|done| |].
  - intros R HR Hu Hs. apply tidy_reads; [|done]. intros a [->|Ha]%Hl; [|by apply Hu]. apply Hs. apply list_elem_of_here.
  - intros a. rewrite freed_reads, set_socket_blocks. change (times a []) with O. change (blocks (Some k)) with [k]. lia.
Qed.

Lemma proper_closed l :
  (forall a, a ∈ l -> a = k \/ seen s c a) -> proper s c (set_kp_proxy (Some (set_xp_socket None p)) c) ((Read <$> l) ++ [Free k]) [k].
Proof using Hp Hk.
  intros Hl. split_and!; [apply set_socket_used|done| |].
  - intros R HR Hu Hs. rewrite <- (assoc_L (++)). apply tidy_reads; [|by apply (tidy_app [Free k]), HR; apply tidy_free].
    intros a [->|Ha]%Hl; [apply list_elem_of_here|]. rewrite freed_app. apply elem_of_app. right. by apply Hu.
  - intros a. rewrite freed_app, freed_reads, set_socket_blocks. change (blocks None) with (@nil Z). change (freed [Free k]) with [k].
    rewrite times_app. change (times a []) with O. lia.
Qed.

Lemma set_same_proxy : set_kp_proxy (Some p) c = c /\ set_xp_socket None p = p.
Proof using Hp Hk. destruct c, p. cbn in *. subst. done. Qed.

End session.

Lemma container_id_uses b c a : a ∈ (container_id_p b c).2 ++ container_id_text b c -> a ∈ used c.
Proof.
  unfold container_id_p, container_id_text, used. destruct (kp_pod c) as [pod|]; [|by intros ?%elem_of_nil].
  change (blocks (Some pod)) with (blocks (pp_sandbox_name pod) ++ [pp_self pod]). destruct b; cbn [snd]; in_list.
Qed.

(** The blocks a session looks at, the socket apart. *)
Lemma session_uses b s c p a :
  kp_proxy c = Some p ->
  (a = kp_self c -> seen s c a) /\ (a ∈ (container_id_p b c).2 -> seen s c a) /\ (a = xp_self p -> seen s c a) /\
  (a ∈ container_id_text b c -> seen s c a).
Proof.
  intros Hp. pose proof (container_id_uses b c a) as Hid. unfold seen. rewrite !elem_of_app in *. split_and!; [|tauto| |tauto].
  all: intros ->; left; unfold used; rewrite ?Hp; cbn [from_option]; unfold proxy_used; in_list.
Qed.

Ltac in_session H := intros ?a; pose proof (H a); in_list.

Lemma proper_session b r c s :
  let '(_, c', ops, new) := cc_proxy_hyper_kill_container_p b r c in proper s c c' ops new.
Proof.
  unfold cc_proxy_hyper_kill_container_p. destruct (kp_proxy c) as [p|] eqn:Hp.
  2: { apply (proper_reads s c [kp_self c]). intros a. unfold seen, used. in_list. }
  assert (forall a, _) as Hu by exact (fun a => session_uses b s c p a Hp).
  destruct (container_id_p b c) as [has_id id]. cbn [snd] in Hu.
  destruct has_id; cbn [negb]; [|apply proper_reads; in_session Hu]. unfold cc_proxy_connect_p.
  assert (proper s c (set_kp_proxy (Some p) c) ((Read <$> kp_self c :: id) ++ (Read <$> [xp_self p])) []) as Hno.
  { replace (set_kp_proxy (Some p) c) with c by (destruct c; cbn in *; by subst). rewrite <- fmap_app. apply proper_reads. in_session Hu. }
  destruct (xp_socket p) as [k0|] eqn:Hk; [exact Hno|]. destruct (sr_socket r) as [k|]; [|exact Hno].
  assert (forall l, (forall a, a ∈ l -> a = k \/ seen s c a) ->
            proper s c (set_kp_proxy (Some p) c) ((Read <$> l) ++ [Free k]) [k]) as Hclosed.
  { intros l. rewrite <- (proj2 (set_same_proxy c p Hp Hk)). by apply proper_closed. }
  pose proof (proper_kept s c p k Hp Hk) as Hkept.
  destruct (sr_cloexec r); cbn [negb].
  2: { change [Read (xp_self p); Read k] with (Read <$> [xp_self p; k]). rewrite <- fmap_app. apply Hkept. in_session Hu. }
  destruct (sr_connected r); cbn [negb].
  2: { change [Read (xp_self p); Read k; Free k] with ((Read <$> [xp_self p; k]) ++ [Free k]). rewrite (assoc_L (++)), <- fmap_app.
       apply Hclosed. in_session Hu. }
  change [Read (xp_self p); Read k] with (Read <$> [xp_self p; k]).
  unfold run_cmd_uses. cbn [cc_proxy_disconnect_p set_xp_socket xp_socket xp_self of_ptr].
  destruct (sr_attached r); cbn [negb]; [|rewrite <- !fmap_app; apply Hkept; in_session Hu].
  change [Read (xp_self p); Read k; Free k] with ((Read <$> [xp_self p; k]) ++ [Free k]). rewrite !(assoc_L (++)), <- !fmap_app.
  apply (proper_closed s c p k Hp Hk). in_session Hu.
Qed.

Lemma self_uses c s a : (a = kp_self c -> seen s c a) /\ (a = sp_self s -> seen s c a).
Proof. unfold seen, used. unfold_blocks. split; in_list. Qed.

(** The parts of [cc_oci_kill] that only look at things. *)
Lemma stopped_uses r c s a :
  let f := cc_oci_state_file_create_p r c (sp_create_time s) in
  a ∈ (kp_self c :: sp_self s :: f.2) ++ revert_uses f.1 c -> seen s c a.
Proof.
  pose proof (self_uses c s a). pose proof (create_uses r c s a) as Hc. cbv zeta.
  destruct (cc_oci_state_file_create_p r c _) as [[] l]; cbn [fst snd revert_uses] in *; in_list.
Qed.

Lemma started_uses r c s a :
  let f := cc_oci_state_file_create_p r c (sp_create_time s) in
  a ∈ (kp_self c :: match kp_pod c with Some pod => [pp_self pod] | None => [] end) ++ (sp_self s :: f.2) -> seen s c a.
Proof.
  pose proof (self_uses c s a). pose proof (create_uses r c s a) as Hc. cbv zeta.
  assert (a ∈ match kp_pod c with Some pod => [pp_self pod] | None => [] end -> seen s c a) as Hp.
  { unfold seen, used. destruct (kp_pod c) as [pod|]; [|by intros ?%elem_of_nil].
    change (blocks (Some pod)) with (blocks (pp_sandbox_name pod) ++ [pp_self pod]). in_list. }
  in_list.
Qed.

Lemma proper_kill signum r c s : let '(c', ops, new) := cc_oci_kill_p signum r c s in proper s c c' ops new.
Proof.
  unfold cc_oci_kill_p. pose proof (started_uses (kl_first r) c s) as Hst. pose proof (fun a => self_uses c s a) as Hself.
  pose proof (fun c => stopped_uses (kl_second r) c s) as Hsp. pose proof (fun a => create_uses (kl_second r) c s a) as Hcr.
  destruct (cc_oci_state_file_create_p (kl_first r) c (sp_create_time s)) as [ok first]. cbv zeta in *. cbn [snd] in Hst.
  assert (forall a, a ∈ revert_uses ok c -> seen s c a) as Hrev by (destruct ok; cbn [revert_uses]; in_session Hself).
  destruct (is_some_b (kp_pod c) && kl_sandbox r); [by apply proper_before, proper_reads|].
  destruct ok; cbn [negb]; [|by apply proper_before, proper_reads].
  change [Read (sp_self s)] with (Read <$> [sp_self s]). rewrite <- fmap_app.
  assert (forall a, a ∈ ((kp_self c :: match kp_pod c with Some pod => [pp_self pod] | None => [] end) ++ sp_self s :: first) ++ [sp_self s] ->
            seen s c a) as Hst'.
  { intros a [Ha|Ha]%elem_of_app; [by apply Hst|]. revert Ha. pose proof (Hself a). in_list. }
  destruct (kl_sent r); cbn [negb].
  2: { apply proper_before, proper_reads; [done|]. intros a. pose proof (Hself a). pose proof (Hcr a). in_list. }
  destruct ((signum =? 9) || (signum =? 19)); [|apply proper_before, proper_reads; [done|apply Hsp]].
  pose proof (proper_session (kl_sandbox r) (kl_session r) c s) as Hses.
  destruct (cc_proxy_hyper_kill_container_p _ _ c) as [[[ok c'] session] new].
  destruct ok; cbn [negb]; apply proper_before; [done| |done|done].
  apply proper_after; [|done]. intros a. unfold seen. rewrite <- (proj1 Hses). apply Hsp.
Qed.

Lemma proper_body cmd c s : let '(c', ops, new) := body_p cmd c s in proper s c c' ops new.
Proof.
  destruct cmd as [signum r|r]; [apply proper_kill|]. cbn [body_p]. unfold cc_oci_toggle_p.
  pose proof (fun a => self_uses c s a) as Hself. pose proof (fun a => create_uses (tg_file r) c s a) as Hcr.
  assert (forall a, a ∈ of_ptr (sp_comms_path s) -> seen s c a) as Hp.
  { intros a. unfold seen. unfold_blocks. in_list. }
  destruct (tg_already r); [apply (proper_reads s c [_]); in_session Hself|].
  destruct (tg_asked r); cbn [negb]; [apply proper_before; [|apply proper_reads]|apply proper_reads].
  all: intros a; pose proof (Hself a); pose proof (Hp a); pose proof (Hcr a); in_list.
Qed.

(** What a body looks at is freed at the end. *)
Lemma prefixes_blocks c a : (times a (prefixes c) <= times a (blocks (kp_interfaces c)))%nat.
Proof.
  pose proof (proj2 (gives_back_list cc_oci_net_interface_free if_prefixes (kp_interfaces c) gives_back_if) a) as E.
  unfold prefixes. lia.
Qed.

Lemma freed_config_used c a : a ∈ used c ++ socket_of c -> a ∈ freed (cc_oci_config_free c).
Proof.
  rewrite !times_elem. pose proof (proj2 (gives_back_config c) a) as E. pose proof (prefixes_blocks c a) as Hp. revert E Hp.
  assert (times a (from_option proxy_used [] (kp_proxy c) ++ socket_of c) = times a (blocks (kp_proxy c))) as Hx.
  { unfold socket_of. destruct (kp_proxy c) as [p|]; [|done]. change (blocks (Some p)) with (blocks p). cbn [from_option mbind option_bind].
    unfold proxy_used. unfold_blocks. change (xp_self p :: ?l) with ([xp_self p] ++ l). rewrite !times_app. change (times a []) with O. lia. }
  revert Hx. unfold used. unfold_blocks. change (kp_self c :: ?l) with ([kp_self c] ++ l). rewrite !times_app. lia.
Qed.

Lemma freed_state_blocks s a : sp_proxy s = None -> a ∈ blocks s -> a ∈ freed (cc_oci_state_free (Some s)).
Proof.
  intros Hx. rewrite !times_elem. pose proof (proj2 (gives_back_state s) a) as E. rewrite Hx in E.
  change (times a (blocks (None ≫= xp_socket))) with O in E. lia.
Qed.

(** The frees at the end of a command. *)
Definition command_end (file : Z) (s : state_p) (c : config_p) : list mop :=
  g_free_if_set (Some file) ++ cc_oci_state_free (Some s) ++ cc_oci_config_free c.

Lemma end_frees file s c a : sp_proxy s = None -> seen s c a \/ a ∈ socket_of c -> a ∈ freed (command_end file s c).
Proof.
  intros Hx Ha. unfold command_end. rewrite !freed_app, !elem_of_app. right. unfold seen in Ha. rewrite elem_of_app in Ha.
  destruct Ha as [[Ha|Ha]|Ha]; [right|left|right].
  1,3: apply freed_config_used, elem_of_app; tauto. by apply freed_state_blocks.
Qed.

(** The body and the end, for the configuration and the state after the
    transfer. *)
Lemma body_gives_back cmd c s file :
  sp_proxy s = None ->
  let '(c', body, new) := body_p cmd c s in
  (forall a, seen s c a -> a ∈ freed (command_end file s c')) /\
  gives_back (body ++ command_end file s c') (blocks c ++ blocks s ++ [file] ++ new) (prefixes c).
Proof.
  intros Hx. pose proof (proper_body cmd c s) as Hb. destruct (body_p cmd c s) as [[c' body] new]. destruct Hb as (Hu & Hp & Ht & Hn).
  assert (forall a, seen s c a -> a ∈ freed (command_end file s c')) as Hseen.
  { intros a Ha. apply end_frees; [done|]. left. unfold seen. by rewrite Hu. }
  pose proof (gives_back_state s) as Hs. rewrite Hx in Hs. pose proof (gives_back_config c') as Hc.
  destruct (gives_back_app _ _ _ _ _ _ (gives_back_ptr (Some file)) (gives_back_app _ _ _ _ _ _ Hs Hc)) as [HR E]. split; [done|]. split.
  - apply Ht; [exact HR|exact Hseen|]. intros a Ha. apply end_frees; [done|]. by right.
  - intros a. specialize (E a). specialize (Hn a). rewrite Hp in E. rewrite freed_app. unfold command_end.
    change (blocks (Some file)) with [file] in E. change (blocks (None ≫= xp_socket)) with (@nil Z) in E.
    rewrite !times_app in *. change (times a []) with O in *. lia.
Qed.

Definition command_blocks (cmd : command) (s : state_p) (copy file : Z) (c : config_p) : list Z :=
  blocks c ++ blocks s ++ [copy; file] ++ (command_p cmd s copy file c).2.

(** Strings of the state that the transfer leaves there. *)
Lemma update_keeps c s a :
  a ∈ of_ptr (sp_bundle_path s) ++ of_ptr (sp_comms_path s) ++ of_ptr (sp_procsock_path s) ->
  a ∈ blocks (cc_oci_config_update_p c s).1.2.
Proof.
  unfold cc_oci_config_update_p. do 5 destruct (take_over _ _ _ _) as [[??]?]. cbn [fst snd]. unfold_blocks. fields. in_list.
Qed.

Lemma gives_back_reads l R B L : (forall a, a ∈ l -> a ∈ freed R) -> gives_back R B L -> gives_back ((Read <$> l) ++ R) B L.
Proof. intros Hl [H E]. split; [by apply tidy_reads|]. intros a. by rewrite freed_app, freed_reads. Qed.

Lemma command_gives_back cmd s copy file c :
  sp_bundle_path s <> None ->
  gives_back (command_p cmd s copy file c).1 (command_blocks cmd s copy file c) (command_leaks s c).
Proof.
  intros Hb. unfold command_blocks, command_p, get_config_and_state_p.
  set (c1 := set_kp_bundle_path (Some copy) c). pose proof (update_blocks c1 s) as Hu. pose proof (update_keeps c1 s) as Hk.
  destruct (sp_bundle_path s) as [b|]; [|done]. cbn [negb].
  destruct (cc_oci_config_update_p c1 s) as [[c2 s2] up]. destruct Hu as (Hc & Hs & Hpre & Hx & ops & U & -> & HU & Hn).
  pose proof (body_gives_back cmd c2 s2 file Hx) as HB. destruct (body_p cmd c2 s2) as [[c3 body] new]. destruct HB as [Hseen HB].
  cbn [fst snd] in *. fold (command_end file s2 c3).
  assert (forall a, seen s2 c2 a -> a ∈ freed (ops ++ body ++ command_end file s2 c3)) as Hseen'.
  { intros a Ha. rewrite !freed_app, !elem_of_app. right. right. by apply Hseen. }
  change (Read (kp_self c1) :: Read (sp_self s) :: ops) with ((Read <$> [kp_self c1; sp_self s]) ++ ops). rewrite <- !(assoc_L (++)).
  rewrite (assoc_L (++) (Read <$> _) (Read <$> _)), <- fmap_app. apply gives_back_reads.
  - intros a Ha. apply Hseen'. pose proof (self_uses c2 s2 a) as Hself. rewrite Hc, Hs in Hself. change (kp_self c1) with (kp_self c) in *.
    assert (a ∈ blocks s2 -> seen s2 c2 a) as H2 by (unfold seen; in_list). specialize (Hk a). revert Ha. rewrite !elem_of_app in Hk. in_list.
  - destruct (gives_back_app _ _ _ _ _ _ HU HB) as [Ht E]. split; [exact Ht|]. intros a. specialize (E a). specialize (Hn a).
    pose proof (bundle_path_blocks copy c a) as Hbp. fold c1 in Hbp. change [copy; file] with ([copy] ++ [file]).
    rewrite Hpre in E. change (prefixes c1) with (prefixes c) in E. change (update_leaks s c1) with (update_leaks s c) in Hn.
    unfold command_leaks. rewrite !times_app in *. change (times a []) with O in *. lia.
Qed.

(** C22.  [kill], [pause] and [resume] give their memory back once.  From
    the state that was read to the end of the program, with the transfer from the
    state to the configuration and the whole body of the command in between
    (state file, signal, session with the proxy, request to the VM; each of them
    may fail), no block of the two structures is freed twice or used after it was
    freed, and what stays allocated is known: the values of the configuration that
    the transfer replaced without freeing them (bundle path, mounts, console, VM
    and process), and the prefixes of its IPv6 addresses.  The socket of a
    session is given back too, however the session ended.  The state has a
    bundle path, as every state that was read has; the blocks that the
    command allocates (the copy of the path, the name of the file, the socket) are
    new ones, and are counted from the beginning. *)
Theorem command_memory cmd s copy file c (X : gset Z) :
  sp_bundle_path s <> None -> NoDup (command_blocks cmd s copy file c) ->
  (forall a, a ∈ command_blocks cmd s copy file c -> a ∉ X) ->
  run_mops (command_p cmd s copy file c).1 (list_to_set (command_blocks cmd s copy file c) ∪ X)
    = Some (list_to_set (command_leaks s c) ∪ X).
Proof. intros Hb. apply gives_back_run. by apply command_gives_back. Qed.

(** For a configuration that was just created nothing is lost. *)
Lemma command_memory_new s self proxy :
  command_leaks s (config_p_create self proxy) = [].
Proof. unfold command_leaks, update_leaks. cbn. by repeat case_match. Qed.

(** ** Witness and examples *)

Definition state_p_example : state_p :=
  StateP 10 (Some 11) (Some 12) (Some 13) (Some 14) (Some 15) (Some 16) (Some 17)
    (Some (18, ProcessP (Some (Strv 19 [20; 21])) (Some (Strv 22 [23])))) [(24, MountP 25 (Some 26) (Some 27) None None None)]
    (Some (VmP 28 (Some 29))) [(30, AnnotationP 31 (Some 32) (Some 33))] (Some (ProxyP 34 None (Some 35) (Some 36) None)) None.

(** A configuration with a console of its own loses it. *)
Definition config_p_example : config_p :=
  ConfigP 1 None None (Some 2) None (Some 3) None None None (ProcessP None None) [] [] None None [] [] [] [] None None None [] []
    (Some (ProxyP 4 None None None None)).

(** A [SIGKILL] whose session ends after the connection: the socket 42 stays in the
    configuration, which gives it back. *)
Definition file_written : file_r := FileR true true true (fun _ => false) true.
Definition kill_example : command := Kill 9 (KillR false file_written true (SessionR (Some 42) true true false false) file_written).

Lemma command_memory_witness :
  command_blocks kill_example state_p_example 40 41 config_p_example
    = blocks config_p_example ++ blocks state_p_example ++ [40; 41; 42] /\
  run_mops (command_p kill_example state_p_example 40 41 config_p_example).1
    (list_to_set (command_blocks kill_example state_p_example 40 41 config_p_example) ∪ {[99]}) = Some (list_to_set [2] ∪ {[99]}).
Proof.
  split; [vm_compute; reflexivity|]. apply (command_memory kill_example state_p_example 40 41 config_p_example {[99]}).
  - discriminate.
  - apply (bool_decide_unpack _). vm_compute. exact I.
  - apply Forall_forall. apply (bool_decide_unpack _). vm_compute. exact I.
Defined.

(** Without a bundle path the state is freed by
    [cc_oci_get_config_and_state] and again by the command.  No state that was
    read is like this: the path is required. *)
Example no_bundle_path_double_free :
  run_mops (command_p kill_example (StateP 10 None None None None None None None None [] None [] None None) 40 41 config_p_example).1
    {[1; 2; 3; 4; 10; 40; 41]} = None.
Proof. vm_compute. reflexivity. Qed.

Example prefix_lost :
  run_mops (cc_oci_net_ipv6_free (Ipv6P 1 (Some 2) (Some 3))) {[1; 2; 3]} = Some {[3]}.
Proof. apply (bool_decide_unpack _). vm_compute. exact I. Qed.
