(* ===== verification/Status.v ===== *)
(** * The status in a state file (src/src/state.c)

    A state file is read section by section.  Its status is that of its status
    members alone, whatever the other sections hold; what is written has the
    status of the configuration. *)

From S2P Require Import Prelude GLib GLibRef Sys Types Util Json Config SpecHandlers Mount State.

Section status.
Context `{GL : GLib} `{BD : Build}.

(** The status after the nodes of a status section. *)
Definition nodes_status (s : oci_status) (l : list gnode) : oci_status :=
  fold_left (fun s n => match gn_data n with Some _ => cc_oci_str_to_status (gn_data n) | None => s end) l s.

(** The status a document gives the state. *)
Definition doc_status (m : list (string * json)) : oci_status :=
  fold_left (fun s kv => if decide (kv.1 = "status") then nodes_status s (cc_oci_json_parse_aux kv.2 false) else s) m
    (s_status oci_state_new).

(** A section other than the status leaves it alone. *)
Lemma section_keeps_status sec d n d' :
  sec <> S_status -> handle_state_section sec d n = Done d' -> s_status (fst d') = s_status (fst d).
Proof.
  intros Hs. destruct d as [st c]. destruct sec; try done; cbn;
    unfold update_subelements_and_strdup, handle_state_pid_section, handle_state_mounts_section, handle_state_console_section,
      handle_state_vm_section, handle_state_proxy_section, handle_state_pod_section, handle_state_annotations_section;
    cbn; repeat case_match; intros [= <-]; try done.
Qed.

Lemma sections_keep_status sec l d d' :
  sec <> S_status -> foreach_fault (handle_state_section sec) l d = Done d' -> s_status (fst d') = s_status (fst d).
Proof.
  intros Hs. revert d. induction l as [|n l IH]; intros d; [by intros [= <-]|]. cbn [foreach_fault].
  destruct (handle_state_section sec d n) as [d1|] eqn:E; [|done]. intros H.
  rewrite (IH _ H). by apply (section_keeps_status sec d n).
Qed.

Lemma status_section l d d' :
  foreach_fault (handle_state_section S_status) l d = Done d' -> s_status (fst d') = nodes_status (s_status (fst d)) l.
Proof.
  revert d. induction l as [|n l IH]; intros d; [by intros [= <-]|]. cbn [foreach_fault handle_state_section].
  intros H. rewrite (IH _ H). unfold nodes_status, handle_state_status_section. cbn. by destruct (gn_data n).
Qed.

(** Which handler a name has. *)
Lemma find_status_handler name i sec :
  find_state_handler (Some name) 0 state_handlers = Some (i, sec) -> sec = S_status <-> name = "status".
Proof.
  assert (Forall (fun h => h.1.2 = S_status <-> h.1.1 = "status") state_handlers) as Hall
    by (repeat constructor; cbn; (done || intros [=])).
  generalize 0%nat. induction Hall as [|[[nm x] k] hs Hx _ IH]; intros j; [done|]. cbn [find_state_handler].
  rewrite g_streq_lit. case_bool_decide as E; [|apply IH]. intros [= _ <-]. by rewrite <- E.
Qed.

Lemma sections_status kv d d' :
  handle_state_sections d (GNode (Some kv.1) (cc_oci_json_parse_aux kv.2 false)) = Done d' ->
  s_status (fst d') =
    (if decide (kv.1 = "status") then nodes_status (s_status (fst d)) (cc_oci_json_parse_aux kv.2 false) else s_status (fst d)).
Proof.
  unfold handle_state_sections. cbn [gn_data gn_children].
  destruct (find_state_handler (Some kv.1) 0 state_handlers) as [[i sec]|] eqn:E.
  - apply find_status_handler in E. destruct (foreach_fault _ _ _) as [[st c]|] eqn:Ef; [|done]. intros [= <-]. cbn [fst].
    case_decide as Hk.
    + apply E in Hk as ->. exact (status_section _ _ _ Ef).
    + apply (sections_keep_status sec _ _ _) in Ef; [done|tauto].
  - assert (kv.1 <> "status") by (intros E'; rewrite E', find_state_handler_ref in E; done).
    rewrite decide_False by done. case_match; [|by intros [= <-]].
    unfold handle_state_process_section. destruct (process_parse _ _) as [[? ?]|]; [|done]. by intros [= <-].
Qed.

(** What a state file that was read says about the status. *)
Lemma read_doc_status name m st :
  state_of_tree (GNode name (cc_oci_json_parse_aux (JObject m) false)) = Done (Some st) -> s_status st = doc_status m.
Proof.
  unfold state_of_tree. cbn [gn_children cc_oci_json_parse_aux foreach_fault handle_state_sections gn_data].
  destruct (foreach_fault _ _ _) as [[st' c]|] eqn:E; [|done]. destruct (counts_ok c); [|done]. intros [= ->].
  unfold doc_status. revert E. change (s_status oci_state_new) with (s_status (fst (oci_state_new, counts_zero))).
  generalize (oci_state_new, counts_zero). induction m as [|kv m IH]; intros d; [by intros [= ->]|]. cbn [map foreach_fault].
  destruct (handle_state_sections d _) as [d1|] eqn:E1; [|done]. intros H. rewrite (IH _ H). cbn [fold_left].
  by rewrite (sections_status _ _ _ E1).
Qed.

(** What is written says about the status. *)
Lemma written_doc_status c id created b v p m :
  state_to_json c id created b v p = Some m -> doc_status m = status (state c).
Proof.
  unfold state_to_json. destruct (cc_oci_status_to_str _) as [name|] eqn:En; [|done].
  destruct (cc_oci_process_to_json _) as [pr|]; [|done]. intros [= <-]. rewrite <- (status_roundtrip _ _ En).
  destruct (pod c), (annotations (oci c)); reflexivity.
Qed.

(** The text of a state file with this status. *)
Definition records (s : oci_status) (t : string) : Prop :=
  exists m, t = json_generator_to_data (JObject m) true /\ is_Some (cc_oci_status_to_str s) /\ doc_status m = s.

Lemma records_written c id created b v p m :
  state_to_json c id created b v p = Some m -> records (status (state c)) (json_generator_to_data (JObject m) true).
Proof.
  intros H. exists m. split; [done|]. split; [|by eapply written_doc_status].
  revert H. unfold state_to_json. by destruct (cc_oci_status_to_str _).
Qed.
End status.
