(* ===== verification/Wire.v ===== *)
(** * Bytes on the wire

    Big-endian integers as the runtime, the proxy and the shim put them in
    message headers, and the length-prefixed messages of the runtime's
    protocol with the proxy. *)

From S2P Require Import Prelude GLib Sys Types Util.

Definition byte_val (c : ascii) : Z := Z.of_N (N_of_ascii c).
Definition byte_of (z : Z) : ascii := ascii_of_N (Z.to_N (z mod 256)).

(** The [n] low bytes of [z], most significant first. *)
Fixpoint be_bytes (n : nat) (z : Z) : string :=
  match n with
  | O => EmptyString
  | S n => String (byte_of (Z.shiftr z (8 * Z.of_nat n))) (be_bytes n z)
  end.

(** The number a string of bytes denotes, most significant first. *)
Fixpoint be_val (acc : Z) (s : string) : Z :=
  match s with
  | EmptyString => acc
  | String c s => be_val (acc * 256 + byte_val c) s
  end.

(** Byte [i] of a buffer that is filled with zeros beyond [s]. *)
Definition buf_byte (s : string) (i : nat) : Z := from_option byte_val 0 (String.get i s).

Lemma byte_val_range c : 0 <= byte_val c < 256.
Proof. unfold byte_val. pose proof (N_ascii_bounded c). lia. Qed.

Lemma byte_val_of z : byte_val (byte_of z) = z mod 256.
Proof.
  unfold byte_val, byte_of. pose proof (Z.mod_pos_bound z 256 ltac:(lia)).
  rewrite N_ascii_embedding by lia. lia.
Qed.

Lemma be_bytes_length n z : String.length (be_bytes n z) = n.
Proof. induction n; simpl; congruence. Qed.

Lemma be_val_acc s acc : be_val acc s = acc * 256 ^ Z.of_nat (String.length s) + be_val 0 s.
Proof.
  revert acc. induction s as [|c s IH]; intros acc; cbn [be_val String.length]; [lia|].
  rewrite IH, (IH (0 * 256 + byte_val c)), Nat2Z.inj_succ, Z.pow_succ_r by lia. lia.
Qed.

Lemma be_val_bytes n z : be_val 0 (be_bytes n z) = z mod 256 ^ Z.of_nat n.
Proof.
  induction n as [|n IH]; cbn [be_val be_bytes]; [by rewrite Z.mod_1_r|].
  rewrite be_val_acc, be_bytes_length, IH, byte_val_of, Nat2Z.inj_succ, Z.pow_succ_r by lia.
  rewrite Z.shiftr_div_pow2 by lia. replace (2 ^ (8 * Z.of_nat n)) with (256 ^ Z.of_nat n)
    by (replace 256 with (2 ^ 8) by done; rewrite <- Z.pow_mul_r by lia; done).
  assert (0 < 256 ^ Z.of_nat n) by (apply Z.pow_pos_nonneg; lia).
  rewrite (Z.mul_comm 256), Z.rem_mul_r by lia. lia.
Qed.

Lemma lor_shiftl a b k : 0 <= b < 2 ^ k -> 0 <= k -> Z.lor (Z.shiftl a k) b = a * 2 ^ k + b.
Proof.
  intros Hb Hk. rewrite <- Z.shiftl_mul_pow2, <- Z.add_lor_land by lia.
  enough (Z.land (Z.shiftl a k) b = 0) by lia.
  apply Z.bits_inj'. intros n Hn. rewrite Z.land_spec, Z.bits_0.
  destruct (decide (n < k)); [by rewrite Z.shiftl_spec_low by lia|].
  apply andb_false_intro2. destruct (decide (b = 0)) as [->|]; [apply Z.bits_0|].
  apply Z.bits_above_log2; [lia|]. apply Z.log2_lt_pow2; [lia|].
  apply Z.lt_le_trans with (2 ^ k); [lia|]. apply Z.pow_le_mono_r; lia.
Qed.

(** The header's length field as the C code reads it. *)
Lemma big_endian_32_val c0 c1 c2 c3 :
  cc_oci_get_big_endian_32 (byte_val c0) (byte_val c1) (byte_val c2) (byte_val c3) =
    be_val 0 (String c0 (String c1 (String c2 (String c3 EmptyString)))).
Proof.
  unfold cc_oci_get_big_endian_32. cbn [be_val].
  pose proof (byte_val_range c0). pose proof (byte_val_range c1).
  pose proof (byte_val_range c2). pose proof (byte_val_range c3).
  rewrite (Z.shiftl_mul_pow2 (byte_val c1)) by lia.
  rewrite lor_shiftl by lia. replace (_ * 2 ^ 24 + _ * 2 ^ 16)
    with (Z.shiftl (byte_val c0 * 256 + byte_val c1) 16) by (rewrite Z.shiftl_mul_pow2; lia).
  rewrite (Z.shiftl_mul_pow2 (byte_val c2)), lor_shiftl by lia.
  replace (_ * 2 ^ 16 + _ * 2 ^ 8)
    with (Z.shiftl ((byte_val c0 * 256 + byte_val c1) * 256 + byte_val c2) 8)
    by (rewrite Z.shiftl_mul_pow2; lia).
  rewrite lor_shiftl, wrapu_small by lia. lia.
Qed.

(** ** Length-prefixed messages *)

(** A message on the wire: length, flags, payload. *)
Definition frame (m : string) : string :=
  be_bytes 4 (Z.of_nat (String.length m)) +:+ be_bytes 4 0 +:+ m.

Lemma frame_length m : String.length (frame m) = (8 + String.length m)%nat.
Proof. unfold frame. rewrite !str_length_app, !be_bytes_length. lia. Qed.

Lemma be_val_4 z : 0 <= z < 2 ^ 32 -> be_val 0 (be_bytes 4 z) = z.
Proof. intros. rewrite be_val_bytes. apply Z.mod_small. lia. Qed.

(** The length field of a buffer whose first four bytes are there. *)
Lemma big_endian_32_buf d :
  (4 <= String.length d)%nat ->
  cc_oci_get_big_endian_32 (buf_byte d 0) (buf_byte d 1) (buf_byte d 2) (buf_byte d 3) =
    be_val 0 (str_take 4 d).
Proof.
  destruct d as [|c0 [|c1 [|c2 [|c3 d]]]]; simpl; try lia. intros _. apply (big_endian_32_val c0 c1 c2 c3).
Qed.

(** The first bytes of a frame, once the header is there. *)
Lemma frame_head d rest m :
  Z.of_nat (String.length m) < 2 ^ 32 -> (8 <= String.length d)%nat -> d +:+ rest = frame m ->
  be_val 0 (str_take 4 d) = Z.of_nat (String.length m) /\ str_drop 8 d +:+ rest = m.
Proof.
  intros Hm Hd E. unfold frame in E. split.
  - rewrite <- (str_take_app_le 4 d rest), E by lia.
    rewrite str_take_app_le, (str_take_all 4) by (rewrite be_bytes_length; lia). apply be_val_4. lia.
  - rewrite <- str_drop_app_le, E, <- str_app_assoc by lia.
    replace 8%nat with (String.length (be_bytes 4 (Z.of_nat (String.length m)) +:+ be_bytes 4 0))
      by (by rewrite str_length_app, !be_bytes_length). apply str_drop_app.
Qed.
