(* ===== verification/Networking.v ===== *)
(** * Networking

    src/src/networking.c and src/src/netlink.c: the interfaces and routes found
    in the container's network namespace, the bridges and tap devices that
    connect them to the VM, and the netlink requests used.  libmnl and the
    kernel are the environment: its calls are [Cmnl_*]. *)

From S2P Require Import Prelude GLib GLibRef Sys Types Util.

Definition AF_UNSPEC : Z := 0.
Definition AF_INET : Z := 2.
Definition AF_INET6 : Z := 10.
Definition ARPHRD_ETHER : Z := 1.
Definition IFNAMSIZ : nat := 16.
Definition PCI_OFFSET : Z := 8.
Definition IFF_UP : Z := 1.
Definition RTM_NEWLINK : Z := 16.
Definition RTM_SETLINK : Z := 19.
Definition RTM_GETROUTE : Z := 26.
Definition NLM_F_REQUEST : Z := 1.
Definition NLM_F_ACK : Z := 4.
Definition NLM_F_EXCL : Z := 512.
Definition NLM_F_CREATE : Z := 1024.
Definition NLM_F_DUMP : Z := 768.
Definition IFLA_ADDRESS : Z := 1.
Definition IFLA_IFNAME : Z := 3.
Definition IFLA_MASTER : Z := 10.
Definition IFLA_LINKINFO : Z := 18.
Definition IFLA_INFO_KIND : Z := 1.
Definition RT_TABLE_MAIN : Z := 254.
Definition RTA_DST : Z := 1.
Definition RTA_SRC : Z := 2.
Definition RTA_OIF : Z := 4.
Definition RTA_GATEWAY : Z := 5.
Definition RTA_PRIORITY : Z := 6.
Definition RTA_PREFSRC : Z := 7.
Definition RTA_METRICS : Z := 8.
Definition RTA_FLOW : Z := 11.
Definition RTA_TABLE : Z := 15.
Definition MNL_CB_STOP : Z := 0.
Definition MNL_CB_OK : Z := 1.
Definition MNL_CB_ERROR : Z := -1.

(** [struct netlink_handle]. *)
Record netlink_handle := NlHandle { nl : Z; nl_seq : Z }.

(** Bound on the datagrams read for one netlink transaction. *)
Class NlFuel := nl_fuel : nat.

Section networking.
Context `{GL : GLib} `{NF : NlFuel}.

(** ** src/src/netlink.c *)

Definition netlink_init : io (option netlink_handle) :=
  s ← call_ Cmnl_socket_open;
  match s with
  | None => mret None
  | Some s =>
      b ← call_ (Cmnl_socket_bind s);
      if bool_decide (b < 0) then _ ← call_ (Cmnl_socket_close s); mret None
      else t ← call_ Ctime; mret (Some (NlHandle s (u32 t)))
  end.

Definition netlink_close (hndl : option netlink_handle) : io unit :=
  match hndl with
  | None => mret tt
  | Some h => _ ← call_ (Cmnl_socket_close (nl h)); mret tt
  end.

(** The loop of [netlink_execute] after [recvfrom] returned [ret]. *)
Fixpoint netlink_recv_loop (fuel : nat) (s seq portid ret : Z) : io Z :=
  match fuel with
  | O => Halt Blocked
  | S fuel =>
      if bool_decide (ret <= 0) then mret ret
      else
        r ← call_ (Cmnl_cb_run seq portid);
        if bool_decide (r <= 0) then mret r
        else ret' ← call_ (Cmnl_socket_recvfrom s); netlink_recv_loop fuel s seq portid ret'
  end.

(** The sequence number of the handle advances even when sending fails. *)
Definition netlink_execute (h : netlink_handle) (nlh : nlmsg) : io (bool * netlink_handle) :=
  let seq := nl_seq h in
  let h' := NlHandle (nl h) (u32 (nl_seq h + 1)) in
  let nlh := NlMsg (nlmsg_type nlh) (nlmsg_flags nlh) seq (nl_family nlh) (ifi_index nlh)
               (ifi_change nlh) (ifi_flags nlh) (nl_attrs nlh) in
  portid ← call_ (Cmnl_socket_get_portid (nl h));
  s ← call_ (Cmnl_socket_sendto (nl h) nlh);
  if bool_decide (s < 0) then mret (false, h')
  else
    r ← call_ (Cmnl_socket_recvfrom (nl h));
    if bool_decide (r = -1) then mret (false, h')
    else
      ret ← netlink_recv_loop nl_fuel (nl h) seq portid r;
      mret (negb (bool_decide (ret = -1)), h').

Definition netlink_link_enable (h : netlink_handle) (interface : cstr) (enable : bool)
    : io (bool * netlink_handle) :=
  match interface with
  | None => mret (false, h)
  | Some i =>
      netlink_execute h
        (NlMsg RTM_NEWLINK (Z.lor NLM_F_REQUEST NLM_F_ACK) 0 AF_UNSPEC 0 IFF_UP
           (if enable then IFF_UP else 0) [AttrStr IFLA_IFNAME i])
  end.

Definition netlink_link_add_bridge (h : netlink_handle) (name : cstr) : io (bool * netlink_handle) :=
  match name with
  | None => mret (false, h)
  | Some n =>
      netlink_execute h
        (NlMsg RTM_NEWLINK (Z.lor (Z.lor (Z.lor NLM_F_REQUEST NLM_F_CREATE) NLM_F_EXCL) NLM_F_ACK)
           0 AF_UNSPEC 0 0 0
           [AttrStr IFLA_IFNAME n; AttrNest IFLA_LINKINFO [AttrStr IFLA_INFO_KIND "bridge"]])
  end.

Definition netlink_link_set_master (h : netlink_handle) (dev master : Z) : io (bool * netlink_handle) :=
  netlink_execute h
    (NlMsg RTM_SETLINK (Z.lor NLM_F_REQUEST NLM_F_ACK) 0 AF_UNSPEC (s32 dev) 0 0
       [AttrU32 IFLA_MASTER master]).

Definition netlink_link_set_addr (h : netlink_handle) (interface : cstr) (hwaddr : list Z)
    : io (bool * netlink_handle) :=
  match interface, hwaddr with
  | None, _ | _, [] => mret (false, h)
  | Some i, _ =>
      netlink_execute h
        (NlMsg RTM_SETLINK (Z.lor NLM_F_REQUEST NLM_F_ACK) 0 AF_UNSPEC 0 0 0
           [AttrStr IFLA_IFNAME i; AttrBytes IFLA_ADDRESS hwaddr])
  end.

(** [cc_net_get_ip_address] of src/src/networking.c, used for the routes. *)
Definition cc_net_get_ip_address (family : Z) (sin_addr : option (list Z)) : io string :=
  match sin_addr with
  | None => mret EmptyString
  | Some a => s ← call_ (Cinet_ntop family a); mret (default EmptyString s)
  end.

(** The callback on one attribute, with the table of those met: the last one of
    a type stays. *)
Definition data_ipv4_attr_cb (attr : rtattr) (tb : gmap Z rtattr) : Z * gmap Z rtattr :=
  let type := rta_type attr in
  if negb (rta_type_valid attr) then (MNL_CB_OK, tb)
  else if bool_decide (type ∈ [RTA_TABLE; RTA_DST; RTA_SRC; RTA_OIF; RTA_FLOW; RTA_PREFSRC; RTA_GATEWAY; RTA_PRIORITY])
          && negb (rta_is_u32 attr) then (MNL_CB_ERROR, tb)
  else if bool_decide (type = RTA_METRICS) && negb (rta_is_nested attr) then (MNL_CB_ERROR, tb)
  else (MNL_CB_OK, <[type := attr]> tb).

(** [mnl_attr_parse] stops at the first attribute whose callback result is at
    most [MNL_CB_STOP]. *)
Fixpoint mnl_attr_parse (l : list rtattr) (tb : gmap Z rtattr) : Z * gmap Z rtattr :=
  match l with
  | [] => (MNL_CB_OK, tb)
  | attr :: l =>
      let '(r, tb) := data_ipv4_attr_cb attr tb in
      if bool_decide (r <= MNL_CB_STOP) then (r, tb) else mnl_attr_parse l tb
  end.

(** The optional string read from an attribute that may be missing. *)
Definition opt_ip (a : option rtattr) : io cstr :=
  match a with
  | None => mret None
  | Some a => s ← cc_net_get_ip_address AF_INET (Some (rta_payload a)); mret (Some s)
  end.

(** The callback on one message: its result and the routes after it. *)
Definition process_ipv4_routes (m : rtmsg) (rs : list cc_oci_net_ipv4_route)
    : io (Z * list cc_oci_net_ipv4_route) :=
  if bool_decide (rtm_family m <> AF_INET) then mret (MNL_CB_OK, rs)
  else
    let '(ret, tb) := mnl_attr_parse (rtm_attrs m) ∅ in
    if bool_decide (ret <> MNL_CB_OK) then mret (ret, rs)
    else match tb !! RTA_TABLE with
    | None => mret (MNL_CB_OK, rs)
    | Some table =>
        if bool_decide (rta_u32 table <> RT_TABLE_MAIN) then mret (MNL_CB_OK, rs)
        else
          d ← opt_ip (tb !! RTA_DST);
          let d := if bool_decide (rtm_src_len m = 0 /\ rtm_dst_len m = 0) then Some "default" else d in
          g ← opt_ip (tb !! RTA_GATEWAY);
          i ← match tb !! RTA_OIF with
              | None => mret None
              | Some ix => n ← call_ (Cif_indextoname (rta_u32 ix)); mret n
              end;
          mret (MNL_CB_OK, rs ++ [Ipv4Route d i g])
    end.

(** [mnl_cb_run] stops at the first message whose callback result is at most
    [MNL_CB_STOP]. *)
Fixpoint run_routes (ms : list rtmsg) (final : Z) (rs : list cc_oci_net_ipv4_route)
    : io (Z * list cc_oci_net_ipv4_route) :=
  match ms with
  | [] => mret (final, rs)
  | m :: ms =>
      '(r, rs) ← process_ipv4_routes m rs;
      if bool_decide (r <= MNL_CB_STOP) then mret (r, rs) else run_routes ms final rs
  end.

Fixpoint netlink_routes_loop (fuel : nat) (s seq portid ret : Z) (rs : list cc_oci_net_ipv4_route)
    : io (Z * list cc_oci_net_ipv4_route) :=
  match fuel with
  | O => Halt Blocked
  | S fuel =>
      if bool_decide (ret <= 0) then mret (ret, rs)
      else
        '(ms, final) ← call_ (Cmnl_cb_run_routes seq portid);
        '(r, rs) ← run_routes ms final rs;
        if bool_decide (r <= MNL_CB_STOP) then mret (r, rs)
        else ret' ← call_ (Cmnl_socket_recvfrom s); netlink_routes_loop fuel s seq portid ret' rs
  end.

Definition netlink_get_routes (config : cc_oci_config) (h : netlink_handle) (family : Z)
    : io (bool * cc_oci_config) :=
  t ← call_ Ctime;
  let seq := u32 t in
  portid ← call_ (Cmnl_socket_get_portid (nl h));
  s ← call_ (Cmnl_socket_sendto (nl h)
               (NlMsg RTM_GETROUTE (Z.lor NLM_F_REQUEST NLM_F_DUMP) seq family 0 0 0 []));
  if bool_decide (s < 0) then mret (false, config)
  else
    r ← call_ (Cmnl_socket_recvfrom (nl h));
    '(ret, rs) ← netlink_routes_loop nl_fuel (nl h) seq portid r (routes (net config));
    mret (negb (bool_decide (ret = -1)), set_net (set_routes rs (net config)) config).

(** ** src/src/networking.c *)

Definition TUNDEV : string := "/dev/net/tun".

Definition cc_oci_tap_create (tap : cstr) : io bool :=
  match tap with
  | None => mret false
  | Some tap =>
      fd ← call_ (Copen TUNDEV);
      if bool_decide (fd < 0) then
        (if bool_decide (fd <> -1) then _ ← call_ (Cclose fd); mret false else mret false)
      else
        r ← call_ (Ctun_create fd (c_buf IFNAMSIZ tap));
        ret ← (if bool_decide (r < 0) then mret false
               else r ← call_ (Ctun_persist fd); mret (negb (bool_decide (r < 0))));
        _ ← call_ (Cclose fd);
        mret ret
  end.

(** The steps for interface [index], each one only if those before it
    succeeded. *)
Definition network_create_one (h : netlink_handle) (index : Z) (c : cc_oci_net_if_cfg)
    : io (bool * netlink_handle) :=
  let mac := [2; 0; 202; 254; u8 (Z.shiftr index 8); u8 index] in
  ok ← cc_oci_tap_create (tap_device c);
  if negb ok then mret (false, h) else
  '(ok, h) ← netlink_link_add_bridge h (bridge c);
  if negb (ok : bool) then mret (false, h) else
  '(ok, h) ← netlink_link_set_addr h (ifname c) mac;
  if negb (ok : bool) then mret (false, h) else
  bridge_index ← call_ (Cif_nametoindex (bridge c));
  tap_index ← call_ (Cif_nametoindex (tap_device c));
  veth_index ← call_ (Cif_nametoindex (ifname c));
  '(ok, h) ← netlink_link_set_master h tap_index bridge_index;
  if negb (ok : bool) then mret (false, h) else
  '(ok, h) ← netlink_link_set_master h veth_index bridge_index;
  if negb (ok : bool) then mret (false, h) else
  '(ok, h) ← netlink_link_enable h (tap_device c) true;
  if negb (ok : bool) then mret (false, h) else
  '(ok, h) ← netlink_link_enable h (ifname c) true;
  if negb (ok : bool) then mret (false, h) else
  netlink_link_enable h (bridge c) true.

Fixpoint network_create_loop (h : netlink_handle) (index : Z) (l : list cc_oci_net_if_cfg)
    : io (bool * netlink_handle) :=
  match l with
  | [] => mret (true, h)
  | c :: l =>
      '(ok, h) ← network_create_one h index c;
      if negb (ok : bool) then mret (false, h) else network_create_loop h (index + 1) l
  end.

Definition cc_oci_network_create (config : cc_oci_config) (h : netlink_handle)
    : io (bool * netlink_handle) :=
  network_create_loop h 0 (interfaces (net config)).

(** [prefix (val, size)] on the bytes of a netmask: the bytes that are 0xff,
    and what follows them. *)
Fixpoint skip_ff (val : list Z) (plen : Z) : Z * list Z :=
  match val with
  | b :: val' => if bool_decide (b = 255) then skip_ff val' (plen + 8) else (plen, val)
  | [] => (plen, [])
  end.

(** [for (bit = 7; bit != 0; bit--, plen++) if (! (b & (1 << bit))) break;] *)
Fixpoint scan_ones (bit : nat) (b plen : Z) : nat * Z :=
  match bit with
  | O => (O, plen)
  | S k => if negb (Z.testbit b (Z.of_nat bit)) then (bit, plen) else scan_ones k b (plen + 1)
  end.

(** [for (; bit != 0; bit--) if (b & (1 << bit)) return 0;] *)
Fixpoint any_bit (bit : nat) (b : Z) : bool :=
  match bit with
  | O => false
  | S k => Z.testbit b (Z.of_nat bit) || any_bit k b
  end.

Definition prefix (val : list Z) : Z :=
  let '(plen, rest) := skip_ff val 0 in
  match rest with
  | [] => plen
  | b :: rest =>
      let '(bit, plen) := scan_ones 7 b plen in
      if any_bit bit b then 0
      else if existsb (fun c => negb (bool_decide (c = 0))) rest then 0
      else plen
  end.

Definition subnet_to_prefix (family : Z) (addr : option (list Z)) : string :=
  match addr with
  | None => fmt_d 0
  | Some a =>
      fmt_d (if bool_decide (family = AF_INET6) then prefix (take 16 a)
             else if bool_decide (family = AF_INET) then prefix (take 4 a)
             else 0)
  end.

Definition hex_digit (z : Z) : ascii :=
  ascii_of_N (Z.to_N (if bool_decide (z < 10) then 48 + z else 87 + z)).
(** [printf ("%.2x")] of a byte. *)
Definition fmt_02x (z : Z) : string := String (hex_digit (z / 16)) (String (hex_digit (z mod 16)) EmptyString).

Definition get_mac_address (ifname : cstr) : io string :=
  match ifname with
  | None => mret EmptyString
  | Some name =>
      fd ← call_ Cinet_socket;
      if bool_decide (fd < 0) then mret EmptyString
      else
        r ← call_ (Cget_hwaddr fd (c_buf IFNAMSIZ name));
        let macaddr :=
          match r with
          | None => EmptyString
          | Some (family, data) =>
              if bool_decide (family <> ARPHRD_ETHER) then EmptyString
              else join ":" (fmt_02x <$> take 6 data)
          end in
        _ ← call_ (Cclose fd);
        mret macaddr
  end.

Definition get_pcie_ifname (index : Z) : string := "enp0s" +:+ fmt_d (s32 (u32 (index + PCI_OFFSET))).

Definition compare_interface (c : cc_oci_net_if_cfg) (name : cstr) : Z := g_strcmp0 name (ifname c).

(** Change the interface found by [g_slist_find_custom]; the list shares it. *)
Fixpoint update_interface (name : cstr) (f : cc_oci_net_if_cfg -> cc_oci_net_if_cfg)
    (l : list cc_oci_net_if_cfg) : list cc_oci_net_if_cfg :=
  match l with
  | [] => []
  | c :: l => if bool_decide (compare_interface c name = 0) then f c :: l else c :: update_interface name f l
  end.

Definition known_interface (name : cstr) (l : list cc_oci_net_if_cfg) : bool :=
  existsb (fun c => bool_decide (compare_interface c name = 0)) l.

Definition new_interface (name mac : string) : cc_oci_net_if_cfg :=
  IfCfg (Some mac) (Some name) (Some ("b" +:+ name)) (Some ("c" +:+ name)) [] [].

(** One entry of [getifaddrs].  The code takes the address of the netmask
    without a test: without a netmask it reads through NULL. *)
Definition discover_one (l : list cc_oci_net_if_cfg) (ifa : ifaddr) : io (list cc_oci_net_if_cfg) :=
  let name := Some (ifa_name ifa) in
  match ifa_addr ifa with
  | None => mret l
  | Some (family, addr) =>
      if negb (bool_decide (family = AF_INET \/ family = AF_INET6)) then mret l
      else if g_streq name (Some "lo") then mret l
      else
        l ← (if known_interface name l then mret l
             else mac ← get_mac_address name; mret (l ++ [new_interface (ifa_name ifa) mac]));
        ip ← cc_net_get_ip_address family (Some addr);
        match ifa_netmask ifa with
        | None => Halt NullDeref
        | Some mask =>
            if bool_decide (family = AF_INET) then
              m ← cc_net_get_ip_address family (Some mask);
              mret (update_interface name
                      (fun c => set_ipv4_addrs (ipv4_addrs c ++ [Ipv4Cfg (Some ip) (Some m)]) c) l)
            else
              mret (update_interface name
                      (fun c => set_ipv6_addrs
                                  (ipv6_addrs c ++ [Ipv6Cfg (Some ip) (Some (subnet_to_prefix family (Some mask)))]) c) l)
        end
  end.

Definition cc_oci_network_discover (config : cc_oci_config) (h : netlink_handle) : io (bool * cc_oci_config) :=
  ifaddrs ← call_ Cgetifaddrs;
  match ifaddrs with
  | None => mret (false, config)
  | Some ifaddrs =>
      l ← io_fold discover_one ifaddrs (interfaces (net config));
      let n := set_interfaces l (net config) in
      let n := set_net_hostname (Some (default EmptyString (hostname (oci config)))) n in
      '(_, config) ← netlink_get_routes (set_net n config) h AF_INET;
      let n := set_dns_ip2 (Some EmptyString) (set_dns_ip1 (Some EmptyString) (net config)) in
      mret (true, set_net n config)
  end.

End networking.

(** ** Netmasks *)

(** The byte whose [k] high bits are set. *)
Definition mask_byte (k : nat) : Z := 256 - 2 ^ (8 - Z.of_nat k).

(** The [n] bytes of the netmask of length [p]. *)
Fixpoint netmask (n p : nat) : list Z :=
  match n with
  | O => []
  | S n => mask_byte (p `min` 8) :: netmask n (p - 8)
  end.

(** Bit [k] of an address, the most significant of its first byte first. *)
Definition mask_bit (l : list Z) (k : nat) : bool :=
  Z.testbit (nth (k / 8) l 0) (7 - Z.of_nat (k mod 8)).

Lemma netmask_zero n : netmask n 0 = replicate n 0.
Proof. induction n as [|n IH]; [done|]. cbn. by rewrite IH. Qed.

Lemma existsb_zeros n : existsb (fun c => negb (bool_decide (c = 0))) (replicate n 0) = false.
Proof. by induction n. Qed.

Lemma skip_ff_ones k l plen :
  skip_ff (replicate k 255 ++ l) plen = skip_ff l (plen + 8 * Z.of_nat k).
Proof.
  revert plen. induction k as [|k IH]; intros plen.
  - f_equal. lia.
  - cbn [replicate app skip_ff]. rewrite bool_decide_true by done. rewrite IH. f_equal. lia.
Qed.

Lemma netmask_split n k r : (k < n)%nat -> (r < 8)%nat ->
  netmask n (8 * k + r) = replicate k 255 ++ mask_byte r :: replicate (n - k - 1) 0.
Proof.
  revert k. induction n as [|n IH]; intros k Hk Hr; [lia|]. cbn [netmask]. destruct k as [|k].
  - replace (8 * 0 + r - 8)%nat with O by lia. rewrite netmask_zero.
    replace (_ `min` 8)%nat with r by lia. cbn. by rewrite Nat.sub_0_r.
  - replace (8 * S k + r - 8)%nat with (8 * k + r)%nat by lia. rewrite IH by lia.
    replace (_ `min` 8)%nat with 8%nat by lia. done.
Qed.

Lemma netmask_full n p : (8 * n <= p)%nat -> netmask n p = replicate n 255.
Proof.
  revert p. induction n as [|n IH]; intros p Hp; [done|]. cbn [netmask replicate].
  rewrite IH by lia. by replace (p `min` 8)%nat with 8%nat by lia.
Qed.

(** The first non-0xff byte, alone. *)
Lemma scan_byte r plen : (r < 8)%nat ->
  mask_byte r <> 255 /\
  let '(bit, plen') := scan_ones 7 (mask_byte r) plen in
  any_bit bit (mask_byte r) = false /\ plen' = plen + Z.of_nat r.
Proof.
  intros Hr. do 8 (destruct r as [|r]; [split; [done|]; cbn; split; [done|lia]|]). lia.
Qed.

(** The prefix length of every valid netmask is found. *)
Theorem prefix_netmask (n p : nat) : (p <= 8 * n)%nat -> prefix (netmask n p) = Z.of_nat p.
Proof.
  intros Hp. unfold prefix. destruct (decide (8 * n <= p)%nat) as [Hn|Hn].
  - rewrite netmask_full by done. pose proof (skip_ff_ones n [] 0) as E. rewrite app_nil_r in E.
    rewrite E. cbn. lia.
  - pose proof (Nat.div_mod_eq p 8) as Ep. pose proof (Nat.mod_upper_bound p 8 ltac:(lia)) as Hr.
    rewrite Ep, netmask_split, skip_ff_ones by lia. remember (p mod 8)%nat as r. remember (p / 8)%nat as k.
    destruct (scan_byte r (0 + 8 * Z.of_nat k) Hr) as [Hb Hs]. cbn [skip_ff].
    rewrite bool_decide_false by done. destruct (scan_ones _ _ _) as [bit plen].
    destruct Hs as [-> ->]. rewrite existsb_zeros. lia.
Qed.

Lemma skip_ff_inv l plen :
  exists k rest, l = replicate k 255 ++ rest /\ skip_ff l plen = (plen + 8 * Z.of_nat k, rest) /\
    match rest with [] => True | b :: _ => b <> 255 end.
Proof.
  revert plen. induction l as [|b l IH]; intros plen; cbn [skip_ff].
  - exists O, []. split_and!; [done|f_equal; lia|done].
  - case_bool_decide as Hb.
    + destruct (IH (plen + 8)) as (k & rest & -> & -> & H). exists (S k), rest. subst b.
      split_and!; [done|f_equal; lia|done].
    + exists O, (b :: l). split_and!; [done|f_equal; lia|done].
Qed.

(** What the scan of one byte finds, checked on all bytes. *)
Definition scan_byte_ok (b : Z) : bool :=
  let '(bit, r) := scan_ones 7 b 0 in
  any_bit bit b ||
  ((0 <=? r) && (r <? 8) && forallb (fun i => Bool.eqb (Z.testbit b (7 - i)) (i <? r)) (seqZ 0 7)).

Lemma scan_byte_inv b : 0 <= b < 256 -> scan_byte_ok b = true.
Proof.
  intros Hb. assert (forallb scan_byte_ok (seqZ 0 256) = true) as H by (vm_compute; reflexivity).
  rewrite forallb_forall in H. apply H, list_elem_of_In, elem_of_seqZ. lia.
Qed.

Lemma scan_ones_plen bit b plen :
  scan_ones bit b plen = (fst (scan_ones bit b 0), plen + snd (scan_ones bit b 0)).
Proof.
  revert plen. induction bit as [|bit IH]; intros plen; cbn [scan_ones]; [f_equal; cbn; lia|].
  case_match; [f_equal; cbn; lia|]. rewrite IH, (IH (0 + 1)). cbn. f_equal. lia.
Qed.

Lemma existsb_nonzero l : existsb (fun c => negb (bool_decide (c = 0))) l = false -> l = replicate (length l) 0.
Proof.
  induction l as [|c l IH]; [done|]. cbn. intros [H1 H2]%orb_false_iff.
  case_bool_decide; [|done]. subst. f_equal. auto.
Qed.

Lemma accepted_inv (l : list Z) :
  Forall (fun b => 0 <= b < 256) l -> prefix l <> 0 ->
  exists k : nat,
    (l = replicate k 255 /\ prefix l = 8 * Z.of_nat k) \/
    (exists b n r, l = replicate k 255 ++ b :: replicate n 0 /\ prefix l = 8 * Z.of_nat k + r /\
       0 <= r < 8 /\ forall i, 0 <= i < 7 -> Z.testbit b (7 - i) = (i <? r)).
Proof.
  unfold prefix. destruct (skip_ff_inv l 0) as (k & rest & -> & -> & Hr). intros Hl Hp. exists k.
  destruct rest as [|b rest]; [left; by rewrite app_nil_r|]. right.
  apply Forall_app in Hl as [_ [Hb _]%Forall_cons]. apply scan_byte_inv in Hb as Hs.
  rewrite scan_ones_plen in *. unfold scan_byte_ok in Hs.
  destruct (scan_ones 7 b 0) as [bit r]. cbn [fst snd] in *.
  destruct (any_bit bit b); [done|]. destruct (existsb _ rest) eqn:Er; [done|].
  rewrite (existsb_nonzero _ Er). exists b, (length rest), r.
  rewrite orb_false_l, !andb_true_iff, forallb_forall in Hs. destruct Hs as [[Hr1 Hr2] Hbits].
  split_and!; [done|lia|lia|lia|]. intros i Hi. apply eqb_prop, Hbits, list_elem_of_In, elem_of_seqZ. lia.
Qed.

(** Conversely, an address accepted with a prefix length is a netmask of that
    length: its bits are set exactly below the length, except for the lowest
    bit of the byte where the length ends, which the code does not look at. *)
Theorem prefix_bits (l : list Z) (j : nat) :
  Forall (fun b => 0 <= b < 256) l -> prefix l <> 0 -> (j < 8 * length l)%nat ->
  Z.of_nat j <> 8 * (prefix l / 8) + 7 ->
  mask_bit l j = (Z.of_nat j <? prefix l).
Proof.
  intros Hl Hp Hj Hx. pose proof (Nat.div_mod_eq j 8) as Ej.
  pose proof (Nat.mod_upper_bound j 8 ltac:(lia)) as Hm. unfold mask_bit.
  generalize dependent (j mod 8)%nat. generalize dependent (j / 8)%nat. intros q m Ej Hm.
  assert (forall i : nat, (i < 8)%nat -> Z.testbit 255 (7 - Z.of_nat i) = true) as Hff.
  { intros i Hi. do 8 (destruct i as [|i]; [done|]). lia. }
  destruct (accepted_inv l Hl Hp) as [k [[-> E]|(b & n & r & -> & E & Hr & Hb)]].
  - rewrite E. rewrite length_replicate in Hj.
    rewrite (nth_lookup_Some _ _ _ 255) by (apply lookup_replicate_2; lia).
    rewrite Hff by lia. symmetry. apply Z.ltb_lt. lia.
  - rewrite E in Hx |- *. replace ((8 * Z.of_nat k + r) / 8) with (Z.of_nat k) in Hx
      by (rewrite Z.mul_comm, Z.div_add_l, Z.div_small by lia; lia).
    rewrite nth_lookup. destruct (decide (q < k)%nat).
    { rewrite lookup_app_l, lookup_replicate_2 by (rewrite ?length_replicate; lia). cbn.
      rewrite Hff by lia. symmetry. apply Z.ltb_lt. lia. }
    rewrite lookup_app_r, length_replicate by (rewrite ?length_replicate; lia).
    destruct (decide (q = k)%nat) as [Ek|].
    { rewrite Ek, Nat.sub_diag. cbn. rewrite Hb by lia.
      destruct (Z.ltb_spec (Z.of_nat m) r), (Z.ltb_spec (Z.of_nat j) (8 * Z.of_nat k + r)); [done|lia..|done]. }
    destruct (q - k)%nat as [|d] eqn:Ed; [lia|].
    change ((b :: replicate n 0) !! S d) with (replicate n 0 !! d).
    assert (default 0 (replicate n 0 !! d) = 0) as ->.
    { destruct (replicate n 0 !! d) eqn:El; [|done]. by apply lookup_replicate in El as [-> _]. }
    rewrite Z.bits_0. symmetry. apply Z.ltb_ge. lia.
Qed.

Example prefix_bit0_ignored : prefix [255; 129; 0; 0] = 9 /\ mask_bit [255; 129; 0; 0] 15 = true.
Proof. split; vm_compute; reflexivity. Qed.

Lemma prefix_netmask_witness : prefix (netmask 4 26) = 26.
Proof. apply (prefix_netmask 4 26). lia. Defined.

Lemma prefix_bits_witness : mask_bit [255; 255; 240; 0] 20 = false.
Proof.
  rewrite (prefix_bits [255; 255; 240; 0] 20); [reflexivity|repeat constructor; lia|discriminate|..].
  - simpl. lia.
  - vm_compute. discriminate.
Defined.

(** ** Discovery *)

(** The name and family of an entry the discovery uses. *)
Definition eligible (a : ifaddr) : option (string * Z) :=
  match ifa_addr a with
  | Some (f, _) =>
      if decide ((f = AF_INET \/ f = AF_INET6) /\ ifa_name a <> "lo") then Some (ifa_name a, f) else None
  | None => None
  end.

(** The names of a list in the order of their first occurrences. *)
Definition firsts (l : list string) : list string :=
  fold_left (fun acc n => if decide (n ∈ acc) then acc else acc ++ [n]) l [].

Definition occurrences (l : list ifaddr) (x : string * Z) : nat :=
  length (filter (fun y => y = x) (omap eligible l)).

(** Interface [c] named [n] holds one address per entry of that name. *)
Definition interface_of (l : list ifaddr) (c : cc_oci_net_if_cfg) (n : string) : Prop :=
  ifname c = Some n /\ bridge c = Some ("b" +:+ n) /\ tap_device c = Some ("c" +:+ n) /\
  length (ipv4_addrs c) = occurrences l (n, AF_INET) /\
  length (ipv6_addrs c) = occurrences l (n, AF_INET6).

Definition discovered (l : list ifaddr) (ifs : list cc_oci_net_if_cfg) : Prop :=
  Forall2 (interface_of l) ifs (firsts (omap eligible l).*1).

Lemma firsts_snoc l n : firsts (l ++ [n]) = if decide (n ∈ firsts l) then firsts l else firsts l ++ [n].
Proof. unfold firsts. by rewrite fold_left_app. Qed.

Lemma elem_of_firsts l n : n ∈ firsts l <-> n ∈ l.
Proof.
  induction l as [|m l IH] using rev_ind; [done|]. rewrite firsts_snoc.
  case_decide; rewrite !elem_of_app, !list_elem_of_singleton; naive_solver.
Qed.

Lemma firsts_nodup l : NoDup (firsts l).
Proof.
  induction l as [|m l IH] using rev_ind; [constructor|]. rewrite firsts_snoc. case_decide; [done|].
  apply NoDup_app. split_and!; [done|set_solver|apply NoDup_singleton].
Qed.

Lemma occurrences_snoc l a x :
  occurrences (l ++ [a]) x = (occurrences l x + if decide (eligible a = Some x) then 1 else 0)%nat.
Proof.
  unfold occurrences. rewrite omap_app, filter_app, length_app. f_equal. cbn.
  destruct (eligible a) as [y|]; cbn; [|by rewrite decide_False].
  destruct (decide (y = x)) as [->|]; [by rewrite decide_True|rewrite decide_False; [done|congruence]].
Qed.

Lemma occurrences_fresh l n f : n ∉ (omap eligible l).*1 -> occurrences l (n, f) = O.
Proof.
  intros Hn. unfold occurrences. destruct (filter _ _) as [|y t] eqn:E; [done|].
  assert (y ∈ filter (fun y => y = (n, f)) (omap eligible l)) as [-> Hy]%list_elem_of_filter
    by (rewrite E; left). destruct Hn. apply list_elem_of_fmap. by exists (n, f).
Qed.

Section discover.
Context `{GL : GLib} `{NF : NlFuel}.

Lemma discovered_skip l ifs a : eligible a = None -> discovered l ifs -> discovered (l ++ [a]) ifs.
Proof.
  unfold discovered. intros Ha. rewrite omap_app. cbn. rewrite Ha. cbn. rewrite app_nil_r.
  intros H. eapply Forall2_impl; [exact H|]. intros c n (?&?&?&?&?). unfold interface_of.
  by rewrite !occurrences_snoc, !decide_False, !Nat.add_0_r by (rewrite Ha; congruence).
Qed.

(** Adding an address to the interface of that name. *)
Lemma discovered_update l ifs ns a n f (g : cc_oci_net_if_cfg -> cc_oci_net_if_cfg) :
  eligible a = Some (n, f) -> NoDup ns -> Forall2 (interface_of l) ifs ns ->
  (forall c, interface_of l c n -> interface_of (l ++ [a]) (g c) n) ->
  Forall2 (interface_of (l ++ [a])) (update_interface (Some n) g ifs) ns.
Proof.
  intros Ha Hnd Hf Hg. induction Hf as [|c m ifs ns Hc Hf IH]; [constructor|].
  apply NoDup_cons in Hnd as [Hm Hnd]. cbn [update_interface]. unfold compare_interface.
  assert (forall c m, m <> n -> interface_of l c m -> interface_of (l ++ [a]) c m) as Hother.
  { intros c' m' Hne (?&?&?&?&?). unfold interface_of.
    by rewrite !occurrences_snoc, !decide_False, !Nat.add_0_r by (rewrite Ha; congruence). }
  pose proof Hc as (Hn & _). rewrite Hn. case_bool_decide as E; rewrite g_strcmp0_eq in E.
  - injection E as ->. constructor; [auto|]. apply Forall2_same_length_lookup.
    split; [by eapply Forall2_length|]. intros i c' m' H1 H2.
    apply Hother; [|by eapply Forall2_lookup_lr]. intros ->. apply Hm. by eapply list_elem_of_lookup_2.
  - constructor; [|by apply IH]. apply Hother; [congruence|done].
Qed.

Lemma known_interface_iff l ifs ns n :
  Forall2 (interface_of l) ifs ns -> known_interface (Some n) ifs = bool_decide (n ∈ ns).
Proof.
  induction 1 as [|c m ifs ns (Hn & _) _ IH]; [done|].
  change (bool_decide (compare_interface c (Some n) = 0) || known_interface (Some n) ifs = bool_decide (n ∈ m :: ns)).
  rewrite IH. unfold compare_interface.
  rewrite Hn. destruct (decide (g_strcmp0 (Some n) (Some m) = 0)) as [E|E].
  - rewrite (bool_decide_true (_ = 0)) by done. rewrite g_strcmp0_eq in E. injection E as ->.
    symmetry. apply bool_decide_true. left.
  - rewrite (bool_decide_false (_ = 0)) by done. rewrite g_strcmp0_eq in E. apply bool_decide_ext. set_solver.
Qed.

(** Extending the list with a new interface when the name is not known. *)
Lemma discovered_new l ifs a n f mac :
  eligible a = Some (n, f) -> discovered l ifs -> known_interface (Some n) ifs = false ->
  Forall2 (interface_of l) (ifs ++ [new_interface n mac]) (firsts (omap eligible (l ++ [a])).*1).
Proof.
  intros Ha Hd Hk. rewrite (known_interface_iff _ _ _ _ Hd) in Hk. apply bool_decide_eq_false in Hk.
  rewrite omap_app. cbn. rewrite Ha. cbn. rewrite fmap_app. cbn.
  rewrite firsts_snoc, decide_False by done. apply Forall2_app; [done|]. constructor; [|constructor].
  rewrite elem_of_firsts in Hk. unfold interface_of. by rewrite !occurrences_fresh by done.
Qed.

Lemma discovered_known l ifs a n f :
  eligible a = Some (n, f) -> discovered l ifs -> known_interface (Some n) ifs = true ->
  Forall2 (interface_of l) ifs (firsts (omap eligible (l ++ [a])).*1).
Proof.
  intros Ha Hd Hk. rewrite (known_interface_iff _ _ _ _ Hd) in Hk. apply bool_decide_eq_true in Hk.
  rewrite omap_app. cbn. rewrite Ha. cbn. rewrite fmap_app. cbn. by rewrite firsts_snoc, decide_True.
Qed.

Lemma add_ipv4_ok l a n c ip :
  eligible a = Some (n, AF_INET) -> interface_of l c n ->
  interface_of (l ++ [a]) (set_ipv4_addrs (ipv4_addrs c ++ [ip]) c) n.
Proof.
  intros Ha (H1 & H2 & H3 & H4 & H5). unfold interface_of.
  rewrite !occurrences_snoc, decide_True, decide_False by (rewrite Ha; done).
  cbn. rewrite length_app, Nat.add_0_r. cbn. split_and!; [done..|lia|done].
Qed.

Lemma add_ipv6_ok l a n c ip :
  eligible a = Some (n, AF_INET6) -> interface_of l c n ->
  interface_of (l ++ [a]) (set_ipv6_addrs (ipv6_addrs c ++ [ip]) c) n.
Proof.
  intros Ha (H1 & H2 & H3 & H4 & H5). unfold interface_of.
  rewrite !occurrences_snoc, decide_False, decide_True by (rewrite Ha; done).
  cbn. rewrite length_app, Nat.add_0_r. cbn. split_and!; [done..|lia].
Qed.

Lemma wp_discover_one l ifs a :
  discovered l ifs ->
  wp (discover_one ifs a) (fun _ o => match o with Done ifs' => discovered (l ++ [a]) ifs' | Fault _ => True end).
Proof.
  intros Hd. unfold discover_one. destruct (ifa_addr a) as [[f addr]|] eqn:Eaddr;
    [|apply wp_ret, discovered_skip; [|done]; unfold eligible; by rewrite Eaddr].
  rewrite g_streq_lit. case_bool_decide as Hf; cbn [negb].
  2:{ apply wp_ret, discovered_skip; [|done]. unfold eligible. rewrite Eaddr, decide_False; [done|tauto]. }
  case_bool_decide as Hlo.
  { apply wp_ret, discovered_skip; [|done]. unfold eligible. rewrite Eaddr, decide_False; [done|tauto]. }
  assert (eligible a = Some (ifa_name a, f)) as Ha
    by (unfold eligible; by rewrite Eaddr, decide_True).
  apply wp_bind. eapply (wp_mono _ (fun _ o => match o with
      Done l' => Forall2 (interface_of l) l' (firsts (omap eligible (l ++ [a])).*1) | Fault _ => True end)).
  { destruct (known_interface _ _) eqn:Ek; [by eapply wp_ret, discovered_known|].
    apply wp_bind. eapply (wp_mono _ (fun _ _ => True)); [by apply wp_exec|].
    intros tr [mac|?] _; [|done]. by eapply wp_ret, discovered_new. }
  intros tr [l'|?] Hl'; [|done]. apply wp_bind. eapply (wp_mono _ (fun _ _ => True)); [by apply wp_exec|].
  intros tr' [ip|?] _; [|done]. destruct (ifa_netmask a) as [mask|]; [|done].
  pose proof (firsts_nodup (omap eligible (l ++ [a])).*1) as Hnd. case_bool_decide as Hv.
  - apply wp_bind. eapply (wp_mono _ (fun _ _ => True)); [by apply wp_exec|].
    intros tr'' [m|?] _; [|done]. apply wp_ret. subst f.
    eapply discovered_update; [done..|]. intros c. by apply add_ipv4_ok.
  - apply wp_ret. destruct Hf as [?| ->]; [done|]. eapply discovered_update; [done..|].
    intros c. by apply add_ipv6_ok.
Qed.

Lemma wp_discover_loop l l' ifs :
  discovered l ifs ->
  wp (io_fold discover_one l' ifs)
    (fun _ o => match o with Done ifs' => discovered (l ++ l') ifs' | Fault _ => True end).
Proof.
  revert l ifs. induction l' as [|a l' IH]; intros l ifs Hd; [by rewrite app_nil_r|].
  cbn [io_fold]. apply wp_bind. eapply wp_mono; [by apply wp_discover_one|].
  intros tr [ifs'|?] H; [|done]. specialize (IH _ _ H). rewrite <- app_assoc in IH. exact IH.
Qed.

(** *** Routes *)

(** Messages of the kernel about routes. *)
Definition route_messages (e : event) : option (list rtmsg) :=
  match e with Ev (Cmnl_cb_run_routes _ _) r => Some (fst r) | _ => None end.

Definition route_attrs (m : rtmsg) : gmap Z rtattr := snd (mnl_attr_parse (rtm_attrs m) ∅).
Definition stops (m : rtmsg) : bool :=
  bool_decide (rtm_family m = AF_INET) && bool_decide (fst (mnl_attr_parse (rtm_attrs m) ∅) <> MNL_CB_OK).
Definition main_route (m : rtmsg) : bool :=
  bool_decide (rtm_family m = AF_INET) && bool_decide (rta_u32 <$> route_attrs m !! RTA_TABLE = Some RT_TABLE_MAIN).

(** The routes of the main table, up to a message whose attributes are not valid. *)
Fixpoint kept (ms : list rtmsg) : list rtmsg :=
  match ms with
  | [] => []
  | m :: ms => if stops m then [] else (if main_route m then [m] else []) ++ kept ms
  end.

(** The text read for an address. *)
Definition read_ip (tr : list event) (a : option rtattr) (d : cstr) : Prop :=
  match a with
  | None => d = None
  | Some a => exists s, Ev (Cinet_ntop AF_INET (rta_payload a)) s ∈ tr /\ d = Some (default EmptyString s)
  end.

Definition route_of (tr : list event) (m : rtmsg) (r : cc_oci_net_ipv4_route) : Prop :=
  (if bool_decide (rtm_src_len m = 0 /\ rtm_dst_len m = 0) then rt_dest r = Some "default" else read_ip tr (route_attrs m !! RTA_DST) (rt_dest r)) /\
  read_ip tr (route_attrs m !! RTA_GATEWAY) (rt_gateway r) /\
  match route_attrs m !! RTA_OIF with
  | None => rt_ifname r = None
  | Some ix => Ev (Cif_indextoname (rta_u32 ix)) (rt_ifname r) ∈ tr
  end.

Lemma read_ip_mono tr tr' a d : tr ⊆ tr' -> read_ip tr a d -> read_ip tr' a d.
Proof. intros Hs. destruct a; [|done]. intros (s & Hin & ->). exists s. auto. Qed.

Lemma route_of_mono tr tr' m r : tr ⊆ tr' -> route_of tr m r -> route_of tr' m r.
Proof.
  intros Hs (H1 & H2 & H3). split_and!; [|by eapply read_ip_mono|].
  - destruct (bool_decide _); [done|by eapply read_ip_mono].
  - destruct (route_attrs m !! RTA_OIF); [by apply Hs|done].
Qed.

Lemma mnl_attr_parse_result l tb : fst (mnl_attr_parse l tb) = MNL_CB_OK \/ fst (mnl_attr_parse l tb) = MNL_CB_ERROR.
Proof.
  revert tb. induction l as [|a l IH]; intros tb; cbn [mnl_attr_parse]; [by left|].
  unfold data_ipv4_attr_cb. repeat case_match; simplify_eq; auto; by cbn in *.
Qed.

(** Attributes are kept in the table, provided [mnl_attr_type_valid] refuses the
    types above [RTA_MAX]. *)
Lemma attr_table_bounds max l tb :
  Forall (fun a => rta_type_valid a = true -> 0 <= rta_type a <= max) l -> map_Forall (fun k _ => 0 <= k <= max) tb ->
  map_Forall (fun k _ => 0 <= k <= max) (snd (mnl_attr_parse l tb)).
Proof.
  intros Hl. revert tb. induction Hl as [|a l Ha _ IH]; intros tb Ht; cbn [mnl_attr_parse]; [done|].
  unfold data_ipv4_attr_cb. destruct (rta_type_valid a); cbn [negb]; [|by apply IH].
  repeat case_match; simplify_eq; try done; apply IH; try done; apply map_Forall_insert_2; auto.
Qed.

Lemma wp_opt_ip a : wp (opt_ip a) (fun tr o => tr_map route_messages tr = [] /\ match o with Done d => read_ip tr a d | Fault _ => True end).
Proof.
  destruct a as [a|]; [|done]. unfold opt_ip, cc_net_get_ip_address. cbn. intros s. split; [done|]. exists s. split; [|done]. set_solver.
Qed.

Lemma wp_process_route m rs :
  wp (process_ipv4_routes m rs) (fun tr o => tr_map route_messages tr = [] /\
    match o with
    | Done (r, rs') => if stops m then r = MNL_CB_ERROR /\ rs' = rs
                       else r = MNL_CB_OK /\ exists new, rs' = rs ++ new /\ Forall2 (route_of tr) (if main_route m then [m] else []) new
    | Fault _ => True
    end).
Proof.
  unfold process_ipv4_routes, stops, main_route.
  case_bool_decide as Hf.
  { rewrite !(bool_decide_false (rtm_family m = AF_INET)) by done. cbn [andb]. apply wp_ret. split_and!; [done..|]. exists []. by rewrite app_nil_r. }
  rewrite !(bool_decide_true (rtm_family m = AF_INET)) by done. cbn [andb]. pose proof (mnl_attr_parse_result (rtm_attrs m) ∅) as Hr.
  assert (route_attrs m = snd (mnl_attr_parse (rtm_attrs m) ∅)) as Htb by done.
  destruct (mnl_attr_parse (rtm_attrs m) ∅) as [ret tb]. cbn [fst snd] in *. rewrite Htb.
  case_bool_decide as Hret; [apply wp_ret; destruct Hr as [->| ->]; done|].
  destruct (tb !! RTA_TABLE) as [table|]; cbn [fmap option_fmap option_map];
    [|rewrite (bool_decide_false (None = Some RT_TABLE_MAIN)) by done; apply wp_ret; split_and!; [done..|exists []; by rewrite app_nil_r]].
  case_bool_decide as Ht.
  { rewrite (bool_decide_false (Some (rta_u32 table) = Some RT_TABLE_MAIN)) by congruence. apply wp_ret. split_and!; [done..|]. exists []. by rewrite app_nil_r. }
  rewrite (bool_decide_true (Some (rta_u32 table) = Some RT_TABLE_MAIN)) by congruence.
  apply wp_bind. eapply wp_mono; [apply wp_opt_ip|]. intros tr1 [d|?] [Hq1 Hd]; [|done].
  apply wp_bind. eapply wp_mono; [apply wp_opt_ip|]. intros tr2 [g|?] [Hq2 Hg]; [|by rewrite tr_map_app, Hq1, Hq2].
  assert (forall tr3 i, match tb !! RTA_OIF with None => i = None | Some ix => Ev (Cif_indextoname (rta_u32 ix)) i ∈ tr3 end ->
    tr_map route_messages tr3 = [] ->
    tr_map route_messages (tr1 ++ tr2 ++ tr3) = [] /\ MNL_CB_OK = MNL_CB_OK /\ exists new,
      rs ++ [Ipv4Route (if bool_decide (rtm_src_len m = 0 /\ rtm_dst_len m = 0) then Some "default" else d) i g] = rs ++ new /\
      Forall2 (route_of (tr1 ++ tr2 ++ tr3)) [m] new) as Hend.
  { intros tr3 i Hi Hq3. rewrite !tr_map_app, Hq1, Hq2, Hq3. split_and!; [done..|]. eexists. split; [done|].
    constructor; [|constructor]. unfold route_of. rewrite Htb. cbn [rt_dest rt_gateway rt_ifname]. split_and!.
    - destruct (bool_decide _); [done|]. eapply read_ip_mono; [|exact Hd]. set_solver.
    - eapply read_ip_mono; [|exact Hg]. set_solver.
    - destruct (tb !! RTA_OIF); [set_solver|done]. }
  destruct (tb !! RTA_OIF) as [ix|].
  - apply wp_bind. wp_step. intros n. do 2 apply wp_ret. apply Hend; [set_solver|done].
  - apply wp_bind. do 2 apply wp_ret. by apply (Hend [] None).
Qed.

(** The length of the destination's prefix is lost: routes to networks of different
    sizes are recorded alike. *)
Lemma prefix_length_dropped family src d d' attrs rs :
  d <> 0 -> d' <> 0 -> process_ipv4_routes (RtMsg family src d attrs) rs = process_ipv4_routes (RtMsg family src d' attrs) rs.
Proof. intros Hd Hd'. unfold process_ipv4_routes. cbn. by rewrite !(bool_decide_false (src = 0 /\ _)) by tauto. Qed.

Lemma kept_app ms ms' : forallb (fun m => negb (stops m)) ms = true -> kept (ms ++ ms') = kept ms ++ kept ms'.
Proof.
  induction ms as [|m ms IH]; [done|]. cbn. intros [Hm Hms]%andb_prop. apply negb_true_iff in Hm. rewrite Hm, IH by done.
  by rewrite app_assoc.
Qed.

Lemma wp_run_routes ms final rs :
  wp (run_routes ms final rs) (fun tr o => tr_map route_messages tr = [] /\
    match o with
    | Done (r, rs') => (exists new, rs' = rs ++ new /\ Forall2 (route_of tr) (kept ms) new) /\
                       (forallb (fun m => negb (stops m)) ms = false -> r <= MNL_CB_STOP)
    | Fault _ => True
    end).
Proof.
  revert rs. induction ms as [|m ms IH]; intros rs; cbn [run_routes kept forallb].
  { apply wp_ret. split_and!; [done| |done]. exists []. by rewrite app_nil_r. }
  apply wp_bind. eapply wp_mono; [apply wp_process_route|]. intros tr1 [[r rs1]|?] [Hq1 H1]; [|done].
  destruct (stops m); cbn [negb andb].
  { destruct H1 as [-> ->]. rewrite bool_decide_true by done. apply wp_ret. rewrite (app_nil_r tr1). split_and!; [done| |done].
    exists []. by rewrite app_nil_r. }
  destruct H1 as (-> & new1 & -> & Hn1). rewrite bool_decide_false by (unfold MNL_CB_OK, MNL_CB_STOP; lia). eapply wp_mono; [apply IH|].
  intros tr2 [[r rs2]|?] [Hq2 H2]; rewrite tr_map_app, Hq1, Hq2; [|done]. split; [done|].
  destruct H2 as [(new2 & -> & Hn2) Hst]. split; [|done]. exists (new1 ++ new2). rewrite app_assoc. split; [done|].
  apply Forall2_app; eapply Forall2_impl; try done; intros ? ?; apply route_of_mono; set_solver.
Qed.

Lemma wp_routes_loop fuel s seq portid ret rs :
  wp (netlink_routes_loop fuel s seq portid ret rs) (fun tr o =>
    match o with
    | Done (_, rs') => exists new, rs' = rs ++ new /\ Forall2 (route_of tr) (kept (mjoin (tr_map route_messages tr))) new
    | Fault _ => True
    end).
Proof.
  revert ret rs. induction fuel as [|fuel IH]; intros ret rs; cbn [netlink_routes_loop]; [done|].
  case_bool_decide; [apply wp_ret; exists []; by rewrite app_nil_r|].
  wp_step. intros [ms final]. apply wp_bind. eapply wp_mono; [apply wp_run_routes|].
  intros tr1 [[r rs1]|?] [Hq1 H1]; [|done]. destruct H1 as [(new1 & -> & Hn1) Hst].
  case_bool_decide as Hr.
  { apply wp_ret. exists new1. split; [done|]. rewrite app_nil_r. cbn [tr_map route_messages fst]. rewrite Hq1. cbn.
    rewrite app_nil_r. eapply Forall2_impl; [exact Hn1|]. intros ? ?. apply route_of_mono. set_solver. }
  wp_step. intros ret'. eapply wp_mono; [apply IH|]. intros tr2 [[r2 rs2]|?]; [|done]. intros (new2 & -> & Hn2).
  exists (new1 ++ new2). rewrite app_assoc. split; [done|]. cbn [tr_map route_messages fst app]. rewrite tr_map_app, Hq1. cbn [app tr_map route_messages].
  change (mjoin (ms :: ?l)) with (ms ++ mjoin l). destruct (forallb (fun m => negb (stops m)) ms) eqn:Hs; [|by specialize (Hst eq_refl)].
  rewrite kept_app by done. apply Forall2_app; eapply Forall2_impl; try done; intros ? ?; apply route_of_mono; set_solver.
Qed.

(** Reading the routes adds those that are kept, and changes nothing else of the
    configuration. *)
Lemma wp_get_routes config h f :
  wp (netlink_get_routes config h f)
    (fun tr o => match o with
                 | Done (_, c) => exists new, c = set_net (set_routes (routes (net config) ++ new) (net config)) config /\
                                    Forall2 (route_of tr) (kept (mjoin (tr_map route_messages tr))) new
                 | Fault _ => True
                 end).
Proof.
  assert (config = set_net (set_routes (routes (net config) ++ []) (net config)) config) as E
    by (rewrite app_nil_r; by destruct config as [? ? [] ? ? ? ? ? ? ? ? ? ?]).
  unfold netlink_get_routes. do 3 (wp_step; intros ?).
  case_bool_decide; [apply wp_ret; exists []; split; [done|constructor]|]. wp_step. intros r. apply wp_bind.
  eapply wp_mono; [apply wp_routes_loop|]. intros tr [[ret rs]|?]; [|done]. intros (new & -> & Hn). apply wp_ret. exists new.
  split; [done|]. rewrite app_nil_r. cbn. eapply Forall2_impl; [exact Hn|]. intros ? ?. apply route_of_mono. set_solver.
Qed.

Lemma discover_no_routes l ifs : safe (fun e => route_messages e = None) (io_fold discover_one l ifs).
Proof.
  apply safe_fold. intros ifs' a. unfold discover_one, cc_net_get_ip_address, get_mac_address. solve_safe ltac:(done).
Qed.

(** C40.  When the discovery succeeds, the interfaces are those of the usable
    entries (IPv4 or IPv6, not the loopback), once each, in the order of
    their first entries; each has the bridge and tap names derived from its
    own, and as many IPv4 and IPv6 addresses as it has entries of each family
    (their values are not compared here).  The routes are
    those of the main table among the IPv4 ones the kernel sent, in order, up to a
    message with invalid attributes: the destination, or the word default when
    both prefixes are empty, the gateway and the interface as the kernel gave
    them. *)
Theorem network_discover_interfaces (config config' : cc_oci_config) (h : netlink_handle) (tr : list event) :
  interfaces (net config) = [] -> routes (net config) = [] ->
  exec (cc_oci_network_discover config h) tr (Done (true, config')) ->
  exists l tr', tr = Ev Cgetifaddrs (Some l) :: tr' /\
    Forall2 (interface_of l) (interfaces (net config')) (firsts (omap eligible l).*1) /\
    Forall2 (route_of tr) (kept (mjoin (tr_map route_messages tr))) (routes (net config')) /\
    net_hostname (net config') = Some (default EmptyString (hostname (oci config))).
Proof.
  intros Hn Hr0. revert tr. enough (wp (cc_oci_network_discover config h) (fun tr o =>
    match o with Done (true, c) => exists l tr', tr = Ev Cgetifaddrs (Some l) :: tr' /\
      discovered l (interfaces (net c)) /\ Forall2 (route_of tr) (kept (mjoin (tr_map route_messages tr))) (routes (net c)) /\
      net_hostname (net c) = Some (default EmptyString (hostname (oci config)))
    | _ => True end)) as H by (intros tr He; exact (proj1 (wp_exec _ _) H tr _ He)).
  unfold cc_oci_network_discover. wp_step. intros [l|]; [|by apply wp_ret]. apply wp_bind.
  apply wp_exec. intros tr o He. pose proof (safe_exec _ _ _ _ (discover_no_routes _ _) He) as Hq%tr_map_quiet.
  assert (discovered [] (interfaces (net config))) as Hd0 by (rewrite Hn; constructor).
  pose proof (proj1 (wp_exec _ _) (wp_discover_loop [] l _ Hd0) _ _ He) as Hd. destruct o as [ifs|?]; [|done].
  apply wp_bind. eapply wp_mono; [apply wp_get_routes|].
  intros tr' [[b c]|?] H; [|done]. destruct H as (new & -> & Hf). apply wp_ret. rewrite app_nil_r. eexists l, _. split; [done|].
  cbn. rewrite tr_map_app, Hq. split_and!; [exact Hd| |done]. rewrite Hr0. eapply Forall2_impl; [exact Hf|].
  intros ? ?. apply route_of_mono. set_solver.
Qed.
End discover.

(** A namespace with a loopback and one interface with an IPv4 and an IPv6
    address; the kernel sends a default route, a route of the local table and one of
    the main table. *)
Definition ifaddrs_example : list ifaddr :=
  [ IfAddr "lo" (Some (AF_INET, [127; 0; 0; 1])) (Some [255; 0; 0; 0]);
    IfAddr "eth0" None None;
    IfAddr "eth0" (Some (AF_INET, [172; 17; 0; 2])) (Some [255; 255; 0; 0]);
    IfAddr "eth0" (Some (AF_INET6, replicate 16 1)) (Some (netmask 16 64)) ].

Definition u32_attr (type v : Z) (payload : list Z) : rtattr := RtAttr type true true false v payload.
Definition routes_example : list rtmsg :=
  [ RtMsg AF_INET 0 0 [u32_attr RTA_TABLE RT_TABLE_MAIN []; u32_attr RTA_GATEWAY 0 [172; 17; 0; 1]; u32_attr RTA_OIF 5 []];
    RtMsg AF_INET 0 32 [u32_attr RTA_TABLE 255 []; u32_attr RTA_DST 0 [127; 0; 0; 1]];
    RtMsg AF_INET 0 16 [u32_attr RTA_TABLE RT_TABLE_MAIN []; u32_attr RTA_DST 0 [172; 17; 0; 0]; u32_attr RTA_OIF 5 []] ].

Definition discover_world : handler bool := fun c w =>
  match c return reply c * bool with
  | Cmnl_socket_sendto _ _ => (40, w)
  | Cmnl_socket_recvfrom _ => (if w then 0 else 100, true)
  | Cmnl_cb_run_routes _ _ => ((routes_example, 1), w)
  | Cif_indextoname _ => (Some "eth0", w)
  | Cgetifaddrs => (Some ifaddrs_example, w)
  | Cinet_socket => (3, w)
  | Cget_hwaddr _ _ => (Some (ARPHRD_ETHER, [2; 66; 172; 17; 0; 2]), w)
  | Cinet_ntop _ l => (Some (join "." (fmt_d <$> l)), w)
  | c => (fail_reply c, w)
  end.

Definition discover_example : cc_oci_config :=
  set_net (NetCfg (Some EmptyString) (Some EmptyString) (Some EmptyString)
    [IfCfg (Some "02:42:ac:11:00:02") (Some "eth0") (Some "beth0") (Some "ceth0")
       [Ipv4Cfg (Some "172.17.0.2") (Some "255.255.0.0")]
       [Ipv6Cfg (Some "1.1.1.1.1.1.1.1.1.1.1.1.1.1.1.1") (Some "64")]]
    [Ipv4Route (Some "default") (Some "eth0") (Some "172.17.0.1"); Ipv4Route (Some "172.17.0.0") (Some "eth0") None]) cc_oci_config_zero.

Definition discover_trace : list event :=
  fst (run_tr discover_world (cc_oci_network_discover (GL := glib_ref) (NF := 2%nat) cc_oci_config_zero (NlHandle 4 1)) false).

Lemma network_discover_interfaces_witness :
  exists l tr',
    discover_trace = Ev Cgetifaddrs (Some l) :: tr' /\
    Forall2 (interface_of l) (interfaces (net discover_example)) (firsts (omap eligible l).*1) /\
    Forall2 (route_of discover_trace) (kept (mjoin (tr_map route_messages discover_trace))) (routes (net discover_example)) /\
    net_hostname (net discover_example) = Some EmptyString.
Proof.
  apply (network_discover_interfaces (GL := glib_ref) (NF := 2%nat) cc_oci_config_zero discover_example
           (NlHandle 4 1) discover_trace); [reflexivity|reflexivity|].
  apply run_tr_exec. vm_compute. reflexivity.
Defined.
