(* ===== verification/Proxy.v ===== *)
(** * The runtime's side of the proxy protocol

    src/src/proxy.c, and [get_user_home_dir] and [set_env_home] of
    src/src/oci.c.  The main loop of a request is followed watch by watch: a
    watch that is removed without ending the loop leaves the runtime waiting
    for ever, the fault [Blocked]. *)

From S2P Require Import Prelude GLib GLibRef Sys Types Util Semver Config Wire Networking.

(** The options of [start_data] that give paths. *)
Class StartPaths := { start_proxy_socket_path : cstr; start_shim_path : cstr }.

(** Bound on the [recvmsg] calls for one message. *)
Class RecvFuel := recv_fuel : nat.

Definition PASSWD_PATH : string := "/etc/passwd".
Definition STATELESS_PASSWD_PATH : string := "/usr/share/defaults/etc/passwd".
Definition IO_STREAMS_NUMBER : Z := 2.
Definition MESSAGE_HEADER_LENGTH : Z := 8.
Definition G_IO_HUP : Z := 16.
Definition G_IO_STATUS_ERROR : Z := 0.
Definition OOB_FD_FLAG : ascii := "F".

(** What a watch does to the main loop: stay, go, or go and end the loop. *)
Inductive watch := WContinue | WRemove | WQuit.

Section proxy.
Context `{GL : GLib} `{BD : Build} `{SP : StartPaths} `{RF : RecvFuel}.

Definition CC_OCI_PROXY_SOCKET : string := CC_OCI_RUNTIME_DIR_PREFIX +:+ "/proxy.sock".

(** ** Connection *)

Definition cc_proxy_connected (proxy : cc_proxy) : bool := bool_decide (is_Some (socket proxy)).

Definition cc_proxy_connect (proxy : cc_proxy) : io (bool * cc_proxy) :=
  if cc_proxy_connected proxy then mret (false, proxy)
  else
    let proxy_socket_path := default CC_OCI_PROXY_SOCKET start_proxy_socket_path in
    addr ← call_ (Cg_unix_socket_address_new proxy_socket_path);
    if bool_decide (addr < 0) then mret (false, proxy)
    else
      fd ← call_ Csocket_new;
      if bool_decide (fd < 0) then mret (false, proxy)
      else
        let proxy := set_socket (Some fd) proxy in
        ret ← cc_oci_fd_toggle_cloexec fd true;
        if negb ret then mret (false, proxy)
        else
          r ← call_ (Cconnect fd proxy_socket_path);
          if bool_decide (r <> 0) then
            (* [g_clear_object] drops the last reference, which closes the socket *)
            _ ← call_ (Cg_socket_close fd);
            mret (false, set_socket None proxy)
          else mret (true, proxy).

Definition cc_proxy_disconnect (proxy : cc_proxy) : io (bool * cc_proxy) :=
  match socket proxy with
  | None => mret (false, proxy)
  | Some fd =>
      r ← call_ (Cg_socket_close fd);
      mret (bool_decide (r = 0), set_socket None proxy)
  end.

(** ** Messages *)

(** The loop that reads the missing bytes, after [total] of [need]. *)
Fixpoint recv_rest (fuel : nat) (fd need total : Z) (msg_received : string) : io string :=
  match fuel with
  | O => Halt Blocked
  | S fuel =>
      r ← call_ (Crecvmsg fd);
      match r with
      | RecvErr errno =>
          if bool_decide (errno = EAGAIN /\ total < need)
          then recv_rest fuel fd need total msg_received
          else mret msg_received
      | RecvData d _ =>
          recv_rest fuel fd need (total + Z.of_nat (String.length d)) (msg_received +:+ d)
      end
  end.

(** One invocation of the read watch.  [oob_fd] is [None] as long as no
    descriptor was found; [want] says that the caller expects one. *)
Definition cc_proxy_msg_read (fd : Z) (want : bool) (oob_fd : option Z) (msg_received : string)
    : io (watch * string * option Z) :=
  r ← call_ (Crecvmsg fd);
  match r with
  | RecvErr _ => mret (WRemove, msg_received, oob_fd)
  | RecvData EmptyString _ => mret (WRemove, msg_received, oob_fd)
  | RecvData d cmsg =>
      let bytes_read := Z.of_nat (String.length d) in
      if want && negb (bool_decide (is_Some oob_fd)) then
        match cmsg with
        | None => mret (WQuit, msg_received, oob_fd)
        | Some data =>
            if bool_decide (first_char d = Some OOB_FD_FLAG)
            then mret (WContinue, msg_received, Some data)
            else mret (WQuit, msg_received, oob_fd)
        end
      else
        let payload_length :=
          cc_oci_get_big_endian_32 (buf_byte d 0) (buf_byte d 1) (buf_byte d 2) (buf_byte d 3) in
        (* a negative length would append the C string found there: the buffer is zero *)
        let msg_received := msg_received +:+ str_drop 8 d in
        if bool_decide (payload_length + MESSAGE_HEADER_LENGTH <= bytes_read)
        then mret (WQuit, msg_received, oob_fd)
        else
          m ← recv_rest recv_fuel fd (payload_length + MESSAGE_HEADER_LENGTH) bytes_read msg_received;
          mret (WQuit, m, oob_fd)
  end.

(** The write watch: [true] when it registered the read watch.  The loops on
    [G_IO_STATUS_AGAIN] are part of the write and flush calls. *)
Definition cc_proxy_msg_write (fd : Z) (msg_to_send : string) : io bool :=
  condition ← call_ (Cpoll_out fd);
  if bool_decide (condition = G_IO_HUP) then mret false
  else
    let len := g_utf8_strlen msg_to_send (-1) in
    status ← call_ (Cwrite_chars fd (be_bytes 4 len +:+ be_bytes 4 0));
    if bool_decide (status = G_IO_STATUS_ERROR) then mret false
    else
      status ← call_ (Cwrite_chars fd (str_take (Z.to_nat len) msg_to_send));
      if bool_decide (status = G_IO_STATUS_ERROR) then mret false
      else
        status ← call_ (Cflush fd);
        mret (negb (bool_decide (status = G_IO_STATUS_ERROR))).

(** [None] when the response could not be checked. *)
Definition cc_proxy_hyper_check_response (response : string) : option bool :=
  match json_parser_load_from_data response with
  | None => None
  | Some root => json_get_boolean <$> json_read_member root "success"
  end.

(** The result, the message received and the descriptor received. *)
Definition cc_proxy_run_cmd (proxy : cc_proxy) (msg_to_send : string) (want : bool)
    : io (bool * string * option Z) :=
  match socket proxy with
  | None => mret (false, EmptyString, None)
  | Some fd =>
      registered ← cc_proxy_msg_write fd msg_to_send;
      if negb registered then Halt Blocked
      else
        '(w, msg, oob_fd) ← cc_proxy_msg_read fd want None EmptyString;
        '(w, msg, oob_fd) ←
          (match w with
           | WContinue => cc_proxy_msg_read fd want oob_fd msg
           | _ => mret (w, msg, oob_fd)
           end);
        match w with
        | WQuit =>
            match cc_proxy_hyper_check_response msg with
            | None => mret (false, msg, oob_fd)
            | Some hyper_result => mret (hyper_result, msg, oob_fd)
            end
        | _ => Halt Blocked
        end
  end.

(** ** Requests *)

(** The JSON text of a request. *)
Definition request (id : string) (data : list (string * json)) : string :=
  json_generator_to_data (JObject [("id", JString id); ("data", JObject data)]) false.

Definition cc_proxy_cmd_hello (proxy : cc_proxy) (container_id : cstr) : io bool :=
  match socket proxy, container_id with
  | Some _, Some id =>
      '(ret, _, _) ← cc_proxy_run_cmd proxy
        (request "hello"
           [("containerId", JString id);
            ("ctlSerial", json_of_cstr (agent_ctl_socket proxy));
            ("ioSerial", json_of_cstr (agent_tty_socket proxy));
            ("console", json_of_cstr (vm_console_socket proxy))]) false;
      mret ret
  | _, _ => mret false
  end.

Definition cc_proxy_attach (proxy : cc_proxy) (container_id : cstr) : io bool :=
  match socket proxy, container_id with
  | Some _, Some id =>
      '(ret, _, _) ← cc_proxy_run_cmd proxy (request "attach" [("containerId", JString id)]) false;
      mret ret
  | _, _ => mret false
  end.

(** The connection is left open. *)
Definition cc_proxy_cmd_bye (proxy : cc_proxy) (container_id : cstr) : io (bool * cc_proxy) :=
  match container_id with
  | None => mret (false, proxy)
  | Some id =>
      '(ok, proxy) ← cc_proxy_connect proxy;
      if negb (ok : bool) then mret (false, proxy)
      else
        '(ret, _, _) ← cc_proxy_run_cmd proxy (request "bye" [("containerId", JString id)]) false;
        mret (ret, proxy)
  end.

(** Result, the I/O descriptor received, and the base of the sequence numbers. *)
Definition cc_proxy_cmd_allocate_io (proxy : cc_proxy) (tty : bool) : io (bool * option Z * option Z) :=
  '(ok, msg, fd) ← cc_proxy_run_cmd proxy
    (request "allocateIO" [("nStreams", JInt (if tty then 1 else IO_STREAMS_NUMBER))]) true;
  if negb (ok : bool) then mret (false, fd, None)
  else
    match json_parser_load_from_data msg with
    | None => mret (false, fd, None)
    | Some root =>
        match json_read_member root "data" with
        | None => mret (false, fd, None)
        | Some data =>
            match json_read_member (Some data) "ioBase" with
            | None => mret (false, fd, None)
            | Some n => mret (true, fd, Some (s32 (json_get_int n)))
            end
        end
    end.

(** A monitor that cannot be created makes the function return true. *)
Definition cc_proxy_wait_until_ready (config : cc_oci_config) : io bool :=
  match proxy config with
  | None => mret false
  | Some p =>
      match agent_ctl_socket p with
      | None => mret false
      | Some ctl =>
          let hello := cc_proxy_cmd_hello p (optarg_container_id config) in
          st ← call_ (Cstat ctl);
          match st with
          | Some _ => hello
          | None =>
              monitor ← call_ (Cfile_monitor ctl);
              if bool_decide (monitor < 0) then mret true
              else
                st ← call_ (Cstat ctl);
                match st with
                | Some _ => hello
                | None => _ ← call_ (Cwait_changed ctl); hello
                end
          end
      end
  end.

Definition cc_proxy_run_hyper_cmd (config : cc_oci_config) (cmd : string) (payload : list (string * json))
    : io bool :=
  match proxy config with
  | None => mret false
  | Some p =>
      '(ret, _, _) ← cc_proxy_run_cmd p
        (request "hyper" [("hyperName", JString cmd); ("data", JObject payload)]) false;
      mret ret
  end.

Definition ipv4_to_json (c : cc_oci_net_ipv4_cfg) : json :=
  JObject [("ipAddress", json_of_cstr (ip_address c)); ("netMask", json_of_cstr (subnet_mask c))].

Definition iface_to_json (i : nat) (c : cc_oci_net_if_cfg) : json :=
  JObject [("device", JString (get_pcie_ifname (Z.of_nat i)));
           ("newDeviceName", json_of_cstr (ifname c));
           ("ipAddresses", JArray (ipv4_to_json <$> ipv4_addrs c))].

Definition route_to_json (r : cc_oci_net_ipv4_route) : option json :=
  match rt_dest r with
  | None => None
  | Some d =>
      Some (JObject ([("dest", JString d)]
                     ++ match rt_gateway r with Some g => [("gateway", JString g)] | None => [] end
                     ++ match rt_ifname r with Some i => [("device", JString i)] | None => [] end))
  end.

Definition startpod_payload (hostname : string) (n : cc_oci_net_cfg) : list (string * json) :=
  [("hostname", JString hostname); ("containers", JArray []); ("shareDir", JString "rootfs");
   ("interfaces", JArray (imap iface_to_json (interfaces n)));
   ("routes", JArray (omap route_to_json (routes n)))].

Definition cc_proxy_hyper_pod_create (config : cc_oci_config) : io bool :=
  match proxy config, net_hostname (net config) with
  | Some _, Some h => cc_proxy_run_hyper_cmd config "startpod" (startpod_payload h (net config))
  | _, _ => mret false
  end.

(** ** src/src/oci.c: the HOME variable *)

Definition get_user_home_dir (config : cc_oci_config) (passwd_path : string) : io cstr :=
  entries ← call_ (Cpasswd passwd_path);
  match entries with
  | None => mret None
  | Some l =>
      mret (pw_dir <$> List.find (fun e => bool_decide (pw_uid e = uid (user (process (oci config))))) l)
  end.

Definition set_env_home (config : cc_oci_config) : io cc_oci_config :=
  let pr := process (oci config) in
  match env pr with
  | None => mret config
  | Some vars =>
      if existsb (fun v => g_str_has_prefix v "HOME=") vars then mret config
      else
        let root := root_path (root (oci config)) in
        home ← get_user_home_dir config (root +:+ "/" +:+ PASSWD_PATH);
        home ← (match home with
                | Some h => mret h
                | None =>
                    h ← get_user_home_dir config (root +:+ "/" +:+ STATELESS_PASSWD_PATH);
                    mret (default "/" h)
                end);
        mret (set_oci (set_process (set_env (Some (("HOME=" +:+ home) :: vars)) pr) (oci config)) config)
  end.

(** ** Containers *)

(** [KEY=VALUE] as the object sent; [None] without an equal sign. *)
Definition env_to_json (var : string) : option json :=
  match g_strstr_len var (-1) "=" with
  | None => None
  | Some i => Some (JObject [("value", JString (str_drop (S i) var)); ("env", JString (str_take i var))])
  end.

Fixpoint envs_to_json (vars : list string) : option (list json) :=
  match vars with
  | [] => Some []
  | v :: vars =>
      match env_to_json v with
      | None => None
      | Some j => cons j <$> envs_to_json vars
      end
  end.

Definition newcontainer_payload (container_id rootfs image : cstr) (p : oci_cfg_process) (envs : list json)
    : list (string * json) :=
  [("id", json_of_cstr container_id); ("rootfs", json_of_cstr rootfs); ("image", json_of_cstr image);
   ("restartPolicy", JString "never"); ("initialize", JBool false);
   ("process", JObject
      [("terminal", JBool (terminal p)); ("stdio", JInt (stdio_stream p)); ("stderr", JInt (stderr_stream p));
       ("workdir", JString (cwd p)); ("args", JArray (JString <$> default [] (args p)));
       ("envs", JArray envs)])].

Definition cc_proxy_run_hyper_new_container (config : cc_oci_config) (container_id rootfs image : cstr)
    : io (bool * cc_oci_config) :=
  config ← set_env_home config;
  let p := process (oci config) in
  match envs_to_json (default [] (env p)) with
  | None => mret (false, config)
  | Some envs =>
      ret ← cc_proxy_run_hyper_cmd config "newcontainer"
              (newcontainer_payload container_id rootfs image p envs);
      mret (ret, config)
  end.

(** Disconnect [config->proxy], keeping [ret]. *)
Definition and_disconnect (ret : bool) (config : cc_oci_config) : io (bool * cc_oci_config) :=
  match proxy config with
  | None => mret (ret, config)
  | Some p => '(_, p) ← cc_proxy_disconnect p; mret (ret, set_proxy (Some p) config)
  end.

Definition cc_proxy_hyper_new_pod_container (config : cc_oci_config)
    (container_id pod_id rootfs image : cstr) : io (bool * cc_oci_config) :=
  match proxy config with
  | None => mret (false, config)
  | Some p =>
      '(ok, p) ← cc_proxy_connect p;
      let config := set_proxy (Some p) config in
      if negb (ok : bool) then and_disconnect false config
      else
        ok ← cc_proxy_attach p pod_id;
        if negb ok then and_disconnect false config
        else
          let pr := process (oci config) in
          if bool_decide (stdio_stream pr < 0 \/ stderr_stream pr < 0) then and_disconnect false config
          else
            '(ok, config) ← cc_proxy_run_hyper_new_container config container_id rootfs image;
            and_disconnect ok config
  end.

Definition cc_proxy_hyper_new_container (config : cc_oci_config) : io (bool * cc_oci_config) :=
  cc_proxy_hyper_new_pod_container config (optarg_container_id config) (optarg_container_id config)
    (Some EmptyString) (Some EmptyString).

(** A failed attach leaves the connection open. *)
Definition cc_proxy_hyper_kill_container (config : cc_oci_config) (signum : Z) : io (bool * cc_oci_config) :=
  match proxy config, cc_pod_container_id config with
  | Some p, Some container_id =>
      '(ok, p) ← cc_proxy_connect p;
      let config := set_proxy (Some p) config in
      if negb (ok : bool) then mret (false, config)
      else
        ok ← cc_proxy_attach p (Some container_id);
        if negb ok then mret (false, config)
        else
          ret ← cc_proxy_run_hyper_cmd config "killcontainer"
                  [("container", json_of_cstr (optarg_container_id config)); ("signal", JString (fmt_d signum))];
          and_disconnect ret config
  | _, _ => mret (false, config)
  end.

Definition cc_proxy_hyper_destroy_pod (config : cc_oci_config) : io (bool * cc_oci_config) :=
  match proxy config with
  | None => mret (false, config)
  | Some p =>
      '(ok, p) ← cc_proxy_connect p;
      let config := set_proxy (Some p) config in
      if negb (ok : bool) then mret (false, config)
      else
        ok ← cc_proxy_attach p (optarg_container_id config);
        if negb ok then mret (false, config)
        else
          ret ← cc_proxy_run_hyper_cmd config "destroypod" [];
          and_disconnect ret config
  end.

Definition execcmd_payload (container_id : cstr) (p : oci_cfg_process) (envs : list json)
    : list (string * json) :=
  [("container", json_of_cstr container_id);
   ("process", JObject
      ([("terminal", JBool (terminal p)); ("stdio", JInt (stdio_stream p)); ("stderr", JInt (stderr_stream p))]
       ++ (if str_nonempty (cwd p) then [("workdir", JString (cwd p))] else [])
       ++ [("args", JArray (JString <$> default [] (args p))); ("envs", JArray envs)]))].

Definition cc_proxy_hyper_exec_command (config : cc_oci_config) : io (bool * cc_oci_config) :=
  match proxy config with
  | None => mret (false, config)
  | Some _ =>
      let pr := process (oci config) in
      if bool_decide (stdio_stream pr < 0 \/ stderr_stream pr < 0) then mret (false, config)
      else
        config ← set_env_home config;
        let pr := process (oci config) in
        match envs_to_json (default [] (env pr)) with
        | None => mret (false, config)
        | Some envs =>
            ret ← cc_proxy_run_hyper_cmd config "execcmd" (execcmd_payload (optarg_container_id config) pr envs);
            mret (ret, config)
        end
  end.

End proxy.

(** ** Receiving *)

(** A socket that gives the replies of a list, then nothing more to read. *)
Definition recv_script : handler (list recv_reply) := fun c w =>
  match c return reply c * list recv_reply with
  | Crecvmsg _ => match w with [] => (RecvErr EAGAIN, []) | r :: w => (r, w) end
  | c => (fail_reply c, w)
  end.

Definition recv_bytes1 (r : recv_reply) : string :=
  match r with RecvErr _ => EmptyString | RecvData d _ => d end.

Fixpoint recv_bytes (l : list recv_reply) : string :=
  match l with [] => EmptyString | r :: l => recv_bytes1 r +:+ recv_bytes l end.

(** Data, or nothing to read yet. *)
Definition no_error (r : recv_reply) : Prop :=
  match r with RecvErr e => e = EAGAIN | RecvData _ _ => True end.

Lemma run_recv_rest fuel fd need total acc l :
  (length l < fuel)%nat -> Forall no_error l ->
  total + Z.of_nat (String.length (recv_bytes l)) = need ->
  exists l', run recv_script (recv_rest fuel fd need total acc) l = (Done (acc +:+ recv_bytes l), l').
Proof.
  revert total acc l. induction fuel as [|fuel IH]; intros total acc l Hf Hl Hn; [lia|].
  destruct l as [|r l].
  - eexists. cbn. cbn in Hn. rewrite bool_decide_false by lia. by rewrite str_app_nil_r.
  - apply Forall_cons in Hl as [Hr Hl]. cbn in Hf, Hn. rewrite str_length_app in Hn.
    destruct r as [e|d c]; cbn [recv_rest]; run_call v w' E; cbn in E; injection E as <- <-.
    + cbn in Hr. subst e. change (recv_bytes (RecvErr EAGAIN :: l)) with (recv_bytes l). destruct (decide (total < need)).
      * rewrite bool_decide_true by done. apply IH; [lia|done|]. cbn in Hn. lia.
      * rewrite bool_decide_false by tauto. eexists. cbn [run mret io_mret].
        destruct (recv_bytes l) as [|c s]; cbn in Hn; [by rewrite str_app_nil_r|lia].
    + destruct (IH (total + Z.of_nat (String.length d)) (acc +:+ d) l) as [l' ->]; [lia|done|..].
      * cbn in Hn. lia.
      * exists l'. cbn. by rewrite str_app_assoc.
Qed.

Section receive.
Context `{GL : GLib} `{RF : RecvFuel}.

(** However the bytes of a message of the proxy are cut into reads, with reads
    that find nothing in between, the runtime receives exactly its payload
    and ends the main loop, provided the first read has the whole header. *)
Lemma msg_read_frame (fd : Z) (oob : option Z) (m d : string) (c : option Z) (l : list recv_reply) :
  Z.of_nat (String.length m) < 2 ^ 32 -> (8 <= String.length d)%nat ->
  d +:+ recv_bytes l = frame m -> Forall no_error l -> (length l < recv_fuel)%nat ->
  exists l', run recv_script (cc_proxy_msg_read fd false oob EmptyString) (RecvData d c :: l)
             = (Done (WQuit, m, oob), l').
Proof.
  intros Hm Hd E Hl Hf. destruct (frame_head _ _ _ Hm Hd E) as [Hlen Hdrop].
  unfold cc_proxy_msg_read. run_call v w' Er. cbn in Er. injection Er as <- <-.
  destruct d as [|c0 d'] eqn:Ed; [cbn in Hd; lia|]. rewrite <- Ed in *. cbn [andb].
  rewrite big_endian_32_buf, Hlen by lia.
  assert (String.length d + String.length (recv_bytes l) = 8 + String.length m)%nat as Htot
    by (rewrite <- str_length_app, E; apply frame_length).
  unfold MESSAGE_HEADER_LENGTH. case_bool_decide as Hc.
  - exists l. cbn [run mret io_mret]. destruct (recv_bytes l) as [|x s]; [|cbn in Htot; lia].
    rewrite str_app_nil_r in Hdrop. by rewrite str_app_nil_l, Hdrop.
  - rewrite run_bind. edestruct run_recv_rest as [l' ->]; [exact Hf|exact Hl|lia|].
    exists l'. cbn [run mret io_mret]. by rewrite str_app_nil_l, Hdrop.
Qed.
End receive.

(** A first read that ends inside the header corrupts the message: the rest
    of the header becomes part of the payload. *)
Example short_header_corrupts :
  fst (run recv_script (cc_proxy_msg_read (RF := 9%nat) 5 false None EmptyString)
         [RecvData (str_take 4 (frame "{}")) None; RecvErr EAGAIN; RecvData (str_drop 4 (frame "{}")) None])
    = Done (WQuit, be_bytes 4 0 +:+ "{}", None) /\
  fst (run recv_script (cc_proxy_msg_read (RF := 9%nat) 5 false None EmptyString)
         [RecvData (frame "{}") None]) = Done (WQuit, "{}", None).
Proof. split; vm_compute; reflexivity. Qed.

Lemma msg_read_frame_witness :
  exists l', run recv_script (cc_proxy_msg_read (RF := 9%nat) 5 false None EmptyString)
    [RecvData (str_take 9 (frame "{}")) None; RecvErr EAGAIN; RecvData "}" None] = (Done (WQuit, "{}", None), l').
Proof.
  apply (msg_read_frame (RF := 9%nat) 5 None "{}" (str_take 9 (frame "{}")) None [RecvErr EAGAIN; RecvData "}" None]).
  - reflexivity.
  - vm_compute. lia.
  - vm_compute. reflexivity.
  - repeat constructor.
  - unfold recv_fuel. simpl. lia.
Defined.

(** ** Sending *)

(** What happens on proxy sockets. *)
Inductive sock_event := SOpen (fd : Z) | SWrite (s : string) | SClose (fd : Z).

Definition sock (e : event) : option sock_event :=
  match e with
  | Ev Csocket_new v => if bool_decide (v < 0) then None else Some (SOpen v)
  | Ev (Cwrite_chars _ s) _ => Some (SWrite s)
  | Ev (Cg_socket_close fd) _ => Some (SClose fd)
  | _ => None
  end.

Section send.
Context `{GL : GLib} `{BD : Build} `{SP : StartPaths} `{RF : RecvFuel}.

(** The two writes for a message. *)
Definition wire (m : string) : list string :=
  let len := g_utf8_strlen m (-1) in
  [be_bytes 4 len +:+ be_bytes 4 0; str_take (Z.to_nat len) m].

Lemma safe_recv_rest fuel fd need total acc :
  safe (fun e => sock e = None) (recv_rest fuel fd need total acc).
Proof.
  revert total acc. induction fuel as [|fuel IH]; intros total acc; cbn [recv_rest]; [apply safe_halt|].
  solve_safe done. all: apply IH.
Qed.

Lemma safe_msg_read fd want oob acc : safe (fun e => sock e = None) (cc_proxy_msg_read fd want oob acc).
Proof. pose proof safe_recv_rest. unfold cc_proxy_msg_read. solve_safe done. Qed.

(** A request that returns has written its message, and nothing else. *)
Lemma wp_run_cmd p m want fd :
  socket p = Some fd ->
  wp (cc_proxy_run_cmd p m want)
    (fun tr o => match o with Done _ => tr_map sock tr = SWrite <$> wire m | Fault _ => True end).
Proof.
  intros Hs. unfold cc_proxy_run_cmd. rewrite Hs. unfold cc_proxy_msg_write.
  apply wp_bind. wp_step. intros cond. case_bool_decide; [done|]. wp_step. intros s1.
  case_bool_decide; [done|]. wp_step. intros s2. case_bool_decide; [done|]. wp_step. intros s3. apply wp_ret.
  case_bool_decide; [done|]. cbn [negb]. apply wp_bind.
  eapply wp_mono; [apply safe_msg_read|]. intros tr1 [[[w msg] oob]|?] Hq1; [|done].
  apply wp_bind. eapply (wp_mono _ (fun tr _ => Forall (fun e => sock e = None) tr)).
  { destruct w; [apply safe_msg_read|constructor..]. }
  intros tr2 [[[w' msg'] oob']|?] Hq2; [|done]. destruct w'; [done..|].
  cbn. destruct (cc_proxy_hyper_check_response msg'); cbn;
    rewrite !tr_map_app, (tr_map_quiet _ _ Hq1), (tr_map_quiet _ _ Hq2); done.
Qed.

(** A request made of ASCII characters is written as a length-prefixed message:
    the bytes sent for it are its frame. *)
Lemma run_cmd_sends_frame (p : cc_proxy) (m : string) (want : bool) (fd : Z) (tr : list event)
    (r : bool * string * option Z) :
  socket p = Some fd -> is_ascii m -> Z.of_nat (String.length m) < 2 ^ 32 ->
  exec (cc_proxy_run_cmd p m want) tr (Done r) ->
  exists s1 s2, tr_map sock tr = [SWrite s1; SWrite s2] /\ s1 +:+ s2 = frame m.
Proof.
  intros Hs Ha Hm He. pose proof (proj1 (wp_exec _ _) (wp_run_cmd p m want fd Hs) _ _ He) as Ht.
  cbn beta iota in Ht. rewrite Ht. unfold wire. rewrite g_utf8_strlen_ascii by (done || lia).
  rewrite Nat2Z.id, str_take_all by done. eexists _, _. split; [done|]. unfold frame. by rewrite str_app_assoc.
Qed.

(** ** Sessions *)

Lemma wp_connect p :
  socket p = None ->
  wp (cc_proxy_connect p)
    (fun tr o => match o with
     | Done (b, p') =>
         (exists fd, tr_map sock tr = [SOpen fd] /\ p' = set_socket (Some fd) p) \/
         (b = false /\ p' = p /\ (tr_map sock tr = [] \/ exists fd, tr_map sock tr = [SOpen fd; SClose fd]))
     | Fault _ => False
     end).
Proof.
  intros Hs. unfold cc_proxy_connect, cc_proxy_connected. rewrite bool_decide_false by (rewrite Hs; by intros []).
  wp_step. intros addr. case_bool_decide; [apply wp_ret; right; auto|]. wp_step. intros fd.
  case_bool_decide as Hfd; [apply wp_ret; right; cbn; rewrite bool_decide_true by done; auto|].
  apply wp_bind. eapply (wp_mono _ (fun tr o => tr_map sock tr = [] /\
    match o with Done _ => True | Fault _ => False end)).
  { unfold cc_oci_fd_toggle_cloexec. repeat (case_match || wp_step || intros ? || apply wp_ret || split); done. }
  intros tr [ret|?] [Ht ?]; [|done]. destruct ret; cbn [negb].
  - wp_step. intros r. case_bool_decide.
    + wp_step. intros r'. apply wp_ret. right. cbn. rewrite bool_decide_false by done.
      rewrite tr_map_app, Ht. cbn. split_and!; [done| |eauto]. destruct p. cbn in Hs. by subst.
    + apply wp_ret. left. exists fd. cbn. rewrite bool_decide_false by done. by rewrite tr_map_app, Ht.
  - apply wp_ret. left. exists fd. cbn. rewrite bool_decide_false by done. by rewrite tr_map_app, Ht.
Qed.

Lemma wp_attach p fd id :
  socket p = Some fd ->
  wp (cc_proxy_attach p id)
    (fun tr o => match o with
     | Done b => exists ws, tr_map sock tr = SWrite <$> ws /\
         (b = true -> exists i, id = Some i /\ ws = wire (request "attach" [("containerId", JString i)]))
     | Fault _ => True
     end).
Proof.
  intros Hs. unfold cc_proxy_attach. rewrite Hs. destruct id as [i|]; [|apply wp_ret; by exists []].
  apply wp_bind. eapply wp_mono; [by apply (wp_run_cmd _ _ _ fd)|]. intros tr [[[b msg] oob]|?] H; [|done].
  apply wp_ret. rewrite app_nil_r. eauto.
Qed.

Lemma wp_run_hyper_cmd config p fd cmd payload :
  proxy config = Some p -> socket p = Some fd ->
  wp (cc_proxy_run_hyper_cmd config cmd payload)
    (fun tr o => match o with
     | Done b => tr_map sock tr =
         SWrite <$> wire (request "hyper" [("hyperName", JString cmd); ("data", JObject payload)])
     | Fault _ => True
     end).
Proof.
  intros Hp Hs. unfold cc_proxy_run_hyper_cmd. rewrite Hp. apply wp_bind.
  eapply wp_mono; [by apply (wp_run_cmd _ _ _ fd)|]. intros tr [[[b msg] oob]|?] H; [|done].
  apply wp_ret. by rewrite app_nil_r.
Qed.

Lemma wp_and_disconnect b config p fd :
  proxy config = Some p -> socket p = Some fd ->
  wp (and_disconnect b config)
    (fun tr o => tr_map sock tr = [SClose fd] /\
                 o = Done (b, set_proxy (Some (set_socket None p)) config)).
Proof. intros Hp Hs. unfold and_disconnect, cc_proxy_disconnect. rewrite Hp, Hs. by intros r. Qed.

Lemma wp_and_disconnect_none b config p :
  proxy config = Some p -> socket p = None ->
  wp (and_disconnect b config) (fun tr o => tr_map sock tr = [] /\ o = Done (b, config)).
Proof.
  intros Hp Hs. unfold and_disconnect, cc_proxy_disconnect. rewrite Hp, Hs. split; [done|].
  destruct config. cbn in *. by subst.
Qed.

Lemma restore_proxy config p fd :
  proxy config = Some p -> socket p = None ->
  set_proxy (Some (set_socket None (set_socket (Some fd) p))) (set_proxy (Some (set_socket (Some fd) p)) config)
    = config.
Proof. intros Hp Hs. destruct config, p. cbn in *. by subst. Qed.


Lemma safe_user_home config path : safe (fun e => sock e = None) (get_user_home_dir config path).
Proof. unfold get_user_home_dir. solve_safe done. Qed.

(** The environment with HOME, and nothing else, added in front if no variable sets it. *)
Definition home_added (vars vars' : list string) : Prop :=
  (exists v, v ∈ vars /\ String.prefix "HOME=" v = true /\ vars' = vars) \/
  (Forall (fun v => String.prefix "HOME=" v = false) vars /\ exists h, vars' = ("HOME=" +:+ h) :: vars).

Definition with_env (e : strv) (config : cc_oci_config) : cc_oci_config :=
  set_oci (set_process (set_env e (process (oci config))) (oci config)) config.

Lemma wp_set_env_home config :
  wp (set_env_home config)
    (fun tr o => tr_map sock tr = [] /\
       exists c, o = Done c /\
         match env (process (oci config)) with
         | None => c = config
         | Some vars => exists vars', c = with_env (Some vars') config /\ home_added vars vars'
         end).
Proof.
  unfold set_env_home. destruct (env (process (oci config))) as [vars|] eqn:Ee; [|by split; [|eexists]].
  destruct (existsb _ vars) eqn:Eh.
  - split; [done|]. eexists. split; [done|]. exists vars. split.
    + unfold with_env. destruct config as [[? ? ? ? ? ? ? []] ? ? ? ? ? ? ? ? ? ? ? ?]. cbn in *. by subst.
    + left. apply existsb_exists in Eh as (v & Hv & Hh). rewrite g_str_has_prefix_spec in Hh.
      exists v. by rewrite list_elem_of_In.
  - apply wp_bind. eapply (wp_mono _ (fun tr o => tr_map sock tr = [] /\ exists h, o = Done h)).
    { unfold get_user_home_dir. wp_step. intros [l|]; apply wp_ret; cbn; eauto. }
    intros tr ? [Ht [h ->]]. apply wp_bind.
    eapply (wp_mono _ (fun tr o => tr_map sock tr = [] /\ exists h : string, o = Done h)).
    { destruct h; [apply wp_ret; eauto|]. apply wp_bind. unfold get_user_home_dir. wp_step.
      intros [l|]; apply wp_ret; apply wp_ret; cbn; eauto. }
    intros tr' ? [Ht' [h' ->]]. apply wp_ret. rewrite !tr_map_app, Ht, Ht'. split; [done|].
    eexists. split; [done|]. eexists. split; [done|]. right. split; [|eauto]. apply Forall_forall. intros v Hv.
    apply not_true_iff_false. intros Hp. apply not_true_iff_false in Eh. apply Eh. apply existsb_exists.
    exists v. by rewrite <- list_elem_of_In, g_str_has_prefix_spec.
Qed.

Lemma wp_run_hyper_new_container config p fd id rootfs image :
  proxy config = Some p -> socket p = Some fd ->
  wp (cc_proxy_run_hyper_new_container config id rootfs image)
    (fun tr o => match o with
     | Done (b, c) => proxy c = Some p /\ exists ws, tr_map sock tr = SWrite <$> ws
     | Fault _ => True
     end).
Proof.
  intros Hp Hs. unfold cc_proxy_run_hyper_new_container. apply wp_bind.
  eapply wp_mono; [apply wp_set_env_home|]. intros tr o [Ht (c & -> & Hc)].
  assert (proxy c = Some p) as Hpc.
  { destruct (env _); [|by subst]. destruct Hc as (? & -> & _). done. }
  destruct (envs_to_json _) as [envs|]; [|apply wp_ret; rewrite app_nil_r, Ht; split; [done|by exists []]].
  apply wp_bind. eapply wp_mono; [by eapply wp_run_hyper_cmd|]. intros tr1 [b|?] Ht1; [|done].
  apply wp_ret. rewrite !tr_map_app, Ht, Ht1. cbn. split; [done|]. eexists (_ :: [_]). done.
Qed.

(** Returning disconnected, with at most one socket opened, and closed last. *)
Definition session_closed {A} (p : cc_proxy) (tr : list event) (o : outcome (A * cc_oci_config)) : Prop :=
  match o with
  | Done (_, c) =>
      proxy c = Some p /\
      (tr_map sock tr = [] \/ exists fd ws, tr_map sock tr = SOpen fd :: (SWrite <$> ws) ++ [SClose fd])
  | Fault _ => True
  end.

Lemma wp_session_end fd ws b c p tr :
  socket p = None -> proxy c = Some (set_socket (Some fd) p) -> tr_map sock tr = SOpen fd :: (SWrite <$> ws) ->
  wp (and_disconnect b c) (fun tr' o => session_closed p (tr ++ tr') o).
Proof.
  intros Hs Hp Ht. eapply wp_mono; [by eapply wp_and_disconnect|]. intros tr' o [Ht' ->]. cbn.
  rewrite tr_map_app, Ht, Ht'. cbn. split; [|eauto]. destruct p as [s ? ? ?]. cbn in Hs. by subst s.
Qed.

(** Starting a container never leaks the connection: in every execution that
    returns, successful or not, the runtime ends disconnected, and the
    socket it opened, if any, is the one it closed, last. *)
Theorem new_pod_container_disconnects (config : cc_oci_config) (p : cc_proxy)
    (id pod_id rootfs image : cstr) (tr : list event) (o : outcome (bool * cc_oci_config)) :
  proxy config = Some p -> socket p = None ->
  exec (cc_proxy_hyper_new_pod_container config id pod_id rootfs image) tr o ->
  session_closed p tr o.
Proof.
  intros Hp Hs. revert tr o. apply wp_exec.
  unfold cc_proxy_hyper_new_pod_container. rewrite Hp. apply wp_bind.
  eapply wp_mono; [by apply wp_connect|]. intros tr0 [[b0 p']|?] Hc; [|done].
  destruct Hc as [(fd & Ht0 & ->)|(-> & -> & Ht0)]; cbn [negb].
  2:{ eapply wp_mono; [by eapply wp_and_disconnect_none|]. intros tr1 o [Ht1 ->]. cbn.
      rewrite tr_map_app, Ht1, app_nil_r. split; [done|]. destruct Ht0 as [->|[fd ->]]; [by left|right].
      by exists fd, []. }
  destruct b0; cbn [negb]; [|by apply (wp_session_end fd [])].
  apply wp_bind. eapply wp_mono; [by eapply wp_attach|]. intros tr1 [b1|?] Ha; [|done].
  destruct Ha as (ws1 & Ht1 & _).
  assert (tr_map sock (tr0 ++ tr1) = SOpen fd :: (SWrite <$> ws1)) as Ht01 by by rewrite tr_map_app, Ht0, Ht1.
  assert (forall b c, proxy c = Some (set_socket (Some fd) p) ->
    wp (and_disconnect b c) (fun tr' o => session_closed p (tr0 ++ tr1 ++ tr') o)) as Hend.
  { intros b c Hc. eapply wp_mono; [by apply (wp_session_end fd ws1 b c p (tr0 ++ tr1))|].
    intros tr' o. by rewrite app_assoc. }
  destruct b1; cbn [negb]; [|by apply Hend]. case_bool_decide; [by apply Hend|].
  apply wp_bind. eapply wp_mono; [by eapply wp_run_hyper_new_container|].
  intros tr2 [[b2 c2]|?]; [|done]. intros (Hc2 & ws2 & Ht2).
  eapply wp_mono; [apply (wp_session_end fd (ws1 ++ ws2) b2 c2 p (tr0 ++ tr1 ++ tr2)); [done..|]|].
  - by rewrite app_assoc, tr_map_app, Ht01, Ht2, fmap_app.
  - intros tr' o. cbn beta. by rewrite <- !app_assoc.
Qed.
End send.

(** ** Environment variables *)

Section environment.
Context `{GL : GLib} `{BD : Build} `{SP : StartPaths} `{RF : RecvFuel}.

(** The object that carries the variable [k] with value [x]. *)
Definition env_object (k x : string) : json := JObject [("value", JString x); ("env", JString k)].

Lemma str_drop_after c k x : str_drop (S (String.length k)) (k +:+ String c x) = x.
Proof. by induction k. Qed.

(** One variable: accepted exactly when it has an equal sign, and split at the first. *)
Lemma env_to_json_iff v j :
  env_to_json v = Some j <->
  exists k x, v = k +:+ String "=" x /\ str_free "=" k /\ j = env_object k x.
Proof.
  unfold env_to_json. rewrite g_strstr_len_spec. pose proof (strstr_split "=" v) as H. split.
  - destruct (strstr v _) as [i|]; [|done]. destruct H as (k & x & -> & Hk & ->). rewrite str_take_app, str_drop_after.
    intros [= <-]. by exists k, x.
  - intros (k & x & -> & Hk & ->). by rewrite strstr_first, str_take_app, str_drop_after by done.
Qed.

Lemma envs_to_json_iff vars js :
  envs_to_json vars = Some js <-> Forall2 (fun v j => env_to_json v = Some j) vars js.
Proof.
  revert js. induction vars as [|v vars IH]; intros js; cbn [envs_to_json].
  - split; [intros [= <-]; constructor|]. by inversion 1.
  - split.
    + destruct (env_to_json v) eqn:E; [|done]. destruct (envs_to_json vars) eqn:E'; [|done].
      intros [= <-]. constructor; [done|]. by apply IH.
    + inversion 1 as [|? j ? js' Hv Hvs]; subst. rewrite Hv. apply IH in Hvs. by rewrite Hvs.
Qed.

Lemma envs_to_json_split vars js :
  envs_to_json vars = Some js ->
  exists kvs, vars = (fun kv => fst kv +:+ String "=" (snd kv)) <$> kvs /\
    Forall (fun kv => str_free "=" (fst kv)) kvs /\ js = (fun kv => env_object (fst kv) (snd kv)) <$> kvs.
Proof.
  intros H%envs_to_json_iff. induction H as [|v j vs js Hj _ (kvs & -> & Hk & ->)]; [by exists []|].
  apply env_to_json_iff in Hj as (k & x & -> & Hf & ->). exists ((k, x) :: kvs). split_and!; [done| |done]. by constructor.
Qed.

(** The environment a new container gets.  When the request is accepted, the
    message sent carries one name and one value for each variable, which
    put together give it back, and no name contains an equal sign; the
    variables are those of the configuration, with HOME added in front when
    none of them sets it. *)
Theorem new_container_environment (config config' : cc_oci_config) (p : cc_proxy) (fd : Z)
    (id rootfs image : cstr) (vars : list string) (tr : list event) :
  proxy config = Some p -> socket p = Some fd -> env (process (oci config)) = Some vars ->
  exec (cc_proxy_run_hyper_new_container config id rootfs image) tr (Done (true, config')) ->
  exists vars' kvs,
    home_added vars vars' /\ config' = with_env (Some vars') config /\
    vars' = (fun kv => fst kv +:+ String "=" (snd kv)) <$> kvs /\
    Forall (fun kv => str_free "=" (fst kv)) kvs /\
    tr_map sock tr =
      SWrite <$> wire (request "hyper"
        [("hyperName", JString "newcontainer");
         ("data", JObject (newcontainer_payload id rootfs image (process (oci config'))
                             ((fun kv => env_object (fst kv) (snd kv)) <$> kvs)))]).
Proof.
  intros Hp Hs Hv. exec_to_wp.
  unfold cc_proxy_run_hyper_new_container. apply wp_bind. eapply wp_mono; [apply wp_set_env_home|].
  intros tr0 o [Ht0 (c & -> & Hc)]. rewrite Hv in Hc. destruct Hc as (vars' & -> & Hh).
  destruct (envs_to_json _) as [js|] eqn:Ej; [|by apply wp_ret].
  apply wp_bind. eapply wp_mono; [by eapply wp_run_hyper_cmd|]. intros tr1 [b|?] Ht1; [|done].
  apply wp_ret. cbn in Ej. intros [= -> <-]. exists vars'.
  destruct (envs_to_json_split _ _ Ej) as (kvs & -> & Hk & ->).
  exists kvs. split_and!; [done..|]. rewrite !tr_map_app, Ht0, Ht1. done.
Qed.
End environment.

(** ** Witnesses *)

(** A proxy that accepts every request. *)
Definition accepting : handler unit := fun c w =>
  match c return reply c * unit with
  | Csocket_new => (5, w)
  | Cg_unix_socket_address_new _ | Cfcntl_getfd _ | Cfcntl_setfd _ _ | Cconnect _ _ | Cg_socket_close _ => (0, w)
  | Cpoll_out _ => (4, w)
  | Cwrite_chars _ _ | Cflush _ => (1, w)
  | Crecvmsg _ =>
      (RecvData (frame (json_generator_to_data (GLib := glib_ref) (JObject [("success", JBool true)]) false)) None, w)
  | Cpasswd _ => (Some [Passwd 0 "/root"], w)
  | c => (fail_reply c, w)
  end.

#[local] Existing Instance glib_ref.
#[local] Instance proxy_build : Build := {| LOCALSTATEDIR := "/var"; SYSCONFDIR := "/etc"; DEFAULTSDIR := "/usr/share/defaults"; LIBEXECDIR := "/usr/libexec" |}.
#[local] Instance no_paths : StartPaths := {| start_proxy_socket_path := None; start_shim_path := None |}.
#[local] Instance fuel_9 : RecvFuel := 9%nat.

Definition connected : cc_proxy := Proxy (Some 5) (Some "/ctl") (Some "/tty") None.

Definition container_example (p : cc_proxy) : cc_oci_config :=
  set_proxy (Some p) (set_optarg_container_id (Some "c1")
    (with_env (Some ["TERM=vt100"]) cc_oci_config_zero)).

Lemma run_cmd_sends_frame_witness :
  exists s1 s2,
    tr_map sock (fst (run_tr accepting (cc_proxy_run_cmd connected "{}" false) tt)) = [SWrite s1; SWrite s2] /\
    s1 +:+ s2 = frame "{}".
Proof.
  eapply (run_cmd_sends_frame connected "{}" false 5).
  - reflexivity.
  - repeat constructor.
  - reflexivity.
  - apply run_tr_exec. vm_compute. reflexivity.
Defined.


Lemma new_pod_container_disconnects_witness :
  session_closed cc_proxy_zero
    (fst (run_tr accepting (cc_proxy_hyper_new_container (container_example cc_proxy_zero)) tt))
    (snd (run_tr accepting (cc_proxy_hyper_new_container (container_example cc_proxy_zero)) tt)).
Proof.
  apply (new_pod_container_disconnects (container_example cc_proxy_zero) cc_proxy_zero (Some "c1") (Some "c1")
           (Some EmptyString) (Some EmptyString)); [reflexivity|reflexivity|].
  apply run_tr_exec. reflexivity.
Defined.

Lemma new_container_environment_witness :
  exists vars', home_added ["TERM=vt100"] vars' /\
    snd (run_tr accepting (cc_proxy_run_hyper_new_container (container_example connected) (Some "c1")
                             (Some EmptyString) (Some EmptyString)) tt)
      = Done (true, with_env (Some vars') (container_example connected)).
Proof.
  destruct (new_container_environment (container_example connected)
              (with_env (Some ["HOME=/root"; "TERM=vt100"]) (container_example connected)) connected 5
              (Some "c1") (Some EmptyString) (Some EmptyString) ["TERM=vt100"]
              (fst (run_tr accepting (cc_proxy_run_hyper_new_container (container_example connected) (Some "c1")
                                        (Some EmptyString) (Some EmptyString)) tt)))
    as (vars' & kvs & Hh & Hc & _);
    [reflexivity|reflexivity|reflexivity|apply run_tr_exec; vm_compute; reflexivity|].
  exists vars'. split; [exact Hh|]. rewrite <- Hc. vm_compute. reflexivity.
Defined.

(** ** Executions worth knowing *)

(** A character of two bytes makes the runtime send one byte too few: the
    length is counted in characters. *)
Example utf8_message_truncated :
  let e_acute := String "195" (String "169" EmptyString) in
  g_utf8_validate e_acute = true /\ wire (e_acute +:+ "!") = [be_bytes 4 2 +:+ be_bytes 4 0; e_acute].
Proof. split; vm_compute; reflexivity. Qed.

(** When the control socket cannot be watched, the runtime reports the proxy
    ready without having said hello. *)
Example wait_until_ready_without_hello :
  run_tr fail_handler (cc_proxy_wait_until_ready (container_example connected)) tt
    = ([Ev (Cstat "/ctl") None; Ev (Cfile_monitor "/ctl") (-1)], Done true).
Proof. reflexivity. Qed.

(** A proxy that refuses the attach. *)
Definition refusing : handler unit := fun c w =>
  match c return reply c * unit with
  | Crecvmsg _ =>
      (RecvData (frame (json_generator_to_data (JObject [("success", JBool false)]) false)) None, w)
  | c => accepting c w
  end.

(** Then a kill returns connected, and the next request on the same structure
    fails although the proxy would accept it. *)
Example kill_leaves_connection :
  match run refusing (cc_proxy_hyper_kill_container (container_example cc_proxy_zero) 15) tt with
  | (Done (false, config), _) =>
      (socket <$> proxy config) = Some (Some 5) /\
      fst (run accepting (cc_proxy_hyper_destroy_pod config) tt) = Done (false, config)
  | _ => False
  end.
Proof. vm_compute. split; reflexivity. Qed.

(** A proxy that closes the connection instead of answering: the runtime
    waits for ever. *)
Definition hanging_up : handler unit := fun c w =>
  match c return reply c * unit with
  | Crecvmsg _ => (RecvData EmptyString None, w)
  | c => accepting c w
  end.

Example hang_up_blocks : fst (run hanging_up (cc_proxy_run_cmd connected "{}" false) tt) = Fault Blocked.
Proof. vm_compute. reflexivity. Qed.
