(* ===== verification/Hyperstart.v ===== *)
(** * The proxy's channels to the VM

    src/vendor/github.com/containers/virtcontainers/hyperstart/hyperstart.go:
    messages on the control and I/O channels between the proxy and the agent
    in the VM.  The I/O channel between the proxy and the shim uses the same
    format.  A connection is the list of the pieces its reads will find. *)

From Equations Require Import Equations.
From S2P Require Import Prelude GLib Sys Types Util Wire.

(** ** Connections *)

Definition go_conn : Type := list string.

(** [conn.Read (buf)] with [len (buf) = n]: [None] is an error or the end. *)
Definition go_read (n : nat) (conn : go_conn) : option (string * go_conn) :=
  match conn with
  | [] => None
  | c :: conn =>
      if (String.length c <=? n)%nat then Some (c, conn)
      else Some (str_take n c, str_drop n c :: conn)
  end.

(** The bytes still to come, and a bound on the reads that find them. *)
Definition conn_bytes (conn : go_conn) : string := String.concat EmptyString conn.
Fixpoint conn_size (conn : go_conn) : nat :=
  match conn with [] => O | c :: conn => S (String.length c) + conn_size conn end.

Lemma go_read_size n conn d conn' :
  (0 < n)%nat -> go_read n conn = Some (d, conn') -> (conn_size conn' < conn_size conn)%nat.
Proof.
  intros Hn. destruct conn as [|c conn]; [done|]. cbn [go_read conn_size].
  destruct (String.length c <=? n)%nat eqn:E; intros [= <- <-]; cbn [conn_size]; [lia|].
  apply Nat.leb_gt in E. rewrite str_drop_length. lia.
Qed.

(** [binary.BigEndian.Uint32 (res[a:b])] and [Uint64]. *)
Definition be_field (a b : nat) (res : string) : Z := be_val 0 (str_take (b - a) (str_drop a res)).

Definition inspect {A} (a : A) : {b : A | a = b} := exist _ a eq_refl.

(** The loop of [readCtlMessage] and [ReadIoMessageWithConn], with headers of
    [hdr] bytes whose length field starts at [off]. *)
Equations read_loop (hdr off need length : nat) (res : string) (conn : go_conn)
    : option (string * go_conn) by wf (conn_size conn) lt :=
  read_loop hdr off need length res conn with (decide (String.length res < need)%nat) => {
    | right _ => Some (res, conn)
    | left Hlt with inspect (go_read (Nat.min (need - String.length res) 512) conn) => {
        | exist _ None _ => None
        | exist _ (Some (d, conn')) Hrd =>
            let res := res +:+ d in
            if decide (length = O /\ (hdr <= String.length res)%nat) then
              let length := Z.to_nat (be_field off hdr res) in
              read_loop hdr off (if (hdr <? length)%nat then length else need) length res conn'
            else read_loop hdr off need length res conn'
      }
  }.
Next Obligation. intros hdr off need l res Hlt conn d conn' Hrd **. eapply go_read_size; [|exact Hrd]. lia. Qed.
Next Obligation. intros hdr off need l res Hlt conn d conn' Hrd **. eapply go_read_size; [|exact Hrd]. lia. Qed.

Definition ctlHdrSize : nat := 8.
Definition ctlHdrLenOffset : nat := 4.
Definition ttyHdrSize : nat := 12.
Definition ttyHdrLenOffset : nat := 8.

(** ** Reading whole messages *)

(** The reference: the next [n] bytes of a connection, when they come. *)
Fixpoint read_n (n : nat) (conn : go_conn) : option (string * go_conn) :=
  match conn with
  | [] => if (n =? 0)%nat then Some (EmptyString, []) else None
  | c :: conn' =>
      if (n =? 0)%nat then Some (EmptyString, conn)
      else if (String.length c <=? n)%nat then
        '(s, conn'') ← read_n (n - String.length c) conn';
        Some (c +:+ s, conn'')
      else Some (str_take n c, str_drop n c :: conn')
  end.

Lemma conn_bytes_cons c conn : conn_bytes (c :: conn) = c +:+ conn_bytes conn.
Proof. unfold conn_bytes. destruct conn; cbn; [by rewrite str_app_nil_r|done]. Qed.

Lemma go_read_bytes n conn d conn' :
  go_read n conn = Some (d, conn') ->
  conn_bytes conn = d +:+ conn_bytes conn' /\ (String.length d <= n)%nat.
Proof.
  destruct conn as [|c conn]; [done|]. cbn [go_read].
  destruct (Nat.leb_spec (String.length c) n); intros [= <- <-]; rewrite !conn_bytes_cons; [done|].
  split; [by rewrite <- str_app_assoc, str_take_drop|apply str_take_length].
Qed.

Lemma go_read_some n conn : (0 < String.length (conn_bytes conn))%nat -> is_Some (go_read n conn).
Proof. destruct conn as [|c conn]; [cbn; lia|]. intros _. cbn. case_match; eauto. Qed.

Lemma str_take_take k n s : (k <= n)%nat -> str_take k (str_take n s) = str_take k s.
Proof.
  revert n s. induction k as [|k IH]; intros [|n] s Hk; [done..|lia|]. destruct s as [|c s]; [done|].
  cbn. f_equal. apply IH. lia.
Qed.

Lemma str_take_drop_comm n k s : str_take n (str_drop k s) = str_drop k (str_take (k + n) s).
Proof.
  revert s. induction k as [|k IH]; intros s; [done|]. destruct s as [|c s]; [by destruct n|]. cbn. apply IH.
Qed.

(** A field is read from the bytes up to its end. *)
Lemma be_field_take a b n s : (a <= b <= n)%nat -> be_field a b (str_take n s) = be_field a b s.
Proof. intros H. unfold be_field. rewrite !str_take_drop_comm, str_take_take by lia. done. Qed.

(** Where the loop stands: before or after the header is complete. *)
Definition loop_inv (hdr need length : nat) (res m : string) : Prop :=
  (length = O /\ need = hdr /\ (String.length res < hdr)%nat) \/
  (length <> O /\ need = String.length m /\ (hdr <= String.length res <= String.length m)%nat).

Lemma read_loop_spec hdr off need length res conn m tail :
  (0 < hdr <= String.length m)%nat -> (off <= hdr)%nat ->
  be_field off hdr m = Z.of_nat (String.length m) ->
  loop_inv hdr need length res m -> res +:+ conn_bytes conn = m +:+ tail ->
  exists conn', read_loop hdr off need length res conn = Some (m, conn') /\ conn_bytes conn' = tail.
Proof.
  intros Hh Ho Hf. remember (conn_size conn) as n eqn:En. revert need length res conn En.
  induction n as [n IH] using lt_wf_ind. intros need length res conn -> Hinv E.
  assert (String.length res <= String.length m)%nat as Hle by (destruct Hinv; lia).
  destruct (str_app_prefix _ _ _ _ Hle E) as [Hres Hrest].
  simp read_loop. destruct (decide _) as [Hlt|Hge].
  2:{ assert (String.length res = String.length m) as El by (destruct Hinv; lia).
      exists conn. cbn. rewrite El in Hres, Hrest. rewrite str_take_all in Hres by done. subst res.
      split; [done|]. by rewrite Hrest, str_drop_all. }
  assert (need <= String.length m)%nat as Hneed by (destruct Hinv; lia).
  cbn [read_loop_unfold_clause_1]. destruct (inspect (go_read (Nat.min (need - String.length res) 512) conn)) as [[[d conn']|] Hrd];
    cbn [read_loop_unfold_clause_1_clause_2]; cbv zeta.
  2:{ destruct (go_read_some (Nat.min (need - String.length res) 512) conn) as [? Hx]; [|congruence].
      rewrite Hrest, str_length_app, str_drop_length. lia. }
  apply go_read_size in Hrd as Hsz; [|lia]. apply go_read_bytes in Hrd as [Hb Hd].
  assert ((res +:+ d) +:+ conn_bytes conn' = m +:+ tail) as E' by by rewrite str_app_assoc, <- Hb.
  assert (String.length (res +:+ d) <= need)%nat as Hn by (rewrite str_length_app; lia).
  destruct (str_app_prefix (res +:+ d) (conn_bytes conn') m tail) as [Hres' _]; [lia|done|].
  destruct (decide (length = O /\ (hdr <= String.length (res +:+ d))%nat)) as [[Hl0 Hhdr]|Hno].
  - assert (be_field off hdr (res +:+ d) = Z.of_nat (String.length m)) as ->
      by by rewrite Hres', be_field_take.
    rewrite Nat2Z.id. eapply IH; [exact Hsz|done| |done]. right. destruct Hinv as [(_ & -> & _)|[? _]]; [|done].
    split_and!; [lia| |lia|lia]. destruct (Nat.ltb_spec hdr (String.length m)); lia.
  - eapply IH; [exact Hsz|done| |done]. destruct Hinv as [(-> & -> & Hr)|(? & -> & Hr)].
    + left. split_and!; [done..|]. destruct (decide (hdr <= String.length (res +:+ d))%nat); [tauto|lia].
    + right. split_and!; [done..|rewrite str_length_app; lia|lia].
Qed.

(** ** Messages *)

(** [hyper.DecodedMessage] and [hyper.TtyMessage]. *)
Record DecodedMessage := Decoded { dm_code : Z; dm_message : string }.
Record TtyMessage := Tty { tty_session : Z; tty_message : string }.

Definition max_message : nat := N.to_nat 10240.

Definition readCtlMessage (conn : go_conn) : option (DecodedMessage * go_conn) :=
  '(res, conn) ← read_loop ctlHdrSize ctlHdrLenOffset ctlHdrSize 0 EmptyString conn;
  Some (Decoded (be_field 0 ctlHdrLenOffset res) (str_drop ctlHdrSize res), conn).

(** The bytes written; [None] when the message is too long. *)
Definition writeCtlMessage (m : DecodedMessage) : option string :=
  let length := (String.length (dm_message m) + ctlHdrSize)%nat in
  if (max_message <? length)%nat then None
  else Some (be_bytes 4 (dm_code m) +:+ be_bytes 4 (Z.of_nat length) +:+ dm_message m).

Definition ReadIoMessageWithConn (conn : go_conn) : option (TtyMessage * go_conn) :=
  '(res, conn) ← read_loop ttyHdrSize ttyHdrLenOffset ttyHdrSize 0 EmptyString conn;
  Some (Tty (be_field 0 ttyHdrLenOffset res) (str_drop ttyHdrSize res), conn).

Definition SendIoMessageWithConn (m : TtyMessage) : option string :=
  let length := (String.length (tty_message m) + ttyHdrSize)%nat in
  if (max_message <? length)%nat then None
  else Some (be_bytes 8 (tty_session m) +:+ be_bytes 4 (Z.of_nat length) +:+ tty_message m).

(** ** Commands *)

Definition INIT_VERSION : Z := 0.
Definition INIT_STARTPOD : Z := 1.
Definition INIT_DESTROYPOD : Z := 4.
Definition INIT_EXECCMD : Z := 6.
Definition INIT_READY : Z := 8.
Definition INIT_ACK : Z := 9.
Definition INIT_ERROR : Z := 10.
Definition INIT_WINSIZE : Z := 11.
Definition INIT_PING : Z := 12.
Definition INIT_NEXT : Z := 14.
Definition INIT_WRITEFILE : Z := 15.
Definition INIT_READFILE : Z := 16.
Definition INIT_NEWCONTAINER : Z := 17.
Definition INIT_KILLCONTAINER : Z := 18.
Definition INIT_ONLINECPUMEM : Z := 19.
Definition INIT_SETUPINTERFACE : Z := 20.
Definition INIT_SETUPROUTE : Z := 21.

Definition codeList : list (string * Z) :=
  [("version", INIT_VERSION); ("startpod", INIT_STARTPOD); ("destroypod", INIT_DESTROYPOD);
   ("execcmd", INIT_EXECCMD); ("ready", INIT_READY); ("ack", INIT_ACK); ("error", INIT_ERROR);
   ("winsize", INIT_WINSIZE); ("ping", INIT_PING); ("next", INIT_NEXT); ("writefile", INIT_WRITEFILE);
   ("readfile", INIT_READFILE); ("newcontainer", INIT_NEWCONTAINER); ("killcontainer", INIT_KILLCONTAINER);
   ("onlinecpumem", INIT_ONLINECPUMEM); ("setupinterface", INIT_SETUPINTERFACE);
   ("setuproute", INIT_SETUPROUTE)].

Definition codeFromCmd (cmd : string) : option Z :=
  snd <$> List.find (fun p => bool_decide (fst p = cmd)) codeList.

Lemma read_loop_size hdr off need length res conn res' conn' :
  read_loop hdr off need length res conn = Some (res', conn') ->
  (conn_size conn' <= conn_size conn)%nat /\
  ((String.length res < need)%nat -> (conn_size conn' < conn_size conn)%nat).
Proof.
  remember (conn_size conn) as n eqn:En. revert need length res conn En.
  induction n as [n IH] using lt_wf_ind. intros need length res conn ->.
  simp read_loop. destruct (decide _) as [Hlt|Hge]; [|intros [= <- <-]; lia].
  cbn [read_loop_unfold_clause_1].
  destruct (inspect (go_read (Nat.min (need - String.length res) 512) conn)) as [[[d c]|] Hrd];
    cbn [read_loop_unfold_clause_1_clause_2]; [|done]. cbv zeta.
  apply go_read_size in Hrd; [|lia]. case_decide; intros Hr; (eapply IH in Hr; [|exact Hrd|done]); lia.
Qed.

Lemma readCtlMessage_size conn m conn' :
  readCtlMessage conn = Some (m, conn') -> (conn_size conn' < conn_size conn)%nat.
Proof.
  unfold readCtlMessage. intros H. apply bind_Some in H as ([res c] & H & [= <- <-]).
  apply read_loop_size in H as [_ H]. apply H. unfold ctlHdrSize. cbn. lia.
Qed.

(** The result and the rest of the connection: a message, no message and no
    error ([nil, nil], when reading fails), or an error. *)
Inductive expected := Expected (m : DecodedMessage) | NoMessage | HyperError | CodeMismatch (code : Z).

Equations expectReadingCmd (code : Z) (conn : go_conn) : expected * go_conn by wf (conn_size conn) lt :=
  expectReadingCmd code conn with inspect (readCtlMessage conn) => {
    | exist _ None _ => (NoMessage, conn)
    | exist _ (Some (msg, conn')) Hrd =>
        if decide (dm_code msg = code) then (Expected msg, conn')
        else if decide (dm_code msg = INIT_NEXT \/ dm_code msg = INIT_READY) then expectReadingCmd code conn'
        else if decide (dm_code msg = INIT_ERROR) then (HyperError, conn')
        else (CodeMismatch (dm_code msg), conn')
  }.
Next Obligation. intros code conn msg conn' Hrd **. eapply readCtlMessage_size. exact Hrd. Qed.

(** [err == nil] *)
Definition expected_ok (e : expected) : bool :=
  match e with Expected _ | NoMessage => true | _ => false end.

Definition WaitForReady (ctl : go_conn) : bool * go_conn :=
  let '(e, ctl) := expectReadingCmd INIT_READY ctl in (expected_ok e, ctl).

(** [err == nil], what was written, and the rest of the connection;
    [write_ok] is the result of the write. *)
Definition SendCtlMessage (write_ok : bool) (cmd data : string) (ctl : go_conn) : bool * string * go_conn :=
  match codeFromCmd cmd with
  | None => (false, EmptyString, ctl)
  | Some code =>
      match writeCtlMessage (Decoded code data) with
      | None => (false, EmptyString, ctl)
      | Some bytes =>
          if negb write_ok then (false, EmptyString, ctl)
          else let '(e, ctl) := expectReadingCmd INIT_ACK ctl in (expected_ok e, bytes, ctl)
      end
  end.

(** ** What the messages carry *)

(** The header and body of a message cut from its bytes. *)
Lemma be_field_head n z rest : be_field 0 n (be_bytes n z +:+ rest) = z mod 256 ^ Z.of_nat n.
Proof.
  unfold be_field. cbn [str_drop]. rewrite Nat.sub_0_r, str_take_app_le by by rewrite be_bytes_length.
  by rewrite str_take_all, be_val_bytes by by rewrite be_bytes_length.
Qed.

Lemma be_field_second a z b n rest :
  String.length a = n -> be_field n (n + b) (a +:+ be_bytes b z +:+ rest) = z mod 256 ^ Z.of_nat b.
Proof.
  intros <-. unfold be_field. replace (String.length a + b - String.length a)%nat with b by lia.
  rewrite str_drop_app, str_take_app_le by by rewrite be_bytes_length.
  by rewrite str_take_all, be_val_bytes by by rewrite be_bytes_length.
Qed.

Lemma message_body a b m n :
  (String.length a + String.length b)%nat = n -> str_drop n (a +:+ b +:+ m) = m.
Proof. intros <-. rewrite <- str_app_assoc, <- str_length_app. apply str_drop_app. Qed.

(** Reading a message with a header of an [off]-byte number and a 4-byte
    length of the whole. *)
Lemma read_message off x m conn tail :
  Z.of_nat (String.length m + (off + 4)) < 2 ^ 32 ->
  conn_bytes conn =
    (be_bytes off x +:+ be_bytes 4 (Z.of_nat (String.length m + (off + 4))) +:+ m) +:+ tail ->
  exists conn',
    read_loop (off + 4) off (off + 4) 0 EmptyString conn =
      Some (be_bytes off x +:+ be_bytes 4 (Z.of_nat (String.length m + (off + 4))) +:+ m, conn') /\
    conn_bytes conn' = tail.
Proof.
  intros Hm Hc. set (msg := be_bytes off x +:+ _) in *.
  assert (String.length msg = (String.length m + (off + 4))%nat) as Hl
    by (unfold msg; rewrite !str_length_app, !be_bytes_length; lia).
  apply read_loop_spec with (m := msg); [lia|lia| |left; cbn; lia|done].
  rewrite Hl. unfold msg. rewrite be_field_second by apply be_bytes_length. apply Z.mod_small. lia.
Qed.

(** I/O messages survive the channel: whatever pieces the bytes sent for a
    message arrive in, and whatever follows them, the reader gets the same
    session number and data, and exactly what follows is left to read. *)
Lemma io_message_roundtrip (msg : TtyMessage) (bytes tail : string) (conn : go_conn) :
  0 <= tty_session msg < 2 ^ 64 -> SendIoMessageWithConn msg = Some bytes ->
  conn_bytes conn = bytes +:+ tail ->
  exists conn', ReadIoMessageWithConn conn = Some (msg, conn') /\ conn_bytes conn' = tail.
Proof.
  intros Hs. unfold SendIoMessageWithConn, ReadIoMessageWithConn, ttyHdrSize, ttyHdrLenOffset, max_message.
  destruct (Nat.ltb_spec (N.to_nat 10240) (String.length (tty_message msg) + 12)%nat) as [|Hl]; [done|].
  intros [= <-] Hc. edestruct (read_message 8) as (conn' & Hr & Ht); [|exact Hc|]; [lia|].
  change (8 + 4)%nat with 12%nat in Hr. rewrite Hr. exists conn'. split; [|done]. cbn [mbind option_bind].
  rewrite be_field_head, message_body, Z.mod_small by (rewrite ?be_bytes_length; lia). by destruct msg.
Qed.

Lemma ctl_message_roundtrip (msg : DecodedMessage) (bytes tail : string) (conn : go_conn) :
  0 <= dm_code msg < 2 ^ 32 -> writeCtlMessage msg = Some bytes ->
  conn_bytes conn = bytes +:+ tail ->
  exists conn', readCtlMessage conn = Some (msg, conn') /\ conn_bytes conn' = tail.
Proof.
  intros Hs. unfold writeCtlMessage, readCtlMessage, ctlHdrSize, ctlHdrLenOffset, max_message.
  destruct (Nat.ltb_spec (N.to_nat 10240) (String.length (dm_message msg) + 8)%nat) as [|Hl]; [done|].
  intros [= <-] Hc. edestruct (read_message 4) as (conn' & Hr & Ht); [|exact Hc|]; [lia|].
  change (4 + 4)%nat with 8%nat in Hr. rewrite Hr. exists conn'. split; [|done]. cbn [mbind option_bind].
  rewrite be_field_head, message_body, Z.mod_small by (rewrite ?be_bytes_length; lia). by destruct msg.
Qed.

Lemma codeList_range : Forall (fun p => 0 <= snd p < 2 ^ 32) codeList.
Proof. repeat constructor; done. Qed.

Lemma codeFromCmd_range cmd code : codeFromCmd cmd = Some code -> 0 <= code < 2 ^ 32.
Proof.
  unfold codeFromCmd. destruct (List.find _ _) as [p|] eqn:E; [|done]. intros [= <-].
  apply List.find_some in E as [Hin _]. pose proof codeList_range as H. rewrite Forall_forall in H.
  apply H, list_elem_of_In, Hin.
Qed.

(** The messages sent by the agent, in order. *)
Fixpoint ctl_stream (l : list DecodedMessage) : option string :=
  match l with
  | [] => Some EmptyString
  | m :: l => a ← writeCtlMessage m; b ← ctl_stream l; Some (a +:+ b)
  end.

(** A message that is skipped while waiting for another code. *)
Definition interim (m : DecodedMessage) : Prop := dm_code m = INIT_NEXT \/ dm_code m = INIT_READY.

Lemma expect_skips code l s conn tail :
  code <> INIT_NEXT -> code <> INIT_READY -> Forall interim l -> ctl_stream l = Some s ->
  conn_bytes conn = s +:+ tail ->
  exists conn', expectReadingCmd code conn = expectReadingCmd code conn' /\ conn_bytes conn' = tail.
Proof.
  intros Hn Hr. revert s conn. induction l as [|m l IH]; intros s conn Hl Hs Hc.
  - injection Hs as <-. eauto.
  - apply Forall_cons in Hl as [Hm Hl]. cbn [ctl_stream] in Hs.
    apply bind_Some in Hs as (a & Ha & Hs). apply bind_Some in Hs as (b & Hb & [= <-]).
    rewrite str_app_assoc in Hc. edestruct ctl_message_roundtrip as (conn1 & Hrd & Hc1); [|exact Ha|exact Hc|].
    { unfold interim, INIT_NEXT, INIT_READY in Hm. lia. }
    destruct (IH _ _ Hl Hb Hc1) as (conn' & He & Ht). exists conn'. split; [|done]. rewrite <- He.
    simp expectReadingCmd. destruct (inspect (readCtlMessage conn)) as [[[m' c']|] E]; [|congruence].
    cbn [expectReadingCmd_unfold_clause_1]. rewrite Hrd in E. injection E as <- <-.
    unfold interim in Hm. rewrite decide_False by (intros Hx; rewrite Hx in Hm; tauto). rewrite decide_True by done. by simp expectReadingCmd.
Qed.

(** A control command is one transaction: what is written decodes, on the agent's
    side, to the code of the command and its data; and after the messages to
    be skipped, the agent's answer decides the result, which is a success
    exactly for an acknowledgement. *)
Theorem ctl_transaction (cmd data s a tail : string) (code : Z) (l : list DecodedMessage)
    (answer : DecodedMessage) (conn : go_conn) :
  codeFromCmd cmd = Some code -> (String.length data + ctlHdrSize <= max_message)%nat ->
  Forall interim l -> ctl_stream l = Some s ->
  0 <= dm_code answer < 2 ^ 32 -> ~ interim answer -> writeCtlMessage answer = Some a ->
  conn_bytes conn = s +:+ a +:+ tail ->
  exists bytes conn',
    SendCtlMessage true cmd data conn = (bool_decide (dm_code answer = INIT_ACK), bytes, conn') /\
    conn_bytes conn' = tail /\
    forall peer rest, conn_bytes peer = bytes +:+ rest ->
      exists peer', readCtlMessage peer = Some (Decoded code data, peer') /\ conn_bytes peer' = rest.
Proof.
  intros Hcode Hlen Hl Hs Hans Hni Ha Hc. unfold SendCtlMessage. rewrite Hcode.
  destruct (writeCtlMessage (Decoded code data)) as [bytes|] eqn:Hw.
  2:{ unfold writeCtlMessage in Hw. cbn [dm_message dm_code] in Hw.
      destruct (Nat.ltb_spec max_message (String.length data + ctlHdrSize)); [lia|done]. }
  destruct (expect_skips INIT_ACK l s conn (a +:+ tail)) as (conn1 & He & Hc1); [done..|].
  edestruct ctl_message_roundtrip as (conn2 & Hrd & Hc2); [exact Hans|exact Ha|exact Hc1|].
  exists bytes, conn2. split_and!; [|done|].
  - cbn [negb]. rewrite He. simp expectReadingCmd.
    destruct (inspect (readCtlMessage conn1)) as [[[m' c']|] E]; [|congruence].
    cbn [expectReadingCmd_unfold_clause_1]. rewrite Hrd in E. injection E as <- <-.
    unfold interim in Hni. destruct (decide (dm_code answer = INIT_ACK)); [by rewrite bool_decide_true|].
    rewrite decide_False, bool_decide_false by tauto. by case_decide.
  - intros peer rest Hp. apply ctl_message_roundtrip with (bytes := bytes); [|done..].
    by eapply codeFromCmd_range.
Qed.

Lemma ctl_transaction_witness :
  exists bytes conn',
    SendCtlMessage true "ping" EmptyString
      [be_bytes 4 14 +:+ be_bytes 4 8; be_bytes 4 9 +:+ be_bytes 4 8] = (true, bytes, conn') /\ conn_bytes conn' = EmptyString.
Proof.
  destruct (ctl_transaction "ping" EmptyString (be_bytes 4 14 +:+ be_bytes 4 8) (be_bytes 4 9 +:+ be_bytes 4 8)
              EmptyString 12 [Decoded 14 EmptyString] (Decoded 9 EmptyString)
              [be_bytes 4 14 +:+ be_bytes 4 8; be_bytes 4 9 +:+ be_bytes 4 8])
    as (bytes & conn' & H & Ht & _).
  - reflexivity.
  - unfold ctlHdrSize, max_message. simpl. lia.
  - repeat constructor.
  - reflexivity.
  - split; reflexivity || discriminate.
  - intros [H|H]; discriminate H.
  - reflexivity.
  - reflexivity.
  - exists bytes, conn'. split; [exact H|exact Ht].
Defined.

(** A VM that goes away before answering: the command is reported as done. *)
Example lost_answer_is_success :
  fst (fst (SendCtlMessage true "killcontainer" "{}" [])) = true.
Proof. vm_compute. reflexivity. Qed.
