(* ===== verification/GoProxy.v ===== *)
(** * The proxy

    src/proxy/api/protocol.go, src/proxy/protocol.go, src/proxy/proxy.go and
    src/proxy/vm.go: the requests of the runtime and shim, the registry of
    VMs and the I/O sessions.  VMs are shared by pointer between the registry
    and the clients, so they live in a heap and a pointer is an index in it.
    The handlers are cut at the points where another goroutine can run: what
    happens between two of them is one step of [step].

    The text form of JSON (encoding/json) is the class [GoJson]; the decoding
    of a parsed document into the request structures is modelled, with ASCII
    case folding of the keys. *)

From S2P Require Import Prelude GLib GLibRef Wire Hyperstart.

(** ** src/proxy/api/protocol.go *)

Definition headerLength : nat := 8.

(** The payload of the next message and the rest of the connection. *)
Definition ReadMessage (conn : go_conn) : option (string * go_conn) :=
  '(buf, conn) ← go_read headerLength conn;
  if negb (String.length buf =? headerLength)%nat then None
  else read_n (Z.to_nat (be_field 0 4 buf)) conn.

(** The two writes of a message whose text is [data]. *)
Definition WriteMessage (data : string) : list string :=
  [be_bytes 4 (wrapu 32 (Z.of_nat (String.length data))) +:+ be_bytes 4 0; data].

(** *** Decoding *)

Definition ascii_lower (c : ascii) : ascii :=
  let n := N_of_ascii c in if ((65 <=? n) && (n <=? 90))%N then ascii_of_N (n + 32) else c.
Fixpoint str_lower (s : string) : string :=
  match s with EmptyString => EmptyString | String c s => String (ascii_lower c) (str_lower s) end.
Definition key_matches (field key : string) : bool := bool_decide (str_lower field = str_lower key).

(** The value of a field after the members of an object: the last one wins,
    null leaves it alone, another type is an error, and so is an integer out of
    range. *)
Fixpoint string_field (name : string) (m : list (string * json)) (cur : string) : option string :=
  match m with
  | [] => Some cur
  | (k, v) :: m =>
      if key_matches name k then
        match v with
        | JString s => string_field name m s
        | JNull => string_field name m cur
        | _ => None
        end
      else string_field name m cur
  end.

Fixpoint int_field (name : string) (m : list (string * json)) (cur : Z) : option Z :=
  match m with
  | [] => Some cur
  | (k, v) :: m =>
      if key_matches name k then
        match v with
        | JInt z => if (LONG_MIN <=? z) && (z <=? LONG_MAX) then int_field name m z else None
        | JNull => int_field name m cur
        | _ => None
        end
      else int_field name m cur
  end.

(** A [json.RawMessage]. *)
Fixpoint raw_field (name : string) (m : list (string * json)) (cur : option json) : option json :=
  match m with
  | [] => cur
  | (k, v) :: m => raw_field name m (if key_matches name k then Some v else cur)
  end.

(** The members of a document that fills a structure; null fills nothing, and
    missing data is an error. *)
Definition object_members (j : option json) : option (list (string * json)) :=
  match j with Some (JObject m) => Some m | Some JNull => Some [] | _ => None end.

Record Request := MkRequest { req_ID : string; req_Data : option json }.

Definition unmarshal_request (j : json) : option Request :=
  m ← object_members (Some j);
  id ← string_field "id" m EmptyString;
  Some (MkRequest id (raw_field "data" m None)).

Record Response := MkResponse { resp_Success : bool; resp_Error : string; resp_Data : list (string * json) }.

Class GoJson := {
  Marshal : json -> string;
  Unmarshal : string -> option json
}.

(** ["error"] and ["data"] are omitted when empty. *)
Definition marshal_response `{GoJson} (r : Response) : string :=
  Marshal (JObject ([("success", JBool (resp_Success r))]
                    ++ (if str_nonempty (resp_Error r) then [("error", JString (resp_Error r))] else [])
                    ++ (match resp_Data r with [] => [] | d => [("data", JObject d)] end))).

(** ** src/proxy/protocol.go *)

(** An error is its text; [None] is [nil]. *)
Record handlerResponse := HandlerResponse {
  hr_err : option string; hr_results : list (string * json); hr_file : option Z
}.
Definition hr_zero : handlerResponse := HandlerResponse None [] None.
Definition SetError (e : option string) (r : handlerResponse) : handlerResponse :=
  HandlerResponse e (hr_results r) (hr_file r).
Definition SetErrorMsg (e : string) : handlerResponse -> handlerResponse := SetError (Some e).
Definition AddResult (k : string) (v : json) (r : handlerResponse) : handlerResponse :=
  HandlerResponse (hr_err r) (json_object_set_member (hr_results r) k v) (hr_file r).
Definition SetFile (f : Z) (r : handlerResponse) : handlerResponse :=
  HandlerResponse (hr_err r) (hr_results r) (Some f).

(** The response built once the handler has filled [hr]. *)
Definition response_of (hr : handlerResponse) : Response :=
  match hr_err hr with
  | Some e => MkResponse false e (hr_results hr)
  | None => MkResponse true EmptyString (hr_results hr)
  end.

(** ** src/proxy/vm.go *)

Record ioSession := IoSession { nStreams : Z; ioBase : Z; clientID : Z; session_client : Z }.

(** [vm_io_running]: the goroutine that reads the I/O channel is running. *)
Record vm := Vm {
  containerID : string; ctlSerial : string; ioSerial : string; consolePath : string;
  nextIoBase : Z; ioSessions : gmap Z ioSession; vm_io_running : bool
}.

Definition newVM (id ctl io : string) : vm := Vm id ctl io EmptyString 1 ∅ false.
Definition setConsole (path : string) (v : vm) : vm :=
  Vm (containerID v) (ctlSerial v) (ioSerial v) path (nextIoBase v) (ioSessions v) (vm_io_running v).
Definition set_sessions (next : Z) (ss : gmap Z ioSession) (v : vm) : vm :=
  Vm (containerID v) (ctlSerial v) (ioSerial v) (consolePath v) next ss (vm_io_running v).
Definition set_running (b : bool) (v : vm) : vm :=
  Vm (containerID v) (ctlSerial v) (ioSerial v) (consolePath v) (nextIoBase v) (ioSessions v) b.

Definition findSession (v : vm) (seq : Z) : option ioSession := ioSessions v !! seq.

(** [for i := 0; i < n; i++ { vm.ioSessions[ioBase+uint64(i)] = session }] *)
Fixpoint insert_session (k : nat) (i : Z) (s : ioSession) (ss : gmap Z ioSession) : gmap Z ioSession :=
  match k with
  | O => ss
  | S k => insert_session k (i + 1) s (<[u64 (ioBase s + i) := s]> ss)
  end.

Definition AllocateIo (n clientID c : Z) (v : vm) : Z * vm :=
  let base := nextIoBase v in
  (base, set_sessions (u64 (base + u64 n)) (insert_session (Z.to_nat n) 0 (IoSession n base clientID c) (ioSessions v)) v).

Fixpoint delete_session (k : nat) (seq : Z) (ss : gmap Z ioSession) : gmap Z ioSession :=
  match k with O => ss | S k => delete_session k (u64 (seq + 1)) (delete seq ss) end.

Definition CloseIo (seq : Z) (v : vm) : vm :=
  match ioSessions v !! seq with
  | None => v
  | Some s => set_sessions (nextIoBase v) (delete_session (Z.to_nat (nStreams s)) seq (ioSessions v)) v
  end.

(** [Close], when the VM is gone. *)
Definition vm_Close (v : vm) : vm := set_sessions (nextIoBase v) ∅ v.

(** One iteration of [ioHyperToClients] on a message: where it is sent, and
    the VM after the write, whose failure ends the goroutine. *)
Definition ioHyperToClients (write_ok : bool) (msg : TtyMessage) (v : vm) : option (Z * TtyMessage) * vm :=
  match findSession v (tty_session msg) with
  | None => (None, v)
  | Some s =>
      if write_ok then (Some (session_client s, msg), v) else (None, set_running false v)
  end.

(** One iteration of [ioClientToHyper]: the message forwarded, or [None] when
    the sequence number is wrong and the client is disconnected. *)
Definition ioClientToHyper (s : ioSession) (msg : TtyMessage) : option TtyMessage :=
  if bool_decide (tty_session msg <> ioBase s) then None else Some msg.

(** ** src/proxy/proxy.go *)

Record proxy := Proxy {
  vms : gmap string nat;            (* registered VMs, by container *)
  vm_heap : list vm;                (* every VM ever created *)
  client_vm : gmap Z (option nat);  (* the VM of each connected client *)
  enableVMConsole : bool
}.

Definition set_vms (m : gmap string nat) (p : proxy) := Proxy m (vm_heap p) (client_vm p) (enableVMConsole p).
Definition set_heap (h : list vm) (p : proxy) := Proxy (vms p) h (client_vm p) (enableVMConsole p).
Definition set_client_vm (c : Z) (v : option nat) (p : proxy) :=
  Proxy (vms p) (vm_heap p) (<[c := v]> (client_vm p)) (enableVMConsole p).

(** What the operations that wait for something else give: [vm.Connect],
    [Socketpair] with [File] (the descriptor for the client and our end), and
    [SendCtlMessage]. *)
Record environment := Env {
  connect_err : option string; socket_pair : string + Z * Z; send_err : option string
}.

Record Hello := MkHello { h_ContainerID : string; h_CtlSerial : string; h_IoSerial : string; h_Console : string }.

Definition unmarshal_hello (d : option json) : option Hello :=
  m ← object_members d;
  id ← string_field "containerId" m EmptyString;
  ctl ← string_field "ctlSerial" m EmptyString;
  io ← string_field "ioSerial" m EmptyString;
  cons ← string_field "console" m EmptyString;
  Some (MkHello id ctl io cons).

Definition unmarshal_container (d : option json) : option string :=
  m ← object_members d; string_field "containerId" m EmptyString.

(** The errors of [encoding/json] are one text: which one it is, is not
    modelled. *)
Definition json_err : string := "json".

(** Where a handler waits with the lock released. *)
Inductive thread :=
| HelloConnecting (v : nat) (hello : Hello) (hr : handlerResponse)
| ByeDeleting (v : nat).

Inductive handler_result := Responded (hr : handlerResponse) | Pending (t : thread).

(** An incomplete hello records an error and goes on. *)
Definition hello_start (hello : Hello) (p : proxy) : proxy * handler_result :=
  let hr :=
    if negb (str_nonempty (h_ContainerID hello)) || negb (str_nonempty (h_CtlSerial hello))
       || negb (str_nonempty (h_IoSerial hello))
    then SetErrorMsg "malformed hello command" hr_zero else hr_zero in
  match vms p !! h_ContainerID hello with
  | Some _ => (p, Responded (SetErrorMsg (h_ContainerID hello +:+ ": container already registered") hr))
  | None =>
      let v := newVM (h_ContainerID hello) (h_CtlSerial hello) (h_IoSerial hello) in
      let ptr := length (vm_heap p) in
      (set_vms (<[h_ContainerID hello := ptr]> (vms p)) (set_heap (vm_heap p ++ [v]) p),
       Pending (HelloConnecting ptr hello hr))
  end.

Definition hello_finish (e : environment) (c : Z) (v : nat) (hello : Hello) (hr : handlerResponse) (p : proxy)
    : proxy * handlerResponse :=
  let p := if str_nonempty (h_Console hello) && enableVMConsole p
           then set_heap (alter (setConsole (h_Console hello)) v (vm_heap p)) p else p in
  match connect_err e with
  | Some err => (set_vms (delete (h_ContainerID hello) (vms p)) p, SetError (Some err) hr)
  | None => (set_client_vm c (Some v) (set_heap (alter (set_running true) v (vm_heap p)) p), hr)
  end.

Definition helloHandler (d : option json) (p : proxy) : proxy * handler_result :=
  match unmarshal_hello d with
  | None => (p, Responded (SetErrorMsg json_err hr_zero))
  | Some hello => hello_start hello p
  end.

Definition attachHandler (c : Z) (d : option json) (p : proxy) : proxy * handlerResponse :=
  match unmarshal_container d with
  | None => (p, SetErrorMsg json_err hr_zero)
  | Some id =>
      match vms p !! id with
      | None => (p, SetErrorMsg ("unknown containerID: " +:+ id) hr_zero)
      | Some v => (set_client_vm c (Some v) p, hr_zero)
      end
  end.

Definition bye_start (d : option json) (p : proxy) : handler_result :=
  match unmarshal_container d with
  | None => Responded (SetErrorMsg json_err hr_zero)
  | Some id =>
      match vms p !! id with
      | None => Responded (SetErrorMsg ("unknown containerID: " +:+ id) hr_zero)
      | Some v => Pending (ByeDeleting v)
      end
  end.

Definition bye_finish (c : Z) (v : nat) (p : proxy) : proxy * handlerResponse :=
  let id := from_option containerID EmptyString (vm_heap p !! v) in
  (set_client_vm c None (set_vms (delete id (vms p)) p), hr_zero).

(** A wrong number of streams records an error and goes on. *)
Definition allocateIoHandler (e : environment) (c : Z) (d : option json) (p : proxy) : proxy * handlerResponse :=
  match (m ← object_members d; int_field "nStreams" m 0) with
  | None => (p, SetErrorMsg json_err hr_zero)
  | Some n =>
      let hr := if bool_decide (n < 1 \/ 2 < n)
                then SetErrorMsg ("asking for unexpected number of streams (" +:+ fmt_d n +:+ ")") hr_zero else hr_zero in
      match client_vm p !! c with
      | Some (Some v) =>
          match socket_pair e, vm_heap p !! v with
          | inl err, _ => (p, SetError (Some err) hr)
          | inr (f0, c1), Some m =>
              let '(base, m') := AllocateIo n c c1 m in
              (set_heap (<[v := m']> (vm_heap p)) p, SetFile f0 (AddResult "ioBase" (JInt base) hr))
          | inr _, None => (p, hr)
          end
      | _ => (p, SetErrorMsg "client not attached to a vm" hr)
      end
  end.

Definition hyperHandler (e : environment) (c : Z) (d : option json) (p : proxy) : handlerResponse :=
  match (m ← object_members d; string_field "hyperName" m EmptyString) with
  | None => SetErrorMsg json_err hr_zero
  | Some _ =>
      match client_vm p !! c with
      | Some (Some _) => SetError (send_err e) hr_zero
      | _ => SetErrorMsg "client not attached to a vm" hr_zero
      end
  end.

(** ** The table of commands *)

Definition protocolHandler : Type := environment -> Z -> option json -> proxy -> proxy * handler_result.
Definition protocol : Type := gmap string protocolHandler.

Definition newProtocol : protocol := ∅.
Definition Handle (cmd : string) (handler : protocolHandler) (proto : protocol) : protocol := <[cmd := handler]> proto.

(** A handler that does not wait. *)
Definition at_once (h : environment -> Z -> option json -> proxy -> proxy * handlerResponse) : protocolHandler :=
  fun e c d p => let '(p, hr) := h e c d p in (p, Responded hr).

Definition serve_protocol : protocol :=
  Handle "hyper" (at_once (fun e c d p => (p, hyperHandler e c d p)))
    (Handle "allocateIO" (at_once allocateIoHandler)
       (Handle "bye" (fun _ _ d p => (p, bye_start d p))
          (Handle "attach" (at_once (fun _ => attachHandler))
             (Handle "hello" (fun _ _ d p => helloHandler d p) newProtocol)))).

(** The part of [handleRequest] up to the first wait of the handler. *)
Definition dispatch (proto : protocol) (e : environment) (c : Z) (req : Request) (p : proxy) : proxy * handler_result :=
  if negb (str_nonempty (req_ID req)) then (p, Responded (SetErrorMsg "no 'id' field in request" hr_zero))
  else match proto !! req_ID req with
  | None => (p, Responded (SetErrorMsg ("no payload named '" +:+ req_ID req +:+ "'") hr_zero))
  | Some handler => handler e c (req_Data req) p
  end.

(** The table of [serve], with what each entry does up to its first wait. *)
Definition handler_start (e : environment) (c : Z) (req : Request) (p : proxy) : proxy * handler_result :=
  let d := req_Data req in
  if negb (str_nonempty (req_ID req)) then (p, Responded (SetErrorMsg "no 'id' field in request" hr_zero))
  else if bool_decide (req_ID req = "hello") then helloHandler d p
  else if bool_decide (req_ID req = "attach") then
    let '(p, hr) := attachHandler c d p in (p, Responded hr)
  else if bool_decide (req_ID req = "bye") then (p, bye_start d p)
  else if bool_decide (req_ID req = "allocateIO") then
    let '(p, hr) := allocateIoHandler e c d p in (p, Responded hr)
  else if bool_decide (req_ID req = "hyper") then (p, Responded (hyperHandler e c d p))
  else (p, Responded (SetErrorMsg ("no payload named '" +:+ req_ID req +:+ "'") hr_zero)).

Definition handler_finish (e : environment) (c : Z) (t : thread) (p : proxy) : proxy * handlerResponse :=
  match t with
  | HelloConnecting v hello hr => hello_finish e c v hello hr p
  | ByeDeleting v => bye_finish c v p
  end.

(** A request handled without interruption. *)
Definition handleRequest (e : environment) (c : Z) (req : Request) (p : proxy) : proxy * handlerResponse :=
  match handler_start e c req p with
  | (p, Responded hr) => (p, hr)
  | (p, Pending t) => handler_finish e c t p
  end.

(** What [Serve] sends back: the descriptor first, if there is one. *)
Inductive sent := SendFd (fd : Z) | SendBytes (s : string).

Definition serve_response `{GoJson} (hr : handlerResponse) : list sent :=
  match hr_file hr with Some f => [SendFd f] | None => [] end
  ++ (SendBytes <$> WriteMessage (marshal_response (response_of hr))).

(** ** Concurrent clients *)

(** The handlers waiting, by client. *)
Record system := System { px : proxy; waiting : gmap Z thread }.

Definition system_init (console : bool) : system := System (Proxy ∅ [] ∅ console) ∅.

Inductive label :=
| LConnect (c : Z)
| LRequest (c : Z) (req : Request)
| LFinish (c : Z)
| LAllocated (c : Z) (v : nat) (n base conn : Z)
| LLost (v : nat)
| LIo (v : nat) (write_ok : bool) (msg : TtyMessage)
| LCloseIo (v : nat) (seq : Z).

(** Whether a request is an allocation, whose label says what was allocated. *)
Definition is_allocate (req : Request) : bool := bool_decide (req_ID req = "allocateIO").

Inductive step : label -> system -> system -> Prop :=
| StepConnect c s :
    client_vm (px s) !! c = None ->
    step (LConnect c) s (System (set_client_vm c None (px s)) (waiting s))
| StepRespond e c req s p hr :
    is_Some (client_vm (px s) !! c) -> waiting s !! c = None -> (is_allocate req = false \/ p = px s) ->
    handler_start e c req (px s) = (p, Responded hr) ->
    step (LRequest c req) s (System p (waiting s))
| StepWait e c req s p t :
    is_Some (client_vm (px s) !! c) -> waiting s !! c = None ->
    handler_start e c req (px s) = (p, Pending t) ->
    step (LRequest c req) s (System p (<[c := t]> (waiting s)))
| StepFinish e c t s p hr :
    waiting s !! c = Some t -> handler_finish e c t (px s) = (p, hr) ->
    step (LFinish c) s (System p (delete c (waiting s)))
| StepAllocate e c d s v m n f0 conn base m' :
    client_vm (px s) !! c = Some (Some v) -> waiting s !! c = None ->
    (x ← object_members d; int_field "nStreams" x 0) = Some n ->
    socket_pair e = inr (f0, conn) -> vm_heap (px s) !! v = Some m -> AllocateIo n c conn m = (base, m') ->
    step (LAllocated c v n base conn) s (System (fst (allocateIoHandler e c d (px s))) (waiting s))
| StepLost v s :
    step (LLost v) s (System (set_heap (alter vm_Close v (vm_heap (px s))) (px s)) (waiting s))
| StepIo v ok msg m s :
    vm_heap (px s) !! v = Some m -> vm_io_running m = true ->
    step (LIo v ok msg) s
      (System (set_heap (<[v := snd (ioHyperToClients ok msg m)]> (vm_heap (px s))) (px s)) (waiting s))
| StepCloseIo v seq s :
    step (LCloseIo v seq) s (System (set_heap (alter (CloseIo seq) v (vm_heap (px s))) (px s)) (waiting s)).

(** Executions from the start, with their labels, the last one first. *)
Inductive reachable (console : bool) : list label -> system -> Prop :=
| ReachInit : reachable console [] (system_init console)
| ReachStep ls l s s' : reachable console ls s -> step l s s' -> reachable console (l :: ls) s'.

(** Looking a command up in the table is the choice above. *)
Lemma dispatch_serve e c req p : dispatch serve_protocol e c req p = handler_start e c req p.
Proof.
  unfold dispatch, handler_start, serve_protocol, Handle, newProtocol, protocol. destruct (negb (str_nonempty (req_ID req))); [done|].
  repeat case_bool_decide; repeat match goal with H : req_ID req = _ |- _ => rewrite H; clear H end;
    repeat first [rewrite lookup_insert_eq|rewrite lookup_insert_ne by done|rewrite lookup_empty]; try done.
Qed.

(** ** What a step does to the VMs *)

(** Nothing but sessions removed, and the same container. *)
Definition vm_sub (m m' : vm) : Prop :=
  containerID m' = containerID m /\ nextIoBase m' = nextIoBase m /\
  forall k, ioSessions m' !! k = ioSessions m !! k \/ ioSessions m' !! k = None.

#[export] Instance vm_sub_preorder : PreOrder vm_sub.
Proof.
  split.
  - intros m. split_and!; [done..|]. by left.
  - intros m1 m2 m3 (E1 & N1 & H1) (E2 & N2 & H2). split_and!; [congruence..|]. intros k.
    destruct (H2 k) as [->|]; [apply H1|by right].
Qed.

Definition fresh_vm (m : vm) : Prop := nextIoBase m = 1 /\ ioSessions m = ∅.

Lemma vm_sub_setConsole path m : vm_sub m (setConsole path m).
Proof. split_and!; [done..|]. by left. Qed.
Lemma vm_sub_running b m : vm_sub m (set_running b m).
Proof. split_and!; [done..|]. by left. Qed.
Lemma vm_sub_Close m : vm_sub m (vm_Close m).
Proof. split_and!; [done..|]. intros k. right. apply lookup_empty. Qed.
Lemma delete_session_sub k seq ss i :
  delete_session k seq ss !! i = ss !! i \/ delete_session k seq ss !! i = None.
Proof.
  revert seq ss. induction k as [|k IH]; intros seq ss; [by left|]. cbn [delete_session].
  destruct (IH (u64 (seq + 1)) (delete seq ss)) as [->|]; [|by right].
  destruct (decide (i = seq)) as [->|]; [right; apply lookup_delete_eq|left; by rewrite lookup_delete_ne].
Qed.
Lemma vm_sub_CloseIo seq m : vm_sub m (CloseIo seq m).
Proof.
  unfold CloseIo. destruct (ioSessions m !! seq) as [x|]; [|reflexivity]. split_and!; [done..|].
  intros k. apply delete_session_sub.
Qed.
Lemma vm_sub_io ok msg m : vm_sub m (snd (ioHyperToClients ok msg m)).
Proof. unfold ioHyperToClients. repeat case_match; [reflexivity|apply vm_sub_running|reflexivity]. Qed.
#[export] Hint Resolve vm_sub_setConsole vm_sub_running vm_sub_Close vm_sub_CloseIo vm_sub_io : cc.

(** The heap after a step that allocates no I/O stream. *)
Inductive heap_step (h h' : list vm) : Prop :=
| HeapSub : Forall2 vm_sub h h' -> heap_step h h'
| HeapNew h1 m : Forall2 vm_sub h h1 -> fresh_vm m -> h' = h1 ++ [m] -> heap_step h h'.

Lemma heap_refl h : Forall2 vm_sub h h.
Proof. apply Forall_Forall2_diag, Forall_true. reflexivity. Qed.

Lemma heap_alter f v h : (forall m, vm_sub m (f m)) -> Forall2 vm_sub h (alter f v h).
Proof.
  intros Hf. revert v. induction h as [|m h IH]; intros [|v]; cbn; constructor; try reflexivity; auto using heap_refl.
Qed.

Lemma heap_alter_r f v h h' : (forall m, vm_sub m (f m)) -> Forall2 vm_sub h h' -> Forall2 vm_sub h (alter f v h').
Proof. intros Hf Hh. etrans; [exact Hh|by apply heap_alter]. Qed.

Lemma heap_insert v m m' h : h !! v = Some m -> vm_sub m m' -> Forall2 vm_sub h (<[v := m']> h).
Proof.
  intros Hv Hm. revert v Hv. induction h as [|x h IH]; intros [|v] Hv; cbn in *; try done.
  - constructor; [congruence|apply heap_refl].
  - constructor; [reflexivity|auto].
Qed.

Lemma start_heap e c req p p' r :
  handler_start e c req p = (p', r) -> is_allocate req = false \/ p' = p ->
  heap_step (vm_heap p) (vm_heap p').
Proof.
  unfold is_allocate. intros Hs [Ha| ->]; [|apply HeapSub, heap_refl]. revert Hs. unfold handler_start.
  apply bool_decide_eq_false in Ha. rewrite (bool_decide_false (req_ID req = "allocateIO")) by done.
  case_match; [intros [= <- <-]; apply HeapSub, heap_refl|].
  case_bool_decide.
  { unfold helloHandler, hello_start. destruct (unmarshal_hello _); [|intros [= <- <-]; apply HeapSub, heap_refl].
    destruct (vms p !! _); intros [= <- <-]; [apply HeapSub, heap_refl|]. cbn.
    eapply HeapNew; [apply heap_refl| |done]. done. }
  case_bool_decide.
  { unfold attachHandler. repeat case_match; simplify_eq; intros [= <- <-]; simplify_eq; apply HeapSub, heap_refl. }
  repeat case_match; intros [= <- <-]; apply HeapSub, heap_refl.
Qed.

Lemma finish_heap e c t p p' hr :
  handler_finish e c t p = (p', hr) -> Forall2 vm_sub (vm_heap p) (vm_heap p').
Proof.
  destruct t as [v hello r|v]; cbn [handler_finish]; [|intros [= <- <-]; apply heap_refl].
  unfold hello_finish. set (p1 := if _ && _ then _ else p).
  assert (Forall2 vm_sub (vm_heap p) (vm_heap p1)) as H1.
  { unfold p1. case_match; [apply heap_alter; auto with cc|apply heap_refl]. }
  destruct (connect_err e); intros [= <- <-]; cbn; [done|]. apply heap_alter_r; auto with cc.
Qed.

(** Labels that are no allocation. *)
Definition not_alloc (l : label) : Prop := match l with LAllocated _ _ _ _ _ => False | _ => True end.

#[export] Instance not_alloc_dec l : Decision (not_alloc l).
Proof. destruct l; apply _. Defined.

Lemma step_heap l s s' :
  step l s s' -> not_alloc l -> heap_step (vm_heap (px s)) (vm_heap (px s')).
Proof.
  destruct 1; intros Hl; cbn [px]; try done.
  - apply HeapSub, heap_refl.
  - by eapply start_heap.
  - eapply start_heap; [done|]. destruct (is_allocate req) eqn:E; [|by left]. right.
    unfold is_allocate in E. apply bool_decide_eq_true in E. unfold handler_start in H1. rewrite E in H1.
    cbn [str_nonempty negb] in H1. do 3 rewrite bool_decide_false in H1 by done.
    rewrite bool_decide_true in H1 by done. destruct (allocateIoHandler _ _ _ _). congruence.
  - apply HeapSub. by eapply finish_heap.
  - apply HeapSub, heap_alter. auto with cc.
  - eapply HeapSub, heap_insert; [done|]. auto with cc.
  - apply HeapSub, heap_alter. auto with cc.
Qed.

Lemma heap_step_lookup h h' v m :
  heap_step h h' -> h !! v = Some m -> exists m', h' !! v = Some m' /\ vm_sub m m'.
Proof.
  intros [Hf|h1 x Hf _ ->] Hv; destruct (Forall2_lookup_l _ _ _ _ _ Hf Hv) as (m' & Hm' & Hs); exists m'.
  - done.
  - split; [|done]. apply lookup_app_l_Some, Hm'.
Qed.

(** The allocation step, on the heap. *)
Lemma allocate_heap e c d p v m n f0 conn base m' :
  client_vm p !! c = Some (Some v) -> (x ← object_members d; int_field "nStreams" x 0) = Some n ->
  socket_pair e = inr (f0, conn) -> vm_heap p !! v = Some m -> AllocateIo n c conn m = (base, m') ->
  fst (allocateIoHandler e c d p) = set_heap (<[v := m']> (vm_heap p)) p.
Proof.
  intros Hc Hn He Hv Ha. unfold allocateIoHandler. by rewrite Hn, Hc, He, Hv, Ha.
Qed.

Lemma step_containers l s s' v m :
  step l s s' -> vm_heap (px s) !! v = Some m ->
  exists m', vm_heap (px s') !! v = Some m' /\ containerID m' = containerID m.
Proof.
  intros Hst Hv. destruct (decide (not_alloc l)) as [Hl|Hl].
  { destruct (heap_step_lookup _ _ _ _ (step_heap _ _ _ Hst Hl) Hv) as (m' & ? & ? & _). eauto. }
  destruct Hst; try (by destruct Hl). cbn [px].
  rewrite (allocate_heap _ _ _ _ _ _ _ _ _ _ _ H H1 H2 H3 H4). cbn.
  destruct (decide (v = v0)) as [->|].
  - rewrite list_lookup_insert_eq by by eapply lookup_lt_Some. eexists. split; [done|].
    injection H4 as <- <-. cbn. congruence.
  - rewrite list_lookup_insert_ne by done. eauto.
Qed.

(** ** The registry *)

(** The VM pointer [v] is valid, for container [id]. *)
Definition vm_named (h : list vm) (v : nat) (id : string) : Prop :=
  exists m, h !! v = Some m /\ containerID m = id.

Definition thread_ok (h : list vm) (t : thread) : Prop :=
  match t with
  | HelloConnecting v hello _ => vm_named h v (h_ContainerID hello)
  | ByeDeleting v => is_Some (h !! v)
  end.

(** Every registered VM exists and is registered under its own name; the VMs
    of the clients and of the handlers that wait exist. *)
Record registry_ok (s : system) : Prop := {
  reg_vms id v : vms (px s) !! id = Some v -> vm_named (vm_heap (px s)) v id;
  reg_clients c v : client_vm (px s) !! c = Some (Some v) -> is_Some (vm_heap (px s) !! v);
  reg_waiting c t : waiting s !! c = Some t -> thread_ok (vm_heap (px s)) t
}.

(** How a step changes the registry and the clients. *)
Record registry_step (p p' : proxy) : Prop := {
  rs_vms id v : vms p' !! id = Some v -> vms p !! id = Some v \/ vm_named (vm_heap p') v id;
  rs_clients c v : client_vm p' !! c = Some (Some v) ->
    client_vm p !! c = Some (Some v) \/ is_Some (vm_heap p' !! v)
}.

Lemma registry_same h p : registry_step p (set_heap h p).
Proof. split; by left. Qed.

Lemma registry_client p c (v : option nat) :
  (forall x, v = Some x -> is_Some (vm_heap p !! x)) -> registry_step p (set_client_vm c v p).
Proof.
  intros Hv. split; [by left|]. intros c' v' Hc. cbn in Hc. destruct (decide (c' = c)) as [->|].
  - rewrite lookup_insert_eq in Hc. right. cbn. apply Hv. congruence.
  - rewrite lookup_insert_ne in Hc by done. by left.
Qed.

Lemma start_registry e c req s p r :
  registry_ok s -> handler_start e c req (px s) = (p, r) ->
  registry_step (px s) p /\ (forall t, r = Pending t -> thread_ok (vm_heap p) t).
Proof.
  intros [Hv Hc Hw]. assert (registry_step (px s) (px s)) as Hid by (split; by left).
  unfold handler_start. case_match; [by intros [= <- <-]|]. case_bool_decide.
  { unfold helloHandler, hello_start. destruct (unmarshal_hello _) as [hello|]; [|by intros [= <- <-]].
    destruct (vms (px s) !! _) eqn:E; [by intros [= <- <-]|]. set (hr := if _ || _ then _ else _).
    intros [= <- <-]. clearbody hr.
    set (x := newVM _ _ _). assert (vm_named (vm_heap (px s) ++ [x]) (length (vm_heap (px s))) (h_ContainerID hello)) as Hx.
    { exists x. split; [|done]. rewrite lookup_app_r, Nat.sub_diag by done. done. }
    split; [|intros t [= <-]; exact Hx]. split; [|by left]. cbn. intros id v Hid'.
    destruct (decide (id = h_ContainerID hello)) as [->|].
    - rewrite lookup_insert_eq in Hid'. injection Hid' as <-. by right.
    - rewrite lookup_insert_ne in Hid' by done. by left. }
  case_bool_decide.
  { unfold attachHandler. destruct (unmarshal_container _) as [id|]; [|by intros [= <- <-]].
    destruct (vms (px s) !! id) as [v|] eqn:E; [|by intros [= <- <-]]. intros [= <- <-]. split; [|done].
    apply registry_client. intros x [= <-]. destruct (Hv _ _ E) as (m & Hm & _). by exists m. }
  case_bool_decide.
  { unfold bye_start. destruct (unmarshal_container _) as [id|]; [|by intros [= <- <-]].
    destruct (vms (px s) !! id) as [v|] eqn:E; [|by intros [= <- <-]]. intros [= <- <-]. split; [done|].
    intros t [= <-]. destruct (Hv _ _ E) as (m & Hm & _). by exists m. }
  case_bool_decide.
  { unfold allocateIoHandler. repeat case_match; intros [= <- <-]; simplify_eq; split; try done; apply registry_same. }
  case_bool_decide; by intros [= <- <-].
Qed.

Lemma finish_registry e c t s p hr :
  registry_ok s -> waiting s !! c = Some t -> handler_finish e c t (px s) = (p, hr) ->
  registry_step (px s) p.
Proof.
  intros Hok Ht Hf. pose proof (finish_heap _ _ _ _ _ _ Hf) as Hh. destruct Hok as [Hv Hc Hw].
  specialize (Hw _ _ Ht). revert Hf. destruct t as [v hello r|v]; cbn [handler_finish].
  - destruct Hw as (m & Hm & _). destruct (Forall2_lookup_l _ _ _ _ _ Hh Hm) as (m' & Hm' & _).
    unfold hello_finish. set (p1 := if _ && _ then _ else _).
    assert (vms p1 = vms (px s) /\ client_vm p1 = client_vm (px s)) as [E1 E2] by (unfold p1; by case_match).
    destruct (connect_err e); intros [= <- <-]; split; cbn; rewrite ?E1, ?E2; try (by left).
    + intros id x Hx. left. rewrite lookup_delete_Some in Hx. tauto.
    + intros c' v' Hx. destruct (decide (c' = c)) as [->|]; [|left; by rewrite lookup_insert_ne in Hx].
      rewrite lookup_insert_eq in Hx. injection Hx as <-. right. cbn in Hm'. by exists m'.
  - unfold bye_finish. intros [= <- <-]. split; cbn.
    + intros id x Hx. left. rewrite lookup_delete_Some in Hx. tauto.
    + intros c' v' Hx. destruct (decide (c' = c)) as [->|]; [by rewrite lookup_insert_eq in Hx|].
      rewrite lookup_insert_ne in Hx by done. by left.
Qed.

Lemma registry_init console : registry_ok (system_init console).
Proof. split; cbn; intros ? ?; by rewrite lookup_empty. Qed.

Lemma vm_named_mono s s' l v id :
  step l s s' -> vm_named (vm_heap (px s)) v id -> vm_named (vm_heap (px s')) v id.
Proof. intros Hst (m & Hm & <-). eapply step_containers; done. Qed.

Lemma step_registry l s s' : step l s s' -> registry_ok s ->
  registry_step (px s) (px s') /\ forall c t, waiting s' !! c = Some t -> waiting s !! c = Some t \/ thread_ok (vm_heap (px s')) t.
Proof.
  intros Hst Hok. destruct Hst; cbn [px waiting]; try (split; [apply registry_same|by left]).
  - split; [by apply registry_client|by left].
  - split; [|by left]. by eapply start_registry.
  - edestruct start_registry as [Hr Ht]; [done..|]. split; [done|]. intros c' t' Hc'.
    destruct (decide (c' = c)) as [->|]; [|left; by rewrite lookup_insert_ne in Hc'].
    rewrite lookup_insert_eq in Hc'. injection Hc' as <-. right. by apply Ht.
  - split; [by eapply finish_registry|]. intros c' t' Hc'. left. rewrite lookup_delete_Some in Hc'. tauto.
  - rewrite (allocate_heap _ _ _ _ _ _ _ _ _ _ _ H H1 H2 H3 H4). split; [apply registry_same|by left].
Qed.

(** C1.  The registry of the proxy stays consistent under any interleaving of the
    clients' requests, the VMs' ends and their I/O: a VM is always
    registered under its own container's name, and every VM a client or a
    waiting handler refers to exists. *)
Theorem registry_invariant (console : bool) (ls : list label) (s : system) :
  reachable console ls s -> registry_ok s.
Proof.
  induction 1 as [|ls l s s' _ IH Hst]; [apply registry_init|].
  destruct (step_registry _ _ _ Hst IH) as [[Rv Rc] Rw]. destruct IH as [Hv Hc Hw].
  assert (forall v, is_Some (vm_heap (px s) !! v) -> is_Some (vm_heap (px s') !! v)) as Hmono.
  { intros v [m Hm]. destruct (step_containers _ _ _ _ _ Hst Hm) as (m' & ? & _). by exists m'. }
  split.
  - intros id v Hid. destruct (Rv _ _ Hid) as [?|?]; [|done]. eapply vm_named_mono; eauto.
  - intros c v Hcv. destruct (Rc _ _ Hcv) as [?|?]; [|done]. eauto.
  - intros c t Ht. destruct (Rw _ _ Ht) as [Ht'|?]; [|done]. specialize (Hw _ _ Ht').
    destruct t; cbn in *; [by eapply vm_named_mono|auto].
Qed.

(** ** I/O sequence numbers *)

(** What is known of an allocation recorded in the labels. *)
Definition allocated_ok (s : system) (c : Z) (v : nat) (n base conn : Z) : Prop :=
  exists m, vm_heap (px s) !! v = Some m /\ 1 <= base /\ base + n <= nextIoBase m /\
    forall seq, base <= seq < base + n ->
      ioSessions m !! seq = None \/ ioSessions m !! seq = Some (IoSession n base c conn).

Definition heap_bound (k : Z) (h : list vm) : Prop := Forall (fun m => 1 <= nextIoBase m <= k) h.

(** At most two streams are asked for, as the runtime does. *)
Definition streams_ok (l : label) : Prop :=
  match l with LAllocated _ _ n _ _ => 1 <= n <= 2 | _ => True end.

Lemma insert_session_lookup k i s ss seq :
  0 <= ioBase s + i -> ioBase s + i + Z.of_nat k <= 2 ^ 64 ->
  insert_session k i s ss !! seq =
    if decide (ioBase s + i <= seq < ioBase s + i + Z.of_nat k) then Some s else ss !! seq.
Proof.
  revert i ss. induction k as [|k IH]; intros i ss Hi Hb; cbn [insert_session].
  - rewrite decide_False by lia. done.
  - rewrite IH by lia. rewrite wrapu_small by lia. destruct (decide (seq = ioBase s + i)) as [->|].
    + rewrite decide_False, decide_True by lia. apply lookup_insert_eq.
    + rewrite lookup_insert_ne by done. repeat case_decide; (done || lia).
Qed.

Lemma heap_step_bound k h h' : 1 <= k -> heap_step h h' -> heap_bound k h -> heap_bound k h'.
Proof.
  intros Hk Hs Hb. assert (forall h1, Forall2 vm_sub h h1 -> heap_bound k h1) as Hsub.
  { clear Hs. induction 1 as [|m m' h h1 (_ & Hn & _) _ IH]; [constructor|]. apply Forall_cons in Hb as [? ?].
    constructor; [by rewrite Hn|by apply IH]. }
  destruct Hs as [Hf|h1 m Hf [Hn _] ->]; [auto|]. apply Forall_app. split; [by apply Hsub|].
  constructor; [lia|done].
Qed.

Lemma allocated_ok_sub s s' c v n base conn :
  heap_step (vm_heap (px s)) (vm_heap (px s')) ->
  allocated_ok s c v n base conn -> allocated_ok s' c v n base conn.
Proof.
  intros Hh (m & Hm & Hb & Hn & Hs). destruct (heap_step_lookup _ _ _ _ Hh Hm) as (m' & Hm' & _ & En & Es).
  exists m'. split_and!; [done..|lia|]. intros seq Hseq. destruct (Es seq) as [->|]; [auto|by left].
Qed.

Lemma allocated_ok_alloc s c v n base conn m m' c0 v0 n0 base0 conn0 w :
  vm_heap (px s) !! v0 = Some m -> AllocateIo n0 c0 conn0 m = (base0, m') ->
  1 <= n0 <= 2 -> 1 <= nextIoBase m < 2 ^ 63 -> 0 <= n ->
  allocated_ok s c v n base conn ->
  allocated_ok (System (set_heap (<[v0 := m']> (vm_heap (px s))) (px s)) w) c v n base conn.
Proof.
  intros Hv0 Ha Hn0 Hb0 Hn (m1 & Hm & Hb & Hnx & Hs). destruct (decide (v = v0)) as [->|].
  2:{ exists m1. cbn. rewrite list_lookup_insert_ne by done. done. }
  rewrite Hv0 in Hm. injection Hm as <-. injection Ha as <- <-. eexists. cbn.
  rewrite list_lookup_insert_eq by by eapply lookup_lt_Some. split; [done|]. cbn.
  rewrite !wrapu_small by (rewrite ?wrapu_small; lia). split_and!; [lia|lia|]. intros seq Hseq.
  rewrite insert_session_lookup by (cbn; lia). cbn. rewrite decide_False by lia. auto.
Qed.

Lemma allocated_ok_new s c v n base conn m m' w :
  vm_heap (px s) !! v = Some m -> AllocateIo n c conn m = (base, m') ->
  1 <= n <= 2 -> 1 <= nextIoBase m < 2 ^ 63 ->
  allocated_ok (System (set_heap (<[v := m']> (vm_heap (px s))) (px s)) w) c v n base conn /\
  nextIoBase m' = nextIoBase m + n.
Proof.
  intros Hv Ha Hn Hb. injection Ha as <- <-. cbn [nextIoBase set_sessions].
  assert (u64 (nextIoBase m + u64 n) = nextIoBase m + n) as E by (rewrite !wrapu_small by (rewrite ?wrapu_small; lia); done).
  split; [|done]. eexists. cbn.
  rewrite list_lookup_insert_eq by by eapply lookup_lt_Some. split; [done|]. cbn. rewrite E.
  split_and!; [lia|lia|]. intros seq Hseq. rewrite insert_session_lookup by (cbn; lia). cbn.
  rewrite decide_True by lia. by right.
Qed.

Definition alloc_inv (ls : list label) (s : system) : Prop :=
  heap_bound (1 + 2 * Z.of_nat (length ls)) (vm_heap (px s)) /\
  forall c v n base conn, LAllocated c v n base conn ∈ ls -> allocated_ok s c v n base conn.

Lemma heap_bound_mono k k' h : k <= k' -> heap_bound k h -> heap_bound k' h.
Proof. intros Hk Hb. eapply Forall_impl; [exact Hb|]. cbn. lia. Qed.

Lemma alloc_inv_step ls l s s' :
  (Z.of_nat (length ls) < 2 ^ 61) -> Forall streams_ok (l :: ls) ->
  step l s s' -> alloc_inv ls s -> alloc_inv (l :: ls) s'.
Proof.
  intros Hlen Hok Hst [Hbd Hal]. apply Forall_cons in Hok as [Hl Hok]. rewrite Forall_forall in Hok.
  destruct (decide (not_alloc l)) as [Hna|Hna].
  { pose proof (step_heap _ _ _ Hst Hna) as Hh. split.
    - apply (heap_step_bound _ (vm_heap (px s))); [cbn; lia|done|]. eapply heap_bound_mono; [|exact Hbd]. cbn. lia.
    - intros c v n base conn [<-|Hin]%elem_of_cons; [done|]. eapply allocated_ok_sub; eauto. }
  destruct Hst; try (by destruct Hna). cbn [streams_ok] in Hl.
  rewrite (allocate_heap _ _ _ _ _ _ _ _ _ _ _ H H1 H2 H3 H4).
  assert (1 <= nextIoBase m <= 1 + 2 * Z.of_nat (length ls)) as Hm.
  { unfold heap_bound in Hbd. rewrite Forall_lookup in Hbd. by eapply Hbd. }
  edestruct allocated_ok_new as [Hnew Hnext]; [exact H3|exact H4|done|lia|]. split.
  - cbn [px]. apply Forall_insert; [|cbn; lia]. eapply heap_bound_mono; [|exact Hbd]. cbn. lia.
  - intros c' v' n' base' conn' Hin. apply elem_of_cons in Hin as [E|Hin].
    + injection E as -> -> -> -> ->. exact Hnew.
    + eapply allocated_ok_alloc; [done..|lia| |by apply Hal]. specialize (Hok _ Hin). cbn in Hok. lia.
Qed.

Lemma alloc_inv_reachable console ls s :
  reachable console ls s -> Z.of_nat (length ls) <= 2 ^ 61 -> Forall streams_ok ls -> alloc_inv ls s.
Proof.
  intros Hr Hlen Hok. induction Hr as [|ls l s s' _ IH Hst].
  - split; [constructor|]. by intros ? ? ? ? ? ?%not_elem_of_nil.
  - cbn in Hlen. eapply alloc_inv_step; [|done..|]; [lia|]. apply IH; [lia|]. by apply Forall_cons in Hok as [_ ?].
Qed.

(** C2.  I/O streams are never mixed up: if a client was given the sequence numbers
    from [base] to [base + n - 1] of a VM, then at any later time, whatever
    the other clients, the VM and the closing of sessions did, output the VM
    sends with one of these numbers goes to the connection of that client,
    or to nobody.  This is for executions in which every allocation was for one
    or two streams, as the runtime asks for them, and of at most 2^61 steps, so
    that the 64-bit counter does not wrap around.  The first is not enforced by the
    proxy: [allocateIoHandler] records an error for other counts and goes on, and
    after a negative one numbers are given out twice
    ([negative_streams_reuse]). *)
Theorem io_delivery (console : bool) (ls : list label) (s : system) (c : Z) (v : nat) (n base conn seq : Z)
    (m : vm) (data : string) (ok : bool) :
  reachable console ls s -> Z.of_nat (length ls) <= 2 ^ 61 -> Forall streams_ok ls ->
  LAllocated c v n base conn ∈ ls -> base <= seq < base + n -> vm_heap (px s) !! v = Some m ->
  fst (ioHyperToClients ok (Tty seq data) m) = None \/
  fst (ioHyperToClients ok (Tty seq data) m) = Some (conn, Tty seq data).
Proof.
  intros Hr Hlen Hok Hin Hseq Hm. destruct (alloc_inv_reachable _ _ _ Hr Hlen Hok) as [_ Hal].
  destruct (Hal _ _ _ _ _ Hin) as (m0 & Hm0 & _ & _ & Hs). rewrite Hm in Hm0. injection Hm0 as <-.
  unfold ioHyperToClients, findSession. cbn [tty_session]. destruct (Hs seq Hseq) as [->| ->]; [by left|].
  destruct ok; [by right|by left].
Qed.

(** ** Messages *)

Lemma read_n_bytes n conn a b :
  String.length a = n -> conn_bytes conn = a +:+ b ->
  exists conn', read_n n conn = Some (a, conn') /\ conn_bytes conn' = b.
Proof.
  revert n a. induction conn as [|c conn IH]; intros n a Ha E; cbn [read_n].
  - destruct a as [|x a]; [|done]. subst n. by exists [].
  - rewrite conn_bytes_cons in E. destruct (Nat.eqb_spec n 0) as [->|Hn].
    { destruct a as [|x a]; [|done]. exists (c :: conn). by rewrite conn_bytes_cons. }
    destruct (Nat.leb_spec (String.length c) n) as [Hl|Hl].
    + destruct (str_app_prefix c (conn_bytes conn) a b) as [Hc Hr]; [lia|done|].
      destruct (IH (n - String.length c)%nat (str_drop (String.length c) a)) as (conn' & -> & Hb);
        [rewrite str_drop_length; lia|done|]. exists conn'. cbn. split; [|done].
      rewrite Hc at 1. by rewrite str_take_drop.
    + destruct (str_app_prefix a b c (conn_bytes conn)) as [Hc Hr]; [lia|done|]. rewrite Ha in *.
      eexists. rewrite <- Hc. split; [done|]. by rewrite conn_bytes_cons.
Qed.

(** Reading a framed message, once the header can be read at once. *)
Lemma read_message_frame m c conn tail :
  Z.of_nat (String.length m) < 2 ^ 32 -> (8 <= String.length c)%nat ->
  conn_bytes (c :: conn) = frame m +:+ tail ->
  exists conn', ReadMessage (c :: conn) = Some (m, conn') /\ conn_bytes conn' = tail.
Proof.
  intros Hm Hc E. unfold ReadMessage, headerLength. cbn [mbind option_bind].
  assert (exists hdr conn1, go_read 8 (c :: conn) = Some (hdr, conn1) /\ String.length hdr = 8%nat)
    as (hdr & conn1 & Hr & Hl).
  { cbn [go_read]. destruct (Nat.leb_spec (String.length c) 8).
    - exists c, conn. split; [done|lia].
    - eexists _, _. split; [done|]. rewrite str_take_length_min. lia. }
  rewrite Hr. cbn [mbind option_bind]. rewrite Hl. cbn [negb Nat.eqb].
  apply go_read_bytes in Hr as [Hb _]. rewrite E in Hb. unfold frame in Hb.
  rewrite <- (str_app_assoc (be_bytes 4 _)) in Hb.
  set (h := be_bytes 4 _ +:+ be_bytes 4 0) in Hb.
  assert (String.length h = 8%nat) as Hh by (unfold h; by rewrite str_length_app, !be_bytes_length).
  rewrite str_app_assoc in Hb. destruct (str_app_prefix hdr (conn_bytes conn1) h (m +:+ tail)) as [Eh Er];
    [lia|done|]. rewrite Hl, str_take_all in Eh by lia. subst hdr.
  assert (be_field 0 4 h = Z.of_nat (String.length m)) as ->.
  { unfold h. rewrite be_field_head. apply Z.mod_small. lia. }
  rewrite Nat2Z.id. apply read_n_bytes; [done|].
  rewrite Er, Hl, str_drop_all by lia. done.
Qed.

Lemma write_message_frame data :
  Z.of_nat (String.length data) < 2 ^ 32 -> String.concat EmptyString (WriteMessage data) = frame data.
Proof. intros H. unfold WriteMessage, frame. cbn. rewrite wrapu_small by lia. by rewrite str_app_assoc. Qed.

(** The messages the proxy's library writes are those it reads, whatever
    pieces they arrive in after the header, and what follows is untouched. *)
Theorem protocol_roundtrip (data c : string) (conn : go_conn) (tail : string) :
  Z.of_nat (String.length data) < 2 ^ 32 -> (headerLength <= String.length c)%nat ->
  conn_bytes (c :: conn) = String.concat EmptyString (WriteMessage data) +:+ tail ->
  exists conn', ReadMessage (c :: conn) = Some (data, conn') /\ conn_bytes conn' = tail.
Proof. intros Hd Hc E. rewrite write_message_frame in E by done. by apply read_message_frame. Qed.

Lemma protocol_roundtrip_witness :
  exists conn', ReadMessage [str_take 9 (frame "hello"); str_drop 9 (frame "hello") +:+ "rest"] = Some ("hello", conn') /\
    conn_bytes conn' = "rest".
Proof. apply (protocol_roundtrip "hello"); [reflexivity|vm_compute; lia|vm_compute; reflexivity]. Defined.

(** ** Executions worth knowing *)

Definition env_ok : environment := Env None (inr (7, 8)) None.

Definition hello_request (id : string) : Request :=
  MkRequest "hello" (Some (JObject [("containerId", JString id); ("ctlSerial", JString "/ctl"); ("ioSerial", JString "/tty")])).
Definition attach_request (id : string) : Request :=
  MkRequest "attach" (Some (JObject [("containerId", JString id)])).
Definition bye_request (id : string) : Request := MkRequest "bye" (Some (JObject [("containerId", JString id)])).
Definition allocate_request (n : Z) : Request := MkRequest "allocateIO" (Some (JObject [("nStreams", JInt n)])).

Definition one_client : proxy := Proxy ∅ [] {[1 := None]} false.

(** The requests of one client, one after the other. *)
Definition serve_all (l : list Request) (p : proxy) : proxy :=
  fold_left (fun p r => fst (handleRequest env_ok 1 r p)) l p.

(** A hello without the serial paths is answered with an error, and yet its VM
    is registered and the client attached to it. *)
Example malformed_hello_registers :
  let '(p, hr) := handleRequest env_ok 1 (MkRequest "hello" (Some (JObject [("containerId", JString "c1")]))) one_client in
  resp_Success (response_of hr) = false /\ vms p !! "c1" = Some 0%nat /\ client_vm p !! 1 = Some (Some 0%nat).
Proof. vm_compute. split_and!; reflexivity. Qed.

(** A negative number of streams is answered with an error, and yet it moves
    the next sequence number back: the numbers of a live session are given
    out again, and its output goes to another connection. *)
Example negative_streams_reuse :
  let p := serve_all [hello_request "c1"; allocate_request 2] one_client in
  let p' := fst (handleRequest (Env None (inr (9, 10)) None) 1 (allocate_request 2)
                   (serve_all [allocate_request (-2)] p)) in
  match vm_heap p !! 0%nat, vm_heap p' !! 0%nat with
  | Some m, Some m' =>
      fst (ioHyperToClients true (Tty 1 "x") m) = Some (8, Tty 1 "x") /\
      fst (ioHyperToClients true (Tty 1 "x") m') = Some (10, Tty 1 "x")
  | _, _ => False
  end.
Proof. vm_compute. split; reflexivity. Qed.

(** The steps as functions, to build executions. *)
Definition do_connect (c : Z) (s : system) : system := System (set_client_vm c None (px s)) (waiting s).
Definition do_request (c : Z) (req : Request) (s : system) : system :=
  match handler_start env_ok c req (px s) with
  | (p, Responded _) => System p (waiting s)
  | (p, Pending t) => System p (<[c := t]> (waiting s))
  end.
Definition do_finish (c : Z) (s : system) : system :=
  match waiting s !! c with
  | None => s
  | Some t => System (fst (handler_finish env_ok c t (px s))) (delete c (waiting s))
  end.

Definition free_client (c : Z) (s : system) : bool :=
  match client_vm (px s) !! c, waiting s !! c with Some _, None => true | _, _ => false end.

Lemma reach_connect b ls c s :
  reachable b ls s -> client_vm (px s) !! c = None -> reachable b (LConnect c :: ls) (do_connect c s).
Proof. intros Hr Hc. eapply ReachStep; [done|]. by constructor. Qed.

Lemma reach_request b ls c req s :
  reachable b ls s -> free_client c s && negb (is_allocate req) = true ->
  reachable b (LRequest c req :: ls) (do_request c req s).
Proof.
  intros Hr [Hf Ha]%andb_true_iff. apply negb_true_iff in Ha. eapply ReachStep; [done|]. unfold free_client in Hf.
  destruct (client_vm (px s) !! c) eqn:Ec; [|done]. destruct (waiting s !! c) eqn:Ew; [done|].
  unfold do_request. destruct (handler_start env_ok c req (px s)) as [p [hr|t]] eqn:E.
  - eapply StepRespond; eauto.
  - eapply StepWait; eauto.
Qed.

Lemma reach_finish b ls c s :
  reachable b ls s -> bool_decide (is_Some (waiting s !! c)) = true ->
  reachable b (LFinish c :: ls) (do_finish c s).
Proof.
  intros Hr [t Ht]%bool_decide_eq_true. eapply ReachStep; [done|]. unfold do_finish. rewrite Ht.
  destruct (handler_finish env_ok c t (px s)) eqn:E. by eapply StepFinish.
Qed.

Ltac reach :=
  first [ exact (ReachInit _)
        | eapply reach_finish; [|vm_compute; reflexivity]
        | eapply reach_request; [|vm_compute; reflexivity]
        | eapply reach_connect; [|vm_compute; reflexivity] ].

(** Two byes for the same container, interleaved with a new hello for it: the
    slower bye removes the new VM, to which nobody said bye. *)
Definition bye_race : system :=
  do_finish 1 (do_finish 3 (do_request 3 (hello_request "c1") (do_finish 2 (do_request 2 (bye_request "c1")
    (do_request 1 (bye_request "c1") (do_finish 1 (do_request 1 (hello_request "c1")
      (do_connect 3 (do_connect 2 (do_connect 1 (system_init false))))))))))).

Example bye_race_reachable :
  (exists ls, reachable false ls bye_race) /\
  client_vm (px bye_race) !! 3 = Some (Some 1%nat) /\ vms (px bye_race) !! "c1" = None.
Proof. split; [|vm_compute; split; reflexivity]. eexists. unfold bye_race. repeat reach. Qed.

Definition two_sessions : system :=
  do_finish 1 (do_request 1 (hello_request "c1") (do_connect 1 (system_init false))).

Lemma registry_invariant_witness : registry_ok two_sessions.
Proof.
  eapply (registry_invariant false). unfold two_sessions. repeat reach.
Defined.

Lemma io_delivery_witness :
  let s := System (fst (allocateIoHandler env_ok 1 (req_Data (allocate_request 2)) (px two_sessions)))
             (waiting two_sessions) in
  match vm_heap (px s) !! 0%nat with
  | Some m =>
      fst (ioHyperToClients true (Tty 2 "err") m) = None \/
      fst (ioHyperToClients true (Tty 2 "err") m) = Some (8, Tty 2 "err")
  | None => False
  end.
Proof.
  intros s.
  assert (exists ls, reachable false ls two_sessions /\ Forall streams_ok ls /\ length ls = 3%nat) as (ls & Hr & Hok & Hlen).
  { eexists. split; [unfold two_sessions; repeat reach|]. split; [repeat constructor|reflexivity]. }
  destruct (vm_heap (px s) !! 0%nat) as [m|] eqn:E; [|vm_compute in E; discriminate].
  apply (io_delivery false (LAllocated 1 0 2 1 8 :: ls) s 1 0 2 1 8 2 m "err" true).
  - eapply ReachStep; [exact Hr|]. eapply StepAllocate with (m := Vm "c1" "/ctl" "/tty" EmptyString 1 ∅ true); reflexivity.
  - simpl. rewrite Hlen. lia.
  - constructor; [simpl; lia|exact Hok].
  - left.
  - lia.
  - exact E.
Defined.
