(* ===== verification/Streams.v ===== *)
(** * Which connection gets which stream

    The sessions of the VMs of src/proxy/vm.go along the executions of the proxy:
    the numbers allocated to a client lead to its connection, and no others do,
    until the VM is lost or the streams are closed. *)

From S2P Require Import Prelude GLib Sys Types Util Wire Hyperstart GoProxy.

(** ** Sessions *)

(** The numbers a connection gets the output of. *)
Definition owned (v : vm) (conn base n : Z) : Prop := forall seq,
  base <= seq < base + n <-> exists s, findSession v seq = Some s /\ session_client s = conn.

(** An allocation for a new connection gives it these numbers and no others, *)
Lemma allocate_owned n id conn v base v' :
  0 <= n -> 0 <= nextIoBase v -> nextIoBase v + n < 2 ^ 64 ->
  (forall seq s, findSession v seq = Some s -> session_client s <> conn) ->
  AllocateIo n id conn v = (base, v') -> owned v' conn base n.
Proof.
  intros Hn Hb Hlt Hnew [= <- <-] seq. unfold findSession. cbn [ioSessions set_sessions].
  rewrite insert_session_lookup by (cbn; lia). cbn [ioBase]. rewrite Z.add_0_r, Z2Nat.id by lia.
  case_decide as Hseq; [split; [by eexists|done]|]. split; [done|]. intros (s & Hs & <-). by edestruct Hnew.
Qed.

(** and an allocation for another connection changes nothing about it. *)
Lemma allocate_owned_other n id other v conn base k base' v' :
  0 <= n -> 0 <= nextIoBase v -> nextIoBase v + n < 2 ^ 64 -> base + k <= nextIoBase v -> other <> conn ->
  owned v conn base k -> AllocateIo n id other v = (base', v') -> owned v' conn base k.
Proof.
  intros Hn Hb Hlt Hk Hne Ho [= <- <-] seq. unfold findSession. cbn [ioSessions set_sessions].
  rewrite insert_session_lookup by (cbn; lia). cbn [ioBase]. rewrite Z.add_0_r, Z2Nat.id by lia.
  case_decide as Hseq; [|apply Ho]. split; [lia|]. intros (s & [= <-] & Hs). done.
Qed.

(** ** Along an execution *)

(** The labels that remove sessions of a VM. *)
Definition closes (v : nat) (l : label) : Prop := match l with LLost v' | LCloseIo v' _ => v' = v | _ => False end.

(** An execution up to now in which these numbers were allocated to a connection of
    their own, and nothing was closed for the VM since; [m] is the VM. *)
Definition attached (console : bool) (v : nat) (conn base n : Z) (m : vm) : Prop :=
  exists ls2 ls1 c s, let ls := ls2 ++ LAllocated c v n base conn :: ls1 in
    reachable console ls s /\ Z.of_nat (length ls) <= 2 ^ 61 /\ Forall streams_ok ls /\
    (forall c' v' n' base', LAllocated c' v' n' base' conn ∉ ls2 ++ ls1) /\ Forall (fun l => ~ closes v l) ls2 /\
    vm_heap (px s) !! v = Some m.

Lemma start_heap_shape e c req p p' r :
  handler_start e c req p = (p', r) -> is_allocate req = false \/ p' = p ->
  vm_heap p' = vm_heap p \/ exists m, vm_heap p' = vm_heap p ++ [m].
Proof.
  unfold is_allocate. intros Hs [Ha| ->]; [|by left]. revert Hs. unfold handler_start.
  apply bool_decide_eq_false in Ha. rewrite (bool_decide_false (req_ID req = "allocateIO")) by done.
  case_match; [intros [= <- <-]; by left|]. case_bool_decide.
  { unfold helloHandler, hello_start. destruct (unmarshal_hello _); [|intros [= <- <-]; by left].
    destruct (vms p !! _); intros [= <- <-]; [by left|right; by eexists]. }
  case_bool_decide.
  { unfold attachHandler. repeat case_match; simplify_eq; intros [= <- <-]; simplify_eq; by left. }
  repeat case_match; intros [= <- <-]; by left.
Qed.

(** The sessions of a VM, if it exists. *)
Definition sessions_at (h : list vm) (v : nat) : option (gmap Z ioSession) := ioSessions <$> h !! v.

Lemma sessions_alter f v v' h : (forall m, ioSessions (f m) = ioSessions m) -> sessions_at (alter f v' h) v = sessions_at h v.
Proof.
  intros Hf. unfold sessions_at. destruct (decide (v' = v)) as [->|]; [|by rewrite list_lookup_alter_ne].
  rewrite list_lookup_alter_eq. destruct (h !! v); cbn; [|done]. by rewrite Hf.
Qed.

Lemma finish_sessions e c t p p' hr v : handler_finish e c t p = (p', hr) -> sessions_at (vm_heap p') v = sessions_at (vm_heap p) v.
Proof.
  destruct t as [v0 hello r|v0]; cbn [handler_finish]; [|by intros [= <- <-]]. unfold hello_finish.
  set (p1 := if _ && _ then _ else p). assert (sessions_at (vm_heap p1) v = sessions_at (vm_heap p) v) as <-
    by (unfold p1; case_match; [by apply sessions_alter|done]).
  destruct (connect_err e); intros [= <- <-]; [done|]. by apply sessions_alter.
Qed.

(** Other steps leave the sessions of the VM alone. *)
Lemma step_sessions l s s' v ss :
  step l s s' -> not_alloc l -> ~ closes v l -> sessions_at (vm_heap (px s)) v = Some ss -> sessions_at (vm_heap (px s')) v = Some ss.
Proof.
  intros Hst Hna Hcl Hv.
  assert (forall h m, h = vm_heap (px s) \/ h = vm_heap (px s) ++ [m] -> sessions_at h v = Some ss) as Hnew.
  { unfold sessions_at in *. intros h m [->| ->]; [done|]. apply fmap_Some in Hv as (x & Hx & ->). by rewrite (lookup_app_l_Some _ _ _ _ Hx). }
  destruct Hst; cbn [px not_alloc closes] in *; try done.
  - destruct (start_heap_shape _ _ _ _ _ _ H2 H1) as [Hh|[m Hh]]; [by rewrite Hh|by eapply Hnew; right].
  - edestruct start_heap_shape as [Hh|[m Hh]]; [exact H1| |by rewrite Hh|by eapply Hnew; right].
    destruct (is_allocate req) eqn:E; [|by left]. right.
    unfold is_allocate in E. apply bool_decide_eq_true in E. unfold handler_start in H1. rewrite E in H1.
    cbn [str_nonempty negb] in H1. do 3 rewrite bool_decide_false in H1 by done.
    rewrite bool_decide_true in H1 by done. destruct (allocateIoHandler _ _ _ _). congruence.
  - by rewrite (finish_sessions _ _ _ _ _ _ _ H0).
  - unfold sessions_at in *. cbn. by rewrite list_lookup_alter_ne by congruence.
  - unfold sessions_at in *. cbn. destruct (decide (v0 = v)) as [->|]; [|by rewrite list_lookup_insert_ne].
    rewrite H in Hv. rewrite list_lookup_insert_eq by by eapply lookup_lt_Some. rewrite <- Hv. cbn. f_equal.
    unfold ioHyperToClients. by repeat case_match.
  - unfold sessions_at in *. cbn. by rewrite list_lookup_alter_ne by congruence.
Qed.

(** Every session was allocated. *)
Lemma sessions_allocated console ls s :
  reachable console ls s -> Z.of_nat (length ls) <= 2 ^ 61 -> Forall streams_ok ls ->
  forall v m seq x, vm_heap (px s) !! v = Some m -> ioSessions m !! seq = Some x ->
  exists c n base, LAllocated c v n base (session_client x) ∈ ls /\ base <= seq < base + n.
Proof.
  intros Hr. induction Hr as [|ls l s s' Hr IH Hst]; intros Hlen Hok v m seq x Hm Hx; [done|].
  apply Forall_cons in Hok as [Hl Hok]. cbn [length] in Hlen. specialize (IH ltac:(lia) Hok).
  assert (forall m0, vm_heap (px s) !! v = Some m0 -> ioSessions m0 !! seq = Some x -> exists c n base,
    LAllocated c v n base (session_client x) ∈ l :: ls /\ base <= seq < base + n) as Hold.
  { intros m0 Hm0 Hx0. destruct (IH _ _ _ _ Hm0 Hx0) as (c & n & base & Hin & Hseq). exists c, n, base. split; [by right|done]. }
  destruct (decide (not_alloc l)) as [Hna|Hna].
  { destruct (step_heap _ _ _ Hst Hna) as [Hf|h1 m1 Hf [_ Hfresh] E].
    - destruct (Forall2_lookup_r _ _ _ _ _ Hf Hm) as (m0 & Hm0 & _ & _ & Hs). eapply Hold; [exact Hm0|].
      destruct (Hs seq) as [E|E]; congruence.
    - rewrite E in Hm. apply lookup_app_Some in Hm as [Hm|[_ Hm]].
      + destruct (Forall2_lookup_r _ _ _ _ _ Hf Hm) as (m0 & Hm0 & _ & _ & Hs). eapply Hold; [exact Hm0|].
        destruct (Hs seq) as [E'|E']; congruence.
      + destruct (v - length h1)%nat; [|done]. injection Hm as <-. by rewrite Hfresh in Hx. }
  pose proof (alloc_inv_reachable _ _ _ Hr ltac:(lia) Hok) as [Hb _].
  destruct Hst; try (by destruct Hna). cbn [px] in Hm. rewrite (allocate_heap _ _ _ _ _ _ _ _ _ _ _ H H1 H2 H3 H4) in Hm. cbn in Hm.
  destruct (decide (v0 = v)) as [->|]; [|rewrite list_lookup_insert_ne in Hm by done; by eapply Hold].
  rewrite list_lookup_insert_eq in Hm by by eapply lookup_lt_Some. injection Hm as <-.
  unfold heap_bound in Hb. rewrite Forall_lookup in Hb. specialize (Hb _ _ H3). injection H4 as <- <-. cbn in Hx, Hl.
  rewrite insert_session_lookup in Hx by (cbn; lia). cbn in Hx. rewrite Z.add_0_r, Z2Nat.id in Hx by lia.
  case_decide as Hseq; [|by eapply Hold]. injection Hx as <-. eexists _, _, _. split; [by left|done].
Qed.

Lemma owned_sessions m m' conn base n : ioSessions m' = ioSessions m -> owned m conn base n -> owned m' conn base n.
Proof. intros E Ho seq. unfold findSession. rewrite E. apply Ho. Qed.

(** While nothing is closed, the numbers stay those of the connection. *)
Lemma owned_step l s s' v m conn base n :
  step l s s' -> ~ closes v l -> streams_ok l -> (forall c' v' n' base', l <> LAllocated c' v' n' base' conn) ->
  vm_heap (px s) !! v = Some m -> 1 <= nextIoBase m < 2 ^ 63 -> base + n <= nextIoBase m -> owned m conn base n ->
  exists m', vm_heap (px s') !! v = Some m' /\ owned m' conn base n.
Proof.
  intros Hst Hcl Hok Hne Hm Hb Hbase Ho. destruct (decide (not_alloc l)) as [Hna|Hna].
  { pose proof (step_sessions _ _ _ v (ioSessions m) Hst Hna Hcl) as Hs. unfold sessions_at in Hs. rewrite Hm in Hs.
    specialize (Hs eq_refl). apply fmap_Some in Hs as (m' & Hm' & E). exists m'. split; [done|]. by eapply owned_sessions. }
  destruct Hst; try (by destruct Hna). cbn [px]. rewrite (allocate_heap _ _ _ _ _ _ _ _ _ _ _ H H1 H2 H3 H4). cbn.
  destruct (decide (v0 = v)) as [->|]; [|rewrite list_lookup_insert_ne by done; eauto].
  rewrite list_lookup_insert_eq by by eapply lookup_lt_Some. rewrite Hm in H3. injection H3 as <-. eexists. split; [done|].
  cbn in Hok. eapply allocate_owned_other; [| | | | |exact Ho|exact H4]; try lia. intros ->. by eapply Hne.
Qed.

Lemma attached_owned console v conn base n m : attached console v conn base n m -> owned m conn base n.
Proof.
  intros (ls2 & ls1 & c & s & Hr & Hlen & Hok & Hnew & Hcl & Hm).
  enough (exists m', vm_heap (px s) !! v = Some m' /\ owned m' conn base n) as (m' & Hm' & Ho) by (rewrite Hm in Hm'; by injection Hm' as <-).
  clear m Hm.
  revert s Hr. induction ls2 as [|l ls2 IH]; intros s Hr; cbn [app] in *.
  - inversion Hr as [|ls l s0 s' Hr0 Hst]; subst. apply Forall_cons in Hok as [Hn Hok]. cbn [length streams_ok] in *.
    pose proof (alloc_inv_reachable _ _ _ Hr0 ltac:(lia) Hok) as [Hb _]. unfold heap_bound in Hb. rewrite Forall_lookup in Hb.
    inversion Hst; subst. cbn [px]. erewrite allocate_heap by eassumption. cbn. rewrite list_lookup_insert_eq by by eapply lookup_lt_Some.
    eexists. split; [done|]. specialize (Hb v m ltac:(done)). eapply allocate_owned; try eassumption; try lia. intros seq x Hx Hcx.
    edestruct sessions_allocated as (c' & n' & base' & Hin & _); [exact Hr0|lia|done|eassumption|exact Hx|].
    rewrite Hcx in Hin. by eapply Hnew.
  - inversion Hr as [|ls l' s0 s' Hr0 Hst]; subst. apply Forall_cons in Hok as [Hn Hok]. apply Forall_cons in Hcl as [Hc Hcl].
    cbn [length] in Hlen. destruct (IH ltac:(lia) Hok) with (s := s0) as (m & Hm & Ho); [|done|done|].
    { intros c' v' n' base' Hin. eapply Hnew. right. exact Hin. }
    pose proof (alloc_inv_reachable _ _ _ Hr0 ltac:(lia) Hok) as [Hb Hal]. unfold heap_bound in Hb. rewrite Forall_lookup in Hb.
    destruct (Hal c v n base conn) as (m0 & Hm0 & Hb0 & Hn0 & _); [apply elem_of_app; right; by left|].
    rewrite Hm in Hm0. injection Hm0 as <-. specialize (Hb _ _ Hm).
    eapply owned_step; [exact Hst|done|done| |exact Hm|lia|lia|done]. intros c' v' n' base' ->. eapply Hnew. by left.
Qed.

Lemma attached_streams console v conn base n m : attached console v conn base n m -> 1 <= n <= 2.
Proof.
  intros (ls2 & ls1 & c & s & _ & _ & Hok & _). rewrite Forall_forall in Hok.
  apply (Hok (LAllocated c v n base conn)), elem_of_app. right. by left.
Qed.
