(* ===== verification/GoClient.v ===== *)
(** * The Go client of the proxy

    src/proxy/api/client.go and fdpassing.go, and the loop that serves a client
    in src/proxy/protocol.go.  A connection of an AF_UNIX socket is what is
    still to be read: the pieces the bytes arrive in, each with the descriptors
    that were passed along with it.  A call of the client writes a request and
    reads what arrives after it; the composition with the proxy is at the end. *)

From S2P Require Import Prelude GLib GLibRef Wire Hyperstart GoProxy.

(** ** src/proxy/api/fdpassing.go *)

Definition unix_conn : Type := list (string * list Z).

Definition fileTag : ascii := "F".

(** [WriteMsgUnix] of the tag with the rights. *)
Definition WriteFd (fd : Z) : string * list Z := (String fileTag EmptyString, [fd]).

(** [conn.Read]: descriptors that come with the bytes are lost. *)
Definition unix_read (n : nat) (conn : unix_conn) : option (string * unix_conn) :=
  match conn with
  | [] => None
  | (c, _) :: conn =>
      if (String.length c <=? n)%nat then Some (c, conn) else Some (str_take n c, (str_drop n c, []) :: conn)
  end.

(** The descriptor, or an error; one byte is consumed whenever there is one.
    The test of the tag needs both of its parts to fail. *)
Definition ReadFd (conn : unix_conn) : option Z * unix_conn :=
  match conn with
  | [] => (None, [])
  | (c, rights) :: rest =>
      let n := Nat.min 1 (String.length c) in
      let rest := if (String.length c <=? 1)%nat then rest else (str_drop 1 c, []) :: rest in
      match rights with
      | [] => (None, rest)
      | _ =>
          if bool_decide (n <> 1%nat) && bool_decide (first_char c <> Some fileTag) then (None, rest)
          else match rights with [fd] => (Some fd, rest) | _ => (None, rest) end
      end
  end.

(** [ReadMessage] on such a connection, with what remains of it also after an
    error. *)
Fixpoint unix_read_n (n : nat) (conn : unix_conn) : cstr * unix_conn :=
  match conn with
  | [] => (if (n =? 0)%nat then Some EmptyString else None, [])
  | (c, _) :: conn' =>
      if (n =? 0)%nat then (Some EmptyString, conn)
      else if (String.length c <=? n)%nat then
        let '(s, conn'') := unix_read_n (n - String.length c) conn' in (String.append c <$> s, conn'')
      else (Some (str_take n c), (str_drop n c, []) :: conn')
  end.

Definition UnixReadMessage (conn : unix_conn) : cstr * unix_conn :=
  match unix_read headerLength conn with
  | None => (None, [])
  | Some (buf, conn) =>
      if negb (String.length buf =? headerLength)%nat then (None, conn)
      else unix_read_n (Z.to_nat (be_field 0 4 buf)) conn
  end.

(** ** src/proxy/api/client.go *)

(** A call gives a value, an error, or panics. *)
Inductive go_result (A : Type) := Ok (a : A) | Err (e : string) | Panic.
Arguments Ok {A} a.
Arguments Err {A} e.
Arguments Panic {A}.

Definition bool_field (name : string) (m : list (string * json)) : option bool :=
  fold_left (fun cur kv =>
    if key_matches name kv.1 then
      match cur, kv.2 with Some _, JBool b => Some b | Some b, JNull => Some b | _, _ => None end
    else cur) m (Some false).

(** A [map[string]interface{}]: members are added to it. *)
Definition map_field (name : string) (m : list (string * json)) : option (list (string * json)) :=
  fold_left (fun cur kv =>
    if key_matches name kv.1 then
      match cur, kv.2 with
      | Some d, JObject l => Some (fold_left (fun d kv => json_object_set_member d kv.1 kv.2) l d)
      | Some _, JNull => Some []
      | _, _ => None
      end
    else cur) m (Some []).

Definition unmarshal_response (j : json) : option Response :=
  m ← object_members (Some j);
  success ← bool_field "success" m;
  error ← string_field "error" m EmptyString;
  data ← map_field "data" m;
  Some (MkResponse success error data).

(** The number a JSON integer becomes in an [interface{}]: a double, rounded to
    53 bits, half to even. *)
Definition float64_round (z : Z) : Z :=
  let e := Z.log2 z - 52 in
  if e <=? 0 then z
  else
    let q := z / 2 ^ e in
    let r := z mod 2 ^ e in
    let half := 2 ^ (e - 1) in
    (if (half <? r) || ((half =? r) && Z.odd q) then q + 1 else q) * 2 ^ e.

(** The integral part of a double. *)
Definition float64_trunc (d : SpecFloat.spec_float) : Z :=
  match d with
  | SpecFloat.S754_finite s m e =>
      let z := if 0 <=? e then Zpos m * 2 ^ e else Zpos m / 2 ^ (- e) in if s then - z else z
  | _ => 0
  end.

Section client.
Context `{GJ : GoJson}.

Definition marshal_request (req : Request) : string :=
  Marshal (JObject (("id", JString (req_ID req))
                    :: match req_Data req with Some d => [("data", d)] | None => [] end)).

(** What is read of a response. *)
Definition read_response (conn : unix_conn) : go_result Response * unix_conn :=
  match UnixReadMessage conn with
  | (None, conn) => (Err "read", conn)
  | (Some text, conn) =>
      (match (j ← Unmarshal text; unmarshal_response j) with None => Err json_err | Some resp => Ok resp end, conn)
  end.

(** What is written, the result, and what remains of [conn], which is what
    arrives after the request; [write_err] is the error of a write that
    fails. *)
Definition sendPayload (write_err : cstr) (id : string) (payload : option json) (conn : unix_conn)
    : list string * (go_result Response * unix_conn) :=
  (WriteMessage (marshal_request (MkRequest id payload)),
   match write_err with Some e => (Err e, conn) | None => read_response conn end).

Definition sendPayloadGetFd (write_err : cstr) (id : string) (payload : option json) (conn : unix_conn)
    : list string * (go_result (Response * Z) * unix_conn) :=
  (WriteMessage (marshal_request (MkRequest id payload)),
   match write_err with
   | Some e => (Err e, conn)
   | None =>
       match ReadFd conn with
       | (None, conn) => (Err ("sendPayloadGetFd: couldn't read fd for request " +:+ id), conn)
       | (Some fd, conn) =>
           let '(r, conn) := read_response conn in
           (match r with Ok resp => Ok (resp, fd) | Err e => Err e | Panic => Panic end, conn)
       end
   end).

Definition errorFromResponse (resp : Response) : cstr :=
  if resp_Success resp then None
  else Some (if str_nonempty (resp_Error resp) then resp_Error resp else "unknown error").

(** The end of a call without a value. *)
Definition call_result (r : go_result Response) : go_result unit :=
  match r with
  | Ok resp => match errorFromResponse resp with None => Ok tt | Some e => Err e end
  | Err e => Err e
  | Panic => Panic
  end.

Definition hello_payload (h : Hello) : json :=
  JObject ([("containerId", JString (h_ContainerID h)); ("ctlSerial", JString (h_CtlSerial h));
            ("ioSerial", JString (h_IoSerial h))]
           ++ (if str_nonempty (h_Console h) then [("console", JString (h_Console h))] else [])).
Definition container_payload (id : string) : json := JObject [("containerId", JString id)].
Definition allocate_payload (n : Z) : json := JObject [("nStreams", JInt n)].
Definition hyper_payload (name : string) (data : option json) : json :=
  JObject (("hyperName", JString name) :: match data with Some d => [("data", d)] | None => [] end).

(** [options] is [HelloOptions], whose only member is the console. *)
Definition client_Hello (w : cstr) (containerID ctlSerial ioSerial : string) (options : cstr) (conn : unix_conn) : go_result unit :=
  call_result (sendPayload w "hello"
    (Some (hello_payload (MkHello containerID ctlSerial ioSerial (default EmptyString options)))) conn).2.1.

Definition client_Attach (w : cstr) (containerID : string) (conn : unix_conn) : go_result unit :=
  call_result (sendPayload w "attach" (Some (container_payload containerID)) conn).2.1.

(** The base and the descriptor.  With an error in the response the descriptor
    is returned all the same. *)
Definition client_AllocateIo (w : cstr) (n : Z) (conn : unix_conn) : go_result (Z * Z) * unix_conn :=
  let '(r, conn) := snd (sendPayloadGetFd w "allocateIO" (Some (allocate_payload n)) conn) in
  (match r with
   | Err e => Err e
   | Panic => Panic
   | Ok (resp, fd) =>
       match errorFromResponse resp with
       | Some e => Err e
       | None =>
           match snd <$> List.find (fun kv => bool_decide (kv.1 = "ioBase")) (resp_Data resp) with
           | None => Err "allocateio: no ioBase in response"
           | Some (JInt z) => Ok (u64 (float64_round z), fd)
           | Some (JDouble d) => Ok (u64 (float64_trunc d), fd)
           | Some _ => Panic
           end
       end
   end, conn).

Definition client_Hyper (w : cstr) (hyperName : string) (hyperMessage : option json) (conn : unix_conn) : go_result unit :=
  call_result (sendPayload w "hyper" (Some (hyper_payload hyperName hyperMessage)) conn).2.1.

Definition client_Bye (w : cstr) (containerID : string) (conn : unix_conn) : go_result unit :=
  call_result (sendPayload w "bye" (Some (container_payload containerID)) conn).2.1.

(** ** [Serve] of src/proxy/protocol.go *)

(** The request that is read; an error ends the connection. *)
Definition read_request (conn : go_conn) : option (Request * go_conn) :=
  '(text, conn) ← ReadMessage conn;
  j ← Unmarshal text;
  req ← unmarshal_request j;
  Some (req, conn).

(** The loop: the proxy, what is sent, one list for each request, and what
    remains unread.  [envs] gives what the operations of each request meet, and
    [writes] says after how many parts of its response a write fails, if one
    does. *)
Fixpoint Serve (fuel : nat) (envs : nat -> environment) (writes : nat -> option nat) (c : Z) (conn : go_conn) (p : proxy)
    : proxy * list (list sent) * go_conn :=
  match fuel with
  | O => (p, [], conn)
  | S fuel =>
      match read_request conn with
      | None => (p, [], conn)
      | Some (req, conn) =>
          let '(p, hr) := handleRequest (envs O) c req p in
          match writes O with
          | Some sends => (p, [take sends (serve_response hr)], conn)
          | None =>
              let '(p, out, conn) := Serve fuel (fun n => envs (S n)) (fun n => writes (S n)) c conn p in
              (p, serve_response hr :: out, conn)
          end
      end
  end.
End client.

(** ** Messages in pieces *)

(** Pieces as a stream socket gives them: none is empty, and the header is not
    cut. *)
Definition pieces (s : string) (conn : go_conn) : Prop :=
  conn_bytes conn = s /\ Forall (fun c => c <> EmptyString) conn /\
  match conn with c :: _ => (headerLength <= String.length c)%nat | [] => False end.

(** The same for a connection with descriptors. *)
Definition unix_pieces (s : string) (conn : unix_conn) : Prop := pieces s conn.*1.

Lemma nonempty_length c : c <> EmptyString -> (0 < String.length c)%nat.
Proof. destruct c; [done|cbn; lia]. Qed.

Lemma read_n_exact l more :
  Forall (fun c => c <> EmptyString) l -> read_n (String.length (conn_bytes l)) (l ++ more) = Some (conn_bytes l, more).
Proof.
  induction 1 as [|c l Hc%nonempty_length _ IH]; [by destruct more|]. rewrite conn_bytes_cons, str_length_app. cbn [app read_n].
  destruct (Nat.eqb_spec (String.length c + String.length (conn_bytes l)) 0); [lia|].
  destruct (Nat.leb_spec (String.length c) (String.length c + String.length (conn_bytes l))); [|lia].
  rewrite Nat.add_comm, Nat.add_sub, IH. done.
Qed.

Lemma unix_read_n_exact (l more : unix_conn) :
  Forall (fun c => c <> EmptyString) l.*1 ->
  unix_read_n (String.length (conn_bytes l.*1)) (l ++ more) = (Some (conn_bytes l.*1), more).
Proof.
  induction l as [|[c r] l IH]; intros H; [by destruct more as [|[]]|].
  rewrite fmap_cons in H. apply Forall_cons in H as [Hc%nonempty_length H]. cbn [fst] in Hc.
  rewrite fmap_cons, conn_bytes_cons, str_length_app. cbn [app unix_read_n fst].
  destruct (Nat.eqb_spec (String.length c + String.length (conn_bytes l.*1)) 0); [lia|].
  destruct (Nat.leb_spec (String.length c) (String.length c + String.length (conn_bytes l.*1))); [|lia].
  rewrite Nat.add_comm, Nat.add_sub, (IH H). done.
Qed.

(** The header of a frame. *)
Lemma frame_header m : Z.of_nat (String.length m) < 2 ^ 32 ->
  be_field 0 4 (str_take 8 (frame m)) = Z.of_nat (String.length m) /\ str_drop 8 (frame m) = m.
Proof.
  intros Hm. unfold frame. rewrite <- str_app_assoc.
  assert (String.length (be_bytes 4 (Z.of_nat (String.length m)) +:+ be_bytes 4 0) = 8%nat) as Hl
    by by rewrite str_length_app, !be_bytes_length.
  rewrite str_take_app_le, str_take_all by lia. split; [rewrite be_field_head; apply Z.mod_small; lia|].
  rewrite <- Hl. apply str_drop_app.
Qed.

Lemma read_message_pieces m conn more :
  Z.of_nat (String.length m) < 2 ^ 32 -> pieces (frame m) conn -> ReadMessage (conn ++ more) = Some (m, more).
Proof.
  intros Hm (Hb & Hn & Hc). destruct conn as [|c conn]; [done|]. unfold headerLength in Hc.
  destruct (frame_header m Hm) as [Hl Hd]. rewrite <- Hb, conn_bytes_cons in Hl, Hd. apply Forall_cons in Hn as [_ Hn].
  rewrite str_take_app_le in Hl by done. rewrite str_drop_app_le in Hd by done.
  unfold ReadMessage, headerLength. cbn [app go_read]. destruct (Nat.leb_spec (String.length c) 8) as [Hle|Hgt].
  - assert (String.length c = 8%nat) as E by lia. rewrite str_take_all in Hl by lia. rewrite str_drop_all in Hd by lia.
    cbn [mbind option_bind]. rewrite E. cbn [Nat.eqb negb]. rewrite Hl, Nat2Z.id, <- Hd. by apply read_n_exact.
  - cbn [mbind option_bind]. rewrite str_take_length_min, Nat.min_l by lia. cbn [Nat.eqb negb]. rewrite Hl, Nat2Z.id.
    rewrite <- Hd, <- conn_bytes_cons. apply (read_n_exact (str_drop 8 c :: conn)).
    constructor; [|done]. intros E. apply (f_equal String.length) in E. rewrite str_drop_length in E. cbn in E. lia.
Qed.

Lemma unix_message_pieces m (conn more : unix_conn) :
  Z.of_nat (String.length m) < 2 ^ 32 -> unix_pieces (frame m) conn -> UnixReadMessage (conn ++ more) = (Some m, more).
Proof.
  intros Hm (Hb & Hn & Hc). destruct conn as [|[c r] conn]; [done|]. rewrite fmap_cons in *. cbn [fst] in *. unfold headerLength in Hc.
  destruct (frame_header m Hm) as [Hl Hd]. rewrite <- Hb, conn_bytes_cons in Hl, Hd. apply Forall_cons in Hn as [_ Hn].
  rewrite str_take_app_le in Hl by done. rewrite str_drop_app_le in Hd by done.
  unfold UnixReadMessage, headerLength. cbn [app unix_read]. destruct (Nat.leb_spec (String.length c) 8) as [Hle|Hgt].
  - assert (String.length c = 8%nat) as E by lia. rewrite str_take_all in Hl by lia. rewrite str_drop_all in Hd by lia.
    rewrite E. cbn [Nat.eqb negb]. rewrite Hl, Nat2Z.id, <- Hd. by apply unix_read_n_exact.
  - rewrite str_take_length_min, Nat.min_l by lia. cbn [Nat.eqb negb]. rewrite Hl, Nat2Z.id.
    rewrite <- Hd, <- conn_bytes_cons. apply (unix_read_n_exact ((str_drop 8 c, []) :: conn)).
    rewrite fmap_cons. constructor; [|done]. cbn [fst]. intros E. apply (f_equal String.length) in E. rewrite str_drop_length in E. cbn in E. lia.
Qed.

(** ** Calls through the proxy *)

(** Documents that encoding/json writes and reads back unchanged: text in
    UTF-8, no two members of the same name, no floating point. *)
Fixpoint go_json_ok (j : json) : Prop :=
  match j with
  | JNull | JBool _ | JInt _ => True
  | JDouble _ => False
  | JString s => utf8_validate s = true
  | JArray l => fold_right (fun j P => go_json_ok j /\ P) True l
  | JObject m =>
      NoDup m.*1 /\ fold_right (fun kv P => (utf8_validate kv.1 = true /\ go_json_ok kv.2) /\ P) True m
  end.

Class GoJsonLaws `{GoJson} := go_json_roundtrip : forall j, go_json_ok j -> Unmarshal (Marshal j) = Some j.

(** The calls whose response has no descriptor. *)
Inductive rpc := RpcHello (h : Hello) | RpcAttach (id : string) | RpcHyper (name : string) (data : option json) | RpcBye (id : string).

Definition rpc_request (r : rpc) : Request :=
  match r with
  | RpcHello h => MkRequest "hello" (Some (hello_payload h))
  | RpcAttach id => MkRequest "attach" (Some (container_payload id))
  | RpcHyper name data => MkRequest "hyper" (Some (hyper_payload name data))
  | RpcBye id => MkRequest "bye" (Some (container_payload id))
  end.

(** What an error of a handler is to the caller. *)
Definition handler_result_of (hr : handlerResponse) : go_result unit :=
  match hr_err hr with
  | None => Ok tt
  | Some e => Err (if str_nonempty e then e else "unknown error")
  end.

Section rpc.
Context `{GJ : GoJson} `{GL : !GoJsonLaws}.

Definition rpc_call (r : rpc) : cstr -> unix_conn -> go_result unit :=
  match r with
  | RpcHello h => fun w => client_Hello w (h_ContainerID h) (h_CtlSerial h) (h_IoSerial h) (Some (h_Console h))
  | RpcAttach id => fun w => client_Attach w id
  | RpcHyper name data => fun w => client_Hyper w name data
  | RpcBye id => fun w => client_Bye w id
  end.

Definition request_doc (req : Request) : json :=
  JObject (("id", JString (req_ID req)) :: match req_Data req with Some d => [("data", d)] | None => [] end).

(** A request is read as it was sent. *)
Lemma read_request_pieces id d conn more :
  go_json_ok (request_doc (MkRequest id (Some d))) ->
  Z.of_nat (String.length (marshal_request (MkRequest id (Some d)))) < 2 ^ 32 ->
  pieces (String.concat EmptyString (WriteMessage (marshal_request (MkRequest id (Some d))))) conn ->
  read_request (conn ++ more) = Some (MkRequest id (Some d), more).
Proof.
  intros Hok Hl Hp. rewrite write_message_frame in Hp by done. unfold read_request.
  rewrite (read_message_pieces _ _ _ Hl Hp). cbn [mbind option_bind]. unfold marshal_request.
  by rewrite (go_json_roundtrip _ Hok).
Qed.

Definition response_doc (r : Response) : json :=
  JObject ([("success", JBool (resp_Success r))]
           ++ (if str_nonempty (resp_Error r) then [("error", JString (resp_Error r))] else [])
           ++ (match resp_Data r with [] => [] | d => [("data", JObject d)] end)).

Lemma set_members_fresh (l acc : list (string * json)) :
  NoDup (acc ++ l).*1 -> fold_left (fun d kv => json_object_set_member d kv.1 kv.2) l acc = acc ++ l.
Proof.
  revert acc. induction l as [|[k v] l IH]; intros acc Hn; [by rewrite app_nil_r|]. cbn [fold_left fst snd].
  rewrite set_member_fresh; [rewrite IH; rewrite <- app_assoc; done|].
  rewrite fmap_app, NoDup_app in Hn. intros Hk. apply (proj1 (proj2 Hn) k); [done|left].
Qed.

(** A response is read as it was sent. *)
Lemma unmarshal_response_doc r : go_json_ok (response_doc r) -> unmarshal_response (response_doc r) = Some r.
Proof.
  destruct r as [ok e d]. intros [_ Hok]. unfold response_doc. cbn [resp_Success resp_Error resp_Data] in *.
  assert (NoDup d.*1) as Hd.
  { destruct d as [|kv d]; [constructor|]. destruct (str_nonempty e); cbn -[utf8_validate] in Hok; apply Hok. }
  assert (str_nonempty e = false -> e = EmptyString) as He by by destruct e.
  transitivity (Some (MkResponse ok e (fold_left (fun d kv => json_object_set_member d kv.1 kv.2) d [])));
    [|by rewrite set_members_fresh].
  destruct (str_nonempty e); [|rewrite (He eq_refl)]; destruct d; reflexivity.
Qed.

(** The bytes of a response. *)
Definition response_bytes (hr : handlerResponse) : string :=
  String.concat EmptyString (WriteMessage (marshal_response (response_of hr))).

Definition response_ok (hr : handlerResponse) : Prop :=
  go_json_ok (response_doc (response_of hr)) /\ Z.of_nat (String.length (marshal_response (response_of hr))) < 2 ^ 32.

Lemma read_response_pieces hr conn more :
  response_ok hr -> unix_pieces (response_bytes hr) conn -> read_response (conn ++ more) = (Ok (response_of hr), more).
Proof.
  intros [Hok Hl] Hp. unfold response_bytes in Hp. rewrite write_message_frame in Hp by done. unfold read_response.
  rewrite (unix_message_pieces _ _ _ Hl Hp). change (marshal_response (response_of hr)) with (Marshal (response_doc (response_of hr))).
  rewrite (go_json_roundtrip _ Hok). cbn [mbind option_bind]. by rewrite unmarshal_response_doc.
Qed.

Lemma rpc_call_pieces r hr conn :
  response_ok hr -> unix_pieces (response_bytes hr) conn -> rpc_call r None conn = handler_result_of hr.
Proof.
  intros Hok Hp. rewrite <- (app_nil_r conn).
  assert (call_result (Ok (response_of hr)) = handler_result_of hr) as <-
    by (unfold handler_result_of, response_of; by destruct (hr_err hr) as [[]|]).
  destruct r; cbn [rpc_call]; unfold client_Hello, client_Attach, client_Hyper, client_Bye, sendPayload; cbn [snd];
    by rewrite (read_response_pieces hr).
Qed.

(** What a call does to the registry. *)
Definition local_call (e : environment) (c : Z) (r : rpc) (p : proxy) : proxy * handlerResponse :=
  match r with
  | RpcHello h =>
      match hello_start h p with (p, Responded hr) => (p, hr) | (p, Pending t) => handler_finish e c t p end
  | RpcAttach id =>
      match vms p !! id with
      | None => (p, SetErrorMsg ("unknown containerID: " +:+ id) hr_zero)
      | Some v => (set_client_vm c (Some v) p, hr_zero)
      end
  | RpcHyper _ _ =>
      (p, match client_vm p !! c with
          | Some (Some _) => SetError (send_err e) hr_zero
          | _ => SetErrorMsg "client not attached to a vm" hr_zero
          end)
  | RpcBye id =>
      match vms p !! id with
      | None => (p, SetErrorMsg ("unknown containerID: " +:+ id) hr_zero)
      | Some v => bye_finish c v p
      end
  end.

Lemma unmarshal_hello_payload h : unmarshal_hello (Some (hello_payload h)) = Some h.
Proof.
  destruct h as [id ctl io cons]. unfold hello_payload. cbn [h_ContainerID h_CtlSerial h_IoSerial h_Console].
  assert (str_nonempty cons = false -> cons = EmptyString) as Hc by by destruct cons.
  destruct (str_nonempty cons); [|rewrite (Hc eq_refl)]; reflexivity.
Qed.

(** The request reaches the registry as it was meant. *)
Lemma handleRequest_rpc e c r p : handleRequest e c (rpc_request r) p = local_call e c r p.
Proof.
  destruct r as [h|id|name data|id]; cbn [rpc_request local_call]; unfold handleRequest.
  - change (handler_start e c _ p) with (helloHandler (Some (hello_payload h)) p). unfold helloHandler.
    rewrite unmarshal_hello_payload. by destruct (hello_start h p) as [? []].
  - change (handler_start e c _ p) with (let '(p, hr) := attachHandler c (Some (container_payload id)) p in (p, Responded hr)).
    unfold attachHandler. change (unmarshal_container _) with (Some id). cbn. by destruct (vms p !! id).
  - change (handler_start e c _ p) with (p, Responded (hyperHandler e c (Some (hyper_payload name data)) p)).
    unfold hyperHandler. destruct data; reflexivity.
  - change (handler_start e c _ p) with (p, bye_start (Some (container_payload id)) p).
    unfold bye_start. change (unmarshal_container _) with (Some id). cbn. by destruct (vms p !! id).
Qed.

(** The same one after the other. *)
Fixpoint local_calls (envs : nat -> environment) (c : Z) (l : list rpc) (p : proxy) : proxy * list handlerResponse :=
  match l with
  | [] => (p, [])
  | r :: l =>
      let '(p, hr) := local_call (envs O) c r p in
      let '(p, hrs) := local_calls (fun n => envs (S n)) c l p in
      (p, hr :: hrs)
  end.

Definition request_bytes (r : rpc) : string :=
  String.concat EmptyString (WriteMessage (marshal_request (rpc_request r))).

Definition request_ok (r : rpc) : Prop :=
  go_json_ok (request_doc (rpc_request r)) /\ Z.of_nat (String.length (marshal_request (rpc_request r))) < 2 ^ 32.

Lemma Serve_step fuel envs c conn p req conn' :
  read_request conn = Some (req, conn') ->
  Serve (S fuel) envs (fun _ => None) c conn p =
    let '(p1, hr) := handleRequest (envs O) c req p in
    let '(p2, out, rest) := Serve fuel (fun n => envs (S n)) (fun _ => None) c conn' p1 in (p2, serve_response hr :: out, rest).
Proof. intros H. cbn [Serve]. rewrite H. done. Qed.

Lemma serve_calls envs c calls conns p :
  Forall request_ok calls -> Forall2 (fun r conn => pieces (request_bytes r) conn) calls conns ->
  let '(p', hrs) := local_calls envs c calls p in
  Serve (S (length calls)) envs (fun _ => None) c (concat conns) p = (p', serve_response <$> hrs, []).
Proof.
  intros Hok Hp. revert envs p Hok. induction Hp as [|r conn calls conns Hp _ IH]; intros envs p Hok; [done|].
  apply Forall_cons in Hok as [[Hj Hl] Hok]. cbn [concat length local_calls].
  assert (read_request (conn ++ concat conns) = Some (rpc_request r, concat conns)) as Hr
    by (unfold request_bytes in Hp; destruct r; by apply read_request_pieces).
  rewrite (Serve_step _ _ _ _ _ _ _ Hr), handleRequest_rpc. destruct (local_call (envs O) c r p) as [p1 hr].
  specialize (IH (fun n => envs (S n)) p1 Hok). destruct (local_calls _ c calls p1) as [p2 hrs]. by rewrite IH.
Qed.

(** No descriptor goes with these responses. *)
Lemma local_call_file e c r p : hr_file (local_call e c r p).2 = None.
Proof.
  destruct r; cbn [local_call]; [|by case_match|by repeat case_match|by case_match].
  unfold hello_start, handler_finish, hello_finish. repeat case_match; by simplify_eq.
Qed.

Lemma local_calls_file envs c calls p : Forall (fun hr => hr_file hr = None) (local_calls envs c calls p).2.
Proof.
  revert envs p. induction calls as [|r calls IH]; intros envs p; [constructor|]. cbn [local_calls].
  pose proof (local_call_file (envs O) c r p) as Hf. destruct (local_call (envs O) c r p) as [p1 hr].
  specialize (IH (fun n => envs (S n)) p1). destruct (local_calls _ c calls p1) as [p2 hrs]. by constructor.
Qed.

(** C23.  Calls through the proxy are calls of the registry.  Whatever a client
    asks for one after the other (hello, attach, hyper, bye) and whatever pieces
    the requests arrive in, [Serve] does to the registry what the operations
    themselves would do, in this order, and answers each of them; and whatever
    pieces the answers arrive in, each call of the client returns exactly the
    error of its operation, or none. *)
Theorem rpc_transparent envs c calls conns p p' hrs :
  Forall request_ok calls -> Forall2 (fun r conn => pieces (request_bytes r) conn) calls conns ->
  local_calls envs c calls p = (p', hrs) -> Forall response_ok hrs ->
  Serve (S (length calls)) envs (fun _ => None) c (concat conns) p
    = (p', (fun hr => SendBytes <$> WriteMessage (marshal_response (response_of hr))) <$> hrs, []) /\
  forall resps, Forall2 (fun hr conn => unix_pieces (response_bytes hr) conn) hrs resps ->
    zip_with (fun r conn => rpc_call r None conn) calls resps = handler_result_of <$> hrs.
Proof.
  intros Hok Hp Hl Hr. pose proof (serve_calls envs c calls conns p Hok Hp) as Hs.
  pose proof (local_calls_file envs c calls p) as Hf. rewrite Hl in Hs, Hf. cbn [snd] in Hf. split.
  - rewrite Hs. f_equal. f_equal. clear -Hf. induction Hf as [|hr hrs H _ IH]; [done|]. rewrite !fmap_cons, IH. f_equal.
    unfold serve_response. by rewrite H.
  - intros resps Hresps. clear Hok Hp Hs Hf. revert envs calls p Hl.
    induction Hresps as [|hr conn hrs resps H _ IH]; intros envs [|r calls] p Hl; cbn [local_calls] in Hl; try done; revert Hl.
    destruct (local_call (envs O) c r p) as [p1 hr1]. destruct (local_calls _ c calls p1) as [p2 hrs1] eqn:El.
    intros [= <- <- <-]. apply Forall_cons in Hr as [Hr1 Hr]. cbn [zip_with]. rewrite fmap_cons.
    rewrite (rpc_call_pieces r hr1 conn Hr1 H). f_equal. by eapply IH.
Qed.

(** *** Allocating streams *)

Lemma float64_round_small z : 0 <= z < 2 ^ 53 -> float64_round z = z.
Proof.
  intros Hz. unfold float64_round. destruct (Z.leb_spec (Z.log2 z - 52) 0) as [|H]; [done|].
  destruct (Z.eq_dec z 0) as [->|Hnz]; [done|]. assert (Z.log2 z < 53) by (apply Z.log2_lt_pow2; lia). lia.
Qed.

(** A response as it arrives: its descriptor first, if there is one. *)
Definition answered (hr : handlerResponse) (conn : unix_conn) : Prop :=
  exists l, unix_pieces (response_bytes hr) l /\ Forall (fun x => x.2 = []) l /\
    conn = match hr_file hr with Some f => WriteFd f :: l | None => l end.

(** What the caller gets for a response: with a descriptor what it says,
    otherwise an error, after one byte of the response was read for the
    descriptor. *)
Definition allocated (hr : handlerResponse) (r : go_result (Z * Z)) (rest : unix_conn) : Prop :=
  match hr_file hr, hr_err hr with
  | Some f, None => exists base, hr_results hr = [("ioBase", JInt base)] /\ r = Ok (u64 (float64_round base), f) /\ rest = []
  | Some _, Some e => r = Err (if str_nonempty e then e else "unknown error") /\ rest = []
  | None, _ => r = Err "sendPayloadGetFd: couldn't read fd for request allocateIO" /\
      conn_bytes rest.*1 = str_drop 1 (response_bytes hr)
  end.

Lemma allocate_file e c d p p' hr f :
  allocateIoHandler e c d p = (p', hr) -> hr_file hr = Some f -> exists base, hr_results hr = [("ioBase", JInt base)].
Proof.
  unfold allocateIoHandler. repeat case_match; intros [= <- <-]; try done; try by (case_match; [done|]).
  all: intros _; eexists; cbn; by repeat case_match.
Qed.

(** C25.  An allocation through the proxy.  When the proxy allocates streams, the
    caller gets the base, as far as a double can hold it, and the descriptor
    the proxy sent.  When the proxy refuses, the caller gets an error that does
    not say why, and the answer stays unread but for one byte. *)
Theorem allocate_rpc e c n p p' hr conn :
  handleRequest e c (MkRequest "allocateIO" (Some (allocate_payload n))) p = (p', hr) -> response_ok hr -> answered hr conn ->
  allocated hr (client_AllocateIo None n conn).1 (client_AllocateIo None n conn).2.
Proof.
  change (handleRequest e c _ p) with
    (match (let '(p, hr) := allocateIoHandler e c (Some (allocate_payload n)) p in (p, Responded hr)) with
     | (p, Responded hr) => (p, hr) | (p, Pending t) => handler_finish e c t p end).
  intros Hh Hok (l & Hp & Hr & ->).
  assert (allocateIoHandler e c (Some (allocate_payload n)) p = (p', hr)) as Ha by by destruct (allocateIoHandler _ _ _ _).
  clear Hh. unfold allocated, client_AllocateIo, sendPayloadGetFd. cbn [snd]. destruct (hr_file hr) as [f|] eqn:Ef.
  - change (ReadFd (WriteFd f :: l)) with (Some f, l). pose proof (read_response_pieces hr l [] Hok Hp) as Hread.
    rewrite app_nil_r in Hread. cbv beta iota. rewrite Hread. destruct (allocate_file _ _ _ _ _ _ _ Ha Ef) as [base Hb].
    unfold response_of, errorFromResponse. destruct (hr_err hr) as [err|]; cbn [resp_Success resp_Error resp_Data]; [done|].
    exists base. by rewrite Hb.
  - destruct Hp as (Hb & _ & Hl). destruct l as [|[c0 r0] l]; [done|]. apply Forall_cons in Hr as [Hr0 _]. cbn [snd] in Hr0. subst r0.
    rewrite fmap_cons in Hl, Hb. cbn [fst] in Hl, Hb. unfold headerLength in Hl. cbn [ReadFd].
    destruct (Nat.leb_spec (String.length c0) 1); [lia|]. split; [done|]. rewrite <- Hb.
    cbn [snd]. rewrite fmap_cons, !conn_bytes_cons, str_drop_app_le by lia. done.
Qed.
End rpc.

(** ** Witnesses and examples *)

#[local] Instance client_json : GoJson := {| Marshal j := json_encode j; Unmarshal := json_decode |}.

Lemma go_json_ok_no_double j : go_json_ok j -> json_no_double j = true.
Proof.
  induction j as [| | | | |l IH|m IH] using json_ind'; try done; cbn.
  - induction IH as [|j l Hj _ IHl]; [done|]. simpl. intros [H1 H2]. by rewrite Hj, IHl.
  - intros [_ H]. induction IH as [|[k j] m Hj _ IHm]; [done|]. simpl in *. destruct H as [[_ H1] H2]. by rewrite Hj, IHm.
Qed.

#[local] Instance client_json_laws : GoJsonLaws.
Proof. intros j Hj. by apply json_decode_encode, go_json_ok_no_double. Qed.

(** Requests and responses cut after the header. *)
Definition cut_header (s : string) : go_conn := [str_take 8 s; str_drop 8 s].

Definition calls_example : list rpc :=
  [RpcHello (MkHello "c1" "/ctl" "/tty" EmptyString); RpcAttach "c2"; RpcHyper "ping" None; RpcBye "c1"; RpcAttach "c1"].

Definition answers_example : list handlerResponse := (local_calls (fun _ => env_ok) 1 calls_example one_client).2.

Fixpoint go_json_okb (j : json) : bool :=
  match j with
  | JNull | JBool _ | JInt _ => true
  | JDouble _ => false
  | JString s => utf8_validate s
  | JArray l => forallb go_json_okb l
  | JObject m => bool_decide (NoDup m.*1) && forallb (fun kv => utf8_validate kv.1 && go_json_okb kv.2) m
  end.

Lemma go_json_okb_ok j : go_json_okb j = true -> go_json_ok j.
Proof.
  induction j as [| | | | |l IH|m IH] using json_ind'; try done; cbn.
  - induction IH as [|j l Hj _ IHl]; [done|]. cbn. intros [H1 H2]%andb_prop. auto.
  - intros [Hn Hm]%andb_prop. split; [by apply bool_decide_eq_true in Hn|]. clear Hn.
    induction IH as [|[k j] m Hj _ IHm]; [done|]. cbn in *. apply andb_prop in Hm as [[H1 H2]%andb_prop H3]. auto.
Qed.

Definition cut_example (s : string) : bool :=
  bool_decide (conn_bytes (cut_header s) = s /\ Forall (fun c => c <> EmptyString) (cut_header s) /\ (8 <= String.length s)%nat).

Lemma cut_header_pieces s : cut_example s = true -> pieces s (cut_header s).
Proof.
  intros (Hb & Hf & Hl)%bool_decide_eq_true. split_and!; [done|done|]. unfold cut_header, headerLength.
  rewrite str_take_length_min. lia.
Qed.

Lemma calls_example_ok : Forall request_ok calls_example.
Proof. repeat (constructor; [split; [apply go_json_okb_ok|]; vm_compute; reflexivity|]). constructor. Qed.

Definition response_okb (hr : handlerResponse) : bool :=
  go_json_okb (response_doc (response_of hr)) && (Z.of_nat (String.length (marshal_response (response_of hr))) <? 2 ^ 32).

Lemma response_okb_ok hr : response_okb hr = true -> response_ok hr.
Proof. intros [H1%go_json_okb_ok H2%Z.ltb_lt]%andb_prop. done. Qed.

Lemma rpc_transparent_witness :
  zip_with (fun r conn => rpc_call r None conn) calls_example
    ((fun hr => (fun c => (c, [])) <$> cut_header (response_bytes hr)) <$> answers_example)
  = [Ok tt; Err "unknown containerID: c2"; Ok tt; Ok tt; Err "unknown containerID: c1"].
Proof.
  transitivity (handler_result_of <$> answers_example); [|vm_compute; reflexivity].
  apply (rpc_transparent (fun _ => env_ok) 1 calls_example ((fun r => cut_header (request_bytes r)) <$> calls_example) one_client
    (local_calls (fun _ => env_ok) 1 calls_example one_client).1).
  - apply calls_example_ok.
  - apply Forall2_fmap_r, Forall_Forall2_diag. apply Forall_forall. intros r Hr. apply cut_header_pieces.
    revert r Hr. apply Forall_forall. repeat (constructor; [vm_compute; reflexivity|]). constructor.
  - reflexivity.
  - eapply Forall_impl; [|apply response_okb_ok]. apply forallb_Forall. vm_compute. reflexivity.
  - apply Forall2_fmap_r, Forall_Forall2_diag, Forall_forall. intros hr Hr. unfold unix_pieces.
    apply (cut_header_pieces (response_bytes hr)).
    revert hr Hr. apply Forall_forall, forallb_Forall. vm_compute. reflexivity.
Defined.

(** A client that is attached allocates, one that is not does not. *)
Definition attached_client : proxy := (local_calls (fun _ => env_ok) 1 [RpcHello (MkHello "c1" "/ctl" "/tty" EmptyString)] one_client).1.

Definition allocate_answer (p : proxy) : handlerResponse :=
  (handleRequest env_ok 1 (MkRequest "allocateIO" (Some (allocate_payload 2))) p).2.

Definition answer_conn (hr : handlerResponse) : unix_conn :=
  match hr_file hr with Some f => [WriteFd f] | None => [] end ++ ((fun c => (c, [])) <$> cut_header (response_bytes hr)).

Lemma allocate_rpc_witness :
  (client_AllocateIo None 2 (answer_conn (allocate_answer attached_client))).1 = Ok (1, 7) /\
  allocated (allocate_answer one_client) (client_AllocateIo None 2 (answer_conn (allocate_answer one_client))).1
    (client_AllocateIo None 2 (answer_conn (allocate_answer one_client))).2.
Proof.
  split; [vm_compute; reflexivity|].
  apply (allocate_rpc env_ok 1 2 one_client one_client).
  - reflexivity.
  - apply response_okb_ok. vm_compute. reflexivity.
  - exists (answer_conn (allocate_answer one_client)). split_and!; [|by repeat constructor|reflexivity].
    apply (cut_header_pieces (response_bytes (allocate_answer one_client))). vm_compute. reflexivity.
Defined.

(** After a refusal the next call reads the rest of that answer, and fails
    although the proxy has done what it asks for. *)
Definition after_refusal : unix_conn := (client_AllocateIo None 2 (answer_conn (allocate_answer one_client))).2.

Example refused_allocation_breaks_connection :
  (local_call env_ok 1 (RpcAttach "c1") attached_client).2 = hr_zero /\
  rpc_call (RpcAttach "c1") None (after_refusal ++ answer_conn hr_zero) = Err "read".
Proof. split; vm_compute; reflexivity. Qed.

(** A descriptor is taken with any byte: the test of its tag never fails. *)
Example tag_not_checked : ReadFd [("X", [5])] = (Some 5, []).
Proof. reflexivity. Qed.

(** Bases that a double cannot hold are rounded, to the base of another
    client. *)
Example base_rounded : float64_round (2 ^ 53 + 1) = 2 ^ 53.
Proof. reflexivity. Qed.
