(* ===== verification/GoSetup.v ===== *)
(** * Connections and start of the proxy

    The sockets of src/vendor/.../hyperstart.go and of [Connect] in
    src/proxy/vm.go, the pair of sockets of src/proxy/syscall.go, and the start
    of the proxy: src/proxy/socket_activation.go and the rest of
    src/proxy/proxy.go.  What the operating system answers is an argument of
    each operation.  The set of open descriptors is threaded through, so that
    what an operation leaves open can be said. *)

From S2P Require Import Prelude GLib GLibRef Wire Hyperstart GoProxy GoClient.

(** ** The sockets of hyperstart *)

(** [ctl] and [io] with their [connState]; the types of the sockets are those
    given to [Dial]. *)
Record Hyperstart := MkHyperstart {
  hs_ctlSerial : string; hs_ioSerial : string; sockType : string;
  hs_ctl : option Z; hs_io : option Z; ctlState : bool; ioState : bool
}.

Definition NewHyperstart (ctl io sock : string) : Hyperstart := MkHyperstart ctl io sock None None false false.

Definition set_ctl (c : option Z) (b : bool) (h : Hyperstart) : Hyperstart :=
  MkHyperstart (hs_ctlSerial h) (hs_ioSerial h) (sockType h) c (hs_io h) b (ioState h).
Definition set_io (c : option Z) (b : bool) (h : Hyperstart) : Hyperstart :=
  MkHyperstart (hs_ctlSerial h) (hs_ioSerial h) (sockType h) (hs_ctl h) c (ctlState h) b.

(** How an operation ends. *)
Inductive go_outcome := Done | Failed | Panicked.
#[global] Instance go_outcome_eq_dec : EqDecision go_outcome.
Proof. solve_decision. Defined.

(** [conn.Close ()]: an error for a connection that is closed already, and a
    panic for [nil]. *)
Definition conn_Close (c : option Z) (fds : gset Z) : go_outcome * gset Z :=
  match c with
  | Some c => (if decide (c ∈ fds) then Done else Failed, fds ∖ {[c]})
  | None => (Panicked, fds)
  end.

(** What [net.Dial] gives for the two sockets. *)
Definition OpenSockets (dial_ctl dial_io : option Z) (h : Hyperstart) (fds : gset Z) : go_outcome * Hyperstart * gset Z :=
  match dial_ctl with
  | None => (Failed, set_ctl None (ctlState h) h, fds)
  | Some c =>
      let h := set_ctl (Some c) true h in
      let fds := {[c]} ∪ fds in
      match dial_io with
      | None => (Failed, set_io None (ioState h) h, (conn_Close (hs_ctl h) fds).2)
      | Some i => (Done, set_io (Some i) true h, {[i]} ∪ fds)
      end
  end.

Definition CloseSockets (h : Hyperstart) (fds : gset Z) : go_outcome * Hyperstart * gset Z :=
  let '(r, h, fds) :=
    if ctlState h then
      match conn_Close (hs_ctl h) fds with
      | (Done, fds) => (Done, set_ctl (hs_ctl h) false h, fds)
      | (r, fds) => (r, h, fds)
      end
    else (Done, h, fds) in
  match r with
  | Done =>
      if ioState h then
        match conn_Close (hs_io h) fds with
        | (Done, fds) => (Done, set_io (hs_io h) false h, fds)
        | (r, fds) => (r, h, fds)
        end
      else (Done, h, fds)
  | r => (r, h, fds)
  end.

(** The deadline is part of [ctl_in], what the control channel gives in time. *)
Definition IsStarted (write_ok : bool) (ctl_in : go_conn) (h : Hyperstart) (fds : gset Z) : bool * Hyperstart * gset Z :=
  if negb (ctlState h) then (false, h, fds)
  else if (SendCtlMessage write_ok "ping" EmptyString ctl_in).1.1 then (true, h, fds)
  else let '(_, h, fds) := CloseSockets h fds in (false, h, fds).

(** A string goes as it is, everything else as JSON; some values have none. *)
Inductive payload := PayloadNil | PayloadString (s : string) | PayloadValue (j : option json).
Definition FormatMessage `{GoJson} (p : payload) : option string :=
  match p with PayloadNil => Some EmptyString | PayloadString s => Some s | PayloadValue j => Marshal <$> j end.

(** ** [Connect] of src/proxy/vm.go *)

(** The connection of the console and its goroutine, and that of the I/O
    channel. *)
Record vm_conns := VmConns { console_conn : option Z; hyperHandler_of : Hyperstart; console_running : bool; io_running : bool }.

Record dials := Dials { dial_console : option Z; dial_ctl : option Z; dial_io : option Z }.

Definition set_handler (h : Hyperstart) (v : vm_conns) : vm_conns :=
  VmConns (console_conn v) h (console_running v) (io_running v).

(** [path] is the path of the console, empty when there is none; [ctl_in] is
    what the control channel gives. *)
Definition connect_console (d : dials) (path : string) (v : vm_conns) (fds : gset Z) : go_outcome * vm_conns * gset Z :=
  if str_nonempty path then
    match dial_console d with
    | None => (Failed, VmConns None (hyperHandler_of v) (console_running v) (io_running v), fds)
    | Some c => (Done, VmConns (Some c) (hyperHandler_of v) true (io_running v), {[c]} ∪ fds)
    end
  else (Done, v, fds).

Definition Connect (d : dials) (path : string) (ctl_in : go_conn) (v : vm_conns) (fds : gset Z)
    : go_outcome * vm_conns * gset Z :=
  match connect_console d path v fds with
  | (Done, v, fds) =>
      match OpenSockets (dial_ctl d) (dial_io d) (hyperHandler_of v) fds with
      | (Done, h, fds) =>
          if (WaitForReady ctl_in).1
          then (Done, VmConns (console_conn v) h (console_running v) true, fds)
          else
            match CloseSockets h fds with
            | (Panicked, h, fds) => (Panicked, set_handler h v, fds)
            | (_, h, fds) => (Failed, set_handler h v, fds)
            end
      | (r, h, fds) => (r, set_handler h v, fds)
      end
  | r => r
  end.

(** The connections of [Close]; both goroutines end once theirs is closed.  The
    sessions are those of [vm_Close]. *)
Definition Close_conns (v : vm_conns) (fds : gset Z) : vm_conns * gset Z :=
  let '(_, h, fds) := CloseSockets (hyperHandler_of v) fds in
  let fds := match console_conn v with Some c => (conn_Close (Some c) fds).2 | None => fds end in
  (VmConns (console_conn v) h false false, fds).

Definition vm_conns_new (h : Hyperstart) : vm_conns := VmConns None h false false.

(** What [consoleToLog] logs of what the console gives: every line that ends,
    each with its newline; what follows the last one is dropped. *)
Fixpoint console_lines (cur : string) (s : string) : list string :=
  match s with
  | EmptyString => []
  | String c s =>
      let cur := cur +:+ String c EmptyString in
      if bool_decide (c = "010"%char) then cur :: console_lines EmptyString s else console_lines cur s
  end.

Definition shortName (containerID : string) : string := str_take (Nat.min 8 (String.length containerID)) containerID.

(** ** [Socketpair] of src/proxy/syscall.go, and the descriptors of an allocation *)

(** What [socketpair] and the duplication of each end give. *)
Record pair_env := PairEnv { pair_fds : option (Z * Z); dup0 : option Z; dup1 : option Z; file0 : option Z }.

(** Deferred calls close the two ends when the function returns. *)
Definition Socketpair (e : pair_env) (fds : gset Z) : option (Z * Z) * gset Z :=
  match pair_fds e with
  | None => (None, fds)
  | Some (a, b) =>
      let fds := {[a; b]} ∪ fds in
      match dup0 e with
      | None => (None, fds ∖ {[a]})
      | Some c0 =>
          let fds := {[c0]} ∪ fds in
          match dup1 e with
          | None => (None, fds ∖ {[b]} ∖ {[a]})
          | Some c1 => (Some (c0, c1), ({[c1]} ∪ fds) ∖ {[b]} ∖ {[a]})
          end
      end
  end.

(** The part of [allocateIoHandler] that makes the descriptors: the one for the
    client and ours. *)
Definition allocate_fds (e : pair_env) (fds : gset Z) : option (Z * Z) * gset Z :=
  match Socketpair e fds with
  | (None, fds) => (None, fds)
  | (Some (c0, c1), fds) =>
      match file0 e with
      | None => (None, fds)
      | Some f0 => (Some (f0, c1), ({[f0]} ∪ fds) ∖ {[c0]})
      end
  end.

(** [Serve] closes the file once it was sent. *)
Definition sent_file (f0 : Z) (fds : gset Z) : gset Z := fds ∖ {[f0]}.

(** ** Socket activation *)

(** [strconv.Atoi]: a sign, digits and nothing else, in range. *)
Definition go_Atoi (s : string) : option Z :=
  let '(neg, _, s) := scan_sign s in
  let '(v, n) := scan_digits 0 s in
  let v := if neg : bool then - v else v in
  if str_nonempty s && (n =? String.length s)%nat && (LONG_MIN <=? v) && (v <=? LONG_MAX) then Some v else None.

Definition listenFdsStart : Z := 3.

(** The descriptors, all closed on [exec]. *)
Definition listenFds (listen_pid listen_fds : string) (pid : Z) : list Z :=
  match go_Atoi listen_pid with
  | Some p =>
      if bool_decide (p = pid) then
        match go_Atoi listen_fds with
        | Some nfds =>
            if nfds =? 0 then [] else seqZ listenFdsStart (s64 (listenFdsStart + nfds) - listenFdsStart)
        | None => []
        end
      else []
  | None => []
  end.

(** ** [init] *)

Inductive removal := Removed | NotExist | RemoveError.

Record init_env := InitEnv {
  listen_pid : string; listen_fds : string; getpid : Z; verbosity : Z;
  DefaultSocketPath : string; ArgSocketPath : string;
  file_listener : bool; mkdir_all : bool; remove : removal; listen_unix : bool; chmod : bool
}.

Inductive init_action :=
| IFileListener (fd : Z)
| IMkdirAll (dir : string) (mode : Z)
| IRemove (path : string)
| IListenUnix (path : string)
| IChmod (path : string) (mode : Z).

Inductive listener := FdListener (fd : Z) | PathListener (path : string).

(** [filepath.Clean] and [filepath.Dir]: the elements of a path, with ["."] and
    [".."] resolved, and those before the last separator. *)
Fixpoint path_elements (cur s : string) : list string :=
  match s with
  | EmptyString => [cur]
  | String "/"%char s => cur :: path_elements EmptyString s
  | String c s => path_elements (cur +:+ String c EmptyString) s
  end.

Definition clean_element (rooted : bool) (stack : list string) (x : string) : list string :=
  if bool_decide (x = EmptyString \/ x = ".") then stack
  else if bool_decide (x = "..") then
    match stack with
    | top :: below => if bool_decide (top <> "..") then below else x :: stack
    | [] => if rooted then [] else [x]
    end
  else x :: stack.

Definition filepath_Clean (rooted : bool) (elements : list string) : string :=
  let path := String.concat "/" (rev (foldl (clean_element rooted) [] elements)) in
  if rooted then "/" +:+ path else if str_nonempty path then path else ".".

Definition filepath_Dir (path : string) : string :=
  filepath_Clean (match path with String "/"%char _ => true | _ => false end)
    (removelast (path_elements EmptyString path)).

Definition socket_path (e : init_env) : string :=
  if str_nonempty (ArgSocketPath e) then ArgSocketPath e
  else if str_nonempty (DefaultSocketPath e) then DefaultSocketPath e
  else "/var/run/cc-oci-runtime/proxy.sock".

(** The branch without an activated socket. *)
Definition init_path (e : init_env) (path : string) : option listener * list init_action :=
  let a1 := [IMkdirAll (filepath_Dir path) 488] in
  if negb (mkdir_all e) then (None, a1)
  else
    let a2 := a1 ++ [IRemove path] in
    match remove e with
    | RemoveError => (None, a2)
    | _ =>
        let a3 := a2 ++ [IListenUnix path] in
        if negb (listen_unix e) then (None, a3)
        else
          let a4 := a3 ++ [IChmod path (Z.lor 432 (2 ^ 24))] in
          if chmod e then (Some (PathListener path), a4) else (None, a4)
    end.

(** Whether the console is shown, the listener, and what was done. *)
Definition init (e : init_env) : bool * option listener * list init_action :=
  let '(l, acts) :=
    match listenFds (listen_pid e) (listen_fds e) (getpid e) with
    | [] => init_path e (socket_path e)
    | [fd] => (if file_listener e then Some (FdListener fd) else None, [IFileListener fd])
    | _ => (None, [])
    end in
  (3 <=? verbosity e, l, acts).

(** ** Verbosity and profiler *)

(** [Level.Set] of glog, through [flag.Set]: the level becomes 32 bits wide, and
    the error is ignored by [initLogging]. *)
Definition Level_Set (value : string) (v : Z) : Z := match go_Atoi value with Some z => s32 z | None => v end.

Definition initLogging (level : string) (v : Z) : Z := if str_nonempty level then Level_Set level v else v.

Record profiler := Profiler { prof_enabled : bool; prof_host : string; prof_port : Z }.

(** The address listened on. *)
Definition profiler_setup (p : profiler) : option string :=
  if prof_enabled p then Some (prof_host p +:+ ":" +:+ fmt_d (prof_port p)) else None.

(** ** Numbers of the clients *)

(** [nextClientID], the number of each client, and the clients that have read it
    and not added one yet. *)
Record client_ids := ClientIds { nextClientID : Z; id_of : gmap Z Z; adding : gset Z }.

Definition client_ids_init : client_ids := ClientIds 1 ∅ ∅.

(** [serveNewClient] runs in a goroutine for each connection: it reads the
    number, and adds one atomically afterwards. *)
Inductive id_step : client_ids -> client_ids -> Prop :=
| id_read c s : id_of s !! c = None ->
    id_step s (ClientIds (nextClientID s) (<[c := nextClientID s]> (id_of s)) ({[c]} ∪ adding s))
| id_add c s : c ∈ adding s ->
    id_step s (ClientIds (u64 (nextClientID s + 1)) (id_of s) (adding s ∖ {[c]})).

(** Clients that come one at a time: nobody reads while another one is to add. *)
Definition serial_step (s t : client_ids) : Prop := id_step s t /\ (adding s = ∅ \/ adding t = ∅).

(** A client served to the end of its connection. *)
Definition serveNewClient `{GoJson} (fuel : nat) (envs : nat -> environment) (writes : nat -> option nat) (c : Z)
    (conn : go_conn) (p : proxy) : proxy * list (list sent) * go_conn :=
  Serve fuel envs writes c conn (set_client_vm c None p).

(** ** The program *)

Definition newProxy : proxy := Proxy ∅ [] ∅ false.

(** The loop of [serve]: the connections accepted, each served by a goroutine, and
    the errors, which are printed. *)
Fixpoint accept_loop (accepts : list (string + Z)) : list Z * list string :=
  match accepts with
  | [] => ([], [])
  | inl err :: l => let '(conns, errs) := accept_loop l in (conns, ("couldn't accept connection: " +:+ err) :: errs)
  | inr conn :: l => let '(conns, errs) := accept_loop l in (conn :: conns, errs)
  end.

(** How the program goes on: it exits with a status, or serves. *)
Inductive program_end := Exits (status : Z) | Serves (l : listener) (p : proxy) (conns : list Z).

Definition proxyMain (e : init_env) (accepts : list (string + Z)) : program_end * list init_action :=
  let '(console, l, acts) := init e in
  match l with
  | None => (Exits 1, acts)
  | Some l => (Serves l (Proxy (vms newProxy) (vm_heap newProxy) (client_vm newProxy) console) (fst (accept_loop accepts)), acts)
  end.

(** [level] is the variable of the environment, the flags are parsed: the address
    of the profiler and the rest of the run. *)
Definition go_main (level : string) (prof : profiler) (e : Z -> init_env) (accepts : list (string + Z))
    : option string * (program_end * list init_action) :=
  (profiler_setup prof, proxyMain (e (initLogging level 0)) accepts).

(** ** The connections of a VM *)

(** What dialling gives is not open yet. *)
Definition dialled (d : dials) : list Z := option_list (dial_console d) ++ option_list (dial_ctl d) ++ option_list (dial_io d).
Definition dials_fresh (d : dials) (fds : gset Z) : Prop := NoDup (dialled d) /\ Forall (fun c => c ∉ fds) (dialled d).

(** The connection of the console, when there is to be one. *)
Definition console_fds (d : dials) (path : string) : gset Z :=
  if str_nonempty path then list_to_set (option_list (dial_console d)) else ∅.
Definition channel_fds (d : dials) : gset Z := list_to_set (option_list (dial_ctl d) ++ option_list (dial_io d)).

Lemma close_fresh (c : Z) (fds : gset Z) : c ∉ fds -> conn_Close (Some c) ({[c]} ∪ fds) = (Done, fds).
Proof. intros H. unfold conn_Close. rewrite decide_True by set_solver. f_equal. set_solver. Qed.

Lemma remove_absent (c : Z) (fds : gset Z) : c ∉ fds -> fds ∖ {[c]} = fds.
Proof. set_solver. Qed.

(** Sockets just opened are closed in the other order. *)
Lemma close_opened c i h fds :
  c ∉ fds -> i ∉ fds -> c <> i ->
  CloseSockets (set_io (Some i) true (set_ctl (Some c) true h)) ({[i]} ∪ ({[c]} ∪ fds)) =
    (Done, set_io (Some i) false (set_ctl (Some c) false h), fds).
Proof.
  intros Hc Hi Hn. unfold CloseSockets. cbn [ctlState set_io set_ctl hs_ctl hs_io ioState].
  replace ({[i]} ∪ ({[c]} ∪ fds)) with ({[c]} ∪ ({[i]} ∪ fds)) by set_solver.
  rewrite close_fresh by set_solver. cbn [ctlState set_io set_ctl hs_ctl hs_io ioState]. by rewrite close_fresh.
Qed.

(** Opening fails without leaving a socket open, and closing then touches
    nothing. *)
Lemma open_failed c i h fds r h' fds' :
  ctlState h = false -> ioState h = false -> (forall x, c = Some x -> x ∉ fds) -> OpenSockets c i h fds = (r, h', fds') -> r <> Done ->
  r = Failed /\ fds' = fds /\ forall more, (forall x, c = Some x -> x ∉ more) -> (CloseSockets h' more).2 = more.
Proof.
  intros Hc Hi Hf. unfold OpenSockets. destruct c as [c|], i as [i|]; cbn; intros [= <- <- <-] Hr; try done.
  - pose proof (Hf c eq_refl). split_and!; [done|set_solver|]. intros more Hm. specialize (Hm c eq_refl).
    unfold CloseSockets. cbn. rewrite decide_False by done. cbn. by apply remove_absent.
  - split_and!; [done|done|]. intros. unfold CloseSockets. cbn. rewrite Hc. cbn. by rewrite Hi.
  - split_and!; [done|done|]. intros. unfold CloseSockets. cbn. rewrite Hc. cbn. by rewrite Hi.
Qed.

Lemma dials_fresh_only d fds :
  dials_fresh d fds ->
  (forall x, dial_ctl d = Some x -> x ∉ fds) /\ (forall x, dial_io d = Some x -> x ∉ fds) /\
  (forall x y, dial_ctl d = Some x -> dial_io d = Some y -> x <> y).
Proof.
  intros [Hn Hf]. unfold dialled in *. rewrite Forall_app, Forall_app in Hf. destruct Hf as (_ & H1 & H2).
  apply NoDup_app in Hn as (_ & _ & (_ & Hd & _)%NoDup_app). split_and!.
  - intros x E. rewrite E in H1. by inversion H1.
  - intros x E. rewrite E in H2. by inversion H2.
  - intros x y E1 E2 ->. rewrite E1, E2 in Hd. apply (Hd y); apply list_elem_of_here.
Qed.

Lemma dials_fresh_channels d fds k :
  dials_fresh d fds -> dial_console d = Some k ->
  (k ∉ fds) /\ (forall x, dial_ctl d = Some x -> x ∉ {[k]} ∪ fds) /\ (forall x, dial_io d = Some x -> x ∉ {[k]} ∪ fds) /\
  (forall x y, dial_ctl d = Some x -> dial_io d = Some y -> x <> y).
Proof.
  intros Hd E. destruct (dials_fresh_only d fds Hd) as (H1 & H2 & H3). destruct Hd as [Hn Hf]. unfold dialled in *.
  rewrite E in Hn, Hf. cbn in Hn, Hf. apply NoDup_cons in Hn as [Hn _]. apply Forall_cons in Hf as [Hk _].
  rewrite elem_of_app in Hn. split_and!; [done| | |done]; intros x Ex; specialize (H1 x); specialize (H2 x);
    rewrite Ex in Hn; cbn in Hn; set_solver.
Qed.

(** The channels once the console is there. *)
Definition connect_channels (d : dials) (ctl_in : go_conn) (v : vm_conns) (fds : gset Z) : go_outcome * vm_conns * gset Z :=
  Connect d EmptyString ctl_in v fds.

Lemma connect_channels_fds d ctl_in k b ctl io fds r v fds' :
  let h := NewHyperstart ctl io "unix" in
  (forall x, dial_ctl d = Some x -> x ∉ fds) -> (forall x, dial_io d = Some x -> x ∉ fds) ->
  (forall x y, dial_ctl d = Some x -> dial_io d = Some y -> x <> y) ->
  connect_channels d ctl_in (VmConns k h b false) fds = (r, v, fds') ->
  console_conn v = k /\ r <> Panicked /\ io_running v = bool_decide (r = Done) /\
  fds' = (if decide (r = Done) then channel_fds d else ∅) ∪ fds /\ (CloseSockets (hyperHandler_of v) fds').2 = fds.
Proof.
  intros h Hc Hi Hci. unfold connect_channels, Connect, connect_console. cbn [str_nonempty hyperHandler_of].
  destruct (OpenSockets (dial_ctl d) (dial_io d) h fds) as [[r1 h1] fds1] eqn:Eo. destruct (decide (r1 = Done)) as [->|Hr1].
  - unfold OpenSockets in Eo. unfold channel_fds. destruct (dial_ctl d) as [c|], (dial_io d) as [i|]; try done.
    injection Eo as <- <-. pose proof (close_opened c i h fds (Hc c eq_refl) (Hi i eq_refl) (Hci c i eq_refl eq_refl)) as Hcl.
    destruct (WaitForReady ctl_in).1; rewrite ?Hcl; intros [= <- <- <-].
    + cbn [hyperHandler_of]. rewrite Hcl. cbn. split_and!; [done..|set_solver|done].
    + split_and!; [done..|set_solver|done].
  - destruct (open_failed _ _ h _ _ _ _ eq_refl eq_refl Hc Eo Hr1) as (-> & -> & Hcl). intros [= <- <- <-].
    split_and!; [done..|set_solver|]. by apply Hcl.
Qed.

(** C24.  The connections of a VM are accounted for.  [Connect] on a new VM never
    panics; when it succeeds it has opened the two channels, and the console
    when there is one, and when it fails no channel is left open, but the
    console is; and [Close] afterwards closes all of them and nothing else. *)
Theorem connect_descriptors d path ctl_in ctl io fds r v fds' :
  dials_fresh d fds -> Connect d path ctl_in (vm_conns_new (NewHyperstart ctl io "unix")) fds = (r, v, fds') ->
  r <> Panicked /\ io_running v = bool_decide (r = Done) /\
  fds' = console_fds d path ∪ (if decide (r = Done) then channel_fds d else ∅) ∪ fds /\
  (Close_conns v fds').2 = fds.
Proof.
  intros Hd. unfold console_fds. destruct (str_nonempty path) eqn:Ep.
  - destruct (dial_console d) as [k|] eqn:Ek.
    + intros HC. assert (connect_channels d ctl_in (VmConns (Some k) (NewHyperstart ctl io "unix") true false) ({[k]} ∪ fds) = (r, v, fds')) as H.
      { rewrite <- HC. unfold connect_channels, Connect, connect_console. by rewrite Ep, Ek. }
      destruct (dials_fresh_channels _ _ _ Hd Ek) as (Hk & H1 & H2 & H3).
      apply connect_channels_fds in H as (Hv & Hr & Hio & Hf & Hcl); [|done..]. split_and!; [done|done|rewrite Hf; set_solver|].
      unfold Close_conns. destruct (CloseSockets _ _) as [[r1 h1] fds1]. cbn in Hcl. subst fds1. rewrite Hv, close_fresh; done.
    + unfold Connect, connect_console. rewrite Ep, Ek. intros [= <- <- <-]. split_and!; [done|done|set_solver|done].
  - intros HC. assert (connect_channels d ctl_in (vm_conns_new (NewHyperstart ctl io "unix")) fds = (r, v, fds')) as H.
    { rewrite <- HC. unfold connect_channels, Connect, connect_console. by rewrite Ep. }
    destruct (dials_fresh_only _ _ Hd) as (H1 & H2 & H3).
    apply connect_channels_fds in H as (Hv & Hr & Hio & Hf & Hcl); [|done..]. split_and!; [done|done|rewrite Hf; set_solver|].
    unfold Close_conns. destruct (CloseSockets _ _) as [[r1 h1] fds1]. cbn in Hcl. subst fds1. by rewrite Hv.
Qed.

(** ** The descriptors of an allocation *)

(** A new descriptor is none of those open then: the ends of the pair are closed
    when the file is made, so that it may get the number of one of them. *)
Definition pair_fresh (e : pair_env) (fds : gset Z) : Prop :=
  (forall a b, pair_fds e = Some (a, b) -> (a ∉ fds) /\ (b ∉ fds) /\ a <> b /\
     forall c0, dup0 e = Some c0 -> (c0 ∉ fds) /\ c0 <> a /\ c0 <> b /\
     forall c1, dup1 e = Some c1 -> (c1 ∉ fds) /\ c1 <> a /\ c1 <> b /\ c1 <> c0 /\
     forall f, file0 e = Some f -> (f ∉ fds) /\ f <> c0 /\ f <> c1).

Lemma Socketpair_fds e fds c0 c1 fds' :
  pair_fresh e fds -> Socketpair e fds = (Some (c0, c1), fds') ->
  fds' = {[c0; c1]} ∪ fds /\ (c0 ∉ fds) /\ (c1 ∉ fds) /\ c0 <> c1 /\ forall f, file0 e = Some f -> (f ∉ fds) /\ f <> c0 /\ f <> c1.
Proof.
  intros Hf. unfold Socketpair. destruct (pair_fds e) as [[a b]|] eqn:E; [|done]. destruct (Hf a b E) as (Ha & Hb & Hab & H0).
  destruct (dup0 e) as [x|]; [|done]. destruct (dup1 e) as [y|]; [|done]. intros [= -> -> <-].
  destruct (H0 c0 eq_refl) as (? & ? & ? & H1). destruct (H1 c1 eq_refl) as (? & ? & ? & ? & ?). split_and!; [set_solver|done..].
Qed.

(** C26.  An allocation costs the proxy one descriptor.  When the pair of sockets
    is made for a client, the proxy has opened the file to send and its own
    end, and nothing else; once the file is sent, only its own end. *)
Theorem allocation_descriptors e fds f0 c1 fds' :
  pair_fresh e fds -> allocate_fds e fds = (Some (f0, c1), fds') ->
  f0 <> c1 /\ (f0 ∉ fds) /\ (c1 ∉ fds) /\ fds' = {[f0; c1]} ∪ fds /\ sent_file f0 fds' = {[c1]} ∪ fds.
Proof.
  intros Hf. unfold allocate_fds, sent_file. destruct (Socketpair e fds) as [[[c0 y]|] fds1] eqn:Es; [|done].
  destruct (Socketpair_fds _ _ _ _ _ Hf Es) as (-> & ? & ? & ? & H). destruct (file0 e) as [x|]; [|done].
  intros [= -> -> <-]. destruct (H f0 eq_refl) as (? & ? & ?). split_and!; [done..|set_solver|set_solver].
Qed.

(** ** Start *)

Lemma go_Atoi_fmt_d z : LONG_MIN <= z <= LONG_MAX -> go_Atoi (fmt_d z) = Some z.
Proof.
  intros Hz. unfold go_Atoi, fmt_d, pretty, pretty_Z. destruct z as [|p|p]; [done|..]; change (pretty p) with (pretty (Npos p)).
  - destruct (scan_digits_pretty_pos p) as [H _]. destruct (pretty_pos_first p) as (c & s & E & Hc). rewrite E in *.
    destruct (digit_not_space_sign c Hc) as [_ Hg]. rewrite Hg, H, Nat.eqb_refl. cbn [str_nonempty andb].
    destruct (Z.leb_spec LONG_MIN (Zpos p)), (Z.leb_spec (Zpos p) LONG_MAX); done || lia.
  - change (scan_sign _) with (true, 1%nat, pretty (Npos p)). destruct (scan_digits_pretty_pos p) as [H Hl]. cbv iota beta.
    rewrite H, Nat.eqb_refl. destruct (pretty (Npos p)); [cbn in Hl; lia|]. cbn [str_nonempty andb].
    change (- Z.pos p) with (Z.neg p). destruct (Z.leb_spec LONG_MIN (Zneg p)), (Z.leb_spec (Zneg p) LONG_MAX); done || lia.
Qed.

(** The convention of systemd: the environment says that this process was given
    [n] sockets.  A variable that is not set is empty, which is no number. *)
Definition activated (e : init_env) (n : Z) : Prop :=
  go_Atoi (listen_pid e) = Some (getpid e) /\ go_Atoi (listen_fds e) = Some n.

Lemma go_Atoi_range s n : go_Atoi s = Some n -> LONG_MIN <= n <= LONG_MAX.
Proof.
  unfold go_Atoi. destruct (scan_sign s) as [[neg k] s1]. destruct (scan_digits 0 s1) as [v m]. case_match eqn:E; [|done].
  intros [= <-]. rewrite !andb_true_iff, !Z.leb_le in E. lia.
Qed.

Lemma listenFds_activated e n :
  activated e n -> n <= LONG_MAX - 3 -> listenFds (listen_pid e) (listen_fds e) (getpid e) = seqZ 3 n.
Proof.
  intros [Hp Hn] Hr. pose proof (go_Atoi_range _ _ Hn) as Hb. unfold listenFds. rewrite Hp, Hn, bool_decide_true by done.
  destruct (Z.eqb_spec n 0) as [->|]; [done|]. unfold listenFdsStart.
  rewrite wraps_small by (unfold LONG_MIN, LONG_MAX in *; lia). f_equal. lia.
Qed.

Lemma listenFds_none e : (forall n, activated e n -> n <= 0) -> listenFds (listen_pid e) (listen_fds e) (getpid e) = [].
Proof.
  intros H. assert (forall n, activated e n -> listenFds (listen_pid e) (listen_fds e) (getpid e) = []) as Ha.
  { intros n Hn. specialize (H n Hn). rewrite (listenFds_activated e n Hn) by (unfold LONG_MAX; lia). by apply seqZ_nil. }
  destruct (go_Atoi (listen_pid e)) as [p|] eqn:Ep; [|unfold listenFds; by rewrite Ep].
  destruct (decide (p = getpid e)) as [->|Hne]; [|unfold listenFds; by rewrite Ep, bool_decide_false].
  destruct (go_Atoi (listen_fds e)) as [n|] eqn:En; [by apply (Ha n)|]. unfold listenFds. by rewrite Ep, En, bool_decide_true.
Qed.

(** What is done for a socket of its own, in this order. *)
Definition own_socket (path : string) : list init_action :=
  [IMkdirAll (filepath_Dir path) 488; IRemove path; IListenUnix path; IChmod path (Z.lor 432 (2 ^ 24))].

Lemma init_path_steps e path :
  let '(l, acts) := init_path e path in
  acts `prefix_of` own_socket path /\
  (l = None \/ l = Some (PathListener path) /\ acts = own_socket path) /\
  (mkdir_all e = true -> remove e <> RemoveError -> listen_unix e = true -> chmod e = true -> l = Some (PathListener path)).
Proof.
  unfold init_path. destruct (mkdir_all e), (remove e), (listen_unix e), (chmod e); cbn;
    (split_and!; [eexists; cbn [app]; reflexivity|by auto|done]).
Qed.


(** ** Numbers of the clients *)

Record serial_ok (s : client_ids) : Prop := {
  so_next : nextClientID s = Z.of_nat (size (id_of s)) + 1 - Z.of_nat (size (adding s));
  so_adding : adding s = ∅ \/ exists c, adding s = {[c]} /\ id_of s !! c = Some (nextClientID s);
  so_old : forall c i, id_of s !! c = Some i -> c ∉ adding s -> 1 <= i < nextClientID s;
  so_inj : forall c c' i, id_of s !! c = Some i -> id_of s !! c' = Some i -> c = c'
}.

Lemma id_step_size s t : id_step s t -> (size (id_of t) <= S (size (id_of s)))%nat.
Proof. intros [c s' Hc|c s' Hc]; cbn; [by rewrite map_size_insert_None|lia]. Qed.

Lemma serial_ok_init : serial_ok client_ids_init.
Proof. split; cbn; [done|by left|done|done]. Qed.

Lemma serial_ok_step s t : serial_ok s -> serial_step s t -> Z.of_nat (size (id_of t)) < 2 ^ 64 - 1 -> serial_ok t.
Proof.
  intros [Hn Ha Ho Hi] [Hst Hser] Hsz. destruct Hst as [c s Hc|c s Hc]; cbn in *.
  - assert (adding s = ∅) as Ea by (destruct Hser; set_solver). rewrite Ea in *. clear Ha Hser.
    assert (forall c' i, id_of s !! c' = Some i -> 1 <= i < nextClientID s) as Hold by (intros; eapply Ho; set_solver).
    replace ({[c]} ∪ ∅) with ({[c]} : gset Z) by set_solver. split; cbn.
    + rewrite map_size_insert_None by done. rewrite size_singleton. rewrite size_empty in Hn. lia.
    + right. exists c. by rewrite lookup_insert_eq.
    + intros c' i H1 H2. rewrite lookup_insert_ne in H1 by set_solver. by eapply Hold.
    + intros c1 c2 i H1 H2. apply lookup_insert_Some in H1 as [[<- E1]|[_ H1]], H2 as [[<- E2]|[_ H2]].
      * done.
      * apply Hold in H2. lia.
      * apply Hold in H1. lia.
      * by eapply Hi.
  - destruct Ha as [Ha|(c' & Ha & Hid)]; [set_solver|]. assert (c' = c) as -> by set_solver.
    assert (size (adding s) = 1%nat) as Es by (rewrite Ha; apply size_singleton). rewrite Es in Hn.
    assert (u64 (nextClientID s + 1) = nextClientID s + 1) as Eu by (apply wrapu_small; lia).
    assert (0 < size (id_of s))%nat as Hpos.
    { destruct (decide (size (id_of s) = 0%nat)) as [E|]; [|lia]. apply map_size_empty_inv in E. by rewrite E in Hid. }
    replace (adding s ∖ {[c]}) with (∅ : gset Z) by set_solver. rewrite Eu. split; cbn.
    + rewrite size_empty. lia.
    + by left.
    + intros c1 i H1 _. destruct (decide (c1 = c)) as [->|]; [simplify_eq; lia|].
      assert (1 <= i < nextClientID s) by (eapply Ho; set_solver). lia.
    + done.
Qed.

(** The numbers of the clients identify them, as long as no client comes
    while another one is being numbered: two clients never have the same
    number, and every number is below the next one or is the one being given. *)
Theorem serial_ids_distinct n s :
  nsteps serial_step n client_ids_init s -> Z.of_nat n < 2 ^ 64 - 1 ->
  (forall c c' i, id_of s !! c = Some i -> id_of s !! c' = Some i -> c = c') /\
  forall c i, id_of s !! c = Some i -> 1 <= i <= nextClientID s.
Proof.
  intros Hs Hn. assert (serial_ok s /\ (size (id_of s) <= n)%nat) as [[H1 H2 H3 H4] _].
  { revert s Hs. induction n as [|n IH]; intros s Hs.
    - inversion Hs; subst. split; [apply serial_ok_init|done].
    - apply nsteps_inv_r in Hs as (t & Ht & Hst). destruct (IH ltac:(lia) t Ht) as [Hok Hsz].
      assert (size (id_of s) <= S n)%nat as Hsz'.
      { pose proof (id_step_size t s (proj1 Hst)). lia. }
      split; [|done]. apply (serial_ok_step t s Hok Hst). lia. }
  split; [done|]. intros c i Hc. destruct (decide (c ∈ adding s)) as [Hin|Hin]; [|specialize (H3 c i Hc Hin); lia].
  destruct H2 as [H2|(c' & H2 & Hid)]; [set_solver|]. assert (c' = c) as -> by set_solver. simplify_eq.
  assert (size (adding s) = 1%nat) as Es by (rewrite H2; apply size_singleton).
  assert (0 < size (id_of s))%nat; [|lia].
  destruct (decide (size (id_of s) = 0%nat)) as [E|]; [|lia]. apply map_size_empty_inv in E. by rewrite E in Hid.
Qed.

(** What the console gives is logged in whole lines, in order; only what follows
    the last newline is not. *)
Lemma console_lines_split cur s :
  str_free "010" cur -> exists rest, str_free "010" rest /\ String.concat EmptyString (console_lines cur s) +:+ rest = cur +:+ s.
Proof.
  revert cur. induction s as [|c s IH]; intros cur Hc; cbn [console_lines].
  - exists cur. by rewrite str_app_nil_r.
  - destruct (decide (c = "010"%char)) as [->|Hn].
    + rewrite bool_decide_true by done. destruct (IH EmptyString) as (rest & Hr & E); [constructor|]. exists rest. split; [done|].
      change (String.concat EmptyString (?a :: ?l)) with (conn_bytes (a :: l)). rewrite conn_bytes_cons.
      unfold conn_bytes. by rewrite !str_app_assoc, E.
    + rewrite bool_decide_false by done. destruct (IH (cur +:+ String c EmptyString)) as (rest & Hr & E).
      { apply str_free_app. split; [done|]. apply str_free_cons. split; [done|constructor]. }
      exists rest. split; [done|]. by rewrite E, str_app_assoc.
Qed.

(** ** Witnesses and examples *)

Definition dials_example : dials := Dials (Some 10) (Some 11) None.

(** A channel that cannot be opened, with a console: the console stays open. *)
Lemma connect_descriptors_witness :
  dials_fresh dials_example {[3]} /\
  let '(r, v, fds') := Connect dials_example "/console" [] (vm_conns_new (NewHyperstart "/ctl" "/tty" "unix")) {[3]} in
  r = Failed /\ fds' = {[10]} ∪ ∅ ∪ ∅ ∪ {[3]} /\ (Close_conns v fds').2 = {[3]}.
Proof.
  assert (dials_fresh dials_example {[3]}) as Hd.
  { split; [apply (bool_decide_unpack _); vm_compute; exact I|]. repeat constructor; set_solver. }
  split; [exact Hd|]. destruct (Connect _ _ _ _ _) as [[r v] fds'] eqn:E.
  assert (r = Failed) as -> by (apply (f_equal (fun x => x.1.1)) in E; vm_compute in E; by rewrite <- E).
  destruct (connect_descriptors _ _ _ _ _ _ _ _ _ Hd E) as (_ & _ & Hf & Hc). split_and!; [reflexivity|exact Hf|exact Hc].
Defined.

(** The file gets the number of an end of the pair. *)
Definition pair_example : pair_env := PairEnv (Some (4, 5)) (Some 6) (Some 7) (Some 4).

Lemma allocation_descriptors_witness :
  pair_fresh pair_example {[3]} /\ exists fds', allocate_fds pair_example {[3]} = (Some (4, 7), fds') /\ sent_file 4 fds' = {[7]} ∪ {[3]}.
Proof.
  assert (pair_fresh pair_example {[3]}) as Hf.
  { intros a b [= <- <-]. split_and!; [set_solver|set_solver|done|]. intros c0 [= <-]. split_and!; [set_solver|done|done|].
    intros c1 [= <-]. split_and!; [set_solver|done..|]. intros f [= <-]. split_and!; [set_solver|done|done]. }
  split; [exact Hf|]. destruct (allocate_fds pair_example {[3]}) as [r fds'] eqn:E. exists fds'.
  assert (r = Some (4, 7)) as -> by (apply (f_equal fst) in E; vm_compute in E; by rewrite <- E).
  split; [done|]. apply (allocation_descriptors _ _ _ _ _ Hf E).
Defined.

Definition init_example : init_env :=
  InitEnv "42" "1" 42 3 EmptyString EmptyString true true NotExist true true.

(** Neither variable is set. *)
Definition plain_start : init_env :=
  InitEnv EmptyString EmptyString 42 0 EmptyString "/run/proxy.sock" true true NotExist true true.


Definition ids_one : client_ids := ClientIds 1 {[7 := 1]} {[7]}.

Lemma serial_ids_distinct_witness : nsteps serial_step 1 client_ids_init ids_one /\ 1 <= 1 <= nextClientID ids_one.
Proof.
  assert (nsteps serial_step 1 client_ids_init ids_one) as H.
  { eapply nsteps_l; [|constructor]. split; [|by left].
    replace ids_one with (ClientIds 1 (<[7 := 1]> ∅) ({[7]} ∪ ∅)) by (unfold ids_one; f_equal; set_solver). by apply (id_read 7 client_ids_init). }
  split; [exact H|]. apply (proj2 (serial_ids_distinct 1 ids_one H ltac:(done)) 7 1). by vm_compute.
Defined.

(** Two clients that come together have the same number. *)
Example duplicate_ids :
  exists s, rtc id_step client_ids_init s /\ id_of s !! 7 = Some 1 /\ id_of s !! 8 = Some 1 /\ adding s = ∅.
Proof.
  eexists. split_and!.
  - eapply rtc_l; [by apply (id_read 7)|]. eapply rtc_l; [by apply (id_read 8)|].
    eapply rtc_l; [apply (id_add 7); set_solver|]. eapply rtc_l; [apply (id_add 8); set_solver|]. apply rtc_refl.
  - by vm_compute.
  - by vm_compute.
  - set_solver.
Qed.

(** When the I/O channel cannot be opened, the control channel is closed but
    still counts as open, and closing the sockets fails. *)
Example half_open_sockets :
  let '(r, h, fds) := OpenSockets (Some 5) None (NewHyperstart "/ctl" "/tty" "unix") ∅ in
  r = Failed /\ ctlState h = true /\ (CloseSockets h fds).1.1 = Failed.
Proof. vm_compute. done. Qed.

(** When the first end cannot be duplicated, the second one stays open. *)
Example socketpair_leak : (Socketpair (PairEnv (Some (4, 5)) None None None) ∅).2 = {[5]}.
Proof. apply (bool_decide_unpack _). vm_compute. exact I. Qed.

Example dir_default : filepath_Dir "/var/run/cc-oci-runtime/proxy.sock" = "/var/run/cc-oci-runtime".
Proof. reflexivity. Qed.

(** Every connection is served, whatever failed before it, and a proxy that cannot
    listen exits without serving anyone. *)
Lemma accept_loop_conns accepts : fst (accept_loop accepts) = omap (fun x => match x with inr c => Some c | inl _ => None end) accepts.
Proof. induction accepts as [|[err|c] l IH]; [done|..]; cbn; destruct (accept_loop l); cbn in *; by rewrite IH. Qed.

Lemma proxyMain_serves e accepts :
  match fst (proxyMain e accepts) with
  | Exits status => status = 1 /\ (init e).1.2 = None
  | Serves l p conns => (init e).1.2 = Some l /\ enableVMConsole p = (3 <=? verbosity e) /\ vms p = ∅ /\
                        conns = omap (fun x => match x with inr c => Some c | inl _ => None end) accepts
  end.
Proof.
  unfold proxyMain. assert ((init e).1.1 = (3 <=? verbosity e)) as Hc by (unfold init; by repeat case_match).
  destruct (init e) as [[console [l|]] acts]; cbn in *; [|done]. split_and!; [done..|apply accept_loop_conns].
Qed.

(** A write to one client that fails ends the output of every client of the VM,
    which is not taken for lost. *)
Example failed_write_ends_output :
  let v := set_running true ((AllocateIo 1 2 21 (AllocateIo 1 1 20 (newVM "c1" "/ctl" "/tty")).2).2) in
  let v' := (ioHyperToClients false (Tty 1 "x") v).2 in
  vm_io_running v' = false /\ session_client <$> findSession v' 2 = Some 21.
Proof. split; reflexivity. Qed.
