(* ===== verification/MockAgent.v ===== *)
(** * The mock of the agent

    src/vendor/github.com/containers/virtcontainers/hyperstart/mock: the agent the
    proxy is run against without a VM.  It answers the commands of the control
    channel, keeps them for inspection, and sends and receives the streams of the
    I/O channel.  Here is the only source of the repository for the agent's side
    of the two channels. *)

From S2P Require Import Prelude GLib Sys Types Util Wire Hyperstart GoSetup.

(** ** Names of sockets (rand.go and misc.go) *)

(** [rand] is the state of the generator, [now] and [pid] the clock and the
    process it is seeded from. *)
Definition reseed (now pid : Z) : Z := u32 (now + pid).

Definition nextSuffix (now pid rand : Z) : string * Z :=
  let r := if bool_decide (rand = 0) then reseed now pid else rand in
  let r := u32 (r * 1664525 + 1013904223) in
  (str_drop 1 (fmt_d (10 ^ 9 + r mod 10 ^ 9)), r).

Definition filepath_Join (dir name : string) : string :=
  filepath_Clean (match dir with String "/"%char _ => true | _ => false end) (path_elements EmptyString (dir +:+ "/" +:+ name)).

(** A format with one [%s] is the text before and after it. *)
Definition GetTmpPath (tmp before after : string) (now pid rand : Z) : string * Z :=
  let '(suffix, rand) := nextSuffix now pid rand in (filepath_Join tmp (before +:+ suffix +:+ after), rand).

(** ** State *)

(** An accepted connection: the pieces to be read, the bytes written, and
    whether writes still work. *)
Record mock_conn := MockConn { mc_in : go_conn; mc_out : string; mc_up : bool }.

(** [asserts] tells whether every assertion held so far, [ctl_accepting] and
    [io_accepting] whether the goroutine that accepts is there, [sockets] the
    socket files. *)
Record Hyperstart := Mock {
  ctlSocketPath : string; ioSocketPath : string; sockets : list string;
  ctl_accepting : bool; io_accepting : bool; ctl : option mock_conn; io : option mock_conn;
  wgConnected : nat; wg : nat; lastMessages : list DecodedMessage; asserts : bool
}.

Definition set_ctl (c : option mock_conn) (h : Hyperstart) : Hyperstart :=
  Mock (ctlSocketPath h) (ioSocketPath h) (sockets h) (ctl_accepting h) (io_accepting h) c (io h)
    (wgConnected h) (wg h) (lastMessages h) (asserts h).
Definition set_io (c : option mock_conn) (h : Hyperstart) : Hyperstart :=
  Mock (ctlSocketPath h) (ioSocketPath h) (sockets h) (ctl_accepting h) (io_accepting h) (ctl h) c
    (wgConnected h) (wg h) (lastMessages h) (asserts h).
Definition set_sockets (l : list string) (a b : bool) (h : Hyperstart) : Hyperstart :=
  Mock (ctlSocketPath h) (ioSocketPath h) l a b (ctl h) (io h) (wgConnected h) (wg h) (lastMessages h) (asserts h).
Definition set_groups (connected n : nat) (h : Hyperstart) : Hyperstart :=
  Mock (ctlSocketPath h) (ioSocketPath h) (sockets h) (ctl_accepting h) (io_accepting h) (ctl h) (io h)
    connected n (lastMessages h) (asserts h).
Definition set_messages (l : list DecodedMessage) (h : Hyperstart) : Hyperstart :=
  Mock (ctlSocketPath h) (ioSocketPath h) (sockets h) (ctl_accepting h) (io_accepting h) (ctl h) (io h)
    (wgConnected h) (wg h) l (asserts h).
Definition set_asserts (b : bool) (h : Hyperstart) : Hyperstart :=
  Mock (ctlSocketPath h) (ioSocketPath h) (sockets h) (ctl_accepting h) (io_accepting h) (ctl h) (io h)
    (wgConnected h) (wg h) (lastMessages h) b.

(** An operation gives a result and the state, waits for another goroutine, or
    panics. *)
Inductive mock_result (A : Type) := Gives (a : A) (h : Hyperstart) | Waits | Panics.
Arguments Gives {A} _ _.
Arguments Waits {A}.
Arguments Panics {A}.

Definition mock (A : Type) : Type := Hyperstart -> mock_result A.
#[export] Instance mock_ret : MRet mock := fun A a h => Gives a h.
#[export] Instance mock_bind : MBind mock := fun A B f m h =>
  match m h with Gives a h => f a h | Waits => Waits | Panics => Panics end.

Definition get : mock Hyperstart := fun h => Gives h h.
Definition modify (f : Hyperstart -> Hyperstart) : mock unit := fun h => Gives tt (f h).
Definition wait_for (b : Hyperstart -> bool) : mock unit := fun h => if b h then Gives tt h else Waits.
Definition panic {A} : mock A := fun _ => Panics.
Definition not_nil {A} (o : option A) : mock A := match o with Some a => mret a | None => panic end.

(** [assert.Equal] and the like: a failure is recorded and the code goes on. *)
Definition assert_that (b : bool) : mock unit := modify (fun h => set_asserts (asserts h && b) h).

(** [h.wgConnected.Wait ()] *)
Definition wait_connected : mock unit := wait_for (fun h => Nat.eqb (wgConnected h) 0).

Definition newMessageList : list DecodedMessage := [].

Definition NewHyperstart (tmp : string) (now1 now2 pid rand : Z) : Hyperstart * Z :=
  let '(s0, rand) := nextSuffix now1 pid rand in
  let '(s1, rand) := nextSuffix now2 pid rand in
  (Mock (filepath_Join tmp ("mock.hyper." +:+ s0 +:+ ".0.sock")) (filepath_Join tmp ("mock.hyper." +:+ s1 +:+ ".1.sock"))
     [] false false None None 0 0 newMessageList true, rand).

Definition GetSocketPaths (h : Hyperstart) : string * string := (ctlSocketPath h, ioSocketPath h).

Definition GetLastMessages : mock (list DecodedMessage) :=
  h ← get; _ ← modify (set_messages newMessageList); mret (lastMessages h).

(** ** The control channel *)

Definition ctlHeaderSize : nat := 8.

(** A write to a connection that is up takes everything. *)
Definition conn_write (data : string) (c : mock_conn) : mock_conn := MockConn (mc_in c) (mc_out c +:+ data) (mc_up c).

Definition writeCtl (data : string) : mock bool :=
  _ ← wait_connected;
  h ← get; c ← not_nil (ctl h);
  if mc_up c then _ ← modify (set_ctl (Some (conn_write data c))); mret true else mret false.

Definition SendMessage (cmd : Z) (data : string) : mock unit :=
  let length := (ctlHeaderSize + String.length data)%nat in
  let header := be_bytes 4 (u32 cmd) +:+ be_bytes 4 (u32 (Z.of_nat length)) in
  ok ← writeCtl header;
  if negb ok then mret tt
  else match data with
  | EmptyString => mret tt
  | data => _ ← writeCtl data; mret tt
  end.

(** A buffer of [n] bytes keeps its zeros where nothing was read. *)
Definition fill_buffer (n : nat) (d : string) : string := d +:+ str_drop (String.length d) (be_bytes n 0).

(** [None] is an error. *)
Definition readCtl (n : nat) : mock (option string) :=
  _ ← wait_connected;
  h ← get; c ← not_nil (ctl h);
  match go_read n (mc_in c) with
  | None => mret None
  | Some (d, rest) =>
      _ ← modify (set_ctl (Some (MockConn rest (mc_out c) (mc_up c))));
      _ ← assert_that (Nat.eqb (String.length d) n);
      mret (Some (fill_buffer n d))
  end.

Definition ackData (nBytes : nat) : mock unit := SendMessage INIT_NEXT (be_bytes 4 (u32 (Z.of_nat nBytes))).

(** [make ([]byte, length)] panics for a negative length. *)
Definition readMessage : mock (option (Z * string)) :=
  buf ← readCtl ctlHeaderSize;
  match buf with
  | None => mret None
  | Some buf =>
      _ ← ackData (String.length buf);
      let cmd := be_field 0 4 buf in
      let length := be_field 4 8 buf in
      _ ← assert_that (bool_decide (8 <= length));
      let length := length - 8 in
      if bool_decide (length = 0) then mret (Some (cmd, EmptyString))
      else if bool_decide (length < 0) then panic
      else
        data ← readCtl (Z.to_nat length);
        match data with
        | None => mret None
        | Some data => _ ← ackData (String.length data); mret (Some (cmd, data))
        end
  end.

Definition codeNames : list (Z * string) :=
  [(INIT_VERSION, "version"); (INIT_STARTPOD, "startpod"); (INIT_DESTROYPOD, "destroypod");
   (INIT_EXECCMD, "execcmd"); (INIT_READY, "ready"); (INIT_ACK, "ack"); (INIT_ERROR, "error");
   (INIT_WINSIZE, "winsize"); (INIT_PING, "ping"); (INIT_NEXT, "next"); (INIT_WRITEFILE, "writefile");
   (INIT_READFILE, "readfile"); (INIT_NEWCONTAINER, "newcontainer"); (INIT_KILLCONTAINER, "killcontainer");
   (INIT_ONLINECPUMEM, "onlinecpumem"); (INIT_SETUPINTERFACE, "setupinterface"); (INIT_SETUPROUTE, "setuproute")].

Definition cmdToString (cmd : Z) : option string := snd <$> List.find (fun p => bool_decide (fst p = cmd)) codeNames.

(** One turn of the loop of [handleCtl]; [false] when the loop is left. *)
Definition handle_command : mock bool :=
  m ← readMessage;
  match m with
  | None => mret false
  | Some (cmd, data) =>
      _ ← assert_that (bool_decide (is_Some (cmdToString cmd)));
      _ ← modify (fun h => set_messages (lastMessages h ++ [Decoded (u32 cmd) data]) h);
      _ ← SendMessage INIT_ACK EmptyString;
      mret true
  end.

(** The goroutine; [true] once it has ended. *)
Fixpoint handleCtl (fuel : nat) : mock bool :=
  match fuel with
  | O => mret false
  | S fuel =>
      more ← handle_command;
      if (more : bool) then handleCtl fuel
      else _ ← modify (fun h => set_groups (wgConnected h) (pred (wg h)) h); mret true
  end.

(** ** The I/O channel *)

Definition ioHeaderSize : nat := 12.

Definition writeIo (data : string) : mock unit :=
  _ ← wait_connected;
  h ← get; c ← not_nil (io h);
  if mc_up c then modify (set_io (Some (conn_write data c))) else assert_that false.

Definition SendIo (seq : Z) (data : string) : mock unit :=
  let length := (ioHeaderSize + String.length data)%nat in
  let header := be_bytes 8 (u64 seq) +:+ be_bytes 4 (u32 (Z.of_nat length)) in
  _ ← writeIo header;
  match data with EmptyString => mret tt | data => writeIo data end.

Definition SendIoString (seq : Z) (data : string) : mock unit := SendIo seq data.
Definition CloseIo (seq : Z) : mock unit := SendIo seq EmptyString.
Definition SendExitStatus (seq : Z) (exitStatus : ascii) : mock unit := SendIo seq (String exitStatus EmptyString).

(** The buffer after the read, the count, and the sequence number; slicing a
    buffer of less than 8 bytes panics. *)
Definition ReadIo (buf : string) : mock (string * nat * Z) :=
  _ ← wait_connected;
  h ← get; c ← not_nil (io h);
  '(buf, n) ← match go_read (String.length buf) (mc_in c) with
              | None => _ ← assert_that false; mret (buf, 0%nat)
              | Some (d, rest) =>
                  _ ← modify (set_io (Some (MockConn rest (mc_out c) (mc_up c))));
                  mret (d +:+ str_drop (String.length d) buf, String.length d)
              end;
  if (String.length buf <? 8)%nat then panic else mret (buf, n, be_field 0 8 buf).

(** ** Starting and stopping *)

(** [startListening]: the socket file when listening works, and the goroutine
    that accepts. *)
Definition startListening (ok : bool) (path : string) : mock unit :=
  _ ← assert_that ok;
  modify (fun h => if ok then set_sockets (path :: sockets h) (ctl_accepting h) (io_accepting h) h else h).

Definition Start (ctl_ok io_ok : bool) : mock unit :=
  _ ← modify (fun h => set_groups (S (S (wgConnected h))) (wg h) h);
  h ← get;
  _ ← startListening ctl_ok (ctlSocketPath h);
  _ ← startListening io_ok (ioSocketPath h);
  modify (fun h => set_sockets (sockets h) true true h).

(** The callbacks of the two accepting goroutines; [None] when accepting failed. *)
Definition accepted_ctl (s : option mock_conn) : mock unit :=
  _ ← wait_for ctl_accepting;
  _ ← modify (fun h => set_sockets (sockets h) false (io_accepting h) (set_ctl s h));
  match s with
  | None => modify (fun h => set_groups (pred (wgConnected h)) (wg h) h)
  | Some _ => modify (fun h => set_groups (pred (wgConnected h)) (S (wg h)) h)
  end.

Definition accepted_io (s : option mock_conn) : mock unit :=
  _ ← wait_for io_accepting;
  _ ← modify (fun h => set_sockets (sockets h) (ctl_accepting h) false (set_io s h));
  modify (fun h => set_groups (pred (wgConnected h)) (wg h) h).

Definition conn_close (c : mock_conn) : mock_conn := MockConn [] (mc_out c) false.

(** Closing the connections ends the goroutine of the control channel, which is
    waited for. *)
Definition Stop : mock unit :=
  _ ← wait_connected;
  h ← get;
  c ← not_nil (ctl h);
  _ ← modify (set_ctl (Some (conn_close c)));
  i ← not_nil (io h);
  _ ← modify (set_io (Some (conn_close i)));
  h ← get;
  _ ← (if Nat.eqb (wg h) 0 then mret true else handleCtl 1);
  _ ← wait_for (fun h => Nat.eqb (wg h) 0);
  modify (fun h => set_sockets (list_difference (sockets h) [ctlSocketPath h; ioSocketPath h]) (ctl_accepting h) (io_accepting h) h).

(** ** Clients of the mock *)

(** A command of the proxy: what [SendCtlMessage] writes arrives in one piece, the
    mock takes one turn, and the answer, cut into pieces by [chop], decides the
    result.  What the proxy leaves unread stays. *)
Definition transact (chop : string -> go_conn) (cd : string * string) : mock bool :=
  let '(cmd, data) := cd in
  match (SendCtlMessage true cmd data []).1.2 with
  | EmptyString => mret (SendCtlMessage true cmd data []).1.1
  | bytes =>
      h ← get; c ← not_nil (ctl h);
      _ ← modify (set_ctl (Some (MockConn (mc_in c ++ [bytes]) (mc_out c) (mc_up c))));
      _ ← handle_command;
      h ← get; c ← not_nil (ctl h);
      let '(ok, _, rest) := SendCtlMessage true cmd data (chop (mc_out c)) in
      _ ← modify (set_ctl (Some (MockConn (mc_in c) (conn_bytes rest) (mc_up c))));
      mret ok
  end.

(** The message of a command that is known and not too long. *)
Definition command_message (cd : string * string) : option DecodedMessage :=
  code ← codeFromCmd (fst cd); _ ← writeCtlMessage (Decoded code (snd cd)); Some (Decoded code (snd cd)).

(** Output of several streams, one message after the other. *)
Definition send_output (l : list TtyMessage) : mock (list unit) := mapM (fun m => SendIo (tty_session m) (tty_message m)) l.

(** ** The control channel, turn by turn *)

Ltac mock_step := cbv beta iota delta [mbind mock_bind mret mock_ret get modify wait_for wait_connected not_nil assert_that]; cbn.

Lemma writeCtl_up data c h :
  wgConnected h = 0%nat -> mc_up c = true ->
  writeCtl data (set_ctl (Some c) h) = Gives true (set_ctl (Some (conn_write data c)) h).
Proof. intros Hw Hu. unfold writeCtl. mock_step. rewrite Hw. cbn. by rewrite Hu. Qed.

Lemma conn_write_twice a b c : conn_write b (conn_write a c) = conn_write (a +:+ b) c.
Proof. unfold conn_write. cbn. by rewrite str_app_assoc. Qed.

(** The mock writes its messages in the format of the library. *)
Lemma SendMessage_up cmd data bytes c h :
  wgConnected h = 0%nat -> mc_up c = true -> 0 <= cmd < 2 ^ 32 -> writeCtlMessage (Decoded cmd data) = Some bytes ->
  SendMessage cmd data (set_ctl (Some c) h) = Gives tt (set_ctl (Some (conn_write bytes c)) h).
Proof.
  intros Hw Hu Hc Hb. unfold writeCtlMessage, ctlHdrSize, max_message in Hb. cbn [dm_message dm_code] in Hb.
  destruct (Nat.ltb_spec (N.to_nat 10240) (String.length data + 8)%nat) as [|Hl]; [done|]. injection Hb as <-.
  unfold SendMessage, ctlHeaderSize, mbind, mock_bind. rewrite writeCtl_up by done.
  rewrite (wrapu_small _ cmd), wrapu_small, (Nat.add_comm 8) by lia. cbn [negb].
  destruct data as [|x data]; [by rewrite str_app_nil_r|].
  rewrite writeCtl_up by done. by rewrite conn_write_twice, str_app_assoc.
Qed.

Lemma readCtl_piece n d rest c h :
  wgConnected h = 0%nat -> mc_in c = d :: rest -> (n <= String.length d)%nat ->
  readCtl n (set_ctl (Some c) h) =
    Gives (Some (str_take n d)) (set_ctl (Some
      (MockConn (if (String.length d =? n)%nat then rest else str_drop n d :: rest) (mc_out c) (mc_up c))) h).
Proof.
  intros Hw Hi Hn. unfold readCtl. mock_step. rewrite Hw. cbn. rewrite Hi. cbn [go_read].
  assert (forall s, String.length s = n -> fill_buffer n s = s) as Hf.
  { intros s Hs. unfold fill_buffer. by rewrite str_drop_all, str_app_nil_r by (rewrite be_bytes_length; lia). }
  destruct (Nat.leb_spec (String.length d) n) as [Hl|Hl].
  - assert (String.length d = n) as Hd by lia. cbn. rewrite (proj2 (Nat.eqb_eq _ _) Hd), Hf by done. rewrite str_take_all by lia.
    destruct h. cbn. by rewrite andb_true_r.
  - cbn. rewrite (proj2 (Nat.eqb_neq (String.length d) n)) by lia. rewrite str_take_length_min, Nat.min_l, Nat.eqb_refl by lia.
    rewrite Hf by (rewrite str_take_length_min; lia). destruct h. cbn. by rewrite andb_true_r.
Qed.

(** What is sent back for a message: an interim answer for the header, one for the
    data, if there are any, and the acknowledgement. *)
Definition interim_answers (data : string) : list DecodedMessage :=
  Decoded INIT_NEXT (be_bytes 4 8) ::
  match data with EmptyString => [] | _ => [Decoded INIT_NEXT (be_bytes 4 (Z.of_nat (String.length data)))] end.

Lemma ackData_up n c h :
  wgConnected h = 0%nat -> mc_up c = true -> Z.of_nat n < 2 ^ 32 ->
  exists a, writeCtlMessage (Decoded INIT_NEXT (be_bytes 4 (Z.of_nat n))) = Some a /\
    ackData n (set_ctl (Some c) h) = Gives tt (set_ctl (Some (conn_write a c)) h).
Proof.
  intros Hw Hu Hn. eexists. split; [reflexivity|]. unfold ackData. rewrite wrapu_small by lia. by apply SendMessage_up.
Qed.

Lemma assert_true h : assert_that true h = Gives tt h.
Proof. destruct h. unfold assert_that, modify. cbn. by rewrite andb_true_r. Qed.

Lemma message_header code data :
  0 <= code < 2 ^ 32 -> Z.of_nat (String.length data + 8) < 2 ^ 32 ->
  let hdr := be_bytes 4 code +:+ be_bytes 4 (Z.of_nat (String.length data + 8)) in
  String.length hdr = 8%nat /\ be_field 0 4 hdr = code /\ be_field 4 8 hdr = Z.of_nat (String.length data + 8).
Proof.
  intros Hc Hl hdr. unfold hdr. split_and!.
  - by rewrite str_length_app, !be_bytes_length.
  - rewrite be_field_head. apply Z.mod_small. lia.
  - rewrite <- (str_app_nil_r (be_bytes 4 (Z.of_nat _))). change 8%nat with (4 + 4)%nat at 1.
    rewrite be_field_second by apply be_bytes_length. apply Z.mod_small. lia.
Qed.

Lemma readMessage_turn code data bytes c h :
  wgConnected h = 0%nat -> mc_up c = true -> mc_in c = [bytes] -> 0 <= code < 2 ^ 32 ->
  writeCtlMessage (Decoded code data) = Some bytes ->
  exists s, ctl_stream (interim_answers data) = Some s /\
    readMessage (set_ctl (Some c) h) = Gives (Some (code, data)) (set_ctl (Some (MockConn [] (mc_out c +:+ s) true)) h).
Proof.
  intros Hw Hu Hi Hc Hb. unfold writeCtlMessage, ctlHdrSize, max_message in Hb. cbn [dm_message dm_code] in Hb.
  destruct (Nat.ltb_spec (N.to_nat 10240) (String.length data + 8)%nat) as [|Hl]; [done|]. apply (inj Some) in Hb as <-.
  destruct (message_header code data) as (Hh & Hcode & Hlen); [done|lia|].
  rewrite <- str_app_assoc in Hi. set (hdr := be_bytes 4 code +:+ _) in *. clearbody hdr.
  unfold readMessage, ctlHeaderSize, mbind, mock_bind.
  rewrite (readCtl_piece 8 _ _ c h Hw Hi) by (rewrite str_length_app; lia). cbv beta iota.
  rewrite str_take_app_le, str_take_all, str_length_app, Hh by lia.
  destruct (ackData_up 8 (MockConn (if (8 + String.length data =? 8)%nat then [] else [str_drop 8 (hdr +:+ data)]) (mc_out c) (mc_up c)) h)
    as (a & Ha & ->); [done|done|done|]. change (Z.of_nat 8) with 8 in Ha.
  rewrite Hcode, Hlen, bool_decide_true, assert_true by lia. cbv zeta. unfold interim_answers.
  destruct data as [|x data].
  - exists a. split; [cbn [ctl_stream]; rewrite Ha; cbn [mbind option_bind]; by rewrite str_app_nil_r|]. cbn. by rewrite Hu.
  - set (d := String x data) in *. assert (0 < String.length d)%nat as Hd by (cbn; lia).
    rewrite !bool_decide_false, (proj2 (Nat.eqb_neq _ _)) by lia.
    replace (Z.to_nat (Z.of_nat (String.length d + 8) - 8)) with (String.length d) by lia.
    rewrite <- Hh, str_drop_app.
    erewrite readCtl_piece; [|done|reflexivity|done]. cbv beta iota. rewrite str_take_all, Nat.eqb_refl by done.
    edestruct (ackData_up (String.length d)) as (b & Hb & Hr); [done| |lia|erewrite Hr]; [done|].
    exists (a +:+ b). split. 2:{ unfold conn_write. cbn [mc_in mc_out mc_up]. by rewrite Hu, str_app_assoc. }
    cbn [ctl_stream]. rewrite Ha, Hb. cbn [mbind option_bind]. by rewrite str_app_nil_r.
Qed.

(** One command: it is kept, and answered. *)
Lemma handle_command_turn code data bytes c h :
  wgConnected h = 0%nat -> mc_up c = true -> mc_in c = [bytes] -> 0 <= code < 2 ^ 32 -> is_Some (cmdToString code) ->
  writeCtlMessage (Decoded code data) = Some bytes ->
  exists s a, ctl_stream (interim_answers data) = Some s /\ writeCtlMessage (Decoded INIT_ACK EmptyString) = Some a /\
    handle_command (set_ctl (Some c) h) =
      Gives true (set_messages (lastMessages h ++ [Decoded code data]) (set_ctl (Some (MockConn [] (mc_out c +:+ s +:+ a) true)) h)).
Proof.
  intros Hw Hu Hi Hc Hn Hb. destruct (readMessage_turn _ _ _ _ _ Hw Hu Hi Hc Hb) as (s & Hs & Hr).
  eexists s, _. split_and!; [done|reflexivity|]. unfold handle_command, mbind, mock_bind. rewrite Hr. cbv beta iota.
  rewrite bool_decide_true, assert_true by done. unfold modify. rewrite (wrapu_small _ code) by lia.
  match goal with |- context [SendMessage INIT_ACK EmptyString ?st] =>
    change st with (set_ctl (Some (MockConn [] (mc_out c +:+ s) true)) (set_messages (lastMessages h ++ [Decoded code data]) h)) end.
  erewrite SendMessage_up; [|done..|reflexivity].
  unfold conn_write. cbn [mc_in mc_out mc_up]. by rewrite str_app_assoc.
Qed.

(** Both ends know the same commands. *)
Lemma known_commands cmd code : codeFromCmd cmd = Some code -> cmdToString code = Some cmd.
Proof.
  unfold codeFromCmd. intros (p & [Hin Hp]%List.find_some & ->)%fmap_Some. apply bool_decide_eq_true in Hp as <-.
  repeat (destruct Hin as [<-|Hin]; [reflexivity|]). destruct Hin.
Qed.

Lemma writeCtlMessage_nonempty m bytes : writeCtlMessage m = Some bytes -> bytes <> EmptyString.
Proof. unfold writeCtlMessage. case_match; [done|]. intros Hb%(inj Some) ->. by apply (f_equal String.length) in Hb. Qed.

Lemma interim_answers_interim data : Forall interim (interim_answers data).
Proof. unfold interim_answers. destruct data; repeat constructor. Qed.

Section session.
Context (chop : string -> go_conn) (Hchop : forall s, conn_bytes (chop s) = s).

(** What a mock that waits for a command is like. *)
Definition idle (h : Hyperstart) : Prop := wgConnected h = 0%nat /\ ctl h = Some (MockConn [] EmptyString true).

Lemma transact_idle cd h :
  idle h ->
  transact chop cd h = Gives (bool_decide (is_Some (command_message cd)))
    (match command_message cd with Some m => set_messages (lastMessages h ++ [m]) h | None => h end).
Proof.
  destruct cd as [cmd data]. intros [Hw Hc]. unfold transact, command_message. cbn [fst snd].
  destruct (codeFromCmd cmd) as [code|] eqn:Hcode.
  2:{ unfold SendCtlMessage. by rewrite Hcode. }
  change (Some code ≫= ?f) with (f code). cbv beta.
  destruct (writeCtlMessage (Decoded code data)) as [bytes|] eqn:Hb.
  2:{ unfold SendCtlMessage. by rewrite Hcode, Hb. }
  assert ((SendCtlMessage true cmd data []).1.2 = bytes) as ->
    by (unfold SendCtlMessage; rewrite Hcode, Hb; cbn [negb]; by destruct (expectReadingCmd INIT_ACK [])).
  destruct bytes as [|b0 bytes]; [by apply writeCtlMessage_nonempty in Hb|]. set (bs := String b0 bytes) in *.
  unfold mbind, mock_bind, get, modify, not_nil. rewrite Hc. unfold mret, mock_ret. cbn [mc_in mc_out mc_up app].
  edestruct (handle_command_turn code data bs (MockConn [bs] EmptyString true) h) as (s & a & Hs & Ha & ->);
    [done..|by eapply codeFromCmd_range|by eexists; eapply known_commands|done|].
  cbn [ctl set_messages set_ctl mc_out mc_in mc_up].
  destruct (ctl_transaction cmd data s a EmptyString code (interim_answers data) (Decoded INIT_ACK EmptyString) (chop (s +:+ a)))
    as (bytes' & conn' & Ht & Hrest & _); try done.
  - unfold writeCtlMessage in Hb. cbn [dm_message] in Hb. destruct (Nat.ltb_spec max_message (String.length data + ctlHdrSize)); [done|lia].
  - apply interim_answers_interim.
  - by intros [?|?].
  - by rewrite Hchop, str_app_nil_r.
  - rewrite str_app_nil_l, Ht, Hrest. destruct h. cbn in Hc |- *. by rewrite Hc.
Qed.

Lemma idle_messages l h : idle h -> idle (set_messages l h).
Proof. done. Qed.

Lemma session_idle cmds h :
  idle h ->
  mapM (transact chop) cmds h =
    Gives ((fun cd => bool_decide (is_Some (command_message cd))) <$> cmds) (set_messages (lastMessages h ++ omap command_message cmds) h).
Proof.
  revert h. induction cmds as [|cd cmds IH]; intros h Hi.
  { cbn. rewrite app_nil_r. by destruct h. }
  cbn [mapM]. unfold mbind at 1, mock_bind at 1. rewrite transact_idle by done. unfold mbind at 1, mock_bind at 1.
  cbn [fmap list_fmap omap list_omap]. destruct (command_message cd) as [m|]; rewrite IH by done; [|done].
  cbn [lastMessages set_messages]. by rewrite <- app_assoc.
Qed.

(** C21.  Commands are transactions.  Whatever commands the proxy sends one after
    the other, known or not, of any length, and whatever pieces the answers
    arrive in: those that are known and not too long succeed, the others fail and
    the agent sees nothing of them; the agent's list has exactly the former, in
    order, with their codes and their data; no answer is left for the next
    command to misread, and none of the mock's assertions fails. *)
Theorem agent_session cmds h :
  idle h ->
  (results ← mapM (transact chop) cmds; seen ← GetLastMessages; mret (results, seen)) h =
    Gives ((fun cd => bool_decide (is_Some (command_message cd))) <$> cmds, lastMessages h ++ omap command_message cmds)
      (set_messages [] h).
Proof. intros Hi. unfold mbind at 1, mock_bind at 1. by rewrite session_idle. Qed.
End session.

(** ** The goroutine of the control channel ends *)

(** Once both clients are connected, an operation on a control channel with [n]
    bytes and pieces to come does not wait for the other goroutines, and [Q] holds
    of its result and of what is left to come. *)
Definition settles {A} (m : mock A) (n : nat) (Q : A -> nat -> Prop) : Prop :=
  forall h c, wgConnected h = 0%nat -> ctl h = Some c -> conn_size (mc_in c) = n ->
  match m h with
  | Gives a h' => wgConnected h' = 0%nat /\ exists c', ctl h' = Some c' /\ Q a (conn_size (mc_in c'))
  | Waits => False
  | Panics => True
  end.

Lemma settles_bind {A B} (m : mock A) (f : A -> mock B) n Q R :
  settles m n Q -> (forall a k, Q a k -> settles (f a) k R) -> settles (m ≫= f) n R.
Proof.
  intros Hm Hf h c Hw Hc Hn. specialize (Hm h c Hw Hc Hn). unfold mbind, mock_bind. destruct (m h) as [a h'| |]; [|done..].
  destruct Hm as (Hw' & c' & Hc' & Hq). by eapply Hf.
Qed.

Lemma settles_ret {A} (a : A) n (Q : A -> nat -> Prop) : Q a n -> settles (mret a) n Q.
Proof. intros Hq h c Hw Hc <-. split; [done|]. by exists c. Qed.

Lemma settles_assert b n (Q : unit -> nat -> Prop) : Q tt n -> settles (assert_that b) n Q.
Proof. intros Hq h c Hw Hc <-. split; [done|]. by exists c. Qed.

Lemma settles_messages f n (Q : unit -> nat -> Prop) : Q tt n -> settles (modify (fun h => set_messages (f h) h)) n Q.
Proof. intros Hq h c Hw Hc <-. split; [done|]. by exists c. Qed.

Lemma settles_writeCtl data n : settles (writeCtl data) n (fun _ k => k = n).
Proof.
  intros h c Hw Hc <-. unfold writeCtl. mock_step. rewrite Hw. cbn. rewrite Hc. cbn.
  destruct (mc_up c); cbn; (split; [done|]); eauto.
Qed.

Lemma settles_SendMessage cmd data n (Q : unit -> nat -> Prop) : Q tt n -> settles (SendMessage cmd data) n Q.
Proof.
  intros Hq. unfold SendMessage. eapply settles_bind; [apply settles_writeCtl|]. intros [] k ->; cbn [negb]; [|by apply settles_ret].
  destruct data; [by apply settles_ret|]. eapply settles_bind; [apply settles_writeCtl|]. intros _ k ->. by apply settles_ret.
Qed.

Lemma settles_readCtl len n : (0 < len)%nat -> settles (readCtl len) n (fun r k => if r is Some _ then (k < n)%nat else k = n).
Proof.
  intros Hl h c Hw Hc <-. unfold readCtl. mock_step. rewrite Hw. cbn. rewrite Hc. cbn.
  destruct (go_read len (mc_in c)) as [[d rest]|] eqn:Hr; cbn; (split; [done|]); eexists; (split; [done|]); [|done].
  by eapply go_read_size.
Qed.

Lemma runs_handle_command n : settles handle_command n (fun more k => (more : bool) -> (k < n)%nat).
Proof.
  unfold handle_command. eapply settles_bind with (Q := fun r k => r <> None -> (k < n)%nat).
  - unfold readMessage. eapply settles_bind; [apply settles_readCtl; unfold ctlHeaderSize; lia|]. intros [buf|] k Hk; [|by apply settles_ret].
    eapply settles_bind; [by apply (settles_SendMessage _ _ k (fun _ j => j = k))|]. intros _ j ->.
    eapply settles_bind; [by apply (settles_assert _ k (fun _ j => j = k))|]. intros _ j ->. cbv zeta.
    case_bool_decide; [by apply settles_ret|]. case_bool_decide as Hneg; [done|].
    eapply settles_bind; [apply settles_readCtl; lia|]. intros [data|] j Hj; [|by apply settles_ret].
    eapply settles_bind; [by apply (settles_SendMessage _ _ j (fun _ i => i = j))|]. intros _ i ->. apply settles_ret. lia.
  - intros [[cmd data]|] k Hk; [|by apply settles_ret]. specialize (Hk ltac:(done)).
    eapply settles_bind; [by apply (settles_assert _ k (fun _ j => j = k))|]. intros _ j ->.
    eapply settles_bind; [by apply (settles_messages _ k (fun _ j => j = k))|]. intros _ j ->.
    eapply settles_bind; [by apply (settles_SendMessage _ _ k (fun _ i => i = k))|]. intros _ i ->. by apply settles_ret.
Qed.

(** Whatever the proxy sends, the goroutine comes to the end of it (or panics, on
    a header with a length below 8), within as many turns as there are bytes and
    pieces. *)
Lemma handleCtl_ends fuel n : (n < fuel)%nat -> settles (handleCtl fuel) n (fun ended _ => ended = true).
Proof.
  revert n. induction fuel as [|fuel IH]; intros n Hn; [lia|]. cbn [handleCtl].
  eapply settles_bind; [apply runs_handle_command|]. intros [] k Hk.
  - apply IH. specialize (Hk I). lia.
  - intros h c Hw Hc _. split; [done|]. by exists c.
Qed.

(** ** Starting and stopping *)

(** Stopping a mock no client has connected to waits for ever: the listeners, whose
    closing would end the wait, are closed after it. *)
Lemma stop_unconnected h : (_ ← Start true true; Stop) h = Waits.
Proof. unfold Start, Stop, startListening. mock_step. reflexivity. Qed.

(** With both clients connected, a stop closes both connections, ends the
    goroutine and removes both files. *)
Lemma stop_connected h c i :
  wgConnected h = 0%nat -> wg h = 0%nat -> sockets h = [] ->
  exists h', (_ ← Start true true; _ ← accepted_ctl (Some c); _ ← accepted_io (Some i); Stop) h = Gives tt h' /\
    ctl h' = Some (conn_close c) /\ io h' = Some (conn_close i) /\ wg h' = 0%nat /\ sockets h' = [] /\ asserts h' = asserts h.
Proof.
  intros Hw Hg Hs. unfold Start, accepted_ctl, accepted_io, Stop, startListening. mock_step. rewrite Hw, Hg. cbn.
  eexists. split; [reflexivity|]. cbn. rewrite Hs. split_and!; try done.
  - unfold decide_rel. repeat case_match; try done; match goal with H : ~ _ ∈ _ |- _ => destruct H; rewrite !elem_of_cons; auto end.
  - by rewrite !andb_true_r.
Qed.

(** ** Witness *)

Definition chop3 (s : string) : go_conn := [str_take 3 s; str_drop 3 s].

Definition mock_example : Hyperstart :=
  let '(h, _) := NewHyperstart "/tmp" 1479200000000000000 1479200000000000001 4242 0 in
  match (_ ← Start true true; _ ← accepted_ctl (Some (MockConn [] EmptyString true)); accepted_io (Some (MockConn [] EmptyString true))) h with
  | Gives _ h => h
  | _ => h
  end.

Lemma agent_session_witness :
  (results ← mapM (transact chop3) [("ping", EmptyString); ("finishpod", EmptyString); ("newcontainer", "{}")];
   seen ← GetLastMessages; mret (results, seen)) mock_example =
    Gives ([true; false; true], [Decoded 12 EmptyString; Decoded 17 "{}"]) (set_messages [] mock_example).
Proof.
  rewrite (agent_session chop3).
  - reflexivity.
  - intros s. apply (str_take_drop 3 s).
  - split; reflexivity.
Defined.

(** The files of the two sockets. *)
Example mock_paths : GetSocketPaths mock_example = ("/tmp/mock.hyper.646655177.0.sock", "/tmp/mock.hyper.917948308.1.sock").
Proof. vm_compute. reflexivity. Qed.
