(* ===== verification/Shim.v ===== *)
(** * The shim

    src/shim/shim.c and src/shim/utils.c: the process that stands for the
    workload outside the VM.  It copies its input to the proxy, the streams of
    the workload to its own output, forwards signals, and exits with the
    status of the workload. *)

From S2P Require Import Prelude GLib Sys Types Util Wire Hyperstart.

Definition STDIN_FILENO : Z := 0.
Definition STDOUT_FILENO : Z := 1.
Definition STDERR_FILENO : Z := 2.
Definition EXIT_FAILURE : Z := 1.
Definition BUFSIZ : nat := N.to_nat 8192.
Definition SHIM_LINE_MAX : nat := N.to_nat 2048.
Definition STREAM_HEADER_SIZE : nat := 12.
Definition STREAM_HEADER_LENGTH_OFFSET : nat := 8.
Definition PROXY_CTL_HEADER_SIZE : nat := 8.
Definition HYPERSTART_MAX_RECV_BYTES : nat := N.to_nat 10240.
Definition SIGWINCH : Z := 28.
Definition O_NONBLOCK : Z := 2048.

(** [struct cc_shim], and the globals: the read end of the signal pipe, the
    descriptor polled for input, whether terminal settings are saved. *)
Record cc_shim := Shim {
  container_id : cstr; proxy_sock_fd : Z; proxy_io_fd : Z; io_seq_no : Z; err_seq_no : Z; exiting : bool;
  signal_fd : Z; stdin_poll_fd : Z; saved_term_settings : bool
}.

Definition set_exiting (b : bool) (s : cc_shim) : cc_shim :=
  Shim (container_id s) (proxy_sock_fd s) (proxy_io_fd s) (io_seq_no s) (err_seq_no s) b
    (signal_fd s) (stdin_poll_fd s) (saved_term_settings s).
Definition set_stdin_poll (fd : Z) (s : cc_shim) : cc_shim :=
  Shim (container_id s) (proxy_sock_fd s) (proxy_io_fd s) (io_seq_no s) (err_seq_no s) (exiting s)
    (signal_fd s) fd (saved_term_settings s).

(** Signals that should be forwarded, and the 0 that ends the table. *)
Definition shim_signal_table : list Z :=
  [1; 2; 5; 6; 10; 12; 14; 15; 16; 17; 17; 18; 20; 21; 22; 23; 24; 25; 26; 27; 28; 29; 29; 30; 31].

(** ** src/shim/utils.c *)

Definition set_fd_nonblocking (fd : Z) : io bool :=
  if bool_decide (fd < 0) then mret false
  else
    flags ← call_ (Cfcntl_getfl fd);
    if bool_decide (flags = -1) then mret false
    else r ← call_ (Cfcntl_setfl fd (Z.lor flags O_NONBLOCK)); mret (negb (bool_decide (r = -1))).

Definition set_big_endian_32 (val : Z) : string :=
  String (byte_of (Z.shiftr val 24)) (String (byte_of (Z.shiftr val 16))
    (String (byte_of (Z.shiftr val 8)) (String (byte_of val) EmptyString))).

Definition get_big_endian_32 (buf : string) : Z :=
  cc_oci_get_big_endian_32 (buf_byte buf 0) (buf_byte buf 1) (buf_byte buf 2) (buf_byte buf 3).

Definition set_big_endian_64 (val : Z) : string :=
  set_big_endian_32 (u32 (Z.shiftr val 32)) +:+ set_big_endian_32 (u32 val).

Definition get_big_endian_64 (buf : string) : Z :=
  Z.lor (Z.shiftl (get_big_endian_32 buf) 32) (get_big_endian_32 (str_drop 4 buf)).

(** ** src/shim/shim.c *)

Fixpoint assign_all_signals (table : list Z) : io bool :=
  match table with
  | [] => mret true
  | s :: table =>
      r ← call_ (Csigaction s);
      if bool_decide (r = -1) then mret false else assign_all_signals table
  end.

Definition restore_terminal (s : cc_shim) : io unit :=
  tty ← call_ (Cisatty STDIN_FILENO);
  if tty && saved_term_settings s then _ ← call_ (Ctcsetattr STDIN_FILENO); mret tt else mret tt.

Definition err_exit {A} (s : cc_shim) : io A := _ ← restore_terminal s; Halt (Exited EXIT_FAILURE).

Definition get_proxy_ctl_msg (json : string) : string :=
  set_big_endian_32 (u32 (Z.of_nat (String.length json))) +:+ be_bytes 4 0 +:+ json.

(** The write loop: a write that returns [EINTR] is tried again from the same
    offset, any other result that is not positive ends it. *)
Fixpoint write_loop (fuel : nat) (fd : Z) (msg : string) : io unit :=
  match fuel with
  | O => Halt Blocked
  | S fuel =>
      match msg with
      | EmptyString => mret tt
      | _ =>
          ret ← call_ (Cwrite fd msg);
          if bool_decide (ret = EINTR) then write_loop fuel fd msg
          else if bool_decide (ret <= 0) then mret tt
          else write_loop fuel fd (str_drop (Z.to_nat ret) msg)
      end
  end.

(** Bound on the iterations of the loops that a peer can prolong: writes that
    are tried again, signals read from the pipe, polls. *)
Class ShimFuel := shim_fuel : nat.

(** A string between double quotes. *)
Definition quoted (s : string) : string := String "034" (s +:+ String "034" EmptyString).

Section shim.
Context `{SF : ShimFuel}.

Definition hyper_payload (hyper_cmd json : string) : string :=
  "{" +:+ quoted "id" +:+ ":" +:+ quoted "hyper" +:+ "," +:+ quoted "data" +:+ ":{" +:+ quoted "hyperName"
  +:+ ":" +:+ quoted hyper_cmd +:+ "," +:+ quoted "data" +:+ ":" +:+ json +:+ "}}".

Definition send_proxy_hyper_message (fd : Z) (hyper_cmd json : string) : io unit :=
  if bool_decide (fd < 0) then mret tt
  else write_loop shim_fuel fd (get_proxy_ctl_msg (hyper_payload hyper_cmd json)).

(** An [int] read from the pipe (little endian); the pipe transfers it whole. *)
Definition pipe_int (d : string) (old : Z) : Z :=
  if (String.length d =? 4)%nat
  then s32 (buf_byte d 0 + 256 * buf_byte d 1 + 65536 * buf_byte d 2 + 16777216 * buf_byte d 3)
  else old.

Definition kill_json (id : string) (sig : Z) : string :=
  "{" +:+ quoted "container" +:+ ":" +:+ quoted id +:+ ", " +:+ quoted "signal" +:+ ":" +:+ fmt_d sig +:+ "}".
Definition winsize_json (seq row col : Z) : string :=
  "{" +:+ quoted "seq" +:+ ":" +:+ fmt_d seq +:+ ", " +:+ quoted "row" +:+ ":" +:+ fmt_d row +:+ ", "
  +:+ quoted "column" +:+ ":" +:+ fmt_d col +:+ "}".

Fixpoint signals_loop (fuel : nat) (s : cc_shim) (id : string) (sig : Z) : io unit :=
  match fuel with
  | O => Halt Blocked
  | S fuel =>
      r ← call_ (Cread (signal_fd s) 4);
      match r with
      | None => mret tt
      | Some d =>
          let sig := pipe_int d sig in
          if bool_decide (sig = SIGWINCH) then
            ws ← call_ (Cwinsize STDIN_FILENO);
            match ws with
            | None => signals_loop fuel s id sig
            | Some (row, col) =>
                _ ← send_proxy_hyper_message (proxy_sock_fd s) "winsize" (winsize_json (io_seq_no s) row col);
                signals_loop fuel s id sig
            end
          else
            _ ← send_proxy_hyper_message (proxy_sock_fd s) "killcontainer" (kill_json id sig);
            signals_loop fuel s id sig
      end
  end.

Definition handle_signals (s : cc_shim) : io unit :=
  match container_id s with
  | None => mret tt
  | Some id => if bool_decide (proxy_sock_fd s < 0) then mret tt else signals_loop shim_fuel s id 0
  end.

Definition handle_stdin (s : cc_shim) : io cc_shim :=
  if bool_decide (proxy_io_fd s < 0) then mret s
  else
    r ← call_ (Cread STDIN_FILENO BUFSIZ);
    match r with
    | None => mret s
    | Some d =>
        let s := match d with EmptyString => set_stdin_poll (-1) s | _ => s end in
        let len := (String.length d + STREAM_HEADER_SIZE)%nat in
        _ ← call_ (Cwrite (proxy_io_fd s)
                     (set_big_endian_64 (io_seq_no s) +:+ set_big_endian_32 (u32 (Z.of_nat len)) +:+ d));
        mret s
    end.

(** The loop of [read_IO_message]: the buffer and the stream length, or [None]
    when the message is too big.  Every read makes progress, so the largest
    message bounds the iterations. *)
Fixpoint read_io_loop (fuel : nat) (s : cc_shim) (need : nat) (stream_len : Z) (buf : string)
    : io (option (string * Z)) :=
  match fuel with
  | O => Halt Blocked
  | S fuel =>
      if (need <=? String.length buf)%nat then mret (Some (buf, stream_len))
      else
        let want := Nat.min (need - String.length buf) BUFSIZ in
        r ← call_ (Cread (proxy_io_fd s) want);
        match r with
        | None | Some EmptyString => err_exit s
        | Some d =>
            let buf := buf +:+ str_take want d in
            if bool_decide (stream_len = 0) && (STREAM_HEADER_SIZE <=? String.length buf)%nat then
              let stream_len := get_big_endian_32 (str_drop STREAM_HEADER_LENGTH_OFFSET buf) in
              if bool_decide (stream_len = Z.of_nat STREAM_HEADER_SIZE) then mret (Some (buf, stream_len))
              else if bool_decide (Z.of_nat HYPERSTART_MAX_RECV_BYTES < stream_len) then mret None
              else if bool_decide (Z.of_nat STREAM_HEADER_SIZE < stream_len)
              then read_io_loop fuel s (Z.to_nat stream_len) stream_len buf
              else read_io_loop fuel s need stream_len buf
            else read_io_loop fuel s need stream_len buf
        end
  end.

(** Buffer, sequence number and stream length. *)
Definition read_IO_message (s : cc_shim) : io (option (string * Z * Z)) :=
  r ← read_io_loop (S (S HYPERSTART_MAX_RECV_BYTES)) s STREAM_HEADER_SIZE 0 EmptyString;
  mret (match r with
        | None => None
        | Some (buf, stream_len) => Some (buf, get_big_endian_64 buf, stream_len)
        end).

(** Copy the data to a descriptor; a write that is not positive ends it. *)
Fixpoint output_loop (fuel : nat) (fd : Z) (data : string) : io unit :=
  match fuel with
  | O => Halt Blocked
  | S fuel =>
      match data with
      | EmptyString => mret tt
      | _ =>
          ret ← call_ (Cwrite fd data);
          if bool_decide (ret <= 0) then mret tt
          else output_loop fuel fd (str_drop (Z.to_nat ret) data)
      end
  end.

(** The status given to [exit], of which the system keeps the low byte. *)
Definition exit_status (c : ascii) : Z := u8 (wraps 8 (byte_val c)).

Definition handle_proxy_output (s : cc_shim) : io cc_shim :=
  m ← read_IO_message s;
  match m with
  | None => mret s
  | Some (buf, seq, stream_len) =>
      if bool_decide (stream_len <= 0 \/ Z.of_nat HYPERSTART_MAX_RECV_BYTES < stream_len) then mret s
      else
        match (if bool_decide (seq = io_seq_no s) then Some STDOUT_FILENO
               else if bool_decide (seq = u64 (io_seq_no s + 1)) then Some STDERR_FILENO
               else None) with
        | None => mret s
        | Some outfd =>
            if negb (exiting s) && bool_decide (stream_len = Z.of_nat STREAM_HEADER_SIZE)
            then mret (set_exiting true s)
            else if exiting s && bool_decide (stream_len = Z.of_nat STREAM_HEADER_SIZE + 1) then
              _ ← restore_terminal s;
              Halt (Exited (exit_status (default "000"%char (String.get STREAM_HEADER_SIZE buf))))
            else
              let data := str_drop STREAM_HEADER_SIZE (str_take (Z.to_nat stream_len) buf) in
              _ ← output_loop (S (String.length data)) outfd data;
              mret s
        end
  end.

Definition handle_proxy_ctl (s : cc_shim) : io unit :=
  r ← call_ (Cread (proxy_sock_fd s) (SHIM_LINE_MAX - 1));
  match r with
  | None | Some EmptyString => err_exit s
  | Some _ => mret tt
  end.

Definition parse_numeric_option (input : cstr) : Z :=
  match input with
  | None => -1
  | Some s =>
      let r := strtoll s in
      if st_erange r || (st_end r <? String.length s)%nat then -1 else st_num r
  end.

(** The options as [getopt_long] gives them, with the changes they make. *)
Definition shim_option (o : ascii * cstr) (s : cc_shim) : io cc_shim :=
  let '(c, optarg) := o in
  let upd id sock io seq err :=
    Shim id sock io seq err (exiting s) (signal_fd s) (stdin_poll_fd s) (saved_term_settings s) in
  if bool_decide (c = "c"%char) then
    mret (upd optarg (proxy_sock_fd s) (proxy_io_fd s) (io_seq_no s) (err_seq_no s))
  else if bool_decide (c = "p"%char) then
    let v := s32 (parse_numeric_option optarg) in
    if bool_decide (v < 0) then err_exit s
    else mret (upd (container_id s) v (proxy_io_fd s) (io_seq_no s) (err_seq_no s))
  else if bool_decide (c = "o"%char) then
    let v := s32 (parse_numeric_option optarg) in
    if bool_decide (v < 0) then err_exit s
    else mret (upd (container_id s) (proxy_sock_fd s) v (io_seq_no s) (err_seq_no s))
  else if bool_decide (c = "s"%char) then
    let v := parse_numeric_option optarg in
    if bool_decide (v = -1) then err_exit s
    else mret (upd (container_id s) (proxy_sock_fd s) (proxy_io_fd s) (u64 v) (err_seq_no s))
  else if bool_decide (c = "e"%char) then
    let v := parse_numeric_option optarg in
    if bool_decide (v = -1) then err_exit s
    else mret (upd (container_id s) (proxy_sock_fd s) (proxy_io_fd s) (io_seq_no s) (u64 v))
  else if bool_decide (c = "d"%char) then mret s
  else if bool_decide (c = "h"%char) then Halt (Exited 0)
  else Halt (Exited EXIT_FAILURE).

Definition shim_options (l : list (ascii * cstr)) (s : cc_shim) : io cc_shim :=
  io_fold (fun s o => shim_option o s) l s.

(** The initialiser of [poll_fds] sets its first element only: the descriptor
    polled for input starts as 0. *)
Definition shim_zero : cc_shim := Shim None (-1) (-1) 0 0 false (-1) 0 false.

(** The poll loop; an interrupted poll leaves the events of the one before. *)
Fixpoint shim_loop (fuel : nat) (s : cc_shim) (revents : list bool) : io Z :=
  match fuel with
  | O => Halt Blocked
  | S fuel =>
      r ← call_ (Cpoll [signal_fd s; proxy_io_fd s; proxy_sock_fd s; stdin_poll_fd s]);
      match (match r with
             | inl errno => if bool_decide (errno = EINTR) then Some revents else None
             | inr rev => Some rev
             end) with
      | None => mret 0
      | Some rev =>
          let ready i := nth i rev false in
          _ ← (if ready 0%nat then handle_signals s else mret tt);
          s ← (if ready 1%nat then handle_proxy_output s else mret s);
          _ ← (if ready 2%nat then handle_proxy_ctl s else mret tt);
          s ← (if ready 3%nat then handle_stdin s else mret s);
          shim_loop fuel s rev
      end
  end.

(** [main] between the options and the loop: the checks, the signals, the
    terminal; also whether the terminal is restored at exit. *)
Definition shim_setup (s : cc_shim) : io (cc_shim * bool) :=
  if bool_decide (container_id s = None \/ proxy_sock_fd s = -1 \/ proxy_io_fd s = -1 \/ io_seq_no s = 0)
  then err_exit s
  else
    r ← call_ (Cfcntl_getfd (proxy_sock_fd s));
    if bool_decide (r = -1) then Halt (Exited EXIT_FAILURE) else
    r ← call_ (Cfcntl_getfd (proxy_io_fd s));
    if bool_decide (r = -1) then Halt (Exited EXIT_FAILURE) else
    p ← call_ Cpipe;
    match p with
    | None => err_exit s
    | Some (rd, wr) =>
        ok ← set_fd_nonblocking rd;
        if negb ok then Halt (Exited EXIT_FAILURE) else
        ok ← set_fd_nonblocking wr;
        if negb ok then Halt (Exited EXIT_FAILURE) else
        ok ← assign_all_signals shim_signal_table;
        if negb ok then err_exit s else
        tty ← call_ (Cisatty STDIN_FILENO);
        let s' fd saved := Shim (container_id s) (proxy_sock_fd s) (proxy_io_fd s) (io_seq_no s) (err_seq_no s)
                             (exiting s) rd fd saved in
        s ← (if tty : bool then
               _ ← call_ (Ctcgetattr STDIN_FILENO);
               _ ← call_ (Ctcsetattr STDIN_FILENO);
               mret (s' STDIN_FILENO true)
             else
               r ← call_ (Cfcntl_getfd STDIN_FILENO);
               if bool_decide (r = -1) then mret (s' (stdin_poll_fd s) false)
               else _ ← set_fd_nonblocking STDIN_FILENO; mret (s' STDIN_FILENO false));
        r ← call_ Catexit;
        mret (s, bool_decide (r = 0))
    end.

Definition shim_main (opts : list (ascii * cstr)) : io Z :=
  s ← shim_options opts shim_zero;
  '(s, registered) ← shim_setup s;
  r ← shim_loop shim_fuel s [];
  _ ← (if registered : bool then restore_terminal s else mret tt);
  mret r.
End shim.

(** ** Big-endian numbers *)

Lemma set_big_endian_32_bytes v : set_big_endian_32 v = be_bytes 4 v.
Proof. unfold set_big_endian_32. cbn [be_bytes]. by rewrite Z.shiftr_0_r. Qed.

Lemma byte_of_mod z n : 8 <= n -> byte_of (z mod 2 ^ n) = byte_of z.
Proof.
  intros Hn. unfold byte_of. do 2 f_equal. replace 256 with (2 ^ 8) by done.
  apply Z.mod_mod_divide. exists (2 ^ (n - 8)). rewrite <- Z.pow_add_r by lia. f_equal. lia.
Qed.

Lemma shiftr_mod z n k : 0 <= k <= n -> Z.shiftr (z mod 2 ^ n) k = Z.shiftr z k mod 2 ^ (n - k).
Proof.
  intros H. apply Z.bits_inj'. intros i Hi. rewrite Z.shiftr_spec by done.
  destruct (decide (i < n - k)).
  - rewrite !Z.mod_pow2_bits_low by lia. by rewrite Z.shiftr_spec.
  - by rewrite !Z.mod_pow2_bits_high by lia.
Qed.

Lemma be_bytes_mod n k z : 8 * Z.of_nat n <= k -> be_bytes n (z mod 2 ^ k) = be_bytes n z.
Proof.
  intros Hk. induction n as [|n IH]; [done|]. cbn [be_bytes]. rewrite IH by lia. f_equal.
  rewrite shiftr_mod by lia. apply byte_of_mod. lia.
Qed.

Lemma set_big_endian_64_bytes v : set_big_endian_64 v = be_bytes 8 v.
Proof.
  unfold set_big_endian_64, wrapu. rewrite (set_big_endian_32_bytes (v mod _)), (set_big_endian_32_bytes (Z.shiftr v 32 mod _)).
  do 2 rewrite be_bytes_mod by lia.
  cbn -[Z.shiftr byte_of]. rewrite !Z.shiftr_shiftr by lia. done.
Qed.

Lemma get_big_endian_32_field a buf :
  (a + 4 <= String.length buf)%nat -> get_big_endian_32 (str_drop a buf) = be_field a (a + 4) buf.
Proof.
  intros H. unfold get_big_endian_32, be_field. rewrite big_endian_32_buf by (rewrite str_drop_length; lia).
  by replace (a + 4 - a)%nat with 4%nat by lia.
Qed.

Lemma be_val_split a b : be_val 0 (a +:+ b) = be_val 0 a * 256 ^ Z.of_nat (String.length b) + be_val 0 b.
Proof.
  assert (forall acc, be_val acc (a +:+ b) = be_val (be_val acc a) b) as H.
  { induction a as [|c a IH]; intros acc; [done|]. rewrite str_app_cons. cbn [be_val]. apply IH. }
  by rewrite H, be_val_acc.
Qed.

Lemma be_val_range s : 0 <= be_val 0 s < 256 ^ Z.of_nat (String.length s).
Proof.
  induction s as [|c s IH]; cbn [be_val String.length]; [cbn; lia|].
  rewrite be_val_acc, Nat2Z.inj_succ, Z.pow_succ_r by lia. pose proof (byte_val_range c). nia.
Qed.

Lemma get_big_endian_64_field buf : (8 <= String.length buf)%nat -> get_big_endian_64 buf = be_field 0 8 buf.
Proof.
  intros H. unfold get_big_endian_64. rewrite (get_big_endian_32_field 4) by lia.
  change (get_big_endian_32 buf) with (get_big_endian_32 (str_drop 0 buf)).
  rewrite (get_big_endian_32_field 0) by lia. unfold be_field. cbn [Nat.add Nat.sub str_drop].
  set (x := str_take 4 buf). set (y := str_take 4 (str_drop 4 buf)).
  assert (String.length y = 4%nat) as Hy by (unfold y; rewrite str_take_length_min, str_drop_length; lia).
  rewrite lor_shiftl; [| |lia].
  2:{ pose proof (be_val_range y). rewrite Hy in *. cbn in *. lia. }
  replace (str_take 8 buf) with (x +:+ y).
  - rewrite be_val_split, Hy. done.
  - unfold x, y. rewrite <- (str_take_drop 4 (str_take 8 buf)). rewrite str_take_take by lia.
    by rewrite (str_take_drop_comm 4 4).
Qed.

(** ** Output of the workload *)

(** What the shim sees of the proxy and of its own outputs: the pieces to be
    read, how much each write accepts, what was written so far. *)
Record io_world := IoWorld { w_conn : go_conn; w_accept : list nat; w_log : list (Z * string) }.

Definition io_handler : handler io_world := fun c w =>
  match c return reply c * io_world with
  | Cread _ n =>
      match go_read n (w_conn w) with
      | None => (Some EmptyString, w)
      | Some (d, conn) => (Some d, IoWorld conn (w_accept w) (w_log w))
      end
  | Cwrite fd s =>
      let k := match w_accept w with [] => String.length s | k :: _ => Nat.min (S k) (String.length s) end in
      (Z.of_nat k, IoWorld (w_conn w) (tail (w_accept w)) (w_log w ++ [(fd, str_take k s)]))
  | Cpoll _ => (match w_conn w with [] => inl EIO | _ => inr [false; true; false; false] end, w)
  | c => (fail_reply c, w)
  end.

(** The bytes written to a descriptor. *)
Fixpoint fd_output (fd : Z) (l : list (Z * string)) : string :=
  match l with
  | [] => EmptyString
  | (fd', s) :: l => (if bool_decide (fd' = fd) then s else EmptyString) +:+ fd_output fd l
  end.

Lemma fd_output_app fd l l' : fd_output fd (l ++ l') = fd_output fd l +:+ fd_output fd l'.
Proof. induction l as [|[f s] l IH]; [done|]. cbn. by rewrite IH, str_app_assoc. Qed.

Lemma run_output_loop fuel fd data w :
  (String.length data < fuel)%nat ->
  exists w', run io_handler (output_loop fuel fd data) w = (Done tt, w') /\ w_conn w' = w_conn w /\
    forall fd', fd_output fd' (w_log w') =
      fd_output fd' (w_log w) +:+ (if bool_decide (fd' = fd) then data else EmptyString).
Proof.
  revert data w. induction fuel as [|fuel IH]; intros data w Hf; [lia|].
  destruct data as [|c d0]; [exists w; split_and!; [done..|]; intros fd'; case_match; by rewrite str_app_nil_r|].
  cbn [output_loop]. remember (String c d0) as data eqn:Ed.
  assert (0 < String.length data)%nat as Hpos by (rewrite Ed; cbn; lia).
  run_call v w1 E. cbv beta iota zeta delta [io_handler] in E. injection E as <- <-.
  set (k := match w_accept w with [] => _ | _ => _ end) in *.
  assert (0 < k <= String.length data)%nat as Hk by (unfold k; case_match; [lia|destruct (String.length data); lia]).
  rewrite bool_decide_false by lia. rewrite Nat2Z.id.
  edestruct IH as (w' & -> & Hc & Ho); [|exists w'; split_and!; [done|done|]].
  - rewrite str_drop_length. lia.
  - intros fd'. rewrite Ho. cbn [w_log]. rewrite fd_output_app, str_app_assoc. f_equal. cbn [fd_output].
    rewrite str_app_nil_r. case_bool_decide as E1; case_bool_decide as E2; try congruence; [|done].
    by rewrite str_take_drop.
Qed.

(** The pieces that arrive are not empty: an empty read is the end. *)
Definition pieces_ok (conn : go_conn) : Prop := Forall (fun s => s <> EmptyString) conn.

Lemma go_read_pieces n conn d conn' :
  (0 < n)%nat -> pieces_ok conn -> go_read n conn = Some (d, conn') -> d <> EmptyString /\ pieces_ok conn'.
Proof.
  intros Hn Hp. destruct conn as [|c conn]; [done|]. apply Forall_cons in Hp as [Hc Hp]. cbn [go_read].
  destruct (Nat.leb_spec (String.length c) n); intros [= <- <-]; [done|]. split.
  - intros E. apply (f_equal String.length) in E. rewrite str_take_length_min in E. cbn in E. lia.
  - constructor; [|done]. intros E. apply (f_equal String.length) in E. rewrite str_drop_length in E. cbn in E. lia.
Qed.

(** Where the read loop stands in a message [m]: before or after the header. *)
Definition shim_read_inv (need : nat) (stream_len : Z) (buf m : string) : Prop :=
  (stream_len = 0 /\ need = 12%nat /\ (String.length buf < 12)%nat) \/
  (stream_len = Z.of_nat (String.length m) /\ need = String.length m /\
   (12 <= String.length buf <= String.length m)%nat).

(** The next piece read inside a message. *)
Lemma read_piece want conn buf m tail :
  (0 < want <= String.length m - String.length buf)%nat -> pieces_ok conn ->
  buf +:+ conn_bytes conn = m +:+ tail ->
  exists d conn', go_read want conn = Some (d, conn') /\ d <> EmptyString /\ (1 <= String.length d <= want)%nat /\
    pieces_ok conn' /\ (buf +:+ d) +:+ conn_bytes conn' = m +:+ tail /\
    buf +:+ d = str_take (String.length (buf +:+ d)) m.
Proof.
  intros Hw Hp E. destruct (str_app_prefix buf (conn_bytes conn) m tail) as [_ Hrest]; [lia|done|].
  destruct (go_read_some want conn) as [[d conn'] Hrd]; [rewrite Hrest, str_length_app, str_drop_length; lia|].
  destruct (go_read_pieces _ _ _ _ (proj1 Hw) Hp Hrd) as [Hd Hp']. pose proof (go_read_bytes _ _ _ _ Hrd) as [Hb Hl].
  assert ((buf +:+ d) +:+ conn_bytes conn' = m +:+ tail) as E' by by rewrite str_app_assoc, <- Hb.
  exists d, conn'. split_and!; try done.
  - destruct d; [done|cbn; lia].
  - eapply str_app_prefix; [|exact E']. rewrite str_length_app. lia.
Qed.

Lemma run_read_io_loop fuel s need stream_len buf m tail w :
  (12 <= String.length m <= HYPERSTART_MAX_RECV_BYTES)%nat ->
  be_field 8 12 m = Z.of_nat (String.length m) ->
  shim_read_inv need stream_len buf m -> pieces_ok (w_conn w) ->
  buf +:+ conn_bytes (w_conn w) = m +:+ tail -> (String.length m - String.length buf < fuel)%nat ->
  exists conn', run io_handler (read_io_loop fuel s need stream_len buf) w =
      (Done (Some (m, Z.of_nat (String.length m))), IoWorld conn' (w_accept w) (w_log w)) /\
    conn_bytes conn' = tail /\ pieces_ok conn'.
Proof.
  intros Hm Hf. revert need stream_len buf w. induction fuel as [|fuel IH]; intros need sl buf w Hinv Hp E Hfuel; [lia|].
  assert (String.length buf <= String.length m)%nat as Hle by (destruct Hinv; lia).
  cbn [read_io_loop]. destruct (Nat.leb_spec need (String.length buf)) as [Hge|Hlt].
  { destruct (str_app_prefix _ _ _ _ Hle E) as [Hbuf Hrest]. destruct Hinv as [|(-> & -> & ?)]; [lia|]. exists (w_conn w).
    rewrite str_take_all in Hbuf by done. subst buf. rewrite str_drop_all in Hrest by done. by destruct w. }
  set (want := Nat.min (need - String.length buf) BUFSIZ).
  assert (0 < want <= need - String.length buf)%nat as Hw by (unfold want, BUFSIZ; rewrite Nat.min_glb_lt_iff; lia).
  assert (need <= String.length m)%nat as Hneed by (destruct Hinv; lia).
  destruct (read_piece want (w_conn w) buf m tail) as (d & conn1 & Hrd & Hd & Hdl & Hp1 & E1 & Hbuf1); [lia|done..|].
  run_call v w1 Er. cbv beta iota delta [io_handler] in Er. rewrite Hrd in Er. injection Er as <- <-.
  destruct d as [|c0 d0] eqn:Ed; [done|]. rewrite <- Ed in *. rewrite (str_take_all want d) by lia.
  pose proof (str_length_app buf d) as Hl1.
  destruct (decide (sl = 0 /\ (12 <= String.length (buf +:+ d))%nat)) as [[-> Hhdr]|Hno].
  - rewrite bool_decide_true by done. unfold STREAM_HEADER_SIZE, STREAM_HEADER_LENGTH_OFFSET.
    rewrite (proj2 (Nat.leb_le 12 _)) by lia. cbn [andb].
    rewrite (get_big_endian_32_field 8) by lia. change (8 + 4)%nat with 12%nat.
    assert (be_field 8 12 (buf +:+ d) = Z.of_nat (String.length m)) as -> by (rewrite Hbuf1, be_field_take by lia; done).
    destruct Hinv as [(_ & -> & _)|]; [|lia]. case_bool_decide as E12.
    + exists conn1. rewrite str_take_all in Hbuf1 by lia. rewrite Hbuf1 in E1 |- *. split_and!; [done| |done].
      apply (f_equal (str_drop (String.length m))) in E1. by rewrite !str_drop_app in E1.
    + rewrite bool_decide_false, bool_decide_true by lia. rewrite Nat2Z.id.
      apply (IH _ _ _ (IoWorld conn1 (w_accept w) (w_log w))); [right; lia|done|done|lia].
  - assert (bool_decide (sl = 0) && (STREAM_HEADER_SIZE <=? String.length (buf +:+ d))%nat = false) as ->.
    { unfold STREAM_HEADER_SIZE. case_bool_decide; [|done]. apply Nat.leb_gt. lia. }
    apply (IH _ _ _ (IoWorld conn1 (w_accept w) (w_log w))); [|done|done|lia].
    destruct Hinv as [(-> & -> & ?)|(-> & -> & ?)]; [left|right]; lia.
Qed.

(** A message of the proxy, as the bytes of [SendIoMessageWithConn]. *)
Lemma send_io_bytes msg bytes :
  0 <= tty_session msg < 2 ^ 64 -> SendIoMessageWithConn msg = Some bytes ->
  (12 <= String.length bytes <= HYPERSTART_MAX_RECV_BYTES)%nat /\
  String.length bytes = (12 + String.length (tty_message msg))%nat /\
  be_field 8 12 bytes = Z.of_nat (String.length bytes) /\
  be_field 0 8 bytes = tty_session msg /\ str_drop 12 bytes = tty_message msg.
Proof.
  intros Hs. unfold SendIoMessageWithConn, max_message, ttyHdrSize, HYPERSTART_MAX_RECV_BYTES.
  destruct (Nat.ltb_spec (N.to_nat 10240) (String.length (tty_message msg) + 12)%nat) as [|Hl]; [done|].
  intros E. assert (bytes = be_bytes 8 (tty_session msg) +:+
    be_bytes 4 (Z.of_nat (String.length (tty_message msg) + 12)) +:+ tty_message msg) as -> by congruence.
  rewrite !str_length_app, !be_bytes_length. split_and!; [lia|lia|lia|..].
  - change 12%nat with (8 + 4)%nat at 1. rewrite be_field_second by apply be_bytes_length.
    rewrite Z.mod_small by lia. f_equal. lia.
  - rewrite be_field_head. apply Z.mod_small. lia.
  - apply message_body. by rewrite !be_bytes_length.
Qed.

Lemma run_read_IO_message s msg bytes tail w :
  0 <= tty_session msg < 2 ^ 64 -> SendIoMessageWithConn msg = Some bytes ->
  pieces_ok (w_conn w) -> conn_bytes (w_conn w) = bytes +:+ tail ->
  exists conn', run io_handler (read_IO_message s) w =
      (Done (Some (bytes, tty_session msg, Z.of_nat (12 + String.length (tty_message msg)))),
       IoWorld conn' (w_accept w) (w_log w)) /\
    conn_bytes conn' = tail /\ pieces_ok conn'.
Proof.
  intros Hs Hb Hp Hc. destruct (send_io_bytes _ _ Hs Hb) as (Hl & El & Hf & Hseq & _).
  destruct (run_read_io_loop (S (S HYPERSTART_MAX_RECV_BYTES)) s 12 0 EmptyString bytes tail w)
    as (conn' & Hr & Ht & Hp'); [done|done|left; cbn; lia|done|done|cbn; lia|].
  exists conn'. split; [|done]. unfold read_IO_message. rewrite run_bind.
  change STREAM_HEADER_SIZE with 12%nat. rewrite Hr. cbn [run mret io_mret].
  rewrite get_big_endian_64_field, Hseq, El by lia. done.
Qed.

Section session.
Context `{SF : ShimFuel}.

(** The descriptor a stream is copied to. *)
Definition out_fd (s : cc_shim) (seq : Z) : Z :=
  if bool_decide (seq = io_seq_no s) then STDOUT_FILENO else STDERR_FILENO.

Definition our_stream (s : cc_shim) (seq : Z) : Prop := seq = io_seq_no s \/ seq = io_seq_no s + 1.

Definition shim_ok (s : cc_shim) : Prop := 0 <= io_seq_no s /\ io_seq_no s + 1 < 2 ^ 64.

Lemma route_stream s seq :
  shim_ok s -> our_stream s seq ->
  (if bool_decide (seq = io_seq_no s) then Some STDOUT_FILENO
   else if bool_decide (seq = u64 (io_seq_no s + 1)) then Some STDERR_FILENO else None) = Some (out_fd s seq).
Proof.
  intros [H0 H1] Hs. unfold out_fd. case_bool_decide as E; [done|]. rewrite wrapu_small by lia.
  destruct Hs as [?| ->]; [done|]. by rewrite bool_decide_true.
Qed.

Section message.
Context (s : cc_shim) (msg : TtyMessage) (bytes tail : string) (w : io_world).
Context (Hok : shim_ok s) (Hour : our_stream s (tty_session msg)).
Context (Hsend : SendIoMessageWithConn msg = Some bytes).
Context (Hp : pieces_ok (w_conn w)) (Hc : conn_bytes (w_conn w) = bytes +:+ tail).

Lemma session_range : 0 <= tty_session msg < 2 ^ 64.
Proof. destruct Hok, Hour; lia. Qed.

(** [handle_proxy_output] after the message was read. *)
Lemma run_handle_output :
  exists conn', conn_bytes conn' = tail /\ pieces_ok conn' /\
    run io_handler (handle_proxy_output s) w =
      run io_handler
        (if negb (exiting s) && (String.length (tty_message msg) =? 0)%nat then mret (set_exiting true s)
         else if exiting s && (String.length (tty_message msg) =? 1)%nat then
           _ ← restore_terminal s;
           Halt (Exited (exit_status (default "000"%char (String.get 12 bytes))))
         else
           _ ← output_loop (S (String.length (tty_message msg))) (out_fd s (tty_session msg)) (tty_message msg);
           mret s)
        (IoWorld conn' (w_accept w) (w_log w)).
Proof.
  destruct (run_read_IO_message s msg bytes tail w session_range Hsend Hp Hc) as (conn' & Hr & Ht & Hp').
  destruct (send_io_bytes _ _ session_range Hsend) as (Hl & El & _ & _ & Hd).
  exists conn'. split_and!; [done..|]. unfold handle_proxy_output. rewrite run_bind, Hr.
  rewrite (route_stream s _ Hok Hour). rewrite El in Hl. unfold HYPERSTART_MAX_RECV_BYTES, STREAM_HEADER_SIZE in *.
  rewrite bool_decide_false by lia. rewrite Nat2Z.id, str_take_all, Hd by lia.
  replace (bool_decide (Z.of_nat (12 + String.length (tty_message msg)) = Z.of_nat 12))
    with (String.length (tty_message msg) =? 0)%nat
    by (destruct (Nat.eqb_spec (String.length (tty_message msg)) 0); [rewrite bool_decide_true|rewrite bool_decide_false]; lia).
  replace (bool_decide (Z.of_nat (12 + String.length (tty_message msg)) = Z.of_nat 12 + 1))
    with (String.length (tty_message msg) =? 1)%nat
    by (destruct (Nat.eqb_spec (String.length (tty_message msg)) 1); [rewrite bool_decide_true|rewrite bool_decide_false]; lia).
  done.
Qed.
End message.

(** One turn of the main loop when there is output to read. *)
Lemma run_loop_turn fuel s rev w :
  w_conn w <> [] ->
  run io_handler (shim_loop (S fuel) s rev) w =
    match run io_handler (handle_proxy_output s) w with
    | (Done s', w') => run io_handler (shim_loop fuel s' [false; true; false; false]) w'
    | (Fault f, w') => (Fault f, w')
    end.
Proof.
  intros Hc. cbn [shim_loop]. run_call v w1 E. cbv beta iota delta [io_handler] in E.
  destruct (w_conn w) as [|c l]; [done|]. injection E as <- <-. cbn [nth].
  rewrite run_ret_bind, run_bind. destruct (run io_handler (handle_proxy_output s) w) as [[s'|f] w']; done.
Qed.

(** The bytes the proxy sends for a list of messages. *)
Fixpoint io_stream (l : list TtyMessage) : option string :=
  match l with
  | [] => Some EmptyString
  | m :: l => a ← SendIoMessageWithConn m; b ← io_stream l; Some (a +:+ b)
  end.

(** What a list of messages puts on a descriptor. *)
Fixpoint session_output (s : cc_shim) (fd : Z) (l : list TtyMessage) : string :=
  match l with
  | [] => EmptyString
  | m :: l => (if bool_decide (fd = out_fd s (tty_session m)) then tty_message m else EmptyString)
              +:+ session_output s fd l
  end.

Lemma conn_nonempty conn a b : conn_bytes conn = a +:+ b -> (0 < String.length a)%nat -> conn <> [].
Proof. intros E Ha ->. apply (f_equal String.length) in E. rewrite str_length_app in E. cbn in E. lia. Qed.

Lemma send_io_nonempty msg bytes : SendIoMessageWithConn msg = Some bytes -> (0 < String.length bytes)%nat.
Proof.
  unfold SendIoMessageWithConn. case_match; [done|]. intros H1.
  assert (bytes = be_bytes 8 (tty_session msg) +:+
    be_bytes 4 (Z.of_nat (String.length (tty_message msg) + ttyHdrSize)) +:+ tty_message msg) as -> by congruence.
  rewrite !str_length_app, !be_bytes_length. lia.
Qed.

(** The data of the workload, turn by turn. *)
Lemma run_output_session fuel s rev l bytes tail w :
  shim_ok s -> exiting s = false ->
  Forall (fun m => our_stream s (tty_session m) /\ tty_message m <> EmptyString) l ->
  io_stream l = Some bytes -> pieces_ok (w_conn w) -> conn_bytes (w_conn w) = bytes +:+ tail ->
  exists w' rev',
    run io_handler (shim_loop (length l + fuel) s rev) w = run io_handler (shim_loop fuel s rev') w' /\
    conn_bytes (w_conn w') = tail /\ pieces_ok (w_conn w') /\
    forall fd, fd_output fd (w_log w') = fd_output fd (w_log w) +:+ session_output s fd l.
Proof.
  intros Hok Hex. revert rev w bytes. induction l as [|m l IH]; intros rev w bytes Hl Hb Hp Hc.
  { injection Hb as <-. exists w, rev. split_and!; [done..|]. intros fd. by rewrite str_app_nil_r. }
  apply Forall_cons in Hl as [[Hour Hne] Hl]. cbn [io_stream] in Hb.
  apply bind_Some in Hb as (a & Ha & Hb). apply bind_Some in Hb as (b & Hb & [= <-]).
  rewrite str_app_assoc in Hc. cbn [length Nat.add].
  rewrite run_loop_turn by (eapply conn_nonempty; [exact Hc|by eapply send_io_nonempty]).
  destruct (run_handle_output s m a (b +:+ tail) w Hok Hour Ha Hp Hc) as (conn' & Hc' & Hp' & ->).
  assert (0 < String.length (tty_message m))%nat as Hpos by (destruct (tty_message m); [done|cbn; lia]).
  rewrite Hex. rewrite (proj2 (Nat.eqb_neq _ 0)) by lia. cbn [negb andb]. rewrite run_bind.
  destruct (run_output_loop (S (String.length (tty_message m))) (out_fd s (tty_session m)) (tty_message m)
              (IoWorld conn' (w_accept w) (w_log w))) as (w1 & -> & Hc1 & Ho); [lia|].
  cbn [run mret io_mret]. cbn [w_conn] in Hc1.
  destruct (IH [false; true; false; false] w1 b Hl Hb) as (w' & rev' & -> & Ht & Hp2 & Ho').
  - by rewrite Hc1.
  - by rewrite Hc1.
  - exists w', rev'. split_and!; [done..|]. intros fd. rewrite Ho', Ho. cbn [w_log session_output].
    by rewrite str_app_assoc.
Qed.

Lemma get_drop n str : String.get n str = first_char (str_drop n str).
Proof. revert n. induction str as [|c str IH]; intros [|n]; [done..|apply IH]. Qed.

Lemma exit_status_val c : exit_status c = byte_val c.
Proof.
  by destruct c as [[] [] [] [] [] [] [] []]. Qed.

(** The shim stands for the workload.  Let the proxy send the output of the
    workload (messages of its two streams, with data), the end of its
    standard output and its exit status, in whatever pieces they arrive and
    however little each write to the shim's outputs accepts.  Then the
    shim's main loop exits with that status, and has written exactly the
    data of each stream, in order, to its standard output and error. *)
Theorem shim_session (s : cc_shim) (rev : list bool) (l : list TtyMessage) (status : ascii)
    (b1 b2 b3 : string) (w : io_world) (fuel : nat) :
  shim_ok s -> exiting s = false ->
  Forall (fun m => our_stream s (tty_session m) /\ tty_message m <> EmptyString) l ->
  io_stream l = Some b1 ->
  SendIoMessageWithConn (Tty (io_seq_no s) EmptyString) = Some b2 ->
  SendIoMessageWithConn (Tty (io_seq_no s) (String status EmptyString)) = Some b3 ->
  pieces_ok (w_conn w) -> conn_bytes (w_conn w) = b1 +:+ b2 +:+ b3 ->
  exists w',
    run io_handler (shim_loop (length l + S (S fuel)) s rev) w = (Fault (Exited (byte_val status)), w') /\
    forall fd, fd_output fd (w_log w') = fd_output fd (w_log w) +:+ session_output s fd l.
Proof.
  intros Hok Hex Hl Hb1 Hb2 Hb3 Hp Hc.
  destruct (run_output_session (S (S fuel)) s rev l b1 (b2 +:+ b3) w) as (w1 & rev1 & -> & Hc1 & Hp1 & Ho); [done..|].
  rewrite run_loop_turn by (eapply conn_nonempty; [exact Hc1|by eapply send_io_nonempty]).
  edestruct (run_handle_output s (Tty (io_seq_no s) EmptyString) b2 b3 w1) as (conn2 & Hc2 & Hp2 & ->);
    [done|by left|done..|]. rewrite Hex. cbn [negb andb tty_message String.length Nat.eqb run mret io_mret].
  rewrite <- (str_app_nil_r b3) in Hc2.
  rewrite run_loop_turn by (eapply conn_nonempty; [exact Hc2|by eapply send_io_nonempty]).
  edestruct (run_handle_output (set_exiting true s) (Tty (io_seq_no s) (String status EmptyString)) b3 EmptyString
    (IoWorld conn2 (w_accept w1) (w_log w1))) as (conn3 & Hc3 & Hp3 & ->); [done|by left|done..|].
  cbn [exiting set_exiting negb andb tty_message String.length Nat.eqb].
  rewrite run_bind. unfold restore_terminal. cbn [run call_ mbind io_mbind io_bind io_handler fail_reply andb mret io_mret].
  exists (IoWorld conn3 (w_accept w1) (w_log w1)). split; [|exact Ho]. do 3 f_equal.
  assert (String.get 12 b3 = Some status) as ->.
  { destruct (send_io_bytes (Tty (io_seq_no s) (String status EmptyString)) b3) as (_ & _ & _ & _ & Hd);
      [destruct Hok; cbn; lia|done|]. rewrite get_drop, Hd. done. }
  apply exit_status_val.
Qed.

(** What is read, and what is written. *)
Definition read_data (e : event) : option string :=
  match e with Ev (Cread _ _) (Some d) => Some d | _ => None end.
Definition wrote (e : event) : option (Z * string) :=
  match e with Ev (Cwrite fd b) _ => Some (fd, b) | _ => None end.

(** Input is written as one message; its end changes what is polled. *)
Lemma handle_stdin_writes (s s' : cc_shim) (tr : list event) (d : string) :
  shim_ok s -> 0 <= proxy_io_fd s -> (String.length d <= BUFSIZ)%nat ->
  exec (handle_stdin s) tr (Done s') -> tr_map read_data tr = [d] ->
  s' = match d with EmptyString => set_stdin_poll (-1) s | _ => s end /\
  exists bytes, tr_map wrote tr = [(proxy_io_fd s, bytes)] /\ SendIoMessageWithConn (Tty (io_seq_no s) d) = Some bytes.
Proof.
  intros [H0 H1] Hfd Hd. unfold handle_stdin. rewrite bool_decide_false by lia.
  intros (r & tr1 & -> & He) Hin. destruct r as [d'|]; [|by destruct He as [-> _]].
  destruct He as (n & tr2 & -> & [-> [= ->]]). cbn in Hin. injection Hin as ->.
  assert (forall d, proxy_io_fd (match d with EmptyString => set_stdin_poll (-1) s | String _ _ => s end) = proxy_io_fd s /\
    io_seq_no (match d with EmptyString => set_stdin_poll (-1) s | String _ _ => s end) = io_seq_no s) as Hs
    by (by intros []). destruct (Hs d) as [-> ->]. split; [done|]. eexists. split; [done|].
  unfold SendIoMessageWithConn. cbn [tty_message tty_session]. unfold max_message, ttyHdrSize, STREAM_HEADER_SIZE, BUFSIZ in *.
  destruct (Nat.ltb_spec (N.to_nat 10240) (String.length d + 12)%nat); [lia|].
  rewrite set_big_endian_64_bytes, (set_big_endian_32_bytes (u32 _)), wrapu_small by lia. done.
Qed.

(** What is typed reaches the proxy: the data the shim reads on its input is
    written to the proxy as one message of the shim's stream, which the
    proxy's reader gets whole, whatever pieces it arrives in; and the end of
    the input is sent once, as an empty message, and no longer polled for. *)
Theorem stdin_reaches_proxy (s s' : cc_shim) (tr : list event) (d : string) :
  shim_ok s -> 0 <= proxy_io_fd s -> (String.length d <= BUFSIZ)%nat ->
  exec (handle_stdin s) tr (Done s') -> tr_map read_data tr = [d] ->
  (d = EmptyString -> stdin_poll_fd s' = -1) /\
  exists bytes, tr_map wrote tr = [(proxy_io_fd s, bytes)] /\
    forall conn tail, conn_bytes conn = bytes +:+ tail ->
      exists conn', ReadIoMessageWithConn conn = Some (Tty (io_seq_no s) d, conn') /\ conn_bytes conn' = tail.
Proof.
  intros Hok Hfd Hd He Hin. destruct (handle_stdin_writes _ _ _ _ Hok Hfd Hd He Hin) as (-> & bytes & Hw & Hb).
  split; [by intros ->|]. exists bytes. split; [done|]. intros conn tail Hc. destruct Hok.
  eapply io_message_roundtrip; [|exact Hb|exact Hc]. cbn. lia.
Qed.

(** ** Signals *)

(** The messages that follow from what was read: a signal, a window size. *)
Definition forwarded (s : cc_shim) (id : string) (e : event) : option (Z * string) :=
  match e with
  | Ev (Cread _ _) (Some d) =>
      if bool_decide (pipe_int d 0 = SIGWINCH) then None
      else Some (proxy_sock_fd s, frame (hyper_payload "killcontainer" (kill_json id (pipe_int d 0))))
  | Ev (Cwinsize _) (Some (row, col)) =>
      Some (proxy_sock_fd s, frame (hyper_payload "winsize" (winsize_json (io_seq_no s) row col)))
  | _ => None
  end.

(** Reads of whole numbers, and writes of whole messages. *)
Definition whole_io (e : event) : Prop :=
  match e with
  | Ev (Cread _ _) (Some d) => String.length d = 4%nat
  | Ev (Cwrite _ b) r => r = Z.of_nat (String.length b)
  | _ => True
  end.


Lemma ctl_msg_frame json : get_proxy_ctl_msg json = frame json.
Proof.
  unfold get_proxy_ctl_msg, frame, wrapu. by rewrite (set_big_endian_32_bytes (_ mod _)), be_bytes_mod by lia.
Qed.

Lemma write_loop_whole fuel fd msg tr o :
  (8 <= String.length msg)%nat -> exec (write_loop fuel fd msg) tr o -> Forall whole_io tr ->
  (exists f, o = Fault f) \/
  (o = Done tt /\ tr_map wrote tr = [(fd, msg)] /\ forall s id, tr_map (forwarded s id) tr = []).
Proof.
  intros Hm. destruct fuel as [|fuel]; [intros [_ ->]; eauto|]. cbn [write_loop].
  destruct msg as [|c m]; [cbn in Hm; lia|]. cbv iota. set (msg := String c m) in *. intros (r & tr1 & -> & He) Hw.
  apply Forall_cons in Hw as [Hr Hw]. cbn [whole_io] in Hr. subst r.
  cbn [io_mbind io_bind] in He.
  rewrite bool_decide_false in He by (unfold EINTR; lia). rewrite bool_decide_false in He by lia.
  rewrite Nat2Z.id, str_drop_all in He by done.
  destruct fuel as [|fuel]; [destruct He as [-> ->]; eauto|]. destruct He as [-> ->]. right. done.
Qed.

Lemma send_hyper_whole fd cmd json tr :
  0 <= fd -> exec (send_proxy_hyper_message fd cmd json) tr (Done tt) -> Forall whole_io tr ->
  tr_map wrote tr = [(fd, frame (hyper_payload cmd json))] /\ forall s id, tr_map (forwarded s id) tr = [].
Proof.
  intros Hfd. unfold send_proxy_hyper_message. rewrite bool_decide_false, ctl_msg_frame by lia. intros He Hw.
  assert (8 <= String.length (frame (hyper_payload cmd json)))%nat as Hl
    by (unfold frame; rewrite !str_length_app, !be_bytes_length; lia).
  by destruct (write_loop_whole _ _ _ _ _ Hl He Hw) as [[f [=]]|[_ H]].
Qed.

(** A message that is sent, then the rest of the loop. *)
Lemma send_hyper_then s id cmd json (rest : io unit) tr :
  0 <= proxy_sock_fd s ->
  exec (_ ← send_proxy_hyper_message (proxy_sock_fd s) cmd json; rest) tr (Done tt) -> Forall whole_io tr ->
  exists tr', exec rest tr' (Done tt) /\ Forall whole_io tr' /\
    tr_map (forwarded s id) tr = tr_map (forwarded s id) tr' /\
    tr_map wrote tr = (proxy_sock_fd s, frame (hyper_payload cmd json)) :: tr_map wrote tr'.
Proof.
  intros Hfd He Hw. apply exec_bind in He as [(f & _ & [=])|(tr1 & [] & tr2 & -> & H1 & H2)].
  apply Forall_app in Hw as [Hw1 Hw2]. destruct (send_hyper_whole _ _ _ _ Hfd H1 Hw1) as [Ha Hb].
  exists tr2. by rewrite !tr_map_app, Ha, Hb.
Qed.

Lemma pipe_int_whole d old : String.length d = 4%nat -> pipe_int d old = pipe_int d 0.
Proof. intros H. unfold pipe_int. by rewrite H. Qed.

Lemma signals_loop_whole fuel s id sig tr :
  0 <= proxy_sock_fd s -> exec (signals_loop fuel s id sig) tr (Done tt) -> Forall whole_io tr ->
  tr_map wrote tr = tr_map (forwarded s id) tr.
Proof.
  intros Hfd. revert sig tr. induction fuel as [|fuel IH]; intros sig tr; [by intros [_ ?]|].
  cbn [signals_loop]. intros (r & tr1 & -> & He) Hw. apply Forall_cons in Hw as [Hr Hw].
  cbn [io_mbind io_bind] in He. destruct r as [d|]; [|by destruct He as [-> _]].
  cbn [whole_io] in Hr. rewrite (pipe_int_whole d sig) in He by done. cbv zeta in He.
  cbn [tr_map forwarded wrote]. case_bool_decide as Es.
  - destruct He as (ws & tr2 & -> & He). apply Forall_cons in Hw as [_ Hw]. cbn [io_mbind io_bind] in He.
    destruct ws as [[row col]|]; cbn [tr_map forwarded wrote]; [|by eapply IH].
    destruct (send_hyper_then _ id _ _ _ _ Hfd He Hw) as (tr3 & H3 & Hw3 & -> & ->). f_equal. by eapply IH.
  - destruct (send_hyper_then _ id _ _ _ _ Hfd He Hw) as (tr3 & H3 & Hw3 & -> & ->). f_equal. by eapply IH.
Qed.

(** Signals are forwarded.  When the signal pipe gives whole numbers and the
    proxy's socket accepts whole messages, a round of signal handling writes
    to the proxy, in the order in which the signals were received, one
    [killcontainer] message for every signal read from the pipe, and for a
    change of the window one [winsize] message with the new size, and nothing
    else. *)
Theorem signals_forwarded (s : cc_shim) (id : string) (tr : list event) :
  container_id s = Some id -> 0 <= proxy_sock_fd s ->
  exec (handle_signals s) tr (Done tt) -> Forall whole_io tr ->
  tr_map wrote tr = tr_map (forwarded s id) tr.
Proof.
  intros Hid Hfd. unfold handle_signals. rewrite Hid, bool_decide_false by lia. by apply signals_loop_whole.
Qed.
End session.

(** ** Examples *)

Definition test_shim : cc_shim := Shim (Some "c1") 3 4 1 2 false 5 0 false.

(** A proxy that sends one byte at a time. *)
Definition byte_conn (s : string) : go_conn := (fun c => String c EmptyString) <$> String.list_ascii_of_string s.

Definition test_messages : list TtyMessage := [Tty 1 "out"; Tty 2 "err"; Tty 1 "put"].

Lemma shim_session_witness :
  exists w',
    run io_handler (shim_loop (SF := 3%nat) 5 test_shim [])
      (IoWorld (byte_conn (default EmptyString (io_stream (test_messages ++ [Tty 1 EmptyString; Tty 1 "*"])))) [0%nat] [])
    = (Fault (Exited 42), w') /\
    fd_output STDOUT_FILENO (w_log w') = "output" /\ fd_output STDERR_FILENO (w_log w') = "err".
Proof.
  edestruct (shim_session (SF := 3%nat) test_shim [] test_messages "*"%char) with (fuel := 0%nat)
    (w := IoWorld (byte_conn (default EmptyString (io_stream (test_messages ++ [Tty 1 EmptyString; Tty 1 "*"])))) [0%nat] [])
    as (w' & Hr & Ho).
  - split; vm_compute; congruence.
  - reflexivity.
  - repeat constructor; try done; unfold our_stream; cbn; lia.
  - vm_compute; reflexivity.
  - vm_compute; reflexivity.
  - vm_compute; reflexivity.
  - vm_compute. repeat (constructor; [discriminate|]). constructor.
  - vm_compute; reflexivity.
  - exists w'. split; [exact Hr|]. split; rewrite Ho; vm_compute; reflexivity.
Defined.

Lemma stdin_reaches_proxy_witness :
  exists bytes conn',
    tr_map wrote (fst (run_tr io_handler (handle_stdin test_shim) (IoWorld ["ls"] [] []))) = [(4, bytes)] /\
    ReadIoMessageWithConn [bytes] = Some (Tty 1 "ls", conn').
Proof.
  edestruct (stdin_reaches_proxy test_shim test_shim
    (fst (run_tr io_handler (handle_stdin test_shim) (IoWorld ["ls"] [] []))) "ls") as (_ & bytes & Hw & Hr).
  - split; vm_compute; congruence.
  - vm_compute; congruence.
  - apply Nat.leb_le; vm_compute; reflexivity.
  - apply run_tr_exec; vm_compute; reflexivity.
  - vm_compute; reflexivity.
  - destruct (Hr [bytes] EmptyString) as (conn' & H & _); [unfold conn_bytes; cbn; by rewrite ?str_app_nil_r|]. exists bytes, conn'. split; [exact Hw|exact H].
Defined.

(** The pipe holds an interrupt and a change of the window. *)
Definition sig_handler : handler (list Z) := fun c w =>
  match c return reply c * list Z with
  | Cread _ _ => match w with
                 | [] => (None, w)
                 | n :: w => (Some (String (byte_of n) (String "000" (String "000" (String "000" EmptyString)))), w)
                 end
  | Cwinsize _ => (Some (24, 80), w)
  | Cwrite _ b => (Z.of_nat (String.length b), w)
  | c => (fail_reply c, w)
  end.

Lemma signals_forwarded_witness :
  tr_map wrote (fst (run_tr sig_handler (handle_signals (SF := 5%nat) test_shim) [2; SIGWINCH])) =
  [(3, frame (hyper_payload "killcontainer" (kill_json "c1" 2)));
   (3, frame (hyper_payload "winsize" (winsize_json 1 24 80)))].
Proof.
  rewrite (signals_forwarded (SF := 5%nat) test_shim "c1"
    (fst (run_tr sig_handler (handle_signals (SF := 5%nat) test_shim) [2; SIGWINCH]))).
  - vm_compute; reflexivity.
  - reflexivity.
  - vm_compute; congruence.
  - apply run_tr_exec; vm_compute; reflexivity.
  - vm_compute. repeat constructor.
Defined.

(** A write that accepts four bytes is taken for an interrupted one: the bytes
    are sent again. *)
Definition four_handler : handler bool := fun c w =>
  match c return reply c * bool with
  | Cwrite _ b => if w then (4, false) else (Z.of_nat (String.length b), false)
  | c => (fail_reply c, w)
  end.

Example four_bytes_sent_twice :
  tr_map wrote (fst (run_tr four_handler (write_loop 5 3 "abcdef") true)) = [(3, "abcdef"); (3, "abcdef")].
Proof. vm_compute. reflexivity. Qed.

(** The end of the error stream starts the exit: one byte of output that
    follows is taken for the status of the workload. *)
Example error_end_then_byte :
  fst (run io_handler (shim_loop (SF := 3%nat) 5 test_shim [])
    (IoWorld (byte_conn (default EmptyString (io_stream [Tty 2 EmptyString; Tty 1 "x"; Tty 1 "more"]))) [] []))
  = Fault (Exited 120).
Proof. vm_compute. reflexivity. Qed.

(** An empty option argument is the number 0. *)
Example empty_option_is_zero : parse_numeric_option (Some EmptyString) = 0.
Proof. vm_compute. reflexivity. Qed.
