(* ===== verification/ShimSignals.v ===== *)
(** * Signals of the shim, from the handler to the proxy

    The signal handler of src/shim/shim.c with the pipe between it and the poll
    loop, the table of polled descriptors, and the log of src/shim/log.c. *)

From S2P Require Import Prelude GLib Sys Wire Shim.

(** ** [add_pollfd] *)

Definition MAX_POLL_FDS : nat := 4.
Record pollfd := PollFd { pfd_fd : Z; pfd_events : Z }.

(** [nfds_t] is unsigned; the array has [MAX_POLL_FDS] elements. *)
Definition add_pollfd (poll_fds : list pollfd) (index : nat) (fd events : Z) : list pollfd :=
  if bool_decide (fd < 0) || (MAX_POLL_FDS <=? index)%nat then poll_fds else <[index := PollFd fd events]> poll_fds.

(** ** src/shim/log.c *)

Definition LOG_EMERG : Z := 0.
Definition LOG_ERR : Z := 3.
Definition LOG_DEBUG : Z := 7.

(** What goes to the standard error and to syslog, for a formatted message
    ([None] when formatting fails). *)
Definition shim_log (debug : bool) (priority : Z) (func : cstr) (line_number : Z) (buf : cstr) : list string * list (Z * string) :=
  match func, buf with
  | Some func, Some buf =>
      if (priority <? LOG_EMERG) || (LOG_DEBUG <? priority) then ([], [])
      else if (priority =? LOG_DEBUG) && negb debug then ([], [])
      else
        let text := func +:+ ":" +:+ fmt_d line_number +:+ ":" +:+ buf in
        (if priority <=? LOG_ERR then [text +:+ String "010" EmptyString] else [], [(priority, text)])
  | _, _ => ([], [])
  end.

Definition LOG_PID : Z := 1.
Definition LOG_CONS : Z := 2.
Definition LOG_NOWAIT : Z := 16.
Definition LOG_PERROR : Z := 32.
Definition LOG_USER : Z := 8.

(** [debug] of the log, and what it was opened with. *)
Record shim_log_state := LogState { log_debug : bool; log_options : Z; log_facility : Z }.

Definition shim_log_init (_debug : bool) : shim_log_state :=
  LogState _debug (Z.lor (Z.lor (Z.lor LOG_CONS LOG_PID) LOG_PERROR) LOG_NOWAIT) LOG_USER.

(** The standard error: what is printed there, and what syslog prints there as well
    when it was opened with [LOG_PERROR], with [prefix] in front. *)
Definition log_stderr (st : shim_log_state) (prefix : string) (out : list string * list (Z * string)) : list string :=
  out.1 ++ (if Z.testbit (log_options st) 5 then (fun m => prefix +:+ m.2 +:+ String "010" EmptyString) <$> out.2 else []).

(** ** The signal pipe *)

(** An [int] as four bytes, little endian. *)
Definition le_int (z : Z) : string :=
  String (byte_of z) (String (byte_of (z / 256)) (String (byte_of (z / 65536)) (String (byte_of (z / 16777216)) EmptyString))).

(** The pipe does not block: four bytes are written as a whole, or not at all
    when they do not fit. *)
Definition pipe_write (capacity : nat) (data pipe : string) : bool * string :=
  if (String.length pipe + String.length data <=? capacity)%nat then (true, pipe +:+ data) else (false, pipe).

(** How the write of the handler ends. *)
Inductive write_end := Written | WriteAgain | WriteError (errno : Z).

(** [errno] afterwards: it is restored, except after an error that is not
    [EAGAIN]. *)
Definition handler_errno (e : write_end) (errno : Z) : Z :=
  match e with Written | WriteAgain => errno | WriteError errno' => errno' end.

Definition signal_handler (capacity : nat) (pipe : string) (signal_no : Z) : string :=
  snd (pipe_write capacity (le_int signal_no) pipe).

(** Signals that arrive before the poll loop reads the pipe. *)
Definition signals_arrive (capacity : nat) (signals : list Z) : string := foldl (signal_handler capacity) EmptyString signals.

(** ** Delivery *)

(** The shim between a pipe, a terminal whose size may be known, and a proxy
    that takes whole messages. *)
Record world := World { w_pipe : string; w_sent : list (Z * string) }.

Definition shim_world (size : option (Z * Z)) : handler world := fun c w =>
  match c return reply c * world with
  | Cread _ n =>
      match w_pipe w with
      | EmptyString => (None, w)
      | p => (Some (str_take n p), World (str_drop n p) (w_sent w))
      end
  | Cwinsize _ => (size, w)
  | Cwrite fd b => (Z.of_nat (String.length b), World (w_pipe w) (w_sent w ++ [(fd, b)]))
  | c => (fail_reply c, w)
  end.

(** What the proxy gets for a signal. *)
Definition message_of (s : cc_shim) (id : string) (size : option (Z * Z)) (sig : Z) : option (Z * string) :=
  if bool_decide (sig = SIGWINCH) then
    '(row, col) ← size; Some (proxy_sock_fd s, get_proxy_ctl_msg (hyper_payload "winsize" (winsize_json (io_seq_no s) row col)))
  else Some (proxy_sock_fd s, get_proxy_ctl_msg (hyper_payload "killcontainer" (kill_json id sig))).

Lemma le_int_length z : String.length (le_int z) = 4%nat.
Proof. done. Qed.

Lemma pipe_int_le z old : INT_MIN <= z <= INT_MAX -> pipe_int (le_int z) old = z.
Proof.
  intros Hz. unfold pipe_int. rewrite le_int_length, Nat.eqb_refl. unfold buf_byte, le_int. cbn [String.get from_option].
  rewrite !byte_val_of. transitivity (s32 z); [|by apply s32_small].
  rewrite <- (wraps_wrapu 32 z) by lia. f_equal. unfold wrapu.
  change (2 ^ 32) with (256 * (256 * (256 * 256))). rewrite !Z.rem_mul_r by lia. rewrite !Z.div_div by lia.
  change (256 * 256) with 65536. change (65536 * 256) with 16777216. lia.
Qed.

Section delivery.
Context `{SF : ShimFuel}.

Lemma write_whole size fuel fd msg w :
  (4 < String.length msg)%nat -> run (shim_world size) (write_loop (S (S fuel)) fd msg) w = (Done tt, World (w_pipe w) (w_sent w ++ [(fd, msg)])).
Proof.
  intros Hm. destruct msg as [|c msg]; [cbn in Hm; lia|]. set (m := String c msg) in *.
  change (write_loop (S (S fuel)) fd m) with
    (ret ← call_ (Cwrite fd m);
     if bool_decide (ret = EINTR) then write_loop (S fuel) fd m
     else if bool_decide (ret <= 0) then mret tt
     else write_loop (S fuel) fd (str_drop (Z.to_nat ret) m)).
  rewrite run_bind. cbn [run call_ shim_world].
  rewrite bool_decide_false by (unfold EINTR; lia). rewrite bool_decide_false by lia.
  by rewrite Nat2Z.id, str_drop_all by lia.
Qed.

Lemma send_whole size fd cmd json w :
  0 <= fd -> (2 <= shim_fuel)%nat ->
  run (shim_world size) (send_proxy_hyper_message fd cmd json) w
    = (Done tt, World (w_pipe w) (w_sent w ++ [(fd, get_proxy_ctl_msg (hyper_payload cmd json))])).
Proof.
  intros Hfd Hf. unfold send_proxy_hyper_message. rewrite bool_decide_false by lia. destruct shim_fuel as [|[|fuel]]; [lia..|].
  apply write_whole. unfold get_proxy_ctl_msg, hyper_payload. rewrite !str_length_app. cbn. lia.
Qed.

Lemma concat_cons a l : String.concat EmptyString (a :: l) = a +:+ String.concat EmptyString l.
Proof. destruct l; cbn [String.concat]; [by rewrite str_app_nil_r|done]. Qed.

Lemma concat_app l1 l2 : String.concat EmptyString (l1 ++ l2) = String.concat EmptyString l1 +:+ String.concat EmptyString l2.
Proof. induction l1 as [|a l1 IH]; [done|]. cbn [app]. by rewrite !concat_cons, IH, str_app_assoc. Qed.

Lemma le_ints_length signals : String.length (String.concat EmptyString (le_int <$> signals)) = (4 * length signals)%nat.
Proof. induction signals as [|z signals IH]; [done|]. rewrite fmap_cons, concat_cons, str_length_app, le_int_length, IH. cbn. lia. Qed.

(** The loop empties a pipe that holds whole numbers. *)
Lemma signals_loop_delivers size s id signals fuel old sent :
  0 <= proxy_sock_fd s -> (2 <= shim_fuel)%nat -> Forall (fun z => INT_MIN <= z <= INT_MAX) signals -> (length signals < fuel)%nat ->
  run (shim_world size) (signals_loop fuel s id old) (World (String.concat EmptyString (le_int <$> signals)) sent)
    = (Done tt, World EmptyString (sent ++ omap (message_of s id size) signals)).
Proof.
  intros Hfd Hsf Hs. revert fuel old sent. induction Hs as [|z signals Hz _ IH]; intros [|fuel] old sent Hf; cbn in Hf; try lia.
  - cbn. by rewrite app_nil_r.
  - cbn [signals_loop]. rewrite run_bind.
    rewrite fmap_cons, concat_cons.
    change (run (shim_world size) (call_ (Cread (signal_fd s) 4)) (World (le_int z +:+ ?p) sent)) with
      (@Done cstr (Some (str_take 4 (le_int z +:+ p))), World (str_drop 4 (le_int z +:+ p)) sent).
    rewrite <- (le_int_length z), str_take_app, str_drop_app. cbv iota beta zeta. rewrite pipe_int_le by done.
    cbn [omap list_omap].
    destruct (message_of s id size z) as [m|] eqn:Em; unfold message_of in Em; case_bool_decide as Hw.
    + rewrite run_bind. cbn [run call_ shim_world]. destruct size as [[row col]|]; [|done]. injection Em as <-.
      rewrite run_bind, send_whole by done. cbv iota beta. cbn [w_pipe w_sent]. rewrite IH by lia. by rewrite <- (assoc_L (++)).
    + injection Em as <-. rewrite run_bind, send_whole by done. cbv iota beta. cbn [w_pipe w_sent]. rewrite IH by lia. by rewrite <- (assoc_L (++)).
    + rewrite run_bind. cbn [run call_ shim_world]. destruct size as [[row col]|]; [done|]. apply IH. lia.
    + done.
Qed.

(** What arrives fills the pipe up to its capacity, and nothing is cut. *)
Lemma signals_arrive_pipe capacity signals :
  signals_arrive capacity signals = String.concat EmptyString (le_int <$> take (capacity / 4) signals).
Proof.
  unfold signals_arrive. induction signals as [|z signals IH] using rev_ind; [by rewrite take_nil|].
  rewrite foldl_app, IH. cbn [foldl]. unfold signal_handler, pipe_write. rewrite le_int_length, le_ints_length, length_take.
  pose proof (Nat.Div0.div_mod capacity 4) as Hdm. pose proof (Nat.mod_upper_bound capacity 4 ltac:(lia)) as Hmod.
  set (q := (capacity / 4)%nat) in *. set (r := (capacity mod 4)%nat) in *. clearbody q r.
  destruct (Nat.leb_spec (4 * Nat.min q (length signals) + 4) capacity) as [Hl|Hl]; cbn [snd].
  - assert (length signals < q)%nat by lia. rewrite !take_ge by (rewrite ?length_app; cbn; lia).
    rewrite fmap_app. by rewrite concat_app.
  - assert (q <= length signals)%nat by lia. by rewrite take_app_le.
Qed.

(** C36.  Signals reach the proxy.  The signals that arrive while the shim is busy
    are all sent to the proxy in the next round of signal handling, in the
    order in which they arrived, as long as the pipe has room for them: a
    [killcontainer] message for each, and the size of the window for a change of
    it when the terminal tells it.  The ones beyond the capacity of the pipe are
    dropped, and nothing else is sent.  The round ends with an empty pipe. *)
Theorem signals_delivered size (s : cc_shim) id capacity signals sent :
  container_id s = Some id -> 0 <= proxy_sock_fd s -> (capacity / 4 + 2 <= shim_fuel)%nat ->
  Forall (fun z => INT_MIN <= z <= INT_MAX) signals ->
  run (shim_world size) (handle_signals s) (World (signals_arrive capacity signals) sent)
    = (Done tt, World EmptyString (sent ++ omap (message_of s id size) (take (capacity / 4) signals))).
Proof.
  intros Hid Hfd Hf Hs. unfold handle_signals. rewrite Hid, bool_decide_false, signals_arrive_pipe by lia.
  apply signals_loop_delivers; [done|lia|by apply Forall_take|]. rewrite length_take. lia.
Qed.
End delivery.

(** A pipe with room for two signals, and three of them. *)
Definition busy_shim : cc_shim := Shim (Some "c1") 3 4 1 2 false 5 0 false.

Lemma signals_delivered_witness :
  run (shim_world (Some (24, 80))) (handle_signals (SF := 5%nat) busy_shim) (World (signals_arrive 8 [2; SIGWINCH; 15]) [])
    = (Done tt, World EmptyString ([] ++ [(3, get_proxy_ctl_msg (hyper_payload "killcontainer" (kill_json "c1" 2)));
                                  (3, get_proxy_ctl_msg (hyper_payload "winsize" (winsize_json 1 24 80)))])).
Proof.
  apply (signals_delivered (SF := 5%nat) (Some (24, 80)) busy_shim "c1" 8 [2; SIGWINCH; 15] []).
  - reflexivity.
  - vm_compute. congruence.
  - vm_compute. lia.
  - repeat constructor; vm_compute; congruence.
Defined.

(** After an error that is not [EAGAIN] the interrupted code sees the [errno] of
    the handler. *)
Example errno_not_restored : handler_errno (WriteError 32) 0 = 32.
Proof. reflexivity. Qed.

(** An error appears twice on the standard error: the code prints it, and syslog
    does so again. *)
Lemma errors_printed_twice debug prefix priority func line_number buf :
  LOG_EMERG <= priority <= LOG_ERR ->
  log_stderr (shim_log_init debug) prefix (shim_log debug priority (Some func) line_number (Some buf)) =
    let text := func +:+ ":" +:+ fmt_d line_number +:+ ":" +:+ buf +:+ String "010" EmptyString in [text; prefix +:+ text].
Proof.
  unfold shim_log, LOG_EMERG, LOG_ERR, LOG_DEBUG. intros Hp.
  rewrite (proj2 (Z.ltb_ge _ _)), (proj2 (Z.ltb_ge _ _)), (proj2 (Z.eqb_neq _ _)), (proj2 (Z.leb_le _ _)) by lia.
  unfold log_stderr. cbn [orb andb fst snd app fmap list_fmap]. change (Z.testbit (log_options (shim_log_init debug)) 5) with true.
  cbv iota. by rewrite !str_app_assoc.
Qed.
