(* ===== verification/Relay.v ===== *)
(** * The streams of a workload, from the VM to the terminal and back

    The two loops of src/proxy/vm.go between the I/O channel of a VM and the
    connections of its clients, [ioHyperToClients] and [ioClientToHyper], whole;
    and what they make of the components at their ends: the agent (the mock of
    src/vendor/github.com/containers/virtcontainers/hyperstart/mock) and the shim
    (src/shim/shim.c). *)

From Equations Require Import Equations.
From S2P Require Import MockAgent Prelude GLib Sys Types Util Wire Hyperstart GoProxy Streams Shim.

(** ** The loops *)

Lemma ReadIoMessage_size conn m conn' :
  ReadIoMessageWithConn conn = Some (m, conn') -> (conn_size conn' < conn_size conn)%nat.
Proof.
  unfold ReadIoMessageWithConn. intros H. apply bind_Some in H as ([res c] & H & [= <- <-]).
  apply read_loop_size in H as [_ H]. apply H. unfold ttyHdrSize. cbn. lia.
Qed.

(** The loop of [ioHyperToClients] from its [k]-th turn on, when [conn] is what the
    I/O channel still gives: what is written, with the connection of the client,
    and whether the VM is taken for lost at the end.  Other goroutines change the
    sessions between two turns: [vm_at k] is the VM at the [k]-th.  [writes k]
    is whether its write works. *)
Equations hyper_to_clients (vm_at : nat -> vm) (writes : nat -> bool) (k : nat) (conn : go_conn)
    : list (Z * string) * bool by wf (conn_size conn) lt :=
  hyper_to_clients vm_at writes k conn with inspect (ReadIoMessageWithConn conn) => {
    | exist _ None _ => ([], true)
    | exist _ (Some (msg, conn')) Hrd =>
        match findSession (vm_at k) (tty_session msg) with
        | None => hyper_to_clients vm_at writes (S k) conn'
        | Some session =>
            match SendIoMessageWithConn msg with
            | None => ([], false)
            | Some bytes =>
                if writes k then
                  let '(sent, lost) := hyper_to_clients vm_at writes (S k) conn' in
                  ((session_client session, bytes) :: sent, lost)
                else ([], false)
            end
        end
  }.
Next Obligation. intros. eapply ReadIoMessage_size. eassumption. Qed.
Next Obligation. intros. eapply ReadIoMessage_size. eassumption. Qed.

(** The loop of [ioClientToHyper]: what is written to the I/O channel, and whether
    the client is disconnected for a wrong number. *)
Equations client_to_hyper (session : ioSession) (writes : nat -> bool) (k : nat) (conn : go_conn)
    : list string * bool by wf (conn_size conn) lt :=
  client_to_hyper session writes k conn with inspect (ReadIoMessageWithConn conn) => {
    | exist _ None _ => ([], false)
    | exist _ (Some (msg, conn')) Hrd =>
        match ioClientToHyper session msg with
        | None => ([], true)
        | Some msg =>
            match SendIoMessageWithConn msg with
            | None => ([], false)
            | Some bytes =>
                if writes k then
                  let '(sent, closed) := client_to_hyper session writes (S k) conn' in (bytes :: sent, closed)
                else ([], false)
            end
        end
  }.
Next Obligation. intros. eapply ReadIoMessage_size. eassumption. Qed.

(** The turns of [handle_stdin] that read these inputs: what they write, and the
    shim after them. *)
Inductive typed (s : cc_shim) : list string -> string -> cc_shim -> Prop :=
| typed_nil : typed s [] EmptyString s
| typed_cons d ds tr s1 bytes rest s' :
    exec (handle_stdin s) tr (Done s1) -> tr_map read_data tr = [d] -> tr_map wrote tr = [(proxy_io_fd s, bytes)] ->
    typed s1 ds rest s' -> typed s (d :: ds) (bytes +:+ rest) s'.

(** The agent's reads of packets into the buffer [buf]: number and data. *)
Definition read_packets (buf : string) (n : nat) : MockAgent.mock (list (Z * string)) :=
  mapM (fun _ => '(packet, len, seq) ← ReadIo buf; mret (seq, str_drop ioHeaderSize (str_take len packet))) (replicate n tt).

(** ** One turn *)

(** A turn of the loop is the step of the goroutine in the system of clients. *)
Lemma hyper_to_clients_step vm_at writes k conn msg conn' :
  ReadIoMessageWithConn conn = Some (msg, conn') -> vm_io_running (vm_at k) = true ->
  hyper_to_clients vm_at writes k conn =
    let '(dest, v') := ioHyperToClients (writes k && bool_decide (is_Some (SendIoMessageWithConn msg))) msg (vm_at k) in
    if vm_io_running v' then
      let '(sent, lost) := hyper_to_clients vm_at writes (S k) conn' in
      (match dest with Some (c, m) => [(c, default EmptyString (SendIoMessageWithConn m))] | None => [] end ++ sent, lost)
    else ([], false).
Proof.
  intros Hrd Hv. rewrite (hyper_to_clients_equation_1 vm_at writes k conn). destruct (inspect (ReadIoMessageWithConn conn)) as [[[m c]|] E]; [|congruence].
  cbn [hyper_to_clients_unfold_clause_1]. rewrite Hrd in E. injection E as <- <-. unfold ioHyperToClients.
  destruct (findSession (vm_at k) (tty_session msg)) as [session|].
  2:{ rewrite Hv. by destruct (hyper_to_clients vm_at writes (S k) conn'). }
  destruct (SendIoMessageWithConn msg) as [bytes|] eqn:Hb; destruct (writes k); cbn [andb]; [|done..].
  rewrite bool_decide_true, Hv, Hb by done. by destruct (hyper_to_clients vm_at writes (S k) conn').
Qed.

Lemma client_to_hyper_step session writes k conn msg conn' bytes :
  ReadIoMessageWithConn conn = Some (msg, conn') -> tty_session msg = ioBase session ->
  SendIoMessageWithConn msg = Some bytes -> writes k = true ->
  client_to_hyper session writes k conn =
    let '(sent, closed) := client_to_hyper session writes (S k) conn' in (bytes :: sent, closed).
Proof.
  intros Hrd Hs Hb Hw. rewrite (client_to_hyper_equation_1 session writes k conn). destruct (inspect (ReadIoMessageWithConn conn)) as [[[m c]|] E]; [|congruence].
  cbn [client_to_hyper_unfold_clause_1]. rewrite Hrd in E. injection E as <- <-. unfold ioClientToHyper.
  by rewrite bool_decide_false, Hb, Hw by tauto.
Qed.

Lemma read_io_end conn : conn_bytes conn = EmptyString -> ReadIoMessageWithConn conn = None.
Proof.
  unfold ReadIoMessageWithConn. intros Hc. enough (read_loop ttyHdrSize ttyHdrLenOffset ttyHdrSize 0 EmptyString conn = None) as -> by done.
  induction conn as [|c conn IH]; [reflexivity|]. rewrite conn_bytes_cons in Hc. destruct c as [|x c]; [|done].
  rewrite read_loop_equation_1. cbn. by apply IH.
Qed.

Lemma hyper_to_clients_end vm_at writes k conn :
  conn_bytes conn = EmptyString -> hyper_to_clients vm_at writes k conn = ([], true).
Proof.
  intros Hc. rewrite hyper_to_clients_equation_1. pose proof (read_io_end conn Hc) as Hn.
  destruct (inspect (ReadIoMessageWithConn conn)) as [[[m c]|] E]; [congruence|done].
Qed.

Lemma client_to_hyper_end session writes k conn :
  conn_bytes conn = EmptyString -> client_to_hyper session writes k conn = ([], false).
Proof.
  intros Hc. rewrite client_to_hyper_equation_1. pose proof (read_io_end conn Hc) as Hn.
  destruct (inspect (ReadIoMessageWithConn conn)) as [[[m c]|] E]; [congruence|done].
Qed.

Lemma hyper_to_clients_turn vm_at writes k conn msg conn' bytes :
  ReadIoMessageWithConn conn = Some (msg, conn') -> SendIoMessageWithConn msg = Some bytes -> writes k = true ->
  hyper_to_clients vm_at writes k conn =
    let '(sent, lost) := hyper_to_clients vm_at writes (S k) conn' in
    (match findSession (vm_at k) (tty_session msg) with Some s => [(session_client s, bytes)] | None => [] end ++ sent, lost).
Proof.
  intros Hrd Hb Hw. rewrite (hyper_to_clients_equation_1 vm_at writes k conn).
  destruct (inspect (ReadIoMessageWithConn conn)) as [[[m c]|] E]; [|congruence].
  cbn [hyper_to_clients_unfold_clause_1]. rewrite Hrd in E. injection E as <- <-.
  rewrite Hb, Hw. destruct (findSession _ _); by destruct (hyper_to_clients vm_at writes (S k) conn').
Qed.

(** ** Streams *)

Definition sendable (m : TtyMessage) : Prop :=
  0 <= tty_session m < 2 ^ 64 /\ (String.length (tty_message m) + ttyHdrSize <= max_message)%nat.

Lemma sendable_sent m : sendable m -> is_Some (SendIoMessageWithConn m).
Proof.
  intros [_ Hl]. unfold SendIoMessageWithConn. destruct (Nat.ltb_spec max_message (String.length (tty_message m) + ttyHdrSize)); [lia|done].
Qed.

Lemma io_stream_app l l' : io_stream (l ++ l') = (a ← io_stream l; b ← io_stream l'; Some (a +:+ b)).
Proof.
  induction l as [|m l IH]; cbn [io_stream app]; [by destruct (io_stream l')|]. rewrite IH.
  destruct (SendIoMessageWithConn m); [|done]. destruct (io_stream l); [|done]. destruct (io_stream l'); [|done]. cbn.
  by rewrite str_app_assoc.
Qed.

Lemma io_stream_sendable l : Forall sendable l -> is_Some (io_stream l).
Proof.
  induction 1 as [|m l Hm _ [b Hb]]; [done|]. destruct (sendable_sent m Hm) as [a Ha]. cbn [io_stream]. by rewrite Ha, Hb.
Qed.

(** What a connection gets is the stream of the messages with its numbers. *)
Lemma hyper_to_clients_stream vm_at writes k l bytes conn c base n :
  (forall i, owned (vm_at i) c base n) -> (forall i, writes i = true) -> Forall sendable l ->
  io_stream l = Some bytes -> conn_bytes conn = bytes ->
  exists sent, hyper_to_clients vm_at writes k conn = (sent, true) /\
    io_stream (filter (fun m => base <= tty_session m < base + n) l) = Some (fd_output c sent).
Proof.
  intros Ho Hw. revert k bytes conn. induction l as [|m l IH]; intros k bytes conn Hl Hb Hc.
  { injection Hb as <-. exists []. split; [by apply hyper_to_clients_end|done]. }
  apply Forall_cons in Hl as [Hm Hl]. cbn [io_stream] in Hb.
  apply bind_Some in Hb as (a & Ha & Hb). apply bind_Some in Hb as (b & Hb & [= <-]).
  destruct (io_message_roundtrip m a b conn) as (conn' & Hrd & Hc'); [by destruct Hm|done|done|].
  destruct (IH (S k) b conn' Hl Hb Hc') as (sent & Hs & Hf). rewrite (hyper_to_clients_turn _ _ _ _ _ _ _ Hrd Ha (Hw k)), Hs.
  eexists. split; [done|]. rewrite fd_output_app, filter_cons. specialize (Ho k (tty_session m)). case_decide as Hin.
  - apply Ho in Hin as (s & -> & <-). cbn [io_stream fd_output]. rewrite Ha, Hf, bool_decide_true, str_app_nil_r by done. done.
  - rewrite Hf. destruct (findSession (vm_at k) (tty_session m)) as [s|] eqn:Hs'; [|done]. cbn [fd_output].
    rewrite bool_decide_false; [done|]. intros Hc0. apply Hin, Ho. eauto.
Qed.

(** ** The agent's end *)

Lemma writeIo_up data i h :
  wgConnected h = 0%nat -> mc_up i = true ->
  writeIo data (set_io (Some i) h) = Gives tt (set_io (Some (conn_write data i)) h).
Proof. intros Hw Hu. unfold writeIo. mock_step. rewrite Hw. cbn. by rewrite Hu. Qed.

Lemma SendIo_up m bytes i h :
  wgConnected h = 0%nat -> mc_up i = true -> 0 <= tty_session m < 2 ^ 64 -> SendIoMessageWithConn m = Some bytes ->
  SendIo (tty_session m) (tty_message m) (set_io (Some i) h) = Gives tt (set_io (Some (conn_write bytes i)) h).
Proof.
  intros Hw Hu Hs Hb. unfold SendIoMessageWithConn, ttyHdrSize, max_message in Hb.
  destruct (Nat.ltb_spec (N.to_nat 10240) (String.length (tty_message m) + 12)%nat) as [|Hl]; [done|]. apply (inj Some) in Hb as <-.
  unfold SendIo, ioHeaderSize, mbind, mock_bind. rewrite writeIo_up by done.
  rewrite (wrapu_small _ (tty_session m)), wrapu_small, (Nat.add_comm 12) by lia.
  destruct (tty_message m) as [|x d]; [by rewrite str_app_nil_r|].
  rewrite writeIo_up by done. by rewrite conn_write_twice, str_app_assoc.
Qed.

Lemma send_output_up l bytes i h :
  wgConnected h = 0%nat -> mc_up i = true -> Forall sendable l -> io_stream l = Some bytes ->
  exists r, send_output l (set_io (Some i) h) = Gives r (set_io (Some (conn_write bytes i)) h).
Proof.
  intros Hw. revert bytes i. induction l as [|m l IH]; intros bytes i Hu Hl Hb.
  { injection Hb as <-. unfold conn_write. rewrite str_app_nil_r. exists []. by destruct i. }
  apply Forall_cons in Hl as [[Hm _] Hl]. cbn [io_stream] in Hb.
  apply bind_Some in Hb as (a & Ha & Hb). apply bind_Some in Hb as (b & Hb & [= <-]).
  destruct (IH b (conn_write a i) Hu Hl Hb) as [r Hr]. rewrite conn_write_twice in Hr. exists (tt :: r).
  unfold send_output in *. cbn [mapM]. unfold mbind at 1, mock_bind at 1. rewrite (SendIo_up m a) by done.
  unfold mbind at 1, mock_bind at 1. by rewrite Hr.
Qed.

(** The agent's I/O channel is connected, and everything it sent was read. *)
Definition io_idle (h : MockAgent.Hyperstart) : Prop :=
  wgConnected h = 0%nat /\ exists pending, MockAgent.io h = Some (MockConn pending EmptyString true).

Definition io_output (h : MockAgent.Hyperstart) : string := match MockAgent.io h with Some i => mc_out i | None => EmptyString end.

(** ** From the workload to the terminal *)

Section relay.
Context `{SF : ShimFuel}.

(** The messages for a shim whose connection has these numbers. *)
Lemma shim_messages s n l l' status :
  1 <= n <= 2 ->
  filter (fun m => io_seq_no s <= tty_session m < io_seq_no s + n) l' =
    l ++ [Tty (io_seq_no s) EmptyString; Tty (io_seq_no s) (String status EmptyString)] ->
  Forall (fun m => tty_message m <> EmptyString) l ->
  Forall (fun m => our_stream s (tty_session m) /\ tty_message m <> EmptyString) l.
Proof.
  intros Hn Hf Hne. rewrite Forall_forall in Hne |- *. intros m Hm. split; [|by apply Hne].
  assert (m ∈ filter (fun m => io_seq_no s <= tty_session m < io_seq_no s + n) l') as [Hin _]%list_elem_of_filter
    by (rewrite Hf; apply elem_of_app; by left).
  unfold our_stream. lia.
Qed.

(** C4.  What a workload writes is what is seen.  Let the agent of a VM send
    messages, those of one workload among those of others: its output on the
    numbers allocated to its shim, then the end of its standard output and its
    exit status.  The messages of all workloads have at most 10228 bytes of
    data each, the largest that fits a message of 10240 bytes
    (a longer one ends the relay, [long_message_ends_output]), and the proxy's
    writes to its clients all work (one that fails ends the relay, see
    [failed_write_ends_output]).  The proxy relays what it reads from the VM, in whatever pieces;
    at each message it is in any state that an execution leads to in which the
    numbers were allocated to the shim's connection, which got no others, and
    nothing was closed for the VM since; all allocations were for one or two
    streams, and there were at most 2^61 steps.  The proxy takes the VM for lost
    only at the end.  Then the shim that reads its connection, in whatever pieces, writes
    exactly the workload's data, each stream in order to its own output, however
    little each write accepts, and exits with the workload's status.  Nothing of
    another workload reaches it. *)
Theorem workload_seen (s : cc_shim) (rev : list bool) (l l' : list TtyMessage) (status : ascii) (console : bool) (v : nat) (n c : Z)
    (vm_at : nat -> vm) (writes : nat -> bool) (agent : MockAgent.Hyperstart) (fuel : nat) :
  shim_ok s -> exiting s = false ->
  (forall k, attached console v c (io_seq_no s) n (vm_at k)) -> (forall k, writes k = true) -> Forall sendable l' ->
  filter (fun m => io_seq_no s <= tty_session m < io_seq_no s + n) l' =
    l ++ [Tty (io_seq_no s) EmptyString; Tty (io_seq_no s) (String status EmptyString)] ->
  Forall (fun m => tty_message m <> EmptyString) l -> io_idle agent ->
  exists r agent', send_output l' agent = Gives r agent' /\ asserts agent' = asserts agent /\
    forall conn, conn_bytes conn = io_output agent' ->
    exists sent, hyper_to_clients vm_at writes 0 conn = (sent, true) /\
      forall w, pieces_ok (w_conn w) -> conn_bytes (w_conn w) = fd_output c sent ->
      exists w', run io_handler (shim_loop (length l + S (S fuel)) s rev) w = (Fault (Exited (byte_val status)), w') /\
        forall fd, fd_output fd (w_log w') = fd_output fd (w_log w) +:+ session_output s fd l.
Proof.
  intros Hok Hex Hat Hw Hl' Hf Hne (Hg & pending & Hi). pose proof (attached_streams _ _ _ _ _ _ (Hat O)) as Hn.
  assert (forall k, owned (vm_at k) c (io_seq_no s) n) as Ho by (intros k; by eapply attached_owned). destruct (io_stream_sendable l' Hl') as [bytes Hb].
  destruct (send_output_up l' bytes (MockConn pending EmptyString true) agent) as [r Hr]; [done..|].
  exists r, (set_io (Some (conn_write bytes (MockConn pending EmptyString true))) agent). split_and!; [|done|].
  { rewrite <- Hr. f_equal. destruct agent. cbn in Hi |- *. by rewrite Hi. }
  intros conn Hc. cbn in Hc. destruct (hyper_to_clients_stream vm_at writes 0 l' bytes conn c (io_seq_no s) n) as (sent & Hs & Hout);
    [done..|]. exists sent. split; [done|]. intros w Hp Hcw. rewrite Hf, io_stream_app in Hout.
  apply bind_Some in Hout as (b1 & Hb1 & Hout). apply bind_Some in Hout as (b & Hb23 & [= Hout]). cbn [io_stream] in Hb23.
  apply bind_Some in Hb23 as (b2 & Hb2 & Hb3). apply bind_Some in Hb3 as (b3' & Hb3 & [= <-]).
  apply bind_Some in Hb3 as (b3 & Hb3 & [= <-]). rewrite str_app_nil_r in Hout.
  eapply shim_session; [done|done|by eapply shim_messages|exact Hb1|exact Hb2|exact Hb3|done|congruence].
Qed.
End relay.

(** ** From the terminal to the workload *)

Definition shim_input_ok (s : cc_shim) : Prop := shim_ok s /\ 0 <= proxy_io_fd s.

Lemma typed_stream s ds bytes s' :
  shim_input_ok s -> Forall (fun d => String.length d <= BUFSIZ)%nat ds -> typed s ds bytes s' ->
  io_stream (Tty (io_seq_no s) <$> ds) = Some bytes.
Proof.
  intros Hs Hd Ht. induction Ht as [s|s d ds tr s1 bytes rest s' He Hr Hw Ht IH]; [done|].
  apply Forall_cons in Hd as [Hd Hds]. destruct Hs as [Hok Hfd].
  destruct (handle_stdin_writes _ _ _ _ Hok Hfd Hd He Hr) as (-> & bytes' & Hw' & Hb). rewrite Hw in Hw'. injection Hw' as <-.
  assert (io_seq_no (match d with EmptyString => set_stdin_poll (-1) s | _ => s end) = io_seq_no s) as Hseq by by destruct d.
  rewrite Hseq in IH. cbn [fmap list_fmap io_stream]. rewrite Hb, IH; [done| |done]. by destruct d.
Qed.

(** Messages with the number of the session go on one by one. *)
Lemma client_to_hyper_stream session writes k l bytes conn :
  (forall i, writes i = true) -> 0 <= ioBase session < 2 ^ 64 -> Forall (fun m => tty_session m = ioBase session) l ->
  io_stream l = Some bytes -> conn_bytes conn = bytes ->
  exists outs, client_to_hyper session writes k conn = (outs, false) /\
    Forall2 (fun m out => SendIoMessageWithConn m = Some out) l outs.
Proof.
  intros Hw Hr. revert k bytes conn. induction l as [|m l IH]; intros k bytes conn Hl Hb Hc.
  { injection Hb as <-. exists []. split; [by apply client_to_hyper_end|constructor]. }
  apply Forall_cons in Hl as [Hm Hl]. cbn [io_stream] in Hb.
  apply bind_Some in Hb as (a & Ha & Hb). apply bind_Some in Hb as (b & Hb & [= <-]).
  destruct (io_message_roundtrip m a b conn) as (conn' & Hrd & Hc'); [by rewrite Hm|done|done|].
  destruct (IH (S k) b conn' Hl Hb Hc') as (outs & Ho & Hf).
  rewrite (client_to_hyper_step _ _ _ _ _ _ _ Hrd Hm Ha (Hw k)), Ho. exists (a :: outs). split; [done|]. by constructor.
Qed.

(** The agent reads a packet that arrives whole. *)
Lemma ReadIo_packet buf seq d packet rest out up h :
  wgConnected h = 0%nat -> 0 <= seq < 2 ^ 64 -> SendIoMessageWithConn (Tty seq d) = Some packet ->
  (String.length d + ioHeaderSize <= String.length buf)%nat ->
  ('(p, len, seq) ← ReadIo buf; mret (seq, str_drop ioHeaderSize (str_take len p))) (set_io (Some (MockConn (packet :: rest) out up)) h)
  = Gives (seq, d) (set_io (Some (MockConn rest out up)) h).
Proof.
  intros Hw Hs Hb Hl. unfold SendIoMessageWithConn, ttyHdrSize in Hb. cbn [tty_message tty_session] in Hb.
  destruct (max_message <? _)%nat; [done|]. apply (inj Some) in Hb as <-. unfold ioHeaderSize in *.
  set (z := Z.of_nat (String.length d + 12)). set (packet := be_bytes 8 seq +:+ be_bytes 4 z +:+ d).
  assert (String.length packet = (String.length d + 12)%nat) as Hp by (unfold packet; rewrite !str_length_app, !be_bytes_length; lia).
  unfold ReadIo. cbv beta iota delta [mbind mock_bind mret mock_ret get modify wait_for wait_connected not_nil].
  cbn [wgConnected set_io]. rewrite Hw. cbn [Nat.eqb MockAgent.io set_io mc_in mc_out mc_up go_read].
  rewrite (proj2 (Nat.leb_le _ _)) by lia.
  cbv beta iota. rewrite str_length_app, str_drop_length, (proj2 (Nat.ltb_ge _ _)) by lia. cbv beta iota.
  rewrite str_take_app. f_equal. unfold packet. rewrite message_body by by rewrite !be_bytes_length.
  rewrite str_app_assoc, be_field_head, Z.mod_small by lia. done.
Qed.

Lemma read_packets_all buf seq ds outs rest out up h :
  wgConnected h = 0%nat -> 0 <= seq < 2 ^ 64 -> Forall (fun d => String.length d + ioHeaderSize <= String.length buf)%nat ds ->
  Forall2 (fun m out => SendIoMessageWithConn m = Some out) (Tty seq <$> ds) outs ->
  read_packets buf (length ds) (set_io (Some (MockConn (outs ++ rest) out up)) h) =
    Gives ((fun d => (seq, d)) <$> ds) (set_io (Some (MockConn rest out up)) h).
Proof.
  intros Hw Hs. revert outs. induction ds as [|d ds IH]; intros outs Hd Ho.
  { apply Forall2_nil_inv_l in Ho as ->. done. }
  apply Forall_cons in Hd as [Hd Hds]. apply Forall2_cons_inv_l in Ho as (packet & outs' & Hp & Ho & ->).
  specialize (IH outs' Hds Ho). unfold read_packets in *. cbn [length replicate mapM app]. unfold mbind at 1, mock_bind at 1.
  rewrite (ReadIo_packet buf seq d) by done. unfold mbind at 1, mock_bind at 1. by rewrite IH.
Qed.

(** C5.  What is typed reaches the workload.  Let the shim read any inputs, one per
    turn of its loop, the end of the input included (an empty one).  Then the
    proxy, whatever pieces the shim's connection gives it, forwards each as one
    message on the VM's channel and does not disconnect the shim; and the agent
    reads them there in order, each with the shim's number and exactly the data
    that was read. *)
Theorem typing_reaches_agent (s s' : cc_shim) (ds : list string) (bytes buf : string) (session : ioSession)
    (writes : nat -> bool) (conn : go_conn) :
  shim_input_ok s -> Forall (fun d => String.length d <= BUFSIZ)%nat ds -> typed s ds bytes s' ->
  ioBase session = io_seq_no s -> (forall k, writes k = true) -> (BUFSIZ + ioHeaderSize <= String.length buf)%nat ->
  conn_bytes conn = bytes ->
  exists outs, client_to_hyper session writes 0 conn = (outs, false) /\
    forall agent rest out up, wgConnected agent = 0%nat -> MockAgent.io agent = Some (MockConn (outs ++ rest) out up) ->
      read_packets buf (length ds) agent =
        Gives ((fun d => (io_seq_no s, d)) <$> ds) (set_io (Some (MockConn rest out up)) agent).
Proof.
  intros Hs Hd Ht Hbase Hw Hbuf Hc. assert (0 <= io_seq_no s < 2 ^ 64) as Hseq by (destruct Hs as [[? ?] _]; lia).
  destruct (client_to_hyper_stream session writes 0 (Tty (io_seq_no s) <$> ds) bytes conn) as (outs & Ho & Hf);
    [done|by rewrite Hbase|by apply Forall_fmap, Forall_true|by eapply typed_stream|done|].
  exists outs. split; [done|]. intros agent rest out up Hg Hi.
  rewrite <- (read_packets_all buf (io_seq_no s) ds outs rest out up agent Hg Hseq); [|eapply Forall_impl; [exact Hd|]; cbn; lia|done].
  f_equal. destruct agent. cbn in Hi |- *. by rewrite Hi.
Qed.

(** A message of the agent that is too long for the library's writer, which its
    reader accepts, ends the output of every client of the VM, which is not taken
    for lost. *)
Lemma long_message_ends_output vm_at writes k conn msg conn' :
  ReadIoMessageWithConn conn = Some (msg, conn') -> is_Some (findSession (vm_at k) (tty_session msg)) ->
  (max_message < String.length (tty_message msg) + ttyHdrSize)%nat ->
  hyper_to_clients vm_at writes k conn = ([], false).
Proof.
  intros Hrd [session Hs] Hl. rewrite (hyper_to_clients_equation_1 vm_at writes k conn).
  destruct (inspect (ReadIoMessageWithConn conn)) as [[[m c]|] E]; [|congruence].
  cbn [hyper_to_clients_unfold_clause_1]. rewrite Hrd in E. injection E as <- <-. rewrite Hs. unfold SendIoMessageWithConn.
  destruct (Nat.ltb_spec max_message (String.length (tty_message msg) + ttyHdrSize)); [done|lia].
Qed.

(** ** Witnesses *)

Lemma byte_conn_bytes s : conn_bytes (byte_conn s) = s.
Proof. unfold byte_conn. induction s as [|c s IH]; [done|]. cbn [String.list_ascii_of_string fmap list_fmap]. by rewrite conn_bytes_cons, IH. Qed.

Lemma byte_conn_pieces s : pieces_ok (byte_conn s).
Proof. apply Forall_fmap, Forall_true. by intros c. Qed.

(** A client with two streams; two more are allocated after the first message. *)
Definition first_streams : system :=
  System (fst (allocateIoHandler env_ok 1 (req_Data (allocate_request 2)) (px two_sessions))) (waiting two_sessions).
Definition env_second : environment := Env None (inr (9, 10)) None.
Definition second_streams : system :=
  System (fst (allocateIoHandler env_second 1 (req_Data (allocate_request 2)) (px first_streams))) (waiting first_streams).
Definition relay_vm (k : nat) : vm :=
  let m := (AllocateIo 2 1 8 (set_running true (newVM "c1" "/ctl" "/tty"))).2 in
  match k with O => m | _ => (AllocateIo 2 1 10 m).2 end.
Definition relay_messages : list TtyMessage :=
  [Tty 1 "out"; Tty 3 "other"; Tty 2 "err"; Tty 1 "put"; Tty 3 EmptyString; Tty 1 EmptyString; Tty 3 "+"; Tty 1 "*"].
Definition relay_agent : MockAgent.Hyperstart :=
  match send_output relay_messages mock_example with Gives _ h => h | _ => mock_example end.

Lemma relay_vm_attached k : attached false 0 8 1 2 (relay_vm k).
Proof.
  assert (exists ls, reachable false ls two_sessions /\ Forall streams_ok ls /\ length ls = 3%nat /\ Forall not_alloc ls)
    as (ls & Hr & Hok & Hlen & Hna).
  { eexists. split; [unfold two_sessions; repeat reach|]. split; [repeat constructor|]. split; [reflexivity|repeat constructor]. }
  assert (forall c v n base conn, LAllocated c v n base conn ∉ ls) as Hnone.
  { intros c v n base conn Hin. rewrite Forall_forall in Hna. exact (Hna _ Hin). }
  assert (reachable false (LAllocated 1 0 2 1 8 :: ls) first_streams) as H1
    by (eapply ReachStep; [exact Hr|]; eapply StepAllocate with (m := Vm "c1" "/ctl" "/tty" EmptyString 1 ∅ true); reflexivity).
  destruct k as [|k].
  - exists [], ls, 1, first_streams. cbn [app length]. rewrite Hlen.
    split_and!; [done|lia|by constructor; [cbn; lia|]|done|done|reflexivity].
  - exists [LAllocated 1 0 2 3 10], ls, 1, second_streams. cbn [app length]. rewrite Hlen. split_and!.
    + eapply ReachStep; [exact H1|]. eapply StepAllocate with (e := env_second) (m := relay_vm 0); reflexivity.
    + lia.
    + constructor; [cbn; lia|]. by constructor; [cbn; lia|].
    + intros c' v' n' base' [E|Hin]%elem_of_cons; [discriminate|by eapply Hnone].
    + apply Forall_cons. split; [by intros []|constructor].
    + reflexivity.
Qed.

Lemma workload_seen_witness :
  exists sent w',
    hyper_to_clients relay_vm (fun _ => true) 0 (byte_conn (io_output relay_agent)) = (sent, true) /\
    run io_handler (shim_loop (SF := 3%nat) 5 test_shim []) (IoWorld (byte_conn (fd_output 8 sent)) [0%nat] []) = (Fault (Exited 42), w') /\
    fd_output STDOUT_FILENO (w_log w') = "output" /\ fd_output STDERR_FILENO (w_log w') = "err".
Proof.
  destruct (workload_seen (SF := 3%nat) test_shim [] test_messages relay_messages "*"%char false 0 2 8 relay_vm (fun _ => true) mock_example 0)
    as (r & agent' & Hs & _ & Hr).
  - split; vm_compute; congruence.
  - reflexivity.
  - apply relay_vm_attached.
  - reflexivity.
  - repeat (apply Forall_cons; split; [unfold sendable, ttyHdrSize, max_message; cbn [tty_session tty_message String.length]; lia|]). constructor.
  - vm_compute. reflexivity.
  - repeat constructor; discriminate.
  - split; [reflexivity|]. exists []. reflexivity.
  - destruct (Hr (byte_conn (io_output relay_agent))) as (sent & Hsent & Hw).
    { rewrite byte_conn_bytes. unfold relay_agent. by rewrite Hs. }
    destruct (Hw (IoWorld (byte_conn (fd_output 8 sent)) [0%nat] [])) as (w' & Hrun & Ho).
    + apply byte_conn_pieces.
    + apply byte_conn_bytes.
    + exists sent, w'. split; [exact Hsent|]. split; [exact Hrun|]. split; rewrite Ho; vm_compute; reflexivity.
Defined.

(** A line, then the end of the input. *)
Definition typed_line : list event := fst (run_tr io_handler (handle_stdin test_shim) (IoWorld ["ls"] [] [])).
Definition typed_end : list event := fst (run_tr io_handler (handle_stdin test_shim) (IoWorld [] [] [])).
Definition wrote_bytes (tr : list event) : string := String.concat EmptyString (snd <$> tr_map wrote tr).
Definition typed_session : ioSession := IoSession 2 1 1 20.

Lemma typing_reaches_agent_witness :
  exists outs,
    client_to_hyper typed_session (fun _ => true) 0 (byte_conn (wrote_bytes typed_line +:+ wrote_bytes typed_end)) = (outs, false) /\
    forall agent, wgConnected agent = 0%nat -> MockAgent.io agent = Some (MockConn (outs ++ []) EmptyString true) ->
      read_packets (be_bytes (N.to_nat 8204) 0) 2 agent =
        Gives [(1, "ls"); (1, EmptyString)] (set_io (Some (MockConn [] EmptyString true)) agent).
Proof.
  destruct (typing_reaches_agent test_shim (set_stdin_poll (-1) test_shim) ["ls"; EmptyString]
    (wrote_bytes typed_line +:+ wrote_bytes typed_end +:+ EmptyString) (be_bytes (N.to_nat 8204) 0) typed_session (fun _ => true)
    (byte_conn (wrote_bytes typed_line +:+ wrote_bytes typed_end))) as (outs & Ho & Ha).
  - split; [split|]; vm_compute; congruence.
  - repeat (apply Forall_cons; split; [unfold BUFSIZ; cbn [String.length]; lia|]). constructor.
  - apply typed_cons with (tr := typed_line) (s1 := test_shim); [|vm_compute; reflexivity..|].
    { apply (run_tr_exec io_handler (handle_stdin test_shim) (IoWorld ["ls"] [] [])). vm_compute. reflexivity. }
    apply typed_cons with (tr := typed_end) (s1 := set_stdin_poll (-1) test_shim); [|vm_compute; reflexivity..|constructor].
    apply (run_tr_exec io_handler (handle_stdin test_shim) (IoWorld [] [] [])). vm_compute. reflexivity.
  - reflexivity.
  - reflexivity.
  - rewrite be_bytes_length. unfold BUFSIZ, ioHeaderSize. lia.
  - rewrite byte_conn_bytes. by rewrite str_app_nil_r.
  - exists outs. split; [exact Ho|]. intros agent Hg Hi. exact (Ha agent [] EmptyString true Hg Hi).
Defined.
