(* ===== verification/Qmp.v ===== *)
(** * The hypervisor's control socket

    src/src/network.c: the QMP messages that pause and resume a VM.  A message
    is a JSON document followed by a carriage return and a newline.  The
    socket gives its bytes in pieces; a connection that ends while a message
    is awaited makes the code read through a NULL error. *)

From S2P Require Import Prelude GLib GLibRef Sys Types Util.

Definition CC_OCI_NET_BUF_SIZE : nat := N.to_nat 2048.
Definition CC_OCI_MSG_SEPARATOR : string := String "013" (String "010" EmptyString).

(** Bound on the pieces received for one answer. *)
Class QmpFuel := qmp_fuel : nat.

(** [{ "execute": "cmd" }] *)
Definition qmp_command (cmd : string) : string :=
  "{ " +:+ String "034" ("execute" +:+ String "034" (": " +:+ String "034" (cmd +:+ String "034" " }"))).

Section qmp.
Context `{GL : GLib} `{QF : QmpFuel}.

(** The inner loop of [cc_oci_qmp_msg_recv]: the complete messages of what
    was received and the rest.  Every round removes a separator at least. *)
Fixpoint take_messages (fuel : nat) (total : Z) (received : string) : list string * string :=
  match fuel with
  | O => ([], received)
  | S fuel =>
      if negb (str_nonempty received) then ([], received)
      else
        match g_strstr_len (c_str received) total CC_OCI_MSG_SEPARATOR with
        | None => ([], received)
        | Some msg_len =>
            let '(msgs, rest) :=
              take_messages fuel total (str_drop (msg_len + String.length CC_OCI_MSG_SEPARATOR) received) in
            (str_take msg_len received :: msgs, rest)
        end
  end.

(** The outer loop: the result and the list of messages. *)
Fixpoint recv_loop (fuel : nat) (fd : Z) (expected_count : nat) (total : Z) (received : string)
    (msgs : list string) : io (bool * list string) :=
  match fuel with
  | O => Halt Blocked
  | S fuel =>
      bytes ← call_ (Cg_socket_receive fd CC_OCI_NET_BUF_SIZE);
      match bytes with
      | None => mret (false, msgs)
      | Some EmptyString => Halt NullDeref
      | Some buffer =>
          let received := received +:+ buffer in
          let total := total + Z.of_nat (String.length buffer) in
          let '(new, received) := take_messages (S (String.length received)) total received in
          let msgs := msgs ++ new in
          if bool_decide (length msgs = expected_count) then
            if str_nonempty received then Halt AssertFailed else mret (true, msgs)
          else recv_loop fuel fd expected_count total received msgs
      end
  end.

Definition cc_oci_qmp_msg_recv (fd : Z) (expected_count : nat) : io (bool * list string) :=
  if bool_decide (expected_count = O) then Halt AssertFailed
  else recv_loop qmp_fuel fd expected_count 0 EmptyString [].

(** An unexpected member of the object returned is logged, and the result
    stays that of the test for an object. *)
Definition cc_oci_qmp_check_result (result : string) (expect_empty : bool) : bool :=
  match json_parser_load_from_data result with
  | None => false
  | Some root => match json_read_member root "return" with Some (JObject _) => true | _ => false end
  end.

Definition qmp_capabilities (fd : Z) : io bool :=
  size ← call_ (Cg_socket_send fd (qmp_command "qmp_capabilities"));
  if bool_decide (size < 0) then mret false
  else
    '(ret, msgs) ← cc_oci_qmp_msg_recv fd 1;
    if negb (ret : bool) then mret false
    else match msgs !! O with
         | None => mret false
         | Some m => mret (cc_oci_qmp_check_result m true)
         end.

(** The result, and the new value of the static [initialised].  When the
    command cannot be sent the result is that of the step before: true
    after the capabilities were exchanged. *)
Definition cc_oci_qmp_msg_send (initialised : bool) (fd : Z) (msg : string) (expected_resp_count : nat)
    (expect_empty : bool) : io (bool * bool) :=
  ok ← (if initialised then mret true else qmp_capabilities fd);
  if negb ok then mret (false, initialised)
  else
    size ← call_ (Cg_socket_send fd msg);
    if bool_decide (size < 0) then mret (negb initialised, true)
    else if bool_decide (expected_resp_count = O) then mret (true, true)
    else
      '(ret, msgs) ← cc_oci_qmp_msg_recv fd expected_resp_count;
      if negb (ret : bool) then mret (false, true)
      else
        match (match expected_resp_count with
               | 1%nat => msgs !! 0%nat
               | 2%nat => msgs !! 1%nat
               | 3%nat => msgs !! 0%nat
               | _ => None
               end) with
        | None => mret (false, true)
        | Some m => mret (cc_oci_qmp_check_result m expect_empty, true)
        end.

Definition cc_oci_qmp_pause (initialised : bool) (fd pid : Z) : io (bool * bool) :=
  if bool_decide (pid = 0) then Halt AssertFailed
  else cc_oci_qmp_msg_send initialised fd (qmp_command "stop") 2 false.

Definition cc_oci_qmp_resume (initialised : bool) (fd pid : Z) : io (bool * bool) :=
  if bool_decide (pid = 0) then Halt AssertFailed
  else cc_oci_qmp_msg_send initialised fd (qmp_command "cont") 2 false.

(** The greeting is read and looked at; the result is true whatever it is. *)
Definition cc_oci_qmp_check_welcome (fd : Z) : io bool :=
  '(ret, msgs) ← cc_oci_qmp_msg_recv fd 1;
  if negb (ret : bool) then mret true
  else match msgs !! O with None => Halt AssertFailed | Some _ => mret true end.

(** The descriptor of the connected socket; freeing the connection closes it. *)
Definition cc_oci_vm_conn_new (socket_path : string) (pid : Z) : io (option Z) :=
  if bool_decide (pid <= 0) then mret None
  else
    ok ← call_ (Cg_file_test socket_path FT_EXISTS);
    if negb ok then mret None
    else
      addr ← call_ (Cg_unix_socket_address_new socket_path);
      if bool_decide (addr < 0) then mret None
      else
        fd ← call_ Csocket_new;
        if bool_decide (fd < 0) then mret None
        else
          r ← call_ (Cconnect fd socket_path);
          if bool_decide (r <> 0) then _ ← call_ (Cg_socket_close fd); mret None
          else
            ret ← cc_oci_qmp_check_welcome fd;
            if ret : bool then mret (Some fd) else _ ← call_ (Cg_socket_close fd); mret None.

(** [cc_oci_vm_pause] and [cc_oci_vm_resume] differ in the command only. *)
Definition vm_toggle (cmd : bool -> Z -> Z -> io (bool * bool)) (initialised : bool) (socket_path : cstr) (pid : Z)
    : io (bool * bool) :=
  match socket_path with
  | None => mret (false, initialised)
  | Some socket_path =>
      if bool_decide (pid <= 0) then mret (false, initialised)
      else
        conn ← cc_oci_vm_conn_new socket_path pid;
        match conn with
        | None => mret (false, initialised)
        | Some fd =>
            '(ret, initialised) ← cmd initialised fd pid;
            _ ← call_ (Cg_socket_close fd);
            mret (ret, initialised)
        end
  end.

Definition cc_oci_vm_pause : bool -> cstr -> Z -> io (bool * bool) := vm_toggle cc_oci_qmp_pause.
Definition cc_oci_vm_resume : bool -> cstr -> Z -> io (bool * bool) := vm_toggle cc_oci_qmp_resume.

End qmp.

(** ** Splitting a stream into messages *)

Section qmp_facts.
Context `{GL : GLib} `{QF : QmpFuel}.

(** The bytes of a list of messages. *)
Fixpoint stream (l : list string) : string :=
  match l with [] => EmptyString | m :: l => m +:+ CC_OCI_MSG_SEPARATOR +:+ stream l end.

Lemma stream_app l l' : stream (l ++ l') = stream l +:+ stream l'.
Proof. induction l as [|m l IH]; [done|]. cbn [stream app]. by rewrite IH, !str_app_assoc. Qed.

(** A text that can be sent as one message. *)
Definition clean (m : string) : Prop := strstr m CC_OCI_MSG_SEPARATOR = None /\ str_free NUL m.

Lemma c_str_prefix s : exists t, s = c_str s +:+ t.
Proof.
  induction s as [|c s [t IH]]; [by exists EmptyString|]. cbn. case_decide.
  - by eexists.
  - exists t. rewrite str_app_cons. by f_equal.
Qed.

Lemma stream_free l : Forall clean l -> str_free NUL (stream l).
Proof.
  induction 1 as [|m l [_ Hm] _ IH]; [constructor|]. cbn [stream]. rewrite !str_free_app. split_and!; [done| |done].
  repeat (constructor; [done|]). constructor.
Qed.

(** Where the separator is found in what was received. *)
Lemma find_separator total r i :
  Z.of_nat (String.length r) <= total ->
  g_strstr_len (c_str r) total CC_OCI_MSG_SEPARATOR = Some i ->
  r = str_take i r +:+ CC_OCI_MSG_SEPARATOR +:+ str_drop (i + String.length CC_OCI_MSG_SEPARATOR) r.
Proof.
  intros Ht. destruct (c_str_prefix r) as [t Hr]. rewrite g_strstr_len_long.
  - intros Hi. apply strstr_Some. rewrite Hr. by apply strstr_app_Some.
  - apply (f_equal String.length) in Hr. rewrite str_length_app in Hr. lia.
Qed.

Lemma take_messages_sound fuel total r ms rest :
  Z.of_nat (String.length r) <= total -> take_messages fuel total r = (ms, rest) -> r = stream ms +:+ rest.
Proof.
  revert r ms. induction fuel as [|fuel IH]; intros r ms Ht; cbn [take_messages]; [by intros [= <- <-]|].
  destruct (str_nonempty r); [|by intros [= <- <-]]. cbn [negb].
  destruct (g_strstr_len _ _ _) as [i|] eqn:Ei; [|by intros [= <- <-]]. apply find_separator in Ei; [|done].
  destruct (take_messages fuel total _) as [ms' rest'] eqn:E. intros [= <- <-].
  apply IH in E; [|rewrite str_drop_length; lia]. rewrite Ei at 1. cbn [stream]. by rewrite E, !str_app_assoc.
Qed.

(** Splitting the first part of a stream. *)
Lemma take_messages_complete fuel total s t l :
  Forall clean l -> s +:+ t = stream l -> Z.of_nat (String.length s) <= total -> (String.length s < fuel)%nat ->
  exists l1 l2 rest, take_messages fuel total s = (l1, rest) /\ l = l1 ++ l2 /\ rest +:+ t = stream l2 /\
    (t = EmptyString -> l2 = []) /\ (String.length rest <= String.length s)%nat.
Proof.
  intros Hl. revert fuel s. induction Hl as [|m l [Hm Hn] Hl IH]; intros fuel s E Ht Hf.
  { destruct s; [|done]. exists [], [], EmptyString. destruct fuel; done. }
  destruct fuel as [|fuel]; [lia|]. cbn [take_messages].
  assert (c_str s = s) as Hc.
  { apply c_str_free. assert (str_free NUL (s +:+ t)) as [? _]%str_free_app; [|done].
    rewrite E. apply stream_free. by constructor. }
  rewrite Hc, g_strstr_len_long by done. cbn [stream] in E.
  assert (strstr (s +:+ t) CC_OCI_MSG_SEPARATOR = Some (String.length m)) as Hs by (rewrite E; by apply strstr_two_app).
  destruct (decide (String.length m + 2 <= String.length s)%nat) as [Hge|Hlt].
  - destruct (str_app_prefix (m +:+ CC_OCI_MSG_SEPARATOR) (stream l) s t) as [Es El];
      [rewrite str_length_app; cbn; lia|by rewrite str_app_assoc|].
    rewrite str_length_app in Es, El. change (String.length CC_OCI_MSG_SEPARATOR) with 2%nat in *.
    assert (s = m +:+ CC_OCI_MSG_SEPARATOR +:+ str_drop (String.length m + 2) s) as Es'
      by (rewrite <- str_app_assoc, Es; by rewrite str_take_drop).
    assert (strstr s CC_OCI_MSG_SEPARATOR = Some (String.length m)) as -> by (rewrite Es'; by apply strstr_two_app).
    destruct (IH fuel (str_drop (String.length m + 2) s)) as (l1 & l2 & rest & -> & -> & Er & Hr & Hlen);
      [done|rewrite str_drop_length; lia..|].
    exists (m :: l1), l2, rest. split_and!; [|done..|].
    + assert (str_take (String.length m) s = m) as -> by (rewrite Es'; apply str_take_app). destruct s; [cbn in Hge; lia|done].
    + rewrite str_drop_length in Hlen. lia.
  - destruct (strstr s _) as [i|] eqn:Ei.
    { pose proof (strstr_bound _ _ _ Ei) as Hb. apply (strstr_app_Some s t) in Ei.
      rewrite Hs in Ei. injection Ei as <-. cbn in Hb. lia. }
    exists [], (m :: l), s. split_and!; [by destruct (negb _)|done|by rewrite E| |done].
    intros ->. rewrite str_app_nil_r in E. apply (f_equal String.length) in E. rewrite !str_length_app in E. cbn in E. lia.
Qed.

(** A socket that gives the pieces of a list. *)
Definition socket_script : handler (list string) := fun c w =>
  match c return reply c * list string with
  | Cg_socket_receive _ _ => match w with [] => (None, []) | d :: w => (Some d, w) end
  | c => (fail_reply c, w)
  end.

Definition piece_ok (d : string) : Prop := d <> EmptyString /\ (String.length d <= CC_OCI_NET_BUF_SIZE)%nat.

Lemma run_recv_loop fuel fd total received msgs l pieces :
  Forall clean l -> Forall piece_ok pieces -> pieces <> [] ->
  received +:+ String.concat EmptyString pieces = stream l ->
  Z.of_nat (String.length received) <= total -> (length pieces <= fuel)%nat ->
  run socket_script (recv_loop fuel fd (length (msgs ++ l)) total received msgs) pieces = (Done (true, msgs ++ l), []).
Proof.
  intros Hl Hp. revert fuel total received msgs l Hl. induction Hp as [|d pieces [Hd Hd2] Hp IH];
    intros fuel total received msgs l Hl Hne E Ht Hf; [done|].
  destruct fuel as [|fuel]; [cbn in Hf; lia|]. cbn [recv_loop].
  run_call v w' Ec. injection Ec as <- <-. destruct d as [|c d]; [done|]. set (dd := String c d) in *.
  assert ((received +:+ dd) +:+ String.concat EmptyString pieces = stream l) as E'.
  { rewrite str_app_assoc, <- E. f_equal. destruct pieces; [cbn; by rewrite str_app_nil_r|done]. }
  destruct (take_messages_complete (S (String.length (received +:+ dd))) (total + Z.of_nat (String.length dd))
              (received +:+ dd) _ l Hl E') as (l1 & l2 & rest & -> & -> & Er & Hr & Hlen);
    [rewrite str_length_app; lia|lia|].
  rewrite str_length_app in Hlen. apply Forall_app in Hl as [_ Hl2].
  destruct pieces as [|d2 pieces'].
  - rewrite (Hr eq_refl) in Er |- *. cbn in Er. rewrite str_app_nil_r in Er. subst rest. rewrite app_nil_r.
    rewrite bool_decide_true by done. done.
  - rewrite bool_decide_false.
    + rewrite app_assoc. apply IH; [done..|lia|cbn in Hf |- *; lia].
    + rewrite !length_app. destruct l2 as [|m2 l2]; [|cbn; lia]. exfalso.
      apply Forall_cons in Hp as [[? _] _]. cbn in Er. destruct rest; [|done]. destruct d2; [done|]. by destruct pieces'.
Qed.

(** ** What is exchanged *)

(** The bytes received before the first command, and after each. *)
Fixpoint answers (tr : list event) : string * list string :=
  match tr with
  | [] => (EmptyString, [])
  | Ev (Cg_socket_receive _ _) (Some d) :: tr => let '(a, l) := answers tr in (d +:+ a, l)
  | Ev (Cg_socket_send _ _) _ :: tr => let '(a, l) := answers tr in (EmptyString, a :: l)
  | _ :: tr => answers tr
  end.

Definition sent (e : event) : option (Z * string * Z) :=
  match e with Ev (Cg_socket_send fd s) size => Some (fd, s, size) | _ => None end.

Inductive conn_event := Connected (fd : Z) (path : string) | Closed (fd : Z).
Definition connection (e : event) : option conn_event :=
  match e with
  | Ev (Cconnect fd path) r => if bool_decide (r = 0) then Some (Connected fd path) else None
  | Ev (Cg_socket_close fd) _ => Some (Closed fd)
  | _ => None
  end.

(** A trace that only receives, and the bytes it received. *)
Definition receives (tr : list event) (data : string) : Prop :=
  tr_map sent tr = [] /\ tr_map connection tr = [] /\
  forall tr', answers (tr ++ tr') = (data +:+ fst (answers tr'), snd (answers tr')).

Lemma receives_nil : receives [] EmptyString.
Proof. split_and!; [done..|]. intros tr'. cbn [app]. rewrite str_app_nil_l. by destruct (answers tr'). Qed.

Lemma receives_cons fd n d tr data :
  receives tr data -> receives (Ev (Cg_socket_receive fd n) (Some d) :: tr) (d +:+ data).
Proof.
  intros (H1 & H2 & H3). split_and!; [done..|]. intros tr'. cbn [answers app]. rewrite H3. cbn [fst snd].
  by rewrite str_app_assoc.
Qed.

(** Success of a receive: the bytes are exactly the messages expected. *)
Lemma wp_recv_loop fuel fd k total received msgs :
  Z.of_nat (String.length received) <= total ->
  wp (recv_loop fuel fd k total received msgs) (fun tr o =>
    forall msgs', o = Done (true, msgs') ->
      exists new data, receives tr data /\ msgs' = msgs ++ new /\ length msgs' = k /\ received +:+ data = stream new).
Proof.
  revert total received msgs. induction fuel as [|fuel IH]; intros total received msgs Ht; [by intros ? [=]|].
  cbn [recv_loop]. wp_step. intros bytes. destruct bytes as [[|c d]|]; [by intros ? [=]| |by intros ? [=]].
  cbv zeta. set (dd := String c d).
  destruct (take_messages _ _ (received +:+ dd)) as [new rest] eqn:E.
  apply take_messages_sound in E; [|rewrite str_length_app; lia]. case_bool_decide as Ek.
  - destruct rest as [|? ?]; cbn [str_nonempty]; [|by intros ? [=]]. intros msgs' [= <-].
    exists new, (dd +:+ EmptyString). split_and!; [apply receives_cons, receives_nil|done|done|].
    by rewrite <- str_app_assoc, E, !str_app_nil_r.
  - eapply wp_mono; [apply IH|].
    + apply (f_equal String.length) in E. rewrite !str_length_app in E. lia.
    + intros tr o H msgs' Ho. destruct (H msgs' Ho) as (new' & data & Hr & -> & Hk & Hd).
      exists (new ++ new'), (dd +:+ data). split_and!; [by apply receives_cons|by rewrite app_assoc|done|].
      rewrite <- str_app_assoc, E, str_app_assoc, Hd, stream_app. done.
Qed.

Lemma wp_msg_recv fd k :
  wp (cc_oci_qmp_msg_recv fd k) (fun tr o =>
    forall msgs, o = Done (true, msgs) -> length msgs = k /\ receives tr (stream msgs)).
Proof.
  unfold cc_oci_qmp_msg_recv. case_bool_decide; [by intros ? [=]|].
  eapply wp_mono; [by apply wp_recv_loop|]. intros tr o H0 msgs Ho. destruct (H0 msgs Ho) as (new & data & Hr & -> & Hk & Hd).
  rewrite str_app_nil_l in Hd. subst data. done.
Qed.

(** An answer that says the command was executed. *)
Definition returned (m : string) : Prop :=
  exists root members, json_parser_load_from_data m = Some root /\
    json_read_member root "return" = Some (JObject members).

Lemma check_result_returned m b : cc_oci_qmp_check_result m b = true <-> returned m.
Proof.
  unfold cc_oci_qmp_check_result, returned. split.
  - intros H. repeat case_match; simplify_eq. eauto.
  - by intros (root & members & -> & ->).
Qed.

(** The exchange of one command, after the greeting. *)
Definition exchanged (fd : Z) (msg : string) (tr : list event) : Prop :=
  exists r0 r1 m1 a2,
    tr_map sent tr = [(fd, qmp_command "qmp_capabilities", r0); (fd, msg, r1)] /\ 0 <= r0 /\
    tr_map connection tr = [] /\ returned m1 /\
    (forall tr', answers (tr ++ tr') =
       (EmptyString, stream [m1] :: (a2 +:+ fst (answers tr')) :: snd (answers tr'))) /\
    (r1 < 0 \/ exists e m2, a2 = stream [e; m2] /\ returned m2).

Lemma wp_qmp_capabilities fd :
  wp (qmp_capabilities fd) (fun tr o => o = Done true ->
    exists r0 m tr1, tr = Ev (Cg_socket_send fd (qmp_command "qmp_capabilities")) r0 :: tr1 /\ 0 <= r0 /\
      receives tr1 (stream [m]) /\ returned m).
Proof.
  unfold qmp_capabilities. wp_step. intros r0. case_bool_decide; [by intros [=]|].
  apply wp_bind. eapply wp_mono; [apply wp_msg_recv|]. intros tr [[[] msgs]|f] Hr; [|by intros [=]..].
  destruct (Hr msgs eq_refl) as [Hl Hd]. cbn [negb]. destruct msgs as [|m [|]]; [done| |done]. cbn.
  rewrite app_nil_r. intros [= Hc]. exists r0, m, tr. split_and!; [done|lia|done|]. by eapply check_result_returned.
Qed.

Lemma wp_msg_send fd msg :
  wp (cc_oci_qmp_msg_send false fd msg 2 false) (fun tr o => forall i, o = Done (true, i) -> exchanged fd msg tr).
Proof.
  unfold cc_oci_qmp_msg_send. apply wp_bind. eapply wp_mono; [apply wp_qmp_capabilities|].
  intros tr0 [[]|f] H0; [|by intros ? [=]..]. cbn [negb].
  destruct (H0 eq_refl) as (r0 & m1 & tr1 & -> & Hr0 & (S1 & C1 & A1) & Hm1). wp_step. intros r1.
  case_bool_decide as Hr1.
  - intros i _. exists r0, r1, m1, EmptyString. split_and!; [|done|..|by left].
    + cbn [app tr_map sent]. rewrite tr_map_app, S1. done.
    + cbn [app tr_map connection]. rewrite tr_map_app, C1. done.
    + done.
    + intros tr'. cbn [app answers]. rewrite <- app_assoc, A1. cbn [app answers fst snd].
      destruct (answers tr'). cbn [fst snd]. by rewrite !str_app_nil_r, str_app_nil_l.
  - rewrite bool_decide_false by done. apply wp_bind. eapply wp_mono; [apply wp_msg_recv|].
    intros tr2 [[[] msgs]|f] Hr; [|by intros ? [=]..]. destruct (Hr msgs eq_refl) as [Hl (S2 & C2 & A2)].
    destruct msgs as [|e [|m2 [|]]]; try done. cbn [negb lookup list_lookup]. intros i [= Hc]. rewrite app_nil_r.
    apply check_result_returned in Hc. exists r0, r1, m1, (stream [e; m2]). split_and!; [|done|..|by right; eauto].
    + cbn [app tr_map sent]. rewrite tr_map_app, S1. cbn [app tr_map sent]. by rewrite S2.
    + cbn [app tr_map connection]. rewrite tr_map_app, C1. cbn [app tr_map connection]. by rewrite C2.
    + done.
    + intros tr'. cbn [app answers]. rewrite <- app_assoc, A1. cbn [app answers fst snd]. rewrite A2.
      cbn [fst snd]. by rewrite str_app_nil_r.
Qed.

(** Whatever its outcome, a receive only receives. *)
Lemma wp_recv_only fd k : wp (cc_oci_qmp_msg_recv fd k) (fun tr _ => exists data, receives tr data).
Proof.
  assert (receives [] EmptyString) as Hnil by apply receives_nil.
  unfold cc_oci_qmp_msg_recv. case_bool_decide; [by eexists|]. generalize 0, EmptyString, (@nil string).
  induction qmp_fuel as [|fuel IH]; intros total received msgs; [by eexists|]. cbn [recv_loop].
  wp_step. intros [[|c d]|].
  - exists (EmptyString +:+ EmptyString). by apply receives_cons.
  - cbv zeta. destruct (take_messages _ _ _) as [new rest]. case_bool_decide.
    + destruct (str_nonempty rest); eexists; by apply receives_cons.
    + eapply wp_mono; [apply IH|]. intros tr o [data Hd]. eexists. by apply receives_cons.
  - exists EmptyString. split_and!; [done..|]. intros tr'. cbn [app answers]. rewrite str_app_nil_l. by destruct (answers tr').
Qed.

Lemma wp_check_welcome fd :
  wp (cc_oci_qmp_check_welcome fd) (fun tr o => (exists data, receives tr data) /\ o <> Done false).
Proof.
  unfold cc_oci_qmp_check_welcome. apply wp_bind. eapply wp_mono; [apply wp_recv_only|].
  intros tr [[[] msgs]|f] Hr; cbn [negb]; [destruct (msgs !! O)| |]; cbn; rewrite ?app_nil_r; by split.
Qed.

(** A program that sends one command [msg] with [cc_oci_qmp_msg_send]. *)
Lemma wp_vm_toggle cmd msg path pid :
  (forall fd, 0 < pid -> cmd false fd pid = cc_oci_qmp_msg_send false fd msg 2 false) ->
  wp (vm_toggle cmd false (Some path) pid) (fun tr o => forall i, o = Done (true, i) ->
    exists fd r0 r1 greeting m1 a2,
      tr_map connection tr = [Connected fd path; Closed fd] /\
      tr_map sent tr = [(fd, qmp_command "qmp_capabilities", r0); (fd, msg, r1)] /\ 0 <= r0 /\
      answers tr = (greeting, [stream [m1]; a2]) /\ returned m1 /\
      (r1 < 0 \/ exists e m2, a2 = stream [e; m2] /\ returned m2)).
Proof.
  intros Hcmd. unfold vm_toggle. case_bool_decide as Hpid; [by intros ? [=]|].
  unfold cc_oci_vm_conn_new. rewrite bool_decide_false by done. apply wp_bind.
  wp_step. intros []; cbn [negb]; [|by intros ? [=]]. wp_step. intros addr. case_bool_decide; [by intros ? [=]|].
  wp_step. intros fd. case_bool_decide; [by intros ? [=]|]. wp_step. intros r. case_bool_decide as Er; [by intros ? ? [=]|].
  apply wp_bind. eapply wp_mono; [apply wp_check_welcome|].
  intros tr0 [[]|f] [[g (S0 & C0 & A0)] Hne]; [|done|by intros ? [=]]. cbn. rewrite app_nil_r.
  apply wp_bind. rewrite Hcmd by lia. eapply wp_mono; [apply wp_msg_send|].
  intros tr1 [[ret i]|f] H1; [|by intros ? [=]]. intros rc. cbn. intros i' [= -> ->].
  destruct (H1 i' eq_refl) as (r0 & r1 & m1 & a2 & S1 & Hr0 & C1 & Hm1 & A1 & Ha2).
  exists fd, r0, r1, g, m1, a2. rewrite bool_decide_true by done.
  rewrite !tr_map_app, S0, C0, S1, C1, A0, A1. cbn. rewrite !str_app_nil_r. done.
Qed.

(** C38.  Pausing a VM follows the protocol of its monitor.  If [pause] reports
    success then the code connected once to the given socket and closed the
    connection at the end; after the greeting it sent the capabilities
    command, whose answer is exactly one message that reports success; then
    it sent the stop command, and, unless that command could not be sent, the
    bytes that followed are exactly two messages, an event and one that
    reports success. *)
Theorem vm_pause_protocol (path : string) (pid : Z) (tr : list event) (initialised : bool) :
  exec (cc_oci_vm_pause false (Some path) pid) tr (Done (true, initialised)) ->
  exists fd r0 r1 greeting m1 a2,
    tr_map connection tr = [Connected fd path; Closed fd] /\
    tr_map sent tr = [(fd, qmp_command "qmp_capabilities", r0); (fd, qmp_command "stop", r1)] /\ 0 <= r0 /\
    answers tr = (greeting, [stream [m1]; a2]) /\ returned m1 /\
    (r1 < 0 \/ exists e m2, a2 = stream [e; m2] /\ returned m2).
Proof.
  intros He. unfold cc_oci_vm_pause in He. eapply wp_exec in He; [|apply wp_vm_toggle]; [by eapply He|].
  intros fd Hp. unfold cc_oci_qmp_pause. by rewrite bool_decide_false by lia.
Qed.

(** C39.  Messages of the hypervisor are read whole.  If the socket delivers a list
    of messages (texts without the separator), cut into pieces in any way,
    then a receive that expects their number ends with success and returns
    exactly these messages, in order, with nothing left over. *)
Theorem qmp_recv_messages (l pieces : list string) (fd : Z) :
  l <> [] -> Forall clean l -> Forall piece_ok pieces -> String.concat EmptyString pieces = stream l ->
  (length pieces <= qmp_fuel)%nat ->
  run socket_script (cc_oci_qmp_msg_recv fd (length l)) pieces = (Done (true, l), []).
Proof.
  intros Hne Hl Hp E Hf. unfold cc_oci_qmp_msg_recv. rewrite bool_decide_false by (by destruct l).
  apply (run_recv_loop qmp_fuel fd 0 EmptyString [] l pieces); [done|done| |done|done|done].
  intros ->. destruct l as [|m l]; [done|]. by destruct m.
Qed.
End qmp_facts.

(** ** Witnesses and examples *)

(** A monitor: it accepts the connection and commands; the pieces it sends. *)
Definition monitor : handler (list string) := fun c w =>
  match c return reply c * list string with
  | Cg_file_test _ _ => (true, w)
  | Cg_unix_socket_address_new _ => (0, w)
  | Csocket_new => (7, w)
  | Cconnect _ _ => (0, w)
  | Cg_socket_send _ s => (Z.of_nat (String.length s), w)
  | Cg_socket_receive _ _ => match w with [] => (Some EmptyString, []) | d :: w => (Some d, w) end
  | c => (fail_reply c, w)
  end.

Definition ret_ok : string := json_generator_to_data (JObject [("return", JObject [])]) false.
Definition ev_stop : string := json_generator_to_data (JObject [("event", JString "STOP")]) false.

Lemma vm_pause_protocol_witness :
  exists fd r0 r1, tr_map sent (fst (run_tr monitor (cc_oci_vm_pause (QF := 9%nat) false (Some "/s") 12)
      [stream ["hi"]; stream [ret_ok]; stream [ev_stop]; stream [ret_ok]]))
    = [(fd, qmp_command "qmp_capabilities", r0); (fd, qmp_command "stop", r1)].
Proof.
  edestruct (vm_pause_protocol (QF := 9%nat) "/s" 12
    (fst (run_tr monitor (cc_oci_vm_pause (QF := 9%nat) false (Some "/s") 12)
      [stream ["hi"]; stream [ret_ok]; stream [ev_stop]; stream [ret_ok]])) true)
    as (fd & r0 & r1 & greeting & m1 & a2 & _ & Hs & _).
  - apply run_tr_exec. vm_compute. reflexivity.
  - exists fd, r0, r1. exact Hs.
Defined.

Lemma qmp_recv_messages_witness :
  run socket_script (cc_oci_qmp_msg_recv (QF := 4%nat) 7 2)
    ["{a}" +:+ String "013" EmptyString; String "010" "{b"; "}" +:+ CC_OCI_MSG_SEPARATOR]
  = (Done (true, ["{a}"; "{b}"]), []).
Proof.
  apply (qmp_recv_messages (QF := 4%nat) ["{a}"; "{b}"]
    ["{a}" +:+ String "013" EmptyString; String "010" "{b"; "}" +:+ CC_OCI_MSG_SEPARATOR] 7).
  - discriminate.
  - repeat constructor; intros; discriminate.
  - repeat (constructor; [split; [discriminate|apply Nat.leb_le; vm_compute; reflexivity]|]). constructor.
  - vm_compute. reflexivity.
  - cbv. lia.
Defined.

(** The end of the connection is an error without a description. *)
Example eof_dereferences_null :
  fst (run socket_script (cc_oci_qmp_msg_recv (QF := 4%nat) 7 1) [EmptyString]) = Fault NullDeref.
Proof. vm_compute. reflexivity. Qed.

(** A message that arrives together with the start of the next one. *)
Example partial_message_asserts :
  fst (run socket_script (cc_oci_qmp_msg_recv (QF := 4%nat) 7 1) ["{a}" +:+ CC_OCI_MSG_SEPARATOR +:+ "{"])
  = Fault AssertFailed.
Proof. vm_compute. reflexivity. Qed.

(** Two messages where one is expected: the code waits for more. *)
Example extra_message_waits :
  fst (run socket_script (cc_oci_qmp_msg_recv (QF := 1%nat) 7 1) [stream ["{a}"; "{b}"]]) = Fault Blocked.
Proof. vm_compute. reflexivity. Qed.

(** A monitor that refuses the command after the capabilities. *)
Definition deaf_monitor : handler (nat * list string) := fun c w =>
  match c return reply c * (nat * list string) with
  | Cg_socket_send _ s => match fst w with O => (5, (1%nat, snd w)) | _ => (-1, w) end
  | c => let '(r, l) := monitor c (snd w) in (r, (fst w, l))
  end.

Example unsent_command_succeeds :
  fst (run deaf_monitor (cc_oci_vm_pause (QF := 9%nat) false (Some "/s") 12) (0%nat, [stream ["hi"]; stream [ret_ok]]))
  = Done (true, true).
Proof. vm_compute. reflexivity. Qed.

(** Members in the answer to the capabilities command are accepted. *)
Example members_accepted :
  cc_oci_qmp_check_result (json_generator_to_data (JObject [("return", JObject [("x", JNull)])]) false) true = true.
Proof. vm_compute. reflexivity. Qed.
