(* ===== verification/Hypervisor.v ===== *)
(** * The command line of the hypervisor (src/src/hypervisor.c)

    A file gives one argument per line, with comments and with tags
    ([@KERNEL@], ...) that stand for values of the container; arguments for
    the network devices are added at the end. *)

From S2P Require Import Prelude GLib GLibRef Sys Types Util Semver Config.

Definition CC_OCI_HYPERVISOR_CMDLINE_FILE : string := "hypervisor.args".
Definition CC_OCI_CONSOLE_SOCKET : string := "console.sock".
Definition CC_OCI_AGENT_CTL_SOCKET : string := "ga-ctl.sock".
Definition CC_OCI_AGENT_TTY_SOCKET : string := "ga-tty.sock".
Definition PCI_OFFSET : Z := 8.

(** ** Numbers in base 16 *)

Definition hex_digit (z : Z) : ascii :=
  ascii_of_N (Z.to_N (if bool_decide (z < 10) then 48 + z else 87 + z)).

(** [%x]; 32 bits have eight digits at most. *)
Fixpoint fmt_x_go (fuel : nat) (z : Z) (acc : string) : string :=
  match fuel with
  | O => acc
  | S fuel =>
      let acc := String (hex_digit (z mod 16)) acc in
      if bool_decide (z / 16 = 0) then acc else fmt_x_go fuel (z / 16) acc
  end.
Definition fmt_x (z : Z) : string := fmt_x_go 8 (u32 z) EmptyString.

(** [%02x] of a byte *)
Definition fmt_02x (b : Z) : string := String (hex_digit (b / 16 mod 16)) (String (hex_digit (b mod 16)) EmptyString).

Definition uuid_pattern : string := "00000000-0000-0000-0000-000000000000".

(** The loop that prints the uuid along the pattern. *)
Fixpoint uuid_loop (uuid : list Z) (acc : string) : string :=
  match uuid with
  | [] => acc
  | b :: uuid =>
      if (String.length acc <? 37)%nat then
        let acc := acc +:+ fmt_02x b in
        uuid_loop uuid (if bool_decide (String.get (String.length acc) uuid_pattern = Some "-"%char)
                        then acc +:+ "-" else acc)
      else acc
  end.

Section hypervisor.
Context `{GL : GLib} `{BD : Build}.

(** ** Network arguments *)

Definition cc_oci_expand_net_cmdline (config : cc_oci_config) : cstr :=
  (fun h => "ip=::::::" +:+ h +:+ "::off::") <$> net_hostname (net config).

Definition cc_oci_expand_netdev_cmdline (config : cc_oci_config) (index : nat) : string :=
  match interfaces (net config) !! index with
  | None => EmptyString
  | Some i => "tap,ifname=" +:+ fmt_s (tap_device i) +:+ ",script=no,downscript=no,id="
              +:+ fmt_s (tap_device i) +:+ ",vhost=on"
  end.

Definition cc_oci_expand_net_device_cmdline (config : cc_oci_config) (index : nat) : string :=
  match interfaces (net config) !! index with
  | None => EmptyString
  | Some i =>
      "driver=virtio-net-pci,bus=/pci-lite-host/pcie.0,addr=" +:+ fmt_x (Z.of_nat index + PCI_OFFSET)
      +:+ ",netdev=" +:+ fmt_s (tap_device i)
      +:+ match mac_address i with None => EmptyString | Some m => ",mac=" +:+ m end
  end.

(** The arguments appended to the array. *)
Definition cc_oci_append_network_args (config : cc_oci_config) : list string :=
  match interfaces (net config) with
  | [] => ["-net" +:+ newline +:+ "none" +:+ newline]
  | l =>
      flat_map (fun i => ["-netdev"; cc_oci_expand_netdev_cmdline config i;
                          "-device"; cc_oci_expand_net_device_cmdline config i]) (seq 0 (length l))
  end.

Definition cc_oci_populate_extra_args (config : cc_oci_config) : list string :=
  cc_oci_append_network_args config.

(** ** Expansion *)

(** The first [#] at or after [start] that follows white space. *)
Fixpoint comment_loop (fuel : nat) (s : string) (start : nat) : option nat :=
  match fuel with
  | O => None
  | S fuel =>
      match g_strstr_len (str_drop start s) LINE_MAX "#" with
      | None => None
      | Some i =>
          let p := (start + i)%nat in
          if match String.get (p - 1) s with Some c => g_ascii_isspace c | None => false end then Some p
          else comment_loop fuel s (S p)
      end
  end.

Definition expand_tags (tags : list (string * cstr)) (s : string) : string :=
  fold_left (fun s t => default s (cc_oci_replace_string (Some s) (Some (fst t)) (snd t))) tags s.

(** One argument: a comment becomes empty, a trailing comment is cut. *)
Definition expand_arg (tags : list (string * cstr)) (s : string) : string :=
  if bool_decide (first_char s = Some "#"%char) then EmptyString
  else
    expand_tags tags (match comment_loop (S (String.length s)) s 0 with
                      | None => s
                      | Some p => str_take p s
                      end).

(** The command is looked up in the path unless it is absolute. *)
Definition find_command (args : list string) : io (list string) :=
  match args with
  | [] => mret []
  | a :: l =>
      if g_path_is_absolute a then mret args
      else cmd ← call_ (Cfind_program a); mret (default a cmd :: l)
  end.

Definition special_tags (config : cc_oci_config) (v : cc_oci_vm_cfg) (p : cc_proxy) (size : Z)
    (uuid_str name : string) : list (string * cstr) := [
  ("@WORKLOAD_DIR@", Some (cc_oci_get_workload_dir config));
  ("@KERNEL@", Some (kernel_path v));
  ("@KERNEL_PARAMS@", kernel_params v);
  ("@KERNEL_NET_PARAMS@", cc_oci_expand_net_cmdline config);
  ("@IMAGE@", Some (image_path v));
  ("@SIZE@", Some (fmt_d (u64 size)));
  ("@COMMS_SOCKET@", Some (comms_path (state config)));
  ("@PROCESS_SOCKET@", Some ("socket,id=procsock,path=" +:+ procsock_path (state config) +:+ ",server,nowait"));
  ("@CONSOLE_DEVICE@", Some ("socket,path=" +:+ fmt_s (vm_console_socket p)
                             +:+ ",server,nowait,id=charconsole0,signal=off"));
  ("@NAME@", Some name);
  ("@UUID@", Some uuid_str);
  ("@AGENT_CTL_SOCKET@", agent_ctl_socket p);
  ("@AGENT_TTY_SOCKET@", agent_tty_socket p) ].

Definition set_agent_sockets (config : cc_oci_config) (p : cc_proxy) : cc_proxy :=
  let path f := Some (g_build_path (runtime_path (state config)) f) in
  set_agent_tty_socket (path CC_OCI_AGENT_TTY_SOCKET)
    (set_agent_ctl_socket (path CC_OCI_AGENT_CTL_SOCKET)
       (set_vm_console_socket (path CC_OCI_CONSOLE_SOCKET) p)).

(** The part after the checks, with the size of the image and a uuid. *)
Definition expand_with (config : cc_oci_config) (v : cc_oci_vm_cfg) (p : cc_proxy) (size : Z) (uuid : list Z)
    (args : list string) : io (option (list string) * cc_oci_config) :=
  let uuid_str := uuid_loop uuid EmptyString in
  let p := set_agent_sockets config p in
  let config := set_proxy (Some p) config in
  match g_strrstr uuid_str "-" with
  | None => Halt NullDeref
  | Some i =>
      args ← find_command args;
      let tags := special_tags config v p size uuid_str (str_drop (S i) uuid_str) in
      mret (Some (map (expand_arg tags) args), config)
  end.

(** The expanded arguments on success, and the configuration, whose proxy
    gets the paths of the sockets. *)
Definition cc_oci_expand_cmdline (config : cc_oci_config) (args : list string)
    : io (option (list string) * cc_oci_config) :=
  match vm config with None => mret (None, config) | Some v =>
  match bundle_path config with None => mret (None, config) | Some _ =>
  match proxy config with
  | None => mret (None, config)
  | Some p =>
      let workload_dir := cc_oci_get_workload_dir config in
      st ← (if str_nonempty (image_path v) then call_ (Cstat (image_path v)) else mret None : io (option stat_t));
      match st with
      | None => mret (None, config)
      | Some st =>
          ok ← (if str_nonempty (kernel_path v) then call_ (Cg_file_test (kernel_path v) FT_EXISTS) else mret false : io bool);
          if negb ok then mret (None, config)
          else
            ok ← (if str_nonempty workload_dir then call_ (Cg_file_test workload_dir FT_IS_DIR) else mret false : io bool);
            if negb ok then mret (None, config)
            else
              uuid ← call_ Cuuid;
              expand_with config v p (st_size st) uuid args
      end
  end end end.

(** ** The file *)

Definition cc_oci_vm_args_file_path (config : cc_oci_config) : io cstr :=
  match cc_oci_get_bundlepath_file (bundle_path config) (Some CC_OCI_HYPERVISOR_CMDLINE_FILE) with
  | None => mret None
  | Some f =>
      ok ← call_ (Cg_file_test f FT_EXISTS);
      if ok : bool then mret (Some f)
      else
        let f := g_build_path SYSCONFDIR CC_OCI_HYPERVISOR_CMDLINE_FILE in
        ok ← call_ (Cg_file_test f FT_EXISTS);
        if ok : bool then mret (Some f)
        else
          let f := g_build_path DEFAULTSDIR CC_OCI_HYPERVISOR_CMDLINE_FILE in
          ok ← call_ (Cg_file_test f FT_EXISTS);
          mret (if ok : bool then Some f else None)
  end.

(** The arguments, and the configuration with the paths of the sockets. *)
Definition cc_oci_vm_args_get (config : cc_oci_config) (extra : list string)
    : io (option (list string) * cc_oci_config) :=
  file ← cc_oci_vm_args_file_path config;
  args ← cc_oci_file_to_strv file;
  match args with
  | None => mret (None, config)
  | Some args =>
      '(args, config) ← cc_oci_expand_cmdline config args;
      mret ((fun args => (g_strstrip <$> List.filter str_nonempty args) ++ (g_strstrip <$> extra)) <$> args, config)
  end.

End hypervisor.

(** ** Templates *)

Definition at_sign : ascii := "@".

(** Characters of the names of tags. *)
Definition tag_char (c : ascii) : bool :=
  ((65 <=? N_of_ascii c)%N && (N_of_ascii c <=? 90)%N) || bool_decide (c = "_"%char).
Definition tag_name (n : string) : Prop := Forall (fun c => tag_char c = true) (String.list_ascii_of_string n).

(** A tag between at signs. *)
Definition tag (n : string) : string := String at_sign (n +:+ String at_sign EmptyString).

(** A line: text, then tags each followed by text. *)
Fixpoint print_line (p : string) (l : list (string * string)) : string :=
  match l with [] => p | (n, s) :: l => p +:+ tag n +:+ print_line s l end.

(** The line with values in place of the tags that have one. *)
Fixpoint subst_line (env : string -> cstr) (p : string) (l : list (string * string)) : string :=
  match l with [] => p | (n, s) :: l => p +:+ default (tag n) (env n) +:+ subst_line env s l end.

(** Text has no at sign; between two tags it has a character that no name
    has. *)
Definition separates (s : string) : Prop := Exists (fun c => tag_char c = false) (String.list_ascii_of_string s).
Fixpoint line_ok (p : string) (l : list (string * string)) : Prop :=
  str_free at_sign p /\
  match l with
  | [] => True
  | (n, s) :: l => tag_name n /\ (l = [] \/ separates s) /\ line_ok s l
  end.

Lemma print_line_app p q l : print_line (p +:+ q) l = p +:+ print_line q l.
Proof. destruct l as [|[n s] l]; cbn; [done|]. by rewrite str_app_assoc. Qed.

(** One tag replaced. *)
Fixpoint replace_tag (x v p : string) (l : list (string * string)) : string * list (string * string) :=
  match l with
  | [] => (p, [])
  | (n, s) :: l =>
      if decide (n = x) then (p +:+ v +:+ s, l)
      else let '(s, l) := replace_tag x v s l in (p, (n, s) :: l)
  end.

Lemma tag_name_free n : tag_name n -> str_free at_sign n.
Proof. intros H. eapply Forall_impl; [exact H|]. by intros c Hc ->. Qed.

Lemma strstr_skip c a b n :
  str_free c a -> strstr (a +:+ b) (String c n) = (fun i => String.length a + i)%nat <$> strstr b (String c n).
Proof.
  induction a as [|c' a IH]; [intros _; rewrite str_app_nil_l; by destruct (strstr b _)|]. rewrite str_free_cons. intros [Hc Ha].
  rewrite str_app_cons. cbn [strstr String.prefix]. destruct (ascii_dec c c'); [congruence|].
  rewrite IH by done. by destruct (strstr b _).
Qed.

Lemma str_take_app_plus a b i : str_take (String.length a + i) (a +:+ b) = a +:+ str_take i b.
Proof. induction a as [|c a IH]; [done|]. rewrite !str_app_cons. cbn. by rewrite IH. Qed.

Lemma str_drop_app_plus a b i : str_drop (String.length a + i) (a +:+ b) = str_drop i b.
Proof. induction a as [|c a IH]; [done|]. rewrite str_app_cons. cbn. by rewrite IH. Qed.

Lemma list_ascii_app a b :
  String.list_ascii_of_string (a +:+ b) = String.list_ascii_of_string a ++ String.list_ascii_of_string b.
Proof. induction a as [|c a IH]; [done|]. rewrite str_app_cons. cbn. by rewrite IH. Qed.

(** A name and its end are a prefix of another name and its end only if the
    names are the same. *)
Lemma prefix_name c x y r :
  str_free c x -> str_free c y ->
  String.prefix (x +:+ String c EmptyString) (y +:+ String c r) = bool_decide (x = y).
Proof.
  revert y. induction x as [|a x IH]; intros y Hx Hy.
  - rewrite str_app_nil_l. destruct y as [|b y].
    + rewrite str_app_nil_l, prefix_one. by rewrite !bool_decide_true.
    + apply str_free_cons in Hy as [Hb _]. rewrite str_app_cons, prefix_one. rewrite bool_decide_false by done. by rewrite bool_decide_false.
  - apply str_free_cons in Hx as [Ha Hx]. destruct y as [|b y]; rewrite !str_app_cons; cbn [String.prefix].
    + rewrite str_app_nil_l. cbn [String.prefix]. destruct (ascii_dec a c); [done|]. by rewrite bool_decide_false by done.
    + apply str_free_cons in Hy as [Hb Hy]. destruct (ascii_dec a b) as [->|Hab].
      * rewrite IH by done. apply bool_decide_ext. naive_solver.
      * rewrite bool_decide_false; [done|congruence].
Qed.

Lemma prefix_name_end c x y : str_free c y -> String.prefix (x +:+ String c EmptyString) y = false.
Proof.
  revert y. induction x as [|a x IH]; intros y Hy.
  - rewrite str_app_nil_l. destruct y; [done|]. apply str_free_cons in Hy as [? _]. rewrite prefix_one. by rewrite bool_decide_false.
  - destruct y as [|b y]; [done|]. apply str_free_cons in Hy as [Hb Hy]. rewrite str_app_cons. cbn. destruct (ascii_dec a b); [|done]. auto.
Qed.

(** Where a tag is in a line. *)
Fixpoint tag_pos (x p : string) (l : list (string * string)) : option nat :=
  match l with
  | [] => None
  | (n, s) :: l =>
      if decide (n = x) then Some (String.length p)
      else (fun i => String.length (p +:+ tag n) + i)%nat <$> tag_pos x s l
  end.

Lemma separates_name s x : separates s -> tag_name x -> x <> s.
Proof.
  unfold separates, tag_name. intros Hs Hx ->. rewrite Exists_exists in Hs. destruct Hs as (c & Hin & Hc).
  rewrite Forall_forall in Hx. rewrite (Hx c Hin) in Hc. done.
Qed.

Lemma tag_app n r : tag n +:+ r = String at_sign (n +:+ String at_sign r).
Proof. unfold tag. by rewrite str_app_cons, str_app_assoc. Qed.

Lemma strstr_cons c s n :
  strstr (String c s) n = if String.prefix n (String c s) then Some O else S <$> strstr s n.
Proof. done. Qed.

Lemma prefix_cons c x y : String.prefix (String c x) (String c y) = String.prefix x y.
Proof. cbn. by destruct (ascii_dec c c). Qed.

(** A tag is found only where the line has it, never across two tags. *)
Lemma strstr_line x p l : line_ok p l -> tag_name x -> strstr (print_line p l) (tag x) = tag_pos x p l.
Proof.
  intros Hl Hx. revert p Hl. induction l as [|[n s] l IH]; intros p [Hp Hl]; cbn [print_line tag_pos].
  { rewrite <- (str_app_nil_r p). unfold tag. by rewrite strstr_skip. }
  destruct Hl as (Hn & Hs & Hl). rewrite (strstr_skip at_sign p _ (x +:+ String at_sign EmptyString)) by done.
  fold (tag x). rewrite tag_app, strstr_cons.
  assert (String.prefix (tag x) (String at_sign (n +:+ String at_sign (print_line s l))) = bool_decide (x = n)) as ->.
  { unfold tag. rewrite prefix_cons. apply prefix_name; by apply tag_name_free. }
  case_decide as Hd.
  { subst n. rewrite bool_decide_true by done. cbn. by rewrite Nat.add_0_r. }
  rewrite bool_decide_false by done.
  rewrite (strstr_skip at_sign n _ (x +:+ String at_sign EmptyString)) by by apply tag_name_free.
  fold (tag x). rewrite strstr_cons.
  assert (String.prefix (tag x) (String at_sign (print_line s l)) = false) as ->.
  { unfold tag. rewrite prefix_cons. assert (str_free at_sign s) as Hs1 by (destruct l as [|[]]; apply Hl).
    destruct l as [|[n2 s2] l2]; [by apply prefix_name_end|]. destruct Hs as [?|Hs]; [done|].
    cbn [print_line]. rewrite tag_app, prefix_name by (done || by apply tag_name_free).
    apply bool_decide_false. by apply separates_name. }
  rewrite IH by done. destruct (tag_pos x s l) as [j|]; [|done]. cbn. f_equal.
  rewrite !str_length_app. cbn. rewrite str_length_app. cbn. lia.
Qed.

Lemma replace_tag_pos x v p l :
  match tag_pos x p l with
  | Some i => str_take i (print_line p l) +:+ v +:+ str_drop (i + String.length (tag x)) (print_line p l)
              = print_line (fst (replace_tag x v p l)) (snd (replace_tag x v p l))
  | None => replace_tag x v p l = (p, l)
  end.
Proof.
  revert p. induction l as [|[n s] l IH]; intros p; cbn [tag_pos replace_tag]; [done|].
  case_decide as Hd.
  - subst n. cbn [fst snd print_line]. rewrite str_take_app, <- str_length_app.
    rewrite <- (str_app_assoc p (tag x)), str_drop_app. by rewrite !print_line_app.
  - specialize (IH s). destruct (tag_pos x s l) as [i|].
    + destruct (replace_tag x v s l) as [s' l'] eqn:E. cbn [fst snd print_line fmap option_fmap option_map] in *.
      rewrite <- (str_app_assoc p (tag n)), str_take_app_plus, <- Nat.add_assoc, str_drop_app_plus.
      by rewrite str_app_assoc, IH, str_app_assoc.
    + by rewrite IH.
Qed.

Lemma replace_tag_ok x v p l :
  str_free at_sign v -> line_ok p l -> line_ok (fst (replace_tag x v p l)) (snd (replace_tag x v p l)).
Proof.
  intros Hv. revert p. induction l as [|[n s] l IH]; intros p [Hp Hl]; cbn [replace_tag]; [done|].
  destruct Hl as (Hn & Hs & Hl). case_decide.
  - cbn [fst snd]. destruct l as [|[n2 s2] l]; cbn in Hl |- *; rewrite !str_free_app; tauto.
  - specialize (IH s Hl). destruct (replace_tag x v s l) as [s' l'] eqn:E. cbn [fst snd] in *. split_and!; [done..| |done].
    destruct l as [|[n2 s2] l]; [injection E as <- <-; by left|]. destruct Hs as [?|Hs]; [done|].
    cbn [replace_tag] in E. case_decide; [|destruct (replace_tag x v s2 l); injection E as <- <-; by right].
    injection E as <- <-. right. unfold separates in *. rewrite !list_ascii_app, Exists_app. by left.
Qed.

(** The value of a tag in a table. *)
Definition tag_value (tags : list (string * cstr)) (n : string) : cstr :=
  List.find (fun e => bool_decide (fst e = tag n)) tags ≫= snd.

Lemma subst_line_app env p q l : subst_line env (p +:+ q) l = p +:+ subst_line env q l.
Proof. destruct l as [|[n s] l]; cbn; [done|]. by rewrite str_app_assoc. Qed.

Lemma subst_line_ext env env' p l :
  Forall (fun n => env n = env' n) l.*1 -> subst_line env p l = subst_line env' p l.
Proof.
  revert p. induction l as [|[n s] l IH]; intros p H; [done|]. apply Forall_cons in H as [Hn H]. cbn in *.
  by rewrite Hn, IH.
Qed.

(** Replacing one tag, and the others later, is replacing all of them. *)
Lemma subst_replace env env' x v p l :
  NoDup l.*1 -> env x = Some v -> (forall n, n <> x -> env n = env' n) ->
  subst_line env p l = subst_line env' (fst (replace_tag x v p l)) (snd (replace_tag x v p l)).
Proof.
  intros Hnd Hx Hne. revert p Hnd. induction l as [|[n s] l IH]; intros p Hnd; [done|].
  apply NoDup_cons in Hnd as [Hni Hnd]. cbn [replace_tag subst_line]. case_decide as Hd.
  - subst n. cbn [fst snd]. rewrite Hx, !subst_line_app. cbn [default from_option]. do 2 f_equal.
    apply subst_line_ext, Forall_forall. intros n Hin. apply Hne. by intros ->.
  - specialize (IH s Hnd). destruct (replace_tag x v s l) as [s' l']. cbn [fst snd] in *. cbn [subst_line].
    by rewrite IH, (Hne n).
Qed.

Lemma replace_tag_names x v p l : NoDup l.*1 -> NoDup (snd (replace_tag x v p l)).*1 /\ (snd (replace_tag x v p l)).*1 ⊆ l.*1.
Proof.
  revert p. induction l as [|[n s] l IH]; intros p Hnd; [done|]. apply NoDup_cons in Hnd as [Hni Hnd]. cbn [replace_tag].
  case_decide; cbn [fst snd fmap list_fmap]; [split; [done|set_solver]|].
  destruct (IH s Hnd) as [H1 H2]. destruct (replace_tag x v s l) as [s' l']. cbn in *. split; [|set_solver].
  apply NoDup_cons. split; [set_solver|done].
Qed.

Lemma tag_inj n m : tag n = tag m -> n = m.
Proof.
  unfold tag. intros [= H]. revert m H. induction n as [|c n IH]; intros [|d m]; rewrite ?str_app_nil_l, ?str_app_cons; intros H.
  - done.
  - injection H as _ H. by destruct m.
  - injection H as _ H. by destruct n.
  - injection H as -> H. by rewrite (IH m).
Qed.

Section template.
Context `{GL : GLib}.

Definition table_ok (tags : list (string * cstr)) : Prop :=
  NoDup tags.*1 /\
  Forall (fun e => (exists n, fst e = tag n /\ tag_name n) /\ (String.length (fst e) < 100)%nat /\
                   match snd e with Some v => str_free at_sign v | None => True end) tags.

Lemma replace_string_tag x v p l :
  tag_name x -> (String.length (tag x) < 100)%nat -> line_ok p l ->
  cc_oci_replace_string (Some (print_line p l)) (Some (tag x)) (Some v) =
    Some (print_line (fst (replace_tag x v p l)) (snd (replace_tag x v p l))).
Proof.
  intros Hx Hlen Hl. unfold cc_oci_replace_string. cbn [str_nonempty tag negb]. fold (tag x).
  rewrite g_strstr_len_spec, strstr_line by done. pose proof (replace_tag_pos x v p l) as Hr.
  destruct (tag_pos x p l) as [i|]; [|by rewrite Hr].
  rewrite g_utf8_strlen_ascii, Nat2Z.id; [by rewrite Hr| |right; unfold LINE_MAX; lia].
  unfold is_ascii. unfold tag. cbn. rewrite list_ascii_app. repeat (constructor; [cbn; lia|]).
  apply Forall_app. split; [|by repeat constructor; cbn; lia].
  eapply Forall_impl; [exact Hx|]. intros c Hc. unfold tag_char in Hc.
  apply orb_prop in Hc as [[_ ?%N.leb_le]%andb_prop| ->%bool_decide_eq_true]; cbn; lia.
Qed.

Lemma expand_tags_line tags p l :
  table_ok tags -> line_ok p l -> NoDup l.*1 ->
  expand_tags tags (print_line p l) = subst_line (tag_value tags) p l.
Proof.
  intros [Hnd Ht]. revert p l. induction Ht as [|[k v] tags ((x & Ek & Hx) & Hlen & Hv) Ht IH]; intros p l Hl Hn.
  { clear. revert p. induction l as [|[n s] l IH]; intros p; cbn; [done|]. by rewrite <- IH. }
  cbn [fst snd] in Ek, Hlen, Hv. subst k. rewrite fmap_cons in Hnd. apply NoDup_cons in Hnd as [Hk Hnd].
  unfold expand_tags in *. cbn [fold_left fst snd] in *.
  assert (tag_value tags x = None) as Hnone.
  { unfold tag_value. destruct (List.find _ _) as [[k1 w]|] eqn:E; [|done]. apply find_some in E as [Hin E].
    apply bool_decide_eq_true in E. cbn in E. subst k1. exfalso. apply Hk, list_elem_of_fmap. exists (tag x, w). split; [reflexivity|by apply list_elem_of_In]. }
  destruct v as [v|].
  - rewrite replace_string_tag by done. cbn [default from_option id].
    destruct (replace_tag_names x v p l Hn) as [Hn' _].
    rewrite IH by (done || by apply replace_tag_ok).
    symmetry. apply subst_replace; [done|..].
    + unfold tag_value. cbn. by rewrite bool_decide_true.
    + intros n Hne. unfold tag_value. cbn. rewrite bool_decide_false; [done|]. intros E%tag_inj. congruence.
  - cbn [cc_oci_replace_string default from_option id]. rewrite IH by done. apply subst_line_ext, Forall_forall. intros n _.
    unfold tag_value at 2. cbn. case_bool_decide as E; [|done]. apply tag_inj in E. subst n. done.
Qed.
Definition trailing (c : cstr) : string := match c with None => EmptyString | Some t => String "#" t end.

(** A line without [#] keeps its text and a trailing comment goes. *)
Lemma comment_loop_cut s c fuel :
  str_free "#" s -> (c <> None -> exists t w, s = t +:+ String w EmptyString /\ glib_space w = true) ->
  Z.of_nat (String.length (s +:+ trailing c)) <= LINE_MAX ->
  match comment_loop (S fuel) (s +:+ trailing c) 0 with
  | None => s +:+ trailing c
  | Some p => str_take p (s +:+ trailing c)
  end = s.
Proof.
  intros Hs Hc Hlen. cbn [comment_loop]. cbn [str_drop]. rewrite g_strstr_len_long by done. destruct c as [t|]; cbn [trailing].
  - rewrite strstr_first by done. cbn [Nat.add]. destruct Hc as (a & w & Ea & Hw); [done|].
    replace (String.get (String.length s - 1) (s +:+ String "#" t)) with (Some w); [by rewrite g_ascii_isspace_spec, Hw, str_take_app|].
    subst s. rewrite str_length_app, str_app_assoc. cbn [String.length]. rewrite Nat.add_sub.
    clear. induction a; [done|]. cbn. done.
  - rewrite str_app_nil_r, strstr_free by done. done.
Qed.

Lemma special_tags_ok config v p size uuid name :
  Forall (str_free at_sign) (omap snd (special_tags config v p size uuid name)) ->
  table_ok (special_tags config v p size uuid name).
Proof.
  intros H. split.
  { unfold special_tags. cbn [fmap list_fmap fst]. apply (bool_decide_unpack _). vm_compute. done. }
  apply Forall_forall. intros [k w] Hin. split; [|split].
  - unfold special_tags in Hin. clear H.
    assert (forall q, k = tag q -> tag_name q -> exists n, fst (k, w) = tag n /\ tag_name n) as Hk by (intros q ? ?; by exists q).
    rewrite !elem_of_cons in Hin.
    destruct_or? Hin; try injection Hin as -> _;
      [apply (Hk "WORKLOAD_DIR")|apply (Hk "KERNEL")|apply (Hk "KERNEL_PARAMS")|apply (Hk "KERNEL_NET_PARAMS")
      |apply (Hk "IMAGE")|apply (Hk "SIZE")|apply (Hk "COMMS_SOCKET")|apply (Hk "PROCESS_SOCKET")
      |apply (Hk "CONSOLE_DEVICE")|apply (Hk "NAME")|apply (Hk "UUID")|apply (Hk "AGENT_CTL_SOCKET")
      |apply (Hk "AGENT_TTY_SOCKET")|by apply not_elem_of_nil in Hin]; (done || (repeat constructor)).
  - unfold special_tags in Hin. rewrite !elem_of_cons in Hin.
    destruct_or? Hin; try (injection Hin as -> _; cbn; lia). by apply not_elem_of_nil in Hin.
  - destruct w as [w|]; [|done]. cbn [snd]. rewrite Forall_forall in H. apply H, list_elem_of_omap. by exists (k, Some w).
Qed.

(** C37.  Expanding a line of the hypervisor's argument file substitutes the
    program's table: every tag that the container has a value for becomes
    that value, wherever it stands, tags without a value and the text between
    tags stay, and a trailing comment goes. The values hold no at sign, no
    tag occurs twice, and two tags have a separator between them. *)
Theorem template_expansion config v p size uuid name pre l c :
  let tags := special_tags config v p size uuid name in
  let line := print_line pre l in
  Forall (str_free at_sign) (omap snd tags) ->
  line_ok pre l -> NoDup l.*1 -> str_free "#" line ->
  (c <> None -> exists t w, line = t +:+ String w EmptyString /\ glib_space w = true) ->
  Z.of_nat (String.length (line +:+ trailing c)) <= LINE_MAX ->
  expand_arg tags (line +:+ trailing c) = subst_line (tag_value tags) pre l.
Proof.
  intros tags line Hv Hl Hn Hs Hc Hlen. unfold expand_arg. rewrite bool_decide_false.
  - rewrite comment_loop_cut by done. apply expand_tags_line; [|done..]. by apply special_tags_ok.
  - destruct line as [|a line']; [|by apply str_free_cons in Hs as [Ha _]; intros [= ->]].
    destruct c; [|done]. destruct Hc as (t & w & E & _); [done|]. by destruct t.
Qed.
End template.

Definition sample_config : cc_oci_config := set_proxy (Some cc_proxy_zero) cc_oci_config_zero.
Definition sample_vm : cc_oci_vm_cfg := VmCfg "/bin/qemu" "/img" "/vmlinuz" EmptyString (Some "root=/dev/pmem0p1") 0.

Lemma template_expansion_witness :
  expand_arg (GL := glib_ref) (special_tags sample_config sample_vm cc_proxy_zero 1024 "u-1" "n")
    "-append @KERNEL_PARAMS@ @KERNEL_NET_PARAMS@ # kernel" = "-append root=/dev/pmem0p1 @KERNEL_NET_PARAMS@ ".
Proof.
  apply (template_expansion (GL := glib_ref) sample_config sample_vm cc_proxy_zero 1024 "u-1" "n"
           "-append " [("KERNEL_PARAMS", " "); ("KERNEL_NET_PARAMS", " ")] (Some " kernel")).
  - vm_compute. repeat constructor; discriminate.
  - cbn. repeat split; [repeat constructor; discriminate|repeat constructor|right; by constructor
      |repeat constructor; discriminate|repeat constructor|by left|repeat constructor; discriminate].
  - apply (bool_decide_unpack _). vm_compute. done.
  - vm_compute. repeat constructor; discriminate.
  - intros _. by exists "-append @KERNEL_PARAMS@ @KERNEL_NET_PARAMS@", " "%char.
  - vm_compute. discriminate.
Defined.

(** Without a separator the text between two tags is taken for a tag. *)
Lemma text_between_tags_replaced :
  expand_arg (GL := glib_ref) (special_tags sample_config sample_vm cc_proxy_zero 1024 "u-1" "n")
    "@IMAGE@KERNEL@SIZE@" = "@IMAGE/vmlinuzSIZE@".
Proof. reflexivity. Qed.

(** A tag that occurs twice is expanded once. *)
Lemma second_occurrence_stays :
  expand_arg (GL := glib_ref) (special_tags sample_config sample_vm cc_proxy_zero 1024 "u-1" "n")
    "@SIZE@,@SIZE@" = "1024,@SIZE@".
Proof. reflexivity. Qed.

(** A line of white space is not empty when the empty ones are dropped: it
    becomes an empty argument. *)
Lemma blank_line_is_an_argument : g_strstrip (GLib := glib_ref) <$> List.filter str_nonempty [" "; EmptyString; "-a "] = [EmptyString; "-a"].
Proof. reflexivity. Qed.
