(* ===== verification/Logging.v ===== *)
(** * Log messages (src/src/logging.c)

    The handler that receives every message of the program, the files it
    appends to, the fallback to syslog, and the redirection of the
    hypervisor's output.  The system's description of an error is left out of
    the fallback's text. *)

From S2P Require Import Prelude GLib GLibRef Sys Types Util Config.

Definition G_LOG_DOMAIN : string := "cc-oci-runtime".
Definition CC_OCI_LOGFILE_MODE : Z := 416.      (* 0640 *)
Definition CC_OCI_LOG_BUFSIZE : nat := 1024.
Definition HYPERVISOR_STDOUT_FILE : string := "hypervisor.stdout".
Definition HYPERVISOR_STDERR_FILE : string := "hypervisor.stderr".
(** [O_CREAT | O_APPEND | O_WRONLY | O_CLOEXEC] *)
Definition LOG_OPEN_FLAGS : Z := 525377.
Definition G_IO_STATUS_NORMAL : Z := 1.

(** [struct cc_log_options]. *)
Record cc_log_options := LogOptions {
  enable_debug : bool; filename : cstr; global_logfile : cstr; opt_hypervisor_log_dir : cstr; use_json : bool
}.

(** [GLogLevelFlags], the single levels and everything else. *)
Inductive log_level :=
| G_LOG_LEVEL_ERROR | G_LOG_LEVEL_CRITICAL | G_LOG_LEVEL_WARNING | G_LOG_LEVEL_MESSAGE | G_LOG_LEVEL_INFO
| G_LOG_LEVEL_DEBUG | G_LOG_LEVEL_OTHER.
#[export] Instance log_level_eq : EqDecision log_level.
Proof. solve_decision. Defined.

Definition level_name (l : log_level) : string :=
  match l with
  | G_LOG_LEVEL_ERROR => "error" | G_LOG_LEVEL_CRITICAL => "critical" | G_LOG_LEVEL_WARNING => "warning"
  | G_LOG_LEVEL_MESSAGE => "message" | G_LOG_LEVEL_INFO => "info" | G_LOG_LEVEL_DEBUG => "debug"
  | G_LOG_LEVEL_OTHER => "error"
  end.

(** The static [hypervisor_log_dir], as [cc_oci_log_init] leaves it. *)
Class HypervisorLogs := hypervisor_log_dir : cstr.

Section logging.
Context `{GL : GLib}.

(** The text is cut to the buffer; its last byte is always the terminator,
    so the test for an overrun never holds. *)
Definition cc_oci_error (file : string) (line_number : Z) (function text : string) : io unit :=
  _ ← call_ (Csyslog (file +:+ ":" +:+ fmt_d line_number +:+ ":" +:+ function +:+ ":"
                      +:+ str_take (CC_OCI_LOG_BUFSIZE - 1) text));
  mret tt.

Definition cc_oci_log_to_json (timestamp level message : string) : cstr :=
  cc_oci_json_obj_to_string
    (Some [("level", JString level); ("mesg", JString message); ("time", JString timestamp)]) false.

Definition cc_oci_msg_fmt (log_domain : cstr) (log_level message timestamp : string) (use_json : bool) : io cstr :=
  if use_json then
    mret ((fun s => s +:+ newline) <$> cc_oci_log_to_json timestamp log_level message)
  else
    pid ← call_ Cgetpid;
    mret (Some (timestamp +:+ ":" +:+ fmt_d (u32 pid) +:+ ":" +:+ default EmptyString log_domain +:+ ":"
                +:+ log_level +:+ ":" +:+ message +:+ newline)).

(** The descriptor is closed by the channel and again at the end. *)
Definition cc_oci_log_msg_write (filename message : string) : io bool :=
  fd ← call_ (Copen_flags filename LOG_OPEN_FLAGS CC_OCI_LOGFILE_MODE);
  if bool_decide (fd < 0) then
    _ ← cc_oci_error "logging.c" 249 "cc_oci_log_msg_write" ("failed to open logfile " +:+ filename +:+ " for writing");
    _ ← (if bool_decide (fd <> -1) then call_ (Cclose fd) else mret 0 : io Z);
    mret false
  else
    let fail line what :=
      (_ ← cc_oci_error "logging.c" line "cc_oci_log_msg_write" what; _ ← call_ (Cclose fd); mret false) in
    status ← call_ (Cwrite_chars fd message);
    if bool_decide (status <> G_IO_STATUS_NORMAL) then
      (* an interrupted write has no error to print *)
      if bool_decide (status = 0) then fail 269 "failed to write to I/O channel" else Halt NullDeref
    else
      status ← call_ (Cchannel_shutdown fd);
      if bool_decide (status <> G_IO_STATUS_NORMAL) then
        if bool_decide (status = 0) then fail 279 "failed to close I/O channel" else Halt NullDeref
      else _ ← call_ (Cclose fd); mret true.

(** The part after the messages that nobody wants were sorted out. *)
Definition log_message (log_domain : cstr) (l : log_level) (message : string) (options : cc_log_options) : io unit :=
  let level := level_name l in
  timestamp ← call_ Ciso8601;
  match timestamp with
  | None => mret tt
  | Some timestamp =>
      final ← cc_oci_msg_fmt log_domain level message timestamp (use_json options);
      match final with
      | None => cc_oci_error "logging.c" 395 "cc_oci_log_handler" "failed to format log entry"
      | Some final =>
          next ← match global_logfile options with
                 | None => mret (Some final)
                 | Some file =>
                     final ← (if use_json options then cc_oci_msg_fmt log_domain level message timestamp false
                              else mret (Some final) : io cstr);
                     match final with
                     | None => mret None
                     | Some final =>
                         ret ← cc_oci_log_msg_write file final;
                         mret (if ret : bool then Some final else None)
                     end
                 end : io cstr;
          match next with
          | None => mret tt
          | Some final =>
              _ ← (if bool_decide (l = G_LOG_LEVEL_ERROR \/ l = G_LOG_LEVEL_CRITICAL)
                   then call_ (Cstderr (final +:+ newline)) else mret 0 : io Z);
              if bool_decide (l = G_LOG_LEVEL_DEBUG) && negb (enable_debug options) then mret tt
              else
                match filename options with
                | None => mret tt
                | Some file => _ ← cc_oci_log_msg_write file final; mret tt
                end
          end
      end
  end.

Definition cc_oci_log_handler (log_domain : cstr) (l : log_level) (message : string) (options : cc_log_options)
    : io unit :=
  match filename options, global_logfile options with
  | None, None => mret tt
  | _, None =>
      if bool_decide (l = G_LOG_LEVEL_DEBUG) && negb (enable_debug options) then mret tt
      else log_message log_domain l message options
  | _, Some _ => log_message log_domain l message options
  end.

(** The new value of the static, and success. *)
Definition cc_oci_log_init (options : cc_log_options) : io (bool * cstr) :=
  match global_logfile options with
  | None => mret (true, opt_hypervisor_log_dir options)
  | Some file =>
      ret ← call_ (Cg_mkdir_with_parents (g_path_get_dirname file) CC_OCI_DIR_MODE);
      if bool_decide (ret <> 0) then mret (false, None) else mret (true, opt_hypervisor_log_dir options)
  end.

(** One stream of the hypervisor. *)
Definition redirect_output (dir : string) (id : cstr) (file : string) (std_fd : Z) : io bool :=
  let std_file_name := match id with None => EmptyString | Some id => id +:+ "-" +:+ file end in
  fd ← call_ (Ccreat (g_build_path dir std_file_name) CC_OCI_LOGFILE_MODE);
  if bool_decide (fd < 0) then mret false
  else
    r ← call_ (Cdup2 fd std_fd);
    _ ← call_ (Cclose fd);
    mret (negb (bool_decide (r < 0))).

Context `{HL : HypervisorLogs}.

Definition cc_oci_setup_hypervisor_logs (config : cc_oci_config) : io bool :=
  match hypervisor_log_dir with
  | None => mret true
  | Some dir =>
      match vm config with
      | None => mret false
      | Some v =>
          pid ← call_ Cgetpid;
          if bool_decide (vm_pid v <> pid) then mret false
          else
            r ← call_ (Cg_mkdir_with_parents dir CC_OCI_DIR_MODE);
            if bool_decide (r <> 0) then mret false
            else
              ok ← redirect_output dir (optarg_container_id config) HYPERVISOR_STDOUT_FILE 1;
              if negb ok then mret false
              else redirect_output dir (optarg_container_id config) HYPERVISOR_STDERR_FILE 2
      end
  end.

End logging.

(** ** What is logged where *)

(** A system where every call succeeds: the file behind the last descriptor
    opened, and what was appended to files and printed, in order. *)
Record log_world := LogWorld { open_file : cstr; appended : list (string * string) }.

Definition log_disk (timestamp : string) (pid : Z) : handler log_world := fun c w =>
  match c return reply c * log_world with
  | Ciso8601 => (Some timestamp, w)
  | Cgetpid => (pid, w)
  | Copen_flags path _ _ => (7, LogWorld (Some path) (appended w))
  | Cwrite_chars _ text =>
      (G_IO_STATUS_NORMAL, LogWorld (open_file w) (appended w ++ [(default EmptyString (open_file w), text)]))
  | Cchannel_shutdown _ => (G_IO_STATUS_NORMAL, w)
  | Cstderr text => (0, LogWorld (open_file w) (appended w ++ [("stderr", text)]))
  | c => (fail_reply c, w)
  end.

Section log_facts.
Context `{GL : GLib}.

Definition ascii_entry (domain : cstr) (l : log_level) (message timestamp : string) (pid : Z) : string :=
  timestamp +:+ ":" +:+ fmt_d (u32 pid) +:+ ":" +:+ default EmptyString domain +:+ ":" +:+ level_name l
  +:+ ":" +:+ message +:+ newline.

Definition json_entry (l : log_level) (message timestamp : string) : string :=
  json_generator_to_data
    (JObject [("level", JString (level_name l)); ("mesg", JString message); ("time", JString timestamp)]) false
  +:+ newline.

Definition wanted (l : log_level) (o : cc_log_options) : bool :=
  enable_debug o || negb (bool_decide (l = G_LOG_LEVEL_DEBUG)).

(** The entries for a message: the global log first, then the standard error
    for serious messages, then the log of the container. *)
Definition entries (domain : cstr) (l : log_level) (message timestamp : string) (pid : Z) (o : cc_log_options)
    : list (string * string) :=
  let plain := ascii_entry domain l message timestamp pid in
  let text := if use_json o && negb (bool_decide (is_Some (global_logfile o))) then json_entry l message timestamp else plain in
  if bool_decide (filename o = None /\ global_logfile o = None) then []
  else
    match global_logfile o with None => [] | Some g => [(g, plain)] end
    ++ (if bool_decide (l = G_LOG_LEVEL_ERROR \/ l = G_LOG_LEVEL_CRITICAL) then [("stderr", text +:+ newline)] else [])
    ++ match filename o with Some f => if wanted l o then [(f, text)] else [] | None => [] end.

(** Every message goes where the options say.  When the files can be
    written, the handler appends one line to the global log if there is one,
    prints serious messages on the standard error, appends one line to the
    container's log unless it is a debug message and debugging is off, in
    this order, and does nothing else.  The global line is plain text; the
    others are JSON if that is asked for and there is no global log. *)
Theorem log_handler_entries domain l message o timestamp pid file seen :
  exists file',
    run (log_disk timestamp pid) (cc_oci_log_handler domain l message o) (LogWorld file seen) =
      (Done tt, LogWorld file' (seen ++ entries domain l message timestamp pid o)).
Proof.
  destruct o as [debug [f|] [g|] dir json]; destruct json, l, debug;
    (eexists; lazy -[fmt_d wrapu String.append json_generator_to_data app newline]; rewrite <- ?app_assoc, ?app_nil_r; reflexivity).
Qed.
End log_facts.

(** With a global log the container's log is not in JSON, whatever the
    options say. *)
Example json_log_is_plain :
  run (log_disk "T" 3) (cc_oci_log_handler (GL := glib_ref) None G_LOG_LEVEL_INFO "m" (LogOptions false (Some "/f") (Some "/g") None true))
    (LogWorld None []) =
  (Done tt, LogWorld (Some "/f") [("/g", "T:3::info:m" +:+ newline); ("/f", "T:3::info:m" +:+ newline)]).
Proof. vm_compute. reflexivity. Qed.
