(* ===== verification/Process.v ===== *)
(** * Processes: hooks, the shim and the hypervisor (src/src/process.c, pod.c)

    [fork] is a call that returns 0 in the executions of the child and the
    pid in those of the parent; a child that replaces its image ends its
    execution with [Execed].  Integers sent over pipes are four bytes, least
    significant first.  The functions with a label [out] are sequences of
    steps on the variables that the code after the label reads; a step that
    jumps there ends the sequence. *)

From S2P Require Import Prelude GLib GLibRef Sys Types Util Semver Config State Wire Networking Proxy Hypervisor Logging.

Definition CC_OCI_SHIM_LOCK_FILE : string := ".shim-flock".
Definition FD_DIR : string := "/proc/self/fd".
Definition ARG_MAX : Z := 131072.
Definition EPIPE : Z := 32.
(** [O_RDWR | O_NOCTTY], [O_RDONLY | O_CREAT], [S_IRUSR] *)
Definition TTY_OPEN_FLAGS : Z := 258.
Definition FLOCK_OPEN_FLAGS : Z := 64.
Definition S_IRUSR : Z := 256.

(** ** Integers in memory *)

Fixpoint le_bytes (n : nat) (z : Z) : string :=
  match n with
  | O => EmptyString
  | S n => String (byte_of z) (le_bytes n (z / 256))
  end.

Fixpoint le_val (s : string) : Z :=
  match s with
  | EmptyString => 0
  | String c s => byte_val c + 256 * le_val s
  end.

Definition int_bytes (z : Z) : string := le_bytes 4 (u32 z).

(** An [int] whose first bytes were overwritten by those read. *)
Definition int_read (old : Z) (s : string) : Z :=
  s32 (le_val (str_take 4 (s +:+ str_drop (String.length s) (int_bytes old)))).

(** ** Sequences of steps *)

(** Run the steps until one says to leave. *)
Fixpoint steps {V} (l : list (V -> io (bool * V))) (v : V) : io V :=
  match l with
  | [] => mret v
  | s :: l => '(go, v) ← s v; if go : bool then steps l v else mret v
  end.

(** ** Children *)

(** [close (fd)] unless it is unset. *)
Definition close_set (fd : Z) : io unit :=
  if bool_decide (fd = -1) then mret tt else _ ← call_ (Cclose fd); mret tt.

(** One entry of the directory of descriptors. *)
Definition close_entry (keep : option (list Z)) (dirfd : Z) (name : string) : io unit :=
  if bool_decide (name = "." \/ name = "..") then mret tt
  else
    let fd := atoi name in
    if bool_decide (fd < 3) then mret tt
    else if bool_decide (fd ∈ default [] keep) then mret tt
    else if bool_decide (fd = dirfd) then mret tt
    else _ ← call_ (Cclose fd); mret tt.

Definition cc_oci_close_fds (keep : option (list Z)) : io bool :=
  dir ← call_ (Copendir FD_DIR);
  match dir with
  | None => mret false
  | Some (dirfd, names) =>
      _ ← io_fold (fun _ name => close_entry keep dirfd name) names tt;
      r ← call_ (Cclosedir dirfd);
      mret (negb (bool_decide (r < 0)))
  end.

(** What a child that failed does: one byte on the error pipe, then exit. *)
Definition child_failed {A} (err_fd : Z) : io A :=
  _ ← call_ (Cwrite err_fd "E"); Halt (Exited 1).

(** [execvp] and what follows when it returns. *)
Definition exec_or_abort {A} (argv : list string) : io A :=
  r ← call_ (Cexecvp argv);
  if bool_decide (r < 0) then Halt Aborted else Halt (Execed argv).

Definition cc_oci_setup_shim (config : cc_oci_config) (proxy_fd proxy_io_fd shim_flock_fd : Z) : io bool :=
  if bool_decide (proxy_fd < 0 \/ proxy_io_fd < 0 \/ shim_flock_fd < 0) then mret false
  else
    _ ← call_ Csetsid;
    let keep := Some [proxy_fd; proxy_io_fd; shim_flock_fd] in
    match terminal (process (oci config)), console config with
    | true, Some console =>
        tty_fd ← call_ (Copen_flags console TTY_OPEN_FLAGS 0);
        if bool_decide (tty_fd = -1) then mret false
        else
          let out ret := (_ ← (if bool_decide (2 < tty_fd) then call_ (Cclose tty_fd) else mret 0 : io Z); mret ret) in
          r ← call_ (Cdup2 tty_fd 0); if bool_decide (r < 0) then out false else
          r ← call_ (Cdup2 tty_fd 1); if bool_decide (r < 0) then out false else
          r ← call_ (Cdup2 tty_fd 2); if bool_decide (r < 0) then out false else
          r ← call_ (Ctiocsctty 0); if bool_decide (r < 0) then out false else
          _ ← cc_oci_close_fds keep;
          out true
    | _, _ => _ ← cc_oci_close_fds keep; mret true
    end.

(** Whether a connection could be made of the descriptor. *)
Definition cc_oci_socket_connection_from_fd (fd : Z) : io bool :=
  if bool_decide (fd < 0) then mret false else call_ (Csocket_from_fd fd).

Section process.
Context `{GL : GLib} `{BD : Build} `{SP : StartPaths} `{RF : RecvFuel} `{NF : NlFuel} `{HL : HypervisorLogs}.

Definition CC_OCI_SHIM : string := LIBEXECDIR +:+ "/cc-shim".

Definition cc_oci_setup_child (config : cc_oci_config) : io bool :=
  _ ← call_ Csetsid;
  ok ← (if detached_mode config then mret true else cc_oci_close_fds None : io bool);
  if negb ok then mret false else cc_oci_setup_hypervisor_logs config.

(** ** Hooks *)

(** The file to run, then its [argv]. *)
Definition hook_argv (h : oci_cfg_hook) : list string :=
  hook_path h :: match hook_args h with Some l => l | None => [hook_path h] end.

Definition close_outputs (std_out std_err : Z) : io unit := _ ← close_set std_out; close_set std_err.

(** The hook with the loop of all hooks; [watched] are the children of earlier
    hooks whose watch is still there, whose variable is gone.  The result, and
    the children that stay watched. *)

(** A write to the hook that failed: a hook that does not read is no error. *)
Definition hook_failed (watched : list Z) (pid std_out std_err : Z) : io (bool * list Z) :=
  e ← call_ Cerrno; _ ← close_outputs std_out std_err;
  mret (bool_decide (e = EPIPE), watched ++ [pid]).

(** The hook has its input: wait for its end. *)
Definition hook_wait (watched : list Z) (pid std_in std_out std_err : Z) : io (bool * list Z) :=
  _ ← call_ (Cclose std_in);
  '(ended, status) ← call_ (Cchild_exit (watched ++ [pid]));
  if bool_decide (ended <> pid) then Halt BadAccess
  else
    _ ← close_outputs std_out std_err;
    mret (bool_decide (status = 0), watched).

Definition cc_run_hook (watched : list Z) (h : oci_cfg_hook) (container_state : string) : io (bool * list Z) :=
  if negb (str_nonempty container_state) then mret (false, watched)
  else
    p ← call_ (Cspawn (hook_argv h) (hook_env h));
    match p with
    | None => mret (false, watched)
    | Some (pid, std_in, std_out, std_err) =>
        (* the copy ends at the first NUL, the length does not *)
        if bool_decide (c_str container_state <> container_state) then Halt BadAccess
        else
          r ← call_ (Cwrite std_in (g_strdelimit container_state newline " "));
          if bool_decide (r < 0) then hook_failed watched pid std_out std_err
          else
            r ← call_ (Cwrite std_in newline);
            if bool_decide (r < 0) then hook_failed watched pid std_out std_err
            else hook_wait watched pid std_in std_out std_err
    end.

(** What the main loop dispatches while a hook runs: a condition on one of its
    outputs, with the line that is read, or its end. *)
Inductive loop_event := HookOutput (hup_only : bool) (stream : Z) (line : cstr) | HookExit (status : Z).

(** Whether the watch stays, and what is logged. *)
Definition cc_oci_output_watcher (hup_only : bool) (stream : Z) (line : cstr) : bool * list (log_level * string) :=
  if hup_only then (false, [])
  else (true, [(if bool_decide (stream = 1) then G_LOG_LEVEL_MESSAGE else G_LOG_LEVEL_WARNING, default EmptyString line)]).

(** [cc_oci_hook_watcher] gives the status and ends the loop; the outputs that are
    watched, what was logged, and the status, if the hook ended. *)
Fixpoint hook_main_loop (streams : list Z) (l : list loop_event) : list (log_level * string) * option Z :=
  match l with
  | [] => ([], None)
  | HookExit status :: _ => ([], Some status)
  | HookOutput hup_only stream line :: l =>
      if bool_decide (stream ∈ streams) then
        let '(stays, log) := cc_oci_output_watcher hup_only stream line in
        let '(logs, status) := hook_main_loop (if stays then streams else list_difference streams [stream]) l in
        (log ++ logs, status)
      else hook_main_loop streams l
  end.

Fixpoint hooks_loop (watched : list Z) (l : list oci_cfg_hook) (container_state : string) (stop_on_failure : bool)
    : io bool :=
  match l with
  | [] => mret true
  | h :: l =>
      '(ok, watched) ← cc_run_hook watched h container_state;
      if negb ok && stop_on_failure then mret false else hooks_loop watched l container_state stop_on_failure
  end.

Definition cc_run_hooks (l : list oci_cfg_hook) (state_file : string) (stop_on_failure : bool) : io bool :=
  match l with
  | [] => mret true
  | _ =>
      container_state ← call_ (Cg_file_get_contents state_file);
      match container_state with
      | None => mret false
      | Some container_state => hooks_loop [] l container_state stop_on_failure
      end
  end.

(** ** The shim *)

(** Both ends of the two pipes and of the socket pair. *)
Record shim_pipes := ShimPipes { err0 : Z; err1 : Z; args0 : Z; args1 : Z; sock0 : Z; sock1 : Z }.

Definition shim_argv (config : cc_oci_config) (proxy_socket_fd proxy_io_fd proxy_io_base : Z) : list string :=
  match optarg_container_id config with
  (* a NULL element ends the vector *)
  | None => [default CC_OCI_SHIM start_shim_path; "-c"]
  | Some id =>
      [default CC_OCI_SHIM start_shim_path; "-c"; id; "-p"; fmt_d proxy_socket_fd; "-o"; fmt_d proxy_io_fd;
       "-s"; fmt_d proxy_io_base]
      ++ (if terminal (process (oci config)) then [] else ["-e"; fmt_d (s32 (proxy_io_base + 1))])
  end.

Definition shim_failed {A} (q : shim_pipes) : io A :=
  _ ← call_ (Cclose (args0 q)); _ ← call_ (Cclose (sock0 q)); child_failed (err1 q).

(** The child when the ends it does not use are closed and it has what the
    parent sent. *)
Definition shim_exec (config : cc_oci_config) (q : shim_pipes) (initial_workload : bool)
    (proxy_socket_fd proxy_io_base proxy_io_fd shim_flock_fd : Z) : io unit :=
  _ ← call_ (Cclose (args0 q));
  _ ← call_ (Cclose (sock0 q));
  let q := ShimPipes (err0 q) (err1 q) (-1) (args1 q) (-1) (sock1 q) in
  if bool_decide (proxy_socket_fd < 0) then shim_failed q
  else
    '(ok, proxy_socket_fd) ← dup_over_stdio proxy_socket_fd;
    if negb (ok : bool) then shim_failed q
    else
      '(ok, proxy_io_fd) ← dup_over_stdio proxy_io_fd;
      if negb (ok : bool) then shim_failed q
      else
        '(ok, shim_flock_fd) ← dup_over_stdio shim_flock_fd;
        if negb (ok : bool) then shim_failed q
        else
          _ ← cc_oci_fd_toggle_cloexec proxy_socket_fd false;
          _ ← cc_oci_fd_toggle_cloexec proxy_io_fd false;
          _ ← cc_oci_fd_toggle_cloexec shim_flock_fd false;
          r ← (if initial_workload then call_ (Cflock shim_flock_fd) else mret 0 : io Z);
          if bool_decide (r < 0) then shim_failed q
          else
            ok ← cc_oci_setup_shim config proxy_socket_fd proxy_io_fd shim_flock_fd;
            if negb ok then shim_failed q
            else exec_or_abort (shim_argv config proxy_socket_fd proxy_io_fd proxy_io_base).

(** The child: it waits for what the parent sends. *)
Definition shim_child (config : cc_oci_config) (q : shim_pipes) (initial_workload : bool) (shim_flock_fd : Z) : io unit :=
  _ ← call_ (Cclose (err0 q));
  _ ← call_ (Cclose (args1 q));
  _ ← call_ (Cclose (sock1 q));
  bytes ← call_ (Cread (args0 q) 4);
  match bytes with
  | None | Some EmptyString => shim_failed q
  | Some b1 =>
      bytes ← call_ (Cread (args0 q) 4);
      match bytes with
      | None | Some EmptyString => shim_failed q
      | Some b2 =>
          ok ← cc_oci_socket_connection_from_fd (sock0 q);
          if negb ok then shim_failed q
          else
            proxy_io_fd ← call_ (Creceive_fd (sock0 q));
            if bool_decide (proxy_io_fd < 0) then shim_failed q
            else shim_exec config q initial_workload (int_read (-1) b1) (int_read (-1) b2) proxy_io_fd shim_flock_fd
      end
  end.

(** What [cc_shim_launch] gives its caller through pointers: the error pipe,
    the argument pipe and the socket. *)
Record shim_fds := ShimFds { shim_err_fd : Z; shim_args_fd : Z; shim_socket_fd : Z }.
Definition shim_fds_unset : shim_fds := ShimFds (-1) (-1) (-1).

(** The code after [out]: the ends of the child are closed, set or not. *)
Definition shim_launch_out (q : shim_pipes) (shim_flock_fd : Z) : io unit :=
  _ ← call_ (Cclose (err1 q)); _ ← call_ (Cclose (args0 q)); _ ← call_ (Cclose (sock0 q));
  if bool_decide (-1 < shim_flock_fd) then _ ← call_ (Cclose shim_flock_fd); mret tt else mret tt.

Definition cc_shim_launch (config : cc_oci_config) (initial_workload : bool) : io (bool * cc_oci_config * shim_fds) :=
  match proxy config with
  | None => mret (false, config, shim_fds_unset)
  | Some _ =>
      let fail q flock := (_ ← shim_launch_out q flock; mret (false, config, shim_fds_unset)) in
      r ← call_ Cpipe2;
      match r with
      | None => fail (ShimPipes (-1) (-1) (-1) (-1) (-1) (-1)) (-1)
      | Some (e0, e1) =>
          r ← call_ Cpipe2;
          match r with
          | None => fail (ShimPipes e0 e1 (-1) (-1) (-1) (-1)) (-1)
          | Some (a0, a1) =>
              r ← call_ Csocketpair;
              match r with
              | None => fail (ShimPipes e0 e1 a0 a1 (-1) (-1)) (-1)
              | Some (s0, s1) =>
                  let q := ShimPipes e0 e1 a0 a1 s0 s1 in
                  flock ← call_ (Copen_flags (runtime_path (state config) +:+ "/" +:+ CC_OCI_SHIM_LOCK_FILE)
                                   FLOCK_OPEN_FLAGS S_IRUSR);
                  if bool_decide (flock < 0) then fail q flock
                  else
                    pid ← call_ Cfork;
                    let config := set_state (set_workload_pid pid (state config)) config in
                    if bool_decide (pid < 0) then
                      _ ← shim_launch_out q flock; mret (false, config, shim_fds_unset)
                    else
                      _ ← (if bool_decide (pid = 0) then shim_child config q initial_workload flock else mret tt);
                      _ ← shim_launch_out q flock;
                      mret (true, config, ShimFds e0 a1 s1)
              end
          end
      end
  end.

(** The descriptor of the connection to the proxy, [-1] without one. *)
Definition proxy_fd_of (config : cc_oci_config) : Z := default (-1) (proxy config ≫= socket).

(** The streams of the process: with a terminal there is no error stream. *)
Definition save_io_base (ioBase : Z) (config : cc_oci_config) : cc_oci_config :=
  let pr := set_stdio_stream ioBase (process (oci config)) in
  let pr := set_stderr_stream (if terminal pr then 0 else s32 (ioBase + 1)) pr in
  set_oci (set_process pr (oci config)) config.

Definition cc_oci_exec_shim (config : cc_oci_config) (ioBase proxy_io_fd : Z) (initial_workload : bool)
    : io (bool * cc_oci_config) :=
  '(ok, config, f) ← cc_shim_launch config initial_workload;
  let out ret :=
    (_ ← close_set (shim_err_fd f); _ ← close_set (shim_args_fd f); _ ← close_set (shim_socket_fd f);
     _ ← (if ret : bool then mret 0 else call_ (Ckill (workload_pid (state config)) SIGTERM) : io Z);
     mret (ret, config)) in
  if negb (ok : bool) then out false
  else
    let proxy_fd := proxy_fd_of config in
    if bool_decide (proxy_fd < 0) then out false
    else
      r ← call_ (Cwrite (shim_args_fd f) (int_bytes proxy_fd));
      if bool_decide (r < 0) then out false
      else
        r ← call_ (Cwrite (shim_args_fd f) (int_bytes ioBase));
        if bool_decide (r < 0) then out false
        else
          ok ← cc_oci_socket_connection_from_fd (shim_socket_fd f);
          if negb ok then out false
          else
            ok ← call_ (Csend_fd (shim_socket_fd f) proxy_io_fd);
            if negb ok then out false
            else
              bytes ← call_ (Cread (shim_err_fd f) 2);
              out (bool_decide (bytes = None \/ bytes = Some EmptyString)).

(** ** The hypervisor *)

(** The variables [cc_oci_vm_launch] reads after [out]. *)
Record launch := Launch {
  l_config : cc_oci_config; l_ret : bool; hyp0 : Z; hyp1 : Z; cerr0 : Z; cerr1 : Z; l_shim : shim_fds;
  l_hndl : option netlink_handle
}.
Definition set_l_config (c : cc_oci_config) (v : launch) : launch :=
  Launch c (l_ret v) (hyp0 v) (hyp1 v) (cerr0 v) (cerr1 v) (l_shim v) (l_hndl v).
Definition set_l_ret (r : bool) (v : launch) : launch :=
  Launch (l_config v) r (hyp0 v) (hyp1 v) (cerr0 v) (cerr1 v) (l_shim v) (l_hndl v).
Definition set_l_shim (f : shim_fds) (v : launch) : launch :=
  Launch (l_config v) (l_ret v) (hyp0 v) (hyp1 v) (cerr0 v) (cerr1 v) f (l_hndl v).
Definition set_l_hndl (h : option netlink_handle) (v : launch) : launch :=
  Launch (l_config v) (l_ret v) (hyp0 v) (hyp1 v) (cerr0 v) (cerr1 v) (l_shim v) h.
Definition set_l_pipes (h0 h1 e0 e1 : Z) (v : launch) : launch :=
  Launch (l_config v) (l_ret v) h0 h1 e0 e1 (l_shim v) (l_hndl v).

Definition launch_pipes (v : launch) : io (bool * launch) :=
  r ← call_ Cpipe2;
  match r with
  | None => mret (false, v)
  | Some (e0, e1) =>
      r ← call_ Cpipe2;
      match r with
      | None => mret (false, set_l_pipes (-1) (-1) e0 e1 v)
      | Some (h0, h1) => mret (true, set_l_pipes h0 h1 e0 e1 v)
      end
  end.

(** The child reads the length and the arguments, one per line. *)
Definition hypervisor_child (config : cc_oci_config) (h0 h1 e0 e1 : Z) : io unit :=
  pid ← call_ Cgetpid;
  let config := set_vm (set_vm_pid pid <$> vm config) config in
  _ ← call_ (Cclose h1);
  _ ← call_ (Cclose e0);
  '(ok, p) ← match proxy config with
             | None => mret (false, None)
             | Some p => '(ok, p) ← cc_proxy_disconnect p; mret (ok, Some p)
             end;
  let config := set_proxy p config in
  if negb (ok : bool) then child_failed e1
  else
    bytes ← call_ (Cread h0 4);
    match bytes with
    | None => child_failed e1
    | Some b =>
        let len := int_read 0 b in
        if bool_decide (len < 0) then child_failed e1
        else if bool_decide (ARG_MAX <= len) then child_failed e1
        else
          bytes ← call_ (Cread h0 (Z.to_nat len));
          match bytes with
          | None => child_failed e1
          | Some b =>
              let args := g_strsplit_set (c_str b) newline (-1) in
              ok ← cc_oci_setup_child config;
              if negb ok then child_failed e1 else exec_or_abort args
          end
    end.

Definition launch_hypervisor (v : launch) : io (bool * launch) :=
  match vm (l_config v) with
  | None => Halt NullDeref
  | Some w =>
      pid ← call_ Cfork;
      let v := set_l_config (set_vm (Some (set_vm_pid pid w)) (l_config v)) v in
      if bool_decide (pid < 0) then mret (false, v)
      else
        _ ← (if bool_decide (pid = 0) then hypervisor_child (l_config v) (hyp0 v) (hyp1 v) (cerr0 v) (cerr1 v) else mret tt);
        _ ← call_ (Cclose (hyp0 v));
        _ ← call_ (Cclose (cerr1 v));
        mret (true, set_l_pipes (-1) (hyp1 v) (cerr0 v) (-1) v)
  end.

Definition launch_shim (v : launch) : io (bool * launch) :=
  '(ok, config, f) ← cc_shim_launch (l_config v) true;
  mret (ok, set_l_shim f (set_l_config config v)).

(** The state file is written before the hooks and again at the end. *)
Definition launch_state (timestamp : string) (v : launch) : io (bool * launch) :=
  '(ret, config) ← cc_oci_state_file_create (l_config v) (Some timestamp);
  mret (ret, set_l_ret ret (set_l_config config v)).

(** A failure is only logged. *)
Definition launch_prestart (v : launch) : io (bool * launch) :=
  _ ← cc_run_hooks (prestart (hooks (oci (l_config v)))) (state_file_path (state (l_config v))) true;
  mret (true, v).

Definition cc_oci_vm_netcfg_get (config : cc_oci_config) (hndl : netlink_handle) : io (bool * cc_oci_config) :=
  cc_oci_network_discover config hndl.

(** A failure jumps into the code of the child: the parent exits. *)
Definition launch_network (setup_networking : bool) (v : launch) : io (bool * launch) :=
  if negb setup_networking then mret (true, v)
  else
    hndl ← netlink_init;
    match hndl with
    | None => child_failed (cerr1 v)
    | Some h =>
        '(ok, config) ← cc_oci_vm_netcfg_get (l_config v) h;
        if negb (ok : bool) then child_failed (cerr1 v)
        else
          '(ok, h) ← cc_oci_network_create config h;
          if negb (ok : bool) then child_failed (cerr1 v)
          else mret (true, set_l_hndl (Some h) (set_l_config config v))
    end.

(** The length is in characters; so many bytes are sent. *)
Definition send_hypervisor_args (fd : Z) (args : list string) : io bool :=
  let hypervisor_args := join newline args in
  let len := s32 (g_utf8_strlen hypervisor_args (-1)) in
  r ← call_ (Cwrite fd (int_bytes len));
  if bool_decide (r < 0) then mret false
  else
    r ← call_ (Cwrite fd (str_take (Z.to_nat len) hypervisor_args));
    mret (negb (bool_decide (r < 0))).

Definition launch_args (v : launch) : io (bool * launch) :=
  '(args, config) ← cc_oci_vm_args_get (l_config v) (cc_oci_populate_extra_args (l_config v));
  let v := set_l_config config v in
  match args with
  | None => mret (false, set_l_ret false v)
  | Some args =>
      let v := set_l_ret true v in
      ok ← send_hypervisor_args (hyp1 v) args; mret (ok, v)
  end.

(** Anything that can be read means failure. *)
Definition child_reported (bytes : cstr) : bool := match bytes with Some (String _ _) => true | _ => false end.

Definition launch_check_child (v : launch) : io (bool * launch) :=
  bytes ← call_ (Cread (cerr0 v) 2);
  if child_reported bytes then mret (false, set_l_ret false v) else mret (true, v).

Definition launch_pod (v : launch) : io (bool * launch) :=
  ok ← cc_proxy_wait_until_ready (l_config v);
  if negb ok then mret (false, v)
  else ok ← cc_proxy_hyper_pod_create (l_config v); mret (ok, v).

(** The shim gets the proxy connection, the base of the streams and the
    descriptor for them. *)
Definition feed_shim (config : cc_oci_config) (ret : bool) (f : shim_fds) : io (bool * bool * cc_oci_config * shim_fds) :=
  match proxy config with
  | None => Halt NullDeref
  | Some p =>
      let proxy_fd := proxy_fd_of config in
      if bool_decide (proxy_fd < 0) then mret (false, ret, config, f)
      else
        r ← call_ (Cwrite (shim_args_fd f) (int_bytes proxy_fd));
        if bool_decide (r < 0) then mret (false, ret, config, f)
        else
          '(ok, io_fd, base) ← cc_proxy_cmd_allocate_io p (terminal (process (oci config)));
          if negb (ok : bool) then mret (false, ret, config, f)
          else
            let ioBase := default (-1) base in
            r ← call_ (Cwrite (shim_args_fd f) (int_bytes ioBase));
            if bool_decide (r < 0) then mret (false, ret, config, f)
            else
              ok ← cc_oci_socket_connection_from_fd (shim_socket_fd f);
              if negb ok then mret (false, ret, config, f)
              else
                ret ← call_ (Csend_fd (shim_socket_fd f) (default (-1) io_fd));
                if negb ret then mret (false, false, config, f)
                else
                  let config := save_io_base ioBase config in
                  _ ← call_ (Cclose (shim_args_fd f));
                  let f := ShimFds (shim_err_fd f) (-1) (shim_socket_fd f) in
                  bytes ← call_ (Cread (shim_err_fd f) 2);
                  if child_reported bytes then mret (false, false, config, f) else mret (true, true, config, f)
  end.

Definition launch_feed_shim (v : launch) : io (bool * launch) :=
  '(go, ret, config, f) ← feed_shim (l_config v) (l_ret v) (l_shim v);
  mret (go, set_l_shim f (set_l_ret ret (set_l_config config v))).

(** [ret = cc_proxy_disconnect (config->proxy)] *)
Definition disconnect (config : cc_oci_config) : io (bool * cc_oci_config) :=
  match proxy config with
  | None => mret (false, config)
  | Some p => '(ok, p) ← cc_proxy_disconnect p; mret (ok, set_proxy (Some p) config)
  end.

Definition launch_finish (v : launch) : io (bool * launch) :=
  '(ret, config) ← disconnect (l_config v);
  let v := set_l_ret ret (set_l_config config v) in
  match pid_file config with
  | None => mret (true, v)
  | Some f => ret ← cc_oci_create_pidfile (Some f) (workload_pid (state config)); mret (ret, set_l_ret ret v)
  end.

Definition launch_out (setup_networking : bool) (v : launch) : io (bool * cc_oci_config) :=
  _ ← close_set (hyp0 v); _ ← close_set (hyp1 v); _ ← close_set (cerr0 v); _ ← close_set (cerr1 v);
  _ ← close_set (shim_err_fd (l_shim v)); _ ← close_set (shim_args_fd (l_shim v));
  _ ← close_set (shim_socket_fd (l_shim v));
  _ ← (if setup_networking then netlink_close (l_hndl v) else mret tt);
  let pid := workload_pid (state (l_config v)) in
  _ ← (if negb (l_ret v) && bool_decide (0 < pid) then call_ (Ckill pid SIGKILL) else mret 0 : io Z);
  mret (l_ret v, l_config v).

Definition launch_steps (setup_networking : bool) (timestamp : string) : list (launch -> io (bool * launch)) :=
  [launch_pipes; launch_hypervisor; launch_shim; launch_state timestamp; launch_prestart;
   launch_network setup_networking; launch_args; launch_check_child; launch_pod; launch_feed_shim;
   launch_state timestamp; launch_finish].

Definition cc_oci_vm_launch (config : cc_oci_config) : io (bool * cc_oci_config) :=
  setup_networking ← cc_oci_enable_networking;
  timestamp ← call_ Ciso8601;
  let v0 c := Launch c false (-1) (-1) (-1) (-1) shim_fds_unset None in
  match timestamp with
  | None => launch_out setup_networking (v0 config)
  | Some timestamp =>
      let config := set_state (set_status OCI_STATUS_CREATED (state config)) config in
      match proxy config with
      | None => mret (false, config)
      | Some p =>
          '(ok, p) ← cc_proxy_connect p;
          let config := set_proxy (Some p) config in
          if negb (ok : bool) then mret (false, config)
          else
            v ← steps (launch_steps setup_networking timestamp) (v0 config);
            launch_out setup_networking v
      end
  end.

(** ** Running a command in a container *)

Definition cc_oci_is_attach_mode (config : cc_oci_config) : io bool :=
  tty ← call_ (Cisatty 0); mret (tty && negb (detached_mode config)).

(** The proxy stays connected on every path. *)
Definition cc_oci_vm_connect (config : cc_oci_config) : io (bool * cc_oci_config) :=
  match proxy config with
  | None => mret (false, config)
  | Some p =>
      '(ok, p) ← cc_proxy_connect p;
      let config := set_proxy (Some p) config in
      if negb (ok : bool) then mret (false, config)
      else
        match cc_pod_container_id config with
        | None => mret (false, config)
        | Some id =>
            ok ← cc_proxy_attach p (Some id);
            if negb ok then mret (false, config)
            else
              '(ok, io_fd, base) ← cc_proxy_cmd_allocate_io p (terminal (process (oci config)));
              if negb (ok : bool) then mret (false, config)
              else
                let ioBase := default (-1) base in
                let config := save_io_base ioBase config in
                '(ok, config) ← cc_proxy_hyper_exec_command config;
                if negb (ok : bool) then mret (false, config)
                else
                  '(ok, config) ← cc_oci_exec_shim config ioBase (default (-1) io_fd) false;
                  if negb (ok : bool) then mret (false, config)
                  else
                    attach ← cc_oci_is_attach_mode config;
                    if attach : bool then
                      exit_code ← call_ (Cwait_child (workload_pid (state config)));
                      mret (bool_decide (exit_code = 0), config)
                    else mret (true, config)
        end
  end.

(** ** Containers of a pod (src/src/pod.c) *)

(** The variables [cc_pod_container_create] reads after [out]. *)
Record pod_launch := PodLaunch { p_config : cc_oci_config; p_ret : bool; p_shim : shim_fds }.

Definition pod_connect (p : cc_pod) (v : pod_launch) : io (bool * pod_launch) :=
  match proxy (p_config v) with
  | None => mret (false, v)
  | Some q =>
      '(ok, q) ← cc_proxy_connect q;
      let v := PodLaunch (set_proxy (Some q) (p_config v)) (p_ret v) (p_shim v) in
      if negb (ok : bool) then mret (false, v)
      else ok ← cc_proxy_attach q (sandbox_name p); mret (ok, v)
  end.

Definition pod_shim (v : pod_launch) : io (bool * pod_launch) :=
  '(ok, config, f) ← cc_shim_launch (p_config v) true;
  mret (ok, PodLaunch config (p_ret v) f).

Definition pod_pidfile (v : pod_launch) : io (bool * pod_launch) :=
  match pid_file (p_config v) with
  | None => mret (true, v)
  | Some f =>
      ret ← cc_oci_create_pidfile (Some f) (workload_pid (state (p_config v)));
      mret (ret, PodLaunch (p_config v) ret (p_shim v))
  end.

Definition pod_feed_shim (v : pod_launch) : io (bool * pod_launch) :=
  '(go, ret, config, f) ← feed_shim (p_config v) (p_ret v) (p_shim v);
  mret (go, PodLaunch config ret f).

Definition pod_state (timestamp : string) (v : pod_launch) : io (bool * pod_launch) :=
  '(ret, config) ← cc_oci_state_file_create (p_config v) (Some timestamp);
  mret (ret, PodLaunch config ret (p_shim v)).

Definition pod_disconnect (v : pod_launch) : io (bool * pod_launch) :=
  '(ret, config) ← disconnect (p_config v);
  mret (ret, PodLaunch config ret (p_shim v)).

Definition cc_pod_container_create (config : cc_oci_config) : io (bool * cc_oci_config) :=
  match pod config, proxy config with
  | Some p, Some _ =>
      timestamp ← call_ Ciso8601;
      match timestamp with
      | None => mret (false, config)
      | Some timestamp =>
          let config := set_state (set_status OCI_STATUS_CREATED (state config)) config in
          v ← steps [pod_connect p; pod_shim; pod_pidfile; pod_feed_shim; pod_state timestamp; pod_disconnect]
                (PodLaunch config false shim_fds_unset);
          _ ← close_set (shim_err_fd (p_shim v)); _ ← close_set (shim_args_fd (p_shim v));
          _ ← close_set (shim_socket_fd (p_shim v));
          mret (p_ret v, p_config v)
      end
  | _, _ => mret (false, config)
  end.

Definition cc_pod_container_start (config : cc_oci_config) : io (bool * cc_oci_config) :=
  match pod config with
  | Some p =>
      if sandbox p then mret (false, config)
      else
        match cc_pod_container_id config with
        | None => mret (false, config)
        | Some pod_id =>
            cc_proxy_hyper_new_pod_container config (optarg_container_id config) (Some pod_id) (Some "rootfs")
              (optarg_container_id config)
        end
  | None => mret (false, config)
  end.
End process.

(** ** Integers sent over a pipe *)

Lemma le_bytes_length n z : String.length (le_bytes n z) = n.
Proof. revert z. induction n; intros z; cbn; [done|]. by rewrite IHn. Qed.

Lemma le_val_bytes n z : le_val (le_bytes n z) = z mod 256 ^ Z.of_nat n.
Proof.
  revert z. induction n as [|n IH]; intros z; cbn [le_bytes le_val]; [by rewrite Z.mod_1_r|].
  rewrite IH, byte_val_of, Nat2Z.inj_succ, Z.pow_succ_r by lia.
  assert (0 < 256 ^ Z.of_nat n) by (apply Z.pow_pos_nonneg; lia). by rewrite Z.rem_mul_r by lia.
Qed.

Lemma int_read_bytes old z : -2 ^ 31 <= z < 2 ^ 31 -> int_read old (int_bytes z) = z.
Proof.
  intros Hz. unfold int_read, int_bytes. rewrite le_bytes_length.
  rewrite <- (le_bytes_length 4 (u32 z)) at 1. rewrite str_take_app, le_val_bytes.
  change (256 ^ Z.of_nat 4) with (2 ^ 32). change (u32 z mod 2 ^ 32) with (u32 (u32 z)).
  rewrite !wraps_wrapu by lia. apply wraps_small; lia.
Qed.

(** ** Children that fail say so *)

Definition executes (e : event) : option (list string) :=
  match e with Ev (Cexecvp argv) _ => Some argv | _ => None end.

(** How a child ends: its last call is [execvp], which succeeds or after which
    it aborts, or the write of one byte to the error pipe, before any
    [execvp]. *)
Definition reported (err_fd : Z) (tr : list event) (o : outcome unit) : Prop :=
  match o with
  | Fault (Execed argv) => exists tr' r, tr = tr' ++ [Ev (Cexecvp argv) r] /\ 0 <= r
  | Fault Aborted => exists tr' argv r, tr = tr' ++ [Ev (Cexecvp argv) r] /\ r < 0
  | Fault (Exited code) => code = 1 /\ tr_map executes tr = [] /\ exists tr' r, tr = tr' ++ [Ev (Cwrite err_fd "E") r]
  | _ => False
  end.

Abbreviation executes_nothing := (safe (fun e => executes e = None)).

Lemma reported_app err tr0 tr o : tr_map executes tr0 = [] -> reported err tr o -> reported err (tr0 ++ tr) o.
Proof.
  intros H0. destruct o as [|[]]; cbn; try done.
  - intros (-> & H & tr' & r & ->). rewrite tr_map_app, H0. split_and!; [done|done|]. exists (tr0 ++ tr'), r. by rewrite app_assoc.
  - intros (tr' & argv & r & -> & Hr). exists (tr0 ++ tr'), argv, r. by rewrite app_assoc.
  - intros (tr' & r & -> & Hr). exists (tr0 ++ tr'), r. by rewrite app_assoc.
Qed.

Lemma wp_reported_bind {A} err (m : io A) (k : A -> io unit) :
  executes_nothing m -> total m -> (forall a, wp (k a) (reported err)) -> wp (m ≫= k) (reported err).
Proof.
  intros Hs Hm Hk. apply wp_bind. rewrite wp_exec. intros tr o He.
  pose proof (tr_map_quiet _ _ (safe_exec _ _ _ _ Hs He)) as H0.
  pose proof (proj1 (wp_exec _ _) Hm _ _ He) as Ht. destruct o as [a|f]; [|done].
  eapply wp_mono; [apply Hk|]. intros tr' o. by apply reported_app.
Qed.

Lemma wp_child_failed err : wp (child_failed err) (reported err).
Proof. intros r. cbn. split_and!; [done|done|]. by exists [], r. Qed.

Lemma wp_exec_or_abort err argv : wp (exec_or_abort argv) (reported err).
Proof. intros r. cbn. case_bool_decide; [by exists [], argv, r|]. exists [], r. split; [done|lia]. Qed.

Lemma total_close_set fd : total (close_set fd).
Proof. unfold close_set. solve_total. Qed.
#[export] Hint Resolve total_close_set : cc.

Lemma total_close_fds keep : total (cc_oci_close_fds keep).
Proof. unfold cc_oci_close_fds, close_entry. solve_total. Qed.
#[export] Hint Resolve total_close_fds : cc.

Lemma total_setup_shim config a b c : total (cc_oci_setup_shim config a b c).
Proof. unfold cc_oci_setup_shim. solve_total. Qed.
#[export] Hint Resolve total_setup_shim : cc.

Lemma total_dup_loop n fd : total (dup_loop n fd).
Proof. revert fd. induction n; intros fd; cbn [dup_loop]; solve_total. Qed.
#[export] Hint Resolve total_dup_loop : cc.

Lemma total_close_loop fd l ret : total (close_loop fd l ret).
Proof. revert ret. induction l; intros ret; cbn [close_loop]; solve_total. Qed.
#[export] Hint Resolve total_close_loop : cc.

Lemma total_dup_over_stdio fd : total (dup_over_stdio fd).
Proof. unfold dup_over_stdio. solve_total. Qed.
#[export] Hint Resolve total_dup_over_stdio : cc.

Lemma total_toggle_cloexec fd b : total (cc_oci_fd_toggle_cloexec fd b).
Proof. unfold cc_oci_fd_toggle_cloexec. solve_total. Qed.
#[export] Hint Resolve total_toggle_cloexec : cc.

Lemma total_connection_from_fd fd : total (cc_oci_socket_connection_from_fd fd).
Proof. unfold cc_oci_socket_connection_from_fd. solve_total. Qed.
#[export] Hint Resolve total_connection_from_fd : cc.

Section process_facts.
Context `{GL : GLib} `{BD : Build} `{SP : StartPaths} `{RF : RecvFuel} `{NF : NlFuel} `{HL : HypervisorLogs}.

Lemma total_proxy_disconnect p : total (cc_proxy_disconnect p).
Proof. unfold cc_proxy_disconnect. solve_total. Qed.
#[local] Hint Resolve total_proxy_disconnect : cc.

Lemma total_setup_child config : total (cc_oci_setup_child config).
Proof. unfold cc_oci_setup_child, cc_oci_setup_hypervisor_logs, redirect_output. solve_total. Qed.
#[local] Hint Resolve total_setup_child : cc.

Lemma wp_shim_failed q : wp (shim_failed q) (reported (err1 q)).
Proof. unfold shim_failed. do 2 (apply wp_reported_bind; [by apply safe_call|apply total_call|intros ?]). apply wp_child_failed. Qed.

Lemma executes_nothing_setup_shim config a b c : executes_nothing (cc_oci_setup_shim config a b c).
Proof. unfold cc_oci_setup_shim, cc_oci_close_fds, close_entry. solve_safe done. Qed.

Lemma executes_nothing_dup fd : executes_nothing (dup_over_stdio fd).
Proof.
  unfold dup_over_stdio.
  assert (forall n fd, executes_nothing (dup_loop n fd)) by (intros n; induction n; intros ?; cbn [dup_loop]; solve_safe done).
  assert (forall fd l r, executes_nothing (close_loop fd l r)) by (intros fd' l; induction l; intros ?; cbn [close_loop]; solve_safe done).
  solve_safe done.
Qed.

Lemma executes_nothing_setup_child config : executes_nothing (cc_oci_setup_child config).
Proof.
  unfold cc_oci_setup_child, cc_oci_close_fds, close_entry, cc_oci_setup_hypervisor_logs, redirect_output. solve_safe done.
Qed.
#[local] Hint Resolve executes_nothing_setup_shim executes_nothing_dup executes_nothing_setup_child : cc.

Ltac solve_reported :=
  repeat lazymatch goal with
  | |- wp (mbind _ _) _ =>
      apply wp_reported_bind;
        [solve [unfold cc_oci_fd_toggle_cloexec, cc_oci_socket_connection_from_fd, cc_proxy_disconnect; solve_safe done]
        |solve [solve_total]|intros ?]
  | |- wp (child_failed _) _ => apply wp_child_failed
  | |- wp (exec_or_abort _) _ => apply wp_exec_or_abort
  | |- wp (shim_failed _) _ => first [apply wp_shim_failed | apply (wp_shim_failed (ShimPipes _ _ _ _ _ _))]
  | |- _ => case_match
  end.

Lemma wp_shim_child_reported config q initial flock : wp (shim_child config q initial flock) (reported (err1 q)).
Proof. unfold shim_child, shim_exec. solve_reported. Qed.

Lemma wp_hypervisor_child_reported config h0 h1 e0 e1 : wp (hypervisor_child config h0 h1 e0 e1) (reported e1).
Proof. unfold hypervisor_child. solve_reported. Qed.

(** C29.  How the processes forked for the shim and for the hypervisor end.
    They never return into the code of the parent.  Either their last call is
    an [execvp] that succeeds, and they are another program; or it is an
    [execvp] that fails, and they abort, with nothing said to the parent; or
    they exit with status 1 before any [execvp], and their last call is the
    write of the byte E to the descriptor of the error pipe.  (Whether that
    write succeeds is up to the kernel: the child of the hypervisor may have
    closed the descriptor with all others, see [log_failure_not_reported].)
    A parent of the hypervisor that reads the byte fails, and so does one that
    reads anything else; one that reads nothing goes on. *)
Theorem child_failure_reported config q initial flock h0 h1 e0 e1 v tr tr' trp o o' go v' :
  exec (shim_child config q initial flock) tr o -> exec (hypervisor_child config h0 h1 e0 e1) tr' o' ->
  exec (launch_check_child v) trp (Done (go, v')) ->
  reported (err1 q) tr o /\ reported e1 tr' o' /\
  exists bytes, trp = [Ev (Cread (cerr0 v) 2) bytes] /\
    if decide (bytes = None \/ bytes = Some EmptyString) then go = true /\ v' = v else go = false /\ l_ret v' = false.
Proof.
  intros H H' Hp. split_and!.
  - revert tr o H. apply wp_exec, wp_shim_child_reported.
  - revert tr' o' H'. apply wp_exec, wp_hypervisor_child_reported.
  - destruct Hp as (bytes & trp' & -> & Hp). exists bytes. revert Hp. cbn [io_mbind io_bind].
    destruct bytes as [[|x b]|]; cbn [child_reported]; intros [-> [= -> ->]]; (split; [done|]); case_decide; naive_solver.
Qed.

(** Bytes read and bytes written. *)
Definition got (e : event) : option string :=
  match e with Ev (Cread _ _) v => v | _ => None end.
Definition put (e : event) : option string :=
  match e with Ev (Cwrite _ s) _ => Some s | _ => None end.

(** Arguments that survive the trip: plain characters, no newline or NUL. *)
Definition plain_arg (a : string) : Prop := is_ascii a /\ str_free "010" a /\ str_free NUL a.

Lemma g_strsplit_lines c l n :
  n < 1 -> l <> [] -> l <> [EmptyString] -> Forall (str_free c) l ->
  g_strsplit (join (String c EmptyString) l) (String c EmptyString) n = l.
Proof.
  revert n. induction l as [|x l IH]; intros n Hn Hl Hl1 Hf; [done|].
  apply Forall_cons in Hf as [Hx Hf]. destruct l as [|y l].
  - apply g_strsplit_last; [by intros ->|]. right. by apply strstr_free.
  - change (join (String c EmptyString) (x :: y :: l)) with (x +:+ String c (join (String c EmptyString) (y :: l))).
    destruct (decide (join (String c EmptyString) (y :: l) = EmptyString)) as [E|E].
    + assert (y :: l = [EmptyString]) as -> by (destruct l; cbn in E; [by rewrite E|]; by destruct y).
      pose proof (strstr_first c x EmptyString Hx) as Hs. cbn [join].
      rewrite (g_strsplit_cons (x +:+ String c EmptyString) (String c EmptyString) n _ ltac:(lia) ltac:(done) Hs), str_take_app. cbn [String.length].
      rewrite Nat.add_1_r, decide_True; [done|]. clear. induction x; [done|]. by rewrite str_app_cons.
    + rewrite g_strsplit_step; [|lia|done|done]. f_equal. apply IH; [lia|done| |done]. intros [= -> ->]. by apply E.
Qed.

Lemma join_plain args :
  Forall plain_arg args -> is_ascii (join newline args) /\ str_free NUL (join newline args).
Proof.
  assert (is_ascii newline /\ str_free NUL newline) as [N1 N2] by (split; repeat constructor; cbn; lia || discriminate).
  induction 1 as [|x l (H1 & _ & H3) Hl [I1 I2]]; [split; constructor|]. destruct l as [|y l]; [done|].
  change (join newline (x :: y :: l)) with (x +:+ newline +:+ join newline (y :: l)).
  rewrite !str_free_app. unfold is_ascii in *. rewrite !list_ascii_app, !Forall_app. done.
Qed.

Lemma safe_got_setup_child config : safe (fun e => got e = None) (cc_oci_setup_child config).
Proof.
  unfold cc_oci_setup_child, cc_oci_close_fds, close_entry, cc_oci_setup_hypervisor_logs, redirect_output.
  solve_safe done.
Qed.

(** A program without events of interest in front of one that is looked at
    only if it becomes another program. *)
Lemma wp_execed_bind {A B} (f : event -> option B) (m : io A) (k : A -> io unit) (Q : list B -> list string -> Prop) :
  safe (fun e => f e = None) m -> total m ->
  (forall a, wp (k a) (fun tr o => forall argv, o = Fault (Execed argv) -> Q (tr_map f tr) argv)) ->
  wp (m ≫= k) (fun tr o => forall argv, o = Fault (Execed argv) -> Q (tr_map f tr) argv).
Proof.
  intros Hs Ht Hk. apply wp_bind. rewrite wp_exec. intros tr o He.
  pose proof (tr_map_quiet _ _ (safe_exec _ _ _ _ Hs He)) as Hg.
  unfold total in Ht. rewrite wp_exec in Ht. specialize (Ht _ _ He). destruct o as [a|]; [|done].
  eapply wp_mono; [apply Hk|]. intros tr' o' H argv E. rewrite tr_map_app, Hg. auto.
Qed.

Lemma wp_failed_not_exec {A} err (Q : list event -> list string -> Prop) :
  wp (@child_failed A err) (fun tr o => forall argv, o = Fault (Execed argv) -> Q tr argv).
Proof. intros r. cbn. by intros argv [=]. Qed.

Lemma wp_hypervisor_child config h0 h1 e0 e1 :
  wp (hypervisor_child config h0 h1 e0 e1) (fun tr o =>
    forall argv, o = Fault (Execed argv) ->
    exists b1 b2, tr_map got tr = [b1; b2] /\ argv = g_strsplit_set (c_str b2) newline (-1)).
Proof.
  unfold hypervisor_child. pose (Q l argv := exists b1 b2, l = [b1; b2] /\ argv = g_strsplit_set (c_str b2) newline (-1)).
  do 3 (apply (wp_execed_bind got _ _ Q); [by apply safe_call|apply total_call|intros ?]).
  apply (wp_execed_bind got _ _ Q); [unfold cc_proxy_disconnect; solve_safe done|solve_total|]. intros [ok p].
  case_match; [apply wp_failed_not_exec|]. wp_step. intros [b1|]; [|apply (wp_failed_not_exec _ (fun tr => Q (tr_map got (_ :: tr))))].
  case_bool_decide; [apply (wp_failed_not_exec _ (fun tr => Q (tr_map got (_ :: tr))))|].
  case_bool_decide; [apply (wp_failed_not_exec _ (fun tr => Q (tr_map got (_ :: tr))))|].
  wp_step. intros [b2|]; [|apply (wp_failed_not_exec _ (fun tr => Q (tr_map got (_ :: _ :: tr))))].
  cbn [tr_map got]. apply (wp_execed_bind got _ _ (fun l => Q (b1 :: b2 :: l))); [apply safe_got_setup_child|apply total_setup_child|].
  intros ok'. case_match; [apply (wp_failed_not_exec _ (fun tr => Q (b1 :: b2 :: tr_map got tr)))|].
  intros r. cbn. case_bool_decide; [done|]. intros argv [= <-]. by exists b1, b2.
Qed.

(** C28.  The hypervisor is started with the arguments of the parent.  If the
    parent sent its list of arguments (plain text without newlines, shorter
    than the limit) and the child read what was sent, then the program that
    replaces the child runs with exactly this list. *)
Theorem hypervisor_args_handoff fd args tr config h0 h1 e0 e1 tr' argv :
  args <> [] -> args <> [EmptyString] -> Forall plain_arg args ->
  Z.of_nat (String.length (join newline args)) < ARG_MAX ->
  exec (send_hypervisor_args fd args) tr (Done true) ->
  exec (hypervisor_child config h0 h1 e0 e1) tr' (Fault (Execed argv)) ->
  tr_map got tr' = tr_map put tr ->
  argv = args.
Proof.
  intros Hne Hne1 Hp Hlen Hs Hc Hrd.
  assert (is_ascii (join newline args) /\ str_free NUL (join newline args)) as [Ha Hn] by by apply join_plain.
  pose proof (proj1 (wp_exec _ _) (wp_hypervisor_child config h0 h1 e0 e1) _ _ Hc argv eq_refl) as (b1 & b2 & Hg & ->).
  rewrite Hg in Hrd. unfold send_hypervisor_args in Hs. destruct Hs as (r1 & tr1 & -> & Hs).
  cbn [io_mbind io_bind] in Hs. case_bool_decide; [by destruct Hs as [_ [=]]|]. destruct Hs as (r2 & tr2 & -> & -> & _).
  cbn [tr_map put] in Hrd. injection Hrd as _ ->.
  rewrite g_utf8_strlen_ascii by (done || (left; lia)). unfold ARG_MAX in Hlen.
  rewrite s32_small by (unfold INT_MIN, INT_MAX; lia). rewrite Nat2Z.id, str_take_all, c_str_free by done.
  unfold newline. rewrite g_strsplit_set_spec. apply g_strsplit_lines; [lia|done..|].
  eapply Forall_impl; [exact Hp|]. by intros a (_ & H1 & _).
Qed.

(** What a child gets from its parent: bytes and a descriptor. *)
Definition handed (e : event) : option (string + Z) :=
  match e with
  | Ev (Cread _ _) v => inl <$> v
  | Ev (Creceive_fd _) v => Some (inr v)
  | _ => None
  end.

(** A descriptor that is above the standard ones stays what it is. *)
Lemma dup_over_stdio_fd fd :
  wp (dup_over_stdio fd) (fun tr o => tr_map handed tr = [] /\ exists ok fd', o = Done (ok, fd') /\ (2 < fd -> fd' = fd)).
Proof.
  rewrite wp_exec. intros tr o He. split.
  - refine (tr_map_quiet _ _ (safe_exec _ _ _ _ _ He)). clear. unfold dup_over_stdio.
    assert (forall n fd, safe (fun e => handed e = None) (dup_loop n fd)) as H1
      by (intros n; induction n; intros ?; cbn [dup_loop]; solve_safe done).
    assert (forall fd l r, safe (fun e => handed e = None) (close_loop fd l r)) as H2
      by (intros fd' l; induction l; intros ?; cbn [close_loop]; solve_safe done).
    solve_safe done.
  - pose proof (proj1 (wp_exec _ _) (total_dup_over_stdio fd) _ _ He) as Ht. destruct o as [[ok fd']|]; [|done].
    exists ok, fd'. split; [done|]. intros Hfd. revert He. unfold dup_over_stdio.
    destruct (Z.ltb_spec fd 0); [lia|]. intros (r & tr' & -> & He). cbn [io_mbind io_bind] in He.
    destruct (r =? -1); [by destruct He as [_ [= _ ->]]|]. destruct (Z.ltb_spec 2 fd); [|lia].
    by destruct He as [_ [= _ ->]].
Qed.

Lemma wp_dup_over_stdio fd (k : bool * Z -> io unit) (Q : list (string + Z) -> list string -> Prop) :
  (forall ok fd', (2 < fd -> fd' = fd) ->
     wp (k (ok, fd')) (fun tr o => forall argv, o = Fault (Execed argv) -> Q (tr_map handed tr) argv)) ->
  wp (dup_over_stdio fd ≫= k) (fun tr o => forall argv, o = Fault (Execed argv) -> Q (tr_map handed tr) argv).
Proof.
  intros Hk. apply wp_bind. eapply wp_mono; [apply dup_over_stdio_fd|].
  intros tr o (Hn & ok & fd' & -> & Hfd). eapply wp_mono; [by apply Hk|]. intros tr' o'. by rewrite tr_map_app, Hn.
Qed.

Lemma wp_shim_failed_not_exec q (Q : list event -> list string -> Prop) :
  wp (@shim_failed unit q) (fun tr o => forall argv, o = Fault (Execed argv) -> Q tr argv).
Proof. intros r r' r''. cbn. by intros argv [=]. Qed.

Ltac quiet_execed Q :=
  apply (wp_execed_bind handed _ _ Q); [solve [solve_safe done]|solve [solve_total]|intros ?].

Lemma wp_shim_exec config q iw p base io_fd flock (Q : list (string + Z) -> list string -> Prop) :
  (forall p' io', (2 < p -> p' = p) -> (2 < io_fd -> io' = io_fd) -> Q [] (shim_argv config p' io' base)) ->
  wp (shim_exec config q iw p base io_fd flock)
    (fun tr o => forall argv, o = Fault (Execed argv) -> Q (tr_map handed tr) argv).
Proof.
  intros HQ. unfold shim_exec. do 2 quiet_execed Q. case_bool_decide; [apply wp_shim_failed_not_exec|].
  apply wp_dup_over_stdio. intros ok p' Hp. case_match; [apply wp_shim_failed_not_exec|].
  apply wp_dup_over_stdio. intros ok' io' Hio. case_match; [apply wp_shim_failed_not_exec|].
  apply wp_dup_over_stdio. intros ok'' fl' _. case_match; [apply wp_shim_failed_not_exec|].
  unfold cc_oci_fd_toggle_cloexec, cc_oci_setup_shim, cc_oci_close_fds, close_entry.
  do 3 quiet_execed Q. quiet_execed Q. case_bool_decide; [apply wp_shim_failed_not_exec|].
  quiet_execed Q. case_match; [apply wp_shim_failed_not_exec|].
  intros r. cbn. case_bool_decide; [done|]. intros argv [= <-]. auto.
Qed.

(** The program that replaces the shim's child has the arguments built from
    what it was handed. *)
Lemma wp_shim_child config q iw flock :
  wp (shim_child config q iw flock) (fun tr o =>
    forall argv, o = Fault (Execed argv) ->
    exists b1 b2 fd p' io', tr_map handed tr = [inl b1; inl b2; inr fd] /\
      (2 < int_read (-1) b1 -> p' = int_read (-1) b1) /\ (2 < fd -> io' = fd) /\
      argv = shim_argv config p' io' (int_read (-1) b2)).
Proof.
  unfold shim_child.
  pose (Q l argv := exists b1 b2 fd p' io', l = [inl b1; inl b2; inr fd] /\
      (2 < int_read (-1) b1 -> p' = int_read (-1) b1) /\ (2 < fd -> io' = fd) /\
      argv = shim_argv config p' io' (int_read (-1) b2)).
  do 3 quiet_execed Q. wp_step. intros [[|c1 b1]|];
    [apply (wp_shim_failed_not_exec _ (fun tr => Q (tr_map handed (_ :: tr))))| |apply (wp_shim_failed_not_exec _ (fun tr => Q (tr_map handed (_ :: tr))))].
  wp_step. intros [[|c2 b2]|];
    [apply (wp_shim_failed_not_exec _ (fun tr => Q (tr_map handed (_ :: _ :: tr))))|
    |apply (wp_shim_failed_not_exec _ (fun tr => Q (tr_map handed (_ :: _ :: tr))))].
  cbn [tr_map handed fmap option_fmap option_map]. set (s1 := String c1 b1). set (s2 := String c2 b2).
  apply (wp_execed_bind handed _ _ (fun l => Q (inl s1 :: inl s2 :: l)));
    [unfold cc_oci_socket_connection_from_fd; solve_safe done|solve_total|intros ok].
  case_match; [apply (wp_shim_failed_not_exec _ (fun tr => Q (inl s1 :: inl s2 :: tr_map handed tr)))|].
  wp_step. intros fd. cbn [tr_map handed].
  case_bool_decide; [apply (wp_shim_failed_not_exec _ (fun tr => Q (inl s1 :: inl s2 :: inr fd :: tr_map handed tr)))|].
  apply (wp_shim_exec _ _ _ _ _ _ _ (fun l => Q (inl s1 :: inl s2 :: inr fd :: l))).
  intros p' io' Hp Hio. exists s1, s2, fd, p', io'. done.
Qed.

(** ** Hooks *)

(** What happens to a hook: started, with its pid and the descriptor of its
    standard input, or not; text written to a descriptor and whether it was
    accepted, the error of a refusal, the child waited for and its status. *)
Inductive hook_event :=
| HSpawn (argv : list string) (env : strv) (child : option (Z * Z))
| HText (fd : Z) (text : string) (accepted : bool)
| HErrno (e : Z)
| HEnded (pid status : Z).

Definition hook_events (e : event) : option hook_event :=
  match e with
  | Ev (Cspawn argv env) v => Some (HSpawn argv env ((fun '(pid, std_in, _, _) => (pid, std_in)) <$> v))
  | Ev (Cwrite fd t) r => Some (HText fd t (negb (bool_decide (r < 0))))
  | Ev Cerrno e => Some (HErrno e)
  | Ev (Cchild_exit _) v => Some (HEnded (fst v) (snd v))
  | _ => None
  end.

Definition file_contents (e : event) : option string :=
  match e with Ev (Cg_file_get_contents _) v => v | _ => None end.

(** One hook, with the result the runtime takes from it.  The text goes to the
    descriptor that is the hook's standard input; only a hook that took all of
    it is waited for. *)
Inductive hook_outcome (text : string) (h : oci_cfg_hook) : list hook_event -> bool -> Prop :=
| HookNotStarted : hook_outcome text h [HSpawn (hook_argv h) (hook_env h) None] false
| HookNoState pid std_in e : hook_outcome text h
    [HSpawn (hook_argv h) (hook_env h) (Some (pid, std_in)); HText std_in text false; HErrno e] (bool_decide (e = EPIPE))
| HookNoCommit pid std_in e : hook_outcome text h
    [HSpawn (hook_argv h) (hook_env h) (Some (pid, std_in)); HText std_in text true; HText std_in newline false; HErrno e]
    (bool_decide (e = EPIPE))
| HookEnded pid std_in status : hook_outcome text h
    [HSpawn (hook_argv h) (hook_env h) (Some (pid, std_in)); HText std_in text true; HText std_in newline true; HEnded pid status]
    (bool_decide (status = 0)).

(** Hooks in order, until the first failure if that is asked for. *)
Inductive hooks_spec (text : string) (stop : bool) : list oci_cfg_hook -> list hook_event -> bool -> Prop :=
| HooksEnd : hooks_spec text stop [] [] true
| HooksNext h l ev ok evs ret :
    hook_outcome text h ev ok -> ok = true \/ stop = false -> hooks_spec text stop l evs ret ->
    hooks_spec text stop (h :: l) (ev ++ evs) ret
| HooksStop h l ev : hook_outcome text h ev false -> stop = true -> hooks_spec text stop (h :: l) ev false.

Lemma safe_close_outputs a b : safe (fun e => hook_events e = None) (close_outputs a b).
Proof. unfold close_outputs, close_set. solve_safe done. Qed.

Lemma wp_run_hook watched h s :
  s <> EmptyString ->
  wp (cc_run_hook watched h s) (fun tr o =>
    forall ok w, o = Done (ok, w) -> hook_outcome (g_strdelimit s newline " ") h (tr_map hook_events tr) ok).
Proof.
  intros Hs. set (t := g_strdelimit s newline " "). unfold cc_run_hook, hook_failed, hook_wait.
  replace (negb (str_nonempty s)) with false by by destruct s.
  pose (R pre l (o : outcome (bool * list Z)) := forall ok w, o = Done (ok, w) -> hook_outcome t h (pre ++ l) ok).
  wp_step. intros [[[[pid i] out] err]|]; [|intros ok w [= <- <-]; constructor].
  case_bool_decide; [by intros ? ? [=]|]. fold t. wp_step. intros r1. case_bool_decide as H1.
  { wp_step. intros e. cbn [tr_map hook_events]. rewrite (bool_decide_true (r1 < 0)) by done.
    apply (wp_quiet_bind hook_events _ _ (R [_; _; _])); [apply safe_close_outputs|by intros ? ? ? [=]|].
    intros _ ok w [= <- <-]. apply HookNoState. }
  wp_step. intros r2. case_bool_decide as H2.
  { wp_step. intros e. cbn [tr_map hook_events]. rewrite (bool_decide_false (r1 < 0)), (bool_decide_true (r2 < 0)) by done.
    apply (wp_quiet_bind hook_events _ _ (R [_; _; _; _])); [apply safe_close_outputs|by intros ? ? ? [=]|].
    intros _ ok w [= <- <-]. apply HookNoCommit. }
  wp_step. intros r3. wp_step. intros [ended status]. case_bool_decide as Hended; [by intros ? ? [=]|]. subst ended.
  cbn [tr_map hook_events fst snd]. rewrite (bool_decide_false (r1 < 0)), (bool_decide_false (r2 < 0)) by done.
  apply (wp_quiet_bind hook_events _ _ (R [_; _; _; _])); [apply safe_close_outputs|by intros ? ? ? [=]|].
  intros _ ok w [= <- <-]. apply HookEnded.
Qed.

(** The text an output event logs, and that the event is of an output. *)
Definition event_log (e : loop_event) : option (log_level * string) :=
  match e with
  | HookOutput false stream line => Some (if bool_decide (stream = 1) then G_LOG_LEVEL_MESSAGE else G_LOG_LEVEL_WARNING, default EmptyString line)
  | _ => None
  end.
Definition is_output (e : loop_event) : Prop := match e with HookOutput _ _ _ => True | HookExit _ => False end.

(** Nothing is read from an output after its end. *)
Fixpoint ends_last (streams : list Z) (l : list loop_event) : Prop :=
  match l with
  | HookOutput false stream _ :: l => stream ∈ streams /\ ends_last streams l
  | HookOutput true stream _ :: l => ends_last (list_difference streams [stream]) l
  | _ => True
  end.

Lemma list_difference_absent (l : list Z) x : (x ∉ l) -> list_difference l [x] = l.
Proof.
  induction l as [|y l IH]; [done|]. rewrite not_elem_of_cons. intros [Hne Hl]. cbn [list_difference]. unfold decide_rel.
  destruct (list_elem_of_dec y [x]) as [->%list_elem_of_singleton|]; [done|by rewrite IH].
Qed.

(** What a hook prints is logged line by line, in the order it is read, its
    standard output as messages and its errors as warnings; what is still to be
    read when the hook's end is dispatched is not. *)
Lemma hook_output_logged streams l status rest :
  Forall is_output l -> ends_last streams l ->
  hook_main_loop streams (l ++ HookExit status :: rest) = (omap event_log l, Some status).
Proof.
  intros Ho. revert streams. induction Ho as [|[[] stream line|st] l He _ IH]; intros streams Hl; [done| | |done];
    cbn [app hook_main_loop omap list_omap event_log ends_last] in *.
  - unfold cc_oci_output_watcher. case_bool_decide as Hin; [by rewrite IH|]. apply IH.
    by rewrite list_difference_absent in Hl.
  - destruct Hl as [Hin Hl]. rewrite bool_decide_true by done. unfold cc_oci_output_watcher. by rewrite IH.
Qed.

Lemma wp_hooks_loop watched l s stop :
  s <> EmptyString ->
  wp (hooks_loop watched l s stop) (fun tr o =>
    forall ret, o = Done ret -> hooks_spec (g_strdelimit s newline " ") stop l (tr_map hook_events tr) ret).
Proof.
  intros Hs. revert watched. induction l as [|h l IH]; intros watched; [intros ret [= <-]; constructor|].
  cbn [hooks_loop]. apply wp_bind. eapply wp_mono; [by apply wp_run_hook|].
  intros tr [[ok w]|f] H; [|by intros ? [=]]. specialize (H ok w eq_refl). destruct ok; cbn [negb andb].
  - eapply wp_mono; [apply IH|]. intros tr' o Hr ret Ho. rewrite tr_map_app. econstructor; [done|by left|auto].
  - destruct stop.
    + intros ret [= <-]. rewrite app_nil_r. by apply HooksStop.
    + eapply wp_mono; [apply IH|]. intros tr' o Hr ret Ho. rewrite tr_map_app. econstructor; [done|by right|auto].
Qed.

(** C30.  Hooks run one after the other in the order of the configuration.
    Each is started with its arguments and environment and is given the state
    of the container, in one line, on its standard input.  A hook that took
    this is waited for before the next one is started, and fails unless its
    status is 0; one whose input could not be written is not waited for, and
    fails unless it had closed its input (EPIPE).  With [stop] the first
    failure ends the sequence and is reported, otherwise all run and the
    result is success. *)
Theorem hooks_run_in_order l path stop s tr ret :
  l <> [] -> s <> EmptyString ->
  exec (cc_run_hooks l path stop) tr (Done ret) -> tr_map file_contents tr = [s] ->
  hooks_spec (g_strdelimit s newline " ") stop l (tr_map hook_events tr) ret.
Proof.
  intros Hl Hs He Hc. destruct l as [|h l]; [done|]. destruct He as (v & tr' & -> & He).
  destruct v as [s0|]; cbn [io_mbind io_bind] in He; [|by destruct He as [-> _]].
  cbn [tr_map file_contents] in Hc. injection Hc as -> _.
  exact (proj1 (wp_exec _ _) (wp_hooks_loop [] (h :: l) s stop Hs) _ _ He ret eq_refl).
Qed.
End process_facts.

(** ** Witnesses and examples *)

#[local] Existing Instance glib_ref.
#[local] Instance process_build : Build := {| LOCALSTATEDIR := "/var"; SYSCONFDIR := "/etc"; DEFAULTSDIR := "/usr/share/defaults"; LIBEXECDIR := "/usr/libexec" |}.
#[local] Instance default_shim : StartPaths := {| start_proxy_socket_path := None; start_shim_path := None |}.

Definition sample_pipes : shim_pipes := ShimPipes 10 11 12 13 14 15.

Definition sample_launch : launch := Launch cc_oci_config_zero true 16 17 18 (-1) shim_fds_unset None.

Lemma child_failure_reported_witness :
  reported 11 (fst (run_tr fail_handler (shim_child cc_oci_config_zero sample_pipes true 7) tt)) (Fault (Exited 1)) /\
  reported 19 (fst (run_tr fail_handler (hypervisor_child (HL := None) cc_oci_config_zero 16 17 18 19) tt)) (Fault (Exited 1)) /\
  exists v', exec (launch_check_child sample_launch) [Ev (Cread 18 2) (Some "E")] (Done (false, v')) /\ l_ret v' = false.
Proof.
  assert (exec (launch_check_child sample_launch) [Ev (Cread 18 2) (Some "E")] (Done (false, set_l_ret false sample_launch))) as Hp
    by (exists (Some "E"), []; done).
  pose proof (child_failure_reported (HL := None) cc_oci_config_zero sample_pipes true 7 16 17 18 19 sample_launch
    (fst (run_tr fail_handler (shim_child cc_oci_config_zero sample_pipes true 7) tt))
    (fst (run_tr fail_handler (hypervisor_child (HL := None) cc_oci_config_zero 16 17 18 19) tt)) _
    (Fault (Exited 1)) (Fault (Exited 1)) _ _
    (run_tr_exec _ _ _ _ eq_refl) (run_tr_exec _ _ _ _ eq_refl) Hp) as (H1 & H2 & _).
  split_and!; [exact H1|exact H2|]. by exists (set_l_ret false sample_launch).
Defined.

(** The child of a launch: it reads what the list has, in turn. *)
Definition child_world (log_dir_ok : bool) (exec_reply : Z) : handler (list string) := fun c w =>
  match c return reply c * list string with
  | Cread _ _ => match w with [] => (None, []) | b :: w => (Some b, w) end
  | Cwrite _ s => (Z.of_nat (String.length s), w)
  | Cg_socket_close _ | Cclosedir _ | Cclose _ => (0, w)
  | Copendir _ => (Some (4, ["."; ".."; "0"; "1"; "2"; "3"; "4"; "19"]), w)
  | Cg_mkdir_with_parents _ _ => ((if log_dir_ok then 0 else -1), w)
  | Cexecvp _ => (exec_reply, w)
  | c => (fail_reply c, w)
  end.

Definition child_config : cc_oci_config := set_proxy (Some (set_socket (Some 5) cc_proxy_zero)) (set_vm (Some cc_oci_vm_cfg_zero) cc_oci_config_zero).

Definition sample_args : list string := ["/bin/qemu"; "-m"; EmptyString; "2G"].

Lemma hypervisor_args_handoff_witness :
  snd (run_tr (child_world true 0) (hypervisor_child (HL := None) child_config 16 17 18 19)
         [int_bytes 16; join newline sample_args]) = Fault (Execed sample_args).
Proof.
  assert (exists argv, snd (run_tr (child_world true 0) (hypervisor_child (HL := None) child_config 16 17 18 19)
         [int_bytes 16; join newline sample_args]) = Fault (Execed argv)) as [argv E]
    by (eexists; vm_compute; reflexivity).
  rewrite E. do 2 f_equal.
  apply (hypervisor_args_handoff (HL := None) 17 sample_args
    (fst (run_tr (child_world true 0) (send_hypervisor_args 17 sample_args) [])) child_config 16 17 18 19
    (fst (run_tr (child_world true 0) (hypervisor_child (HL := None) child_config 16 17 18 19)
         [int_bytes 16; join newline sample_args]))).
  - discriminate.
  - discriminate.
  - repeat constructor; cbn; try lia; discriminate.
  - vm_compute. reflexivity.
  - apply run_tr_exec. vm_compute. reflexivity.
  - apply run_tr_exec. exact E.
  - vm_compute. reflexivity.
Defined.

Definition hook_world : handler (list Z) := fun c w =>
  match c return reply c * list Z with
  | Cg_file_get_contents _ => (Some ("{" +:+ newline +:+ "}"), w)
  | Cspawn _ _ => (Some (200, 20, 21, 22), w)
  | Cwrite _ s => (Z.of_nat (String.length s), w)
  | Cchild_exit _ => match w with [] => ((200, 0), []) | st :: w => ((200, st), w) end
  | c => (fail_reply c, w)
  end.

Definition sample_hooks : list oci_cfg_hook := [Hook "/bin/a" None None 0; Hook "/bin/b" (Some ["b"; "up"]) (Some ["K=1"]) 0].

Lemma hooks_run_in_order_witness :
  hooks_spec "{ }" false sample_hooks
    [HSpawn ["/bin/a"; "/bin/a"] None (Some (200, 20)); HText 20 "{ }" true; HText 20 newline true; HEnded 200 256;
     HSpawn ["/bin/b"; "b"; "up"] (Some ["K=1"]) (Some (200, 20)); HText 20 "{ }" true; HText 20 newline true; HEnded 200 0] true.
Proof.
  refine (eq_rect _ (fun l => hooks_spec "{ }" false sample_hooks l true) _ _
    (_ : tr_map hook_events (fst (run_tr hook_world (cc_run_hooks sample_hooks "/state.json" false) [256; 0])) = _)).
  2: vm_compute; reflexivity.
  change "{ }" with (g_strdelimit ("{" +:+ newline +:+ "}") newline " ").
  apply (hooks_run_in_order sample_hooks "/state.json" false ("{" +:+ newline +:+ "}")
           (fst (run_tr hook_world (cc_run_hooks sample_hooks "/state.json" false) [256; 0])) true).
  - discriminate.
  - discriminate.
  - apply run_tr_exec. vm_compute. reflexivity.
  - vm_compute. reflexivity.
Defined.

(** A program that cannot be executed is not reported: nothing is written and
    the end of the pipe looks like success. *)
Example exec_failure_not_reported :
  let '(tr, o) := run_tr (child_world true (-1)) (hypervisor_child (HL := None) child_config 16 17 18 19) [int_bytes 1; "a"] in
  o = Fault Aborted /\ tr_map put tr = [].
Proof. vm_compute. done. Qed.

(** A failure after the descriptors were closed is written to a pipe that was
    closed with them. *)
Definition closes (fd : Z) (e : event) : option unit :=
  match e with Ev (Cclose n) _ => if bool_decide (n = fd) then Some tt else None | _ => None end.

Example log_failure_not_reported :
  let '(tr, o) := run_tr (child_world false 0) (hypervisor_child (HL := Some "/log") child_config 16 17 18 19) [int_bytes 1; "a"] in
  o = Fault (Exited 1) /\ last tr = Some (Ev (Cwrite 19 "E") 1) /\ tr_map (closes 19) tr = [tt].
Proof. vm_compute. done. Qed.
