(* ===== verification/Launch.v ===== *)
(** * The order of a launch

    What a launch of a virtual machine does to the outside, in which order:
    processes forked, files written, hooks started, the descriptor passed to the shim, processes
    killed, file systems unmounted, files removed.  Everything else the launch calls is shown to do none of these. *)

From S2P Require Import Prelude GLib GLibRef Sys Types Util Semver Config State Status Wire Networking Proxy Hypervisor Logging Process.

(** ** Actions *)

Inductive action :=
| AWrite (path text : string) (ok : bool)
| AHook (argv : list string)
| ASend (fd : Z) (ok : bool)
| AKill (pid sig : Z)
| AFork (pid : Z)
| AUmount (target : string) (ok : bool)
| AUnlink (path : string).

Definition act (e : event) : option action :=
  match e with
  | Ev (Cg_file_set_contents p t) r => Some (AWrite p t r)
  | Ev (Cspawn argv _) _ => Some (AHook argv)
  | Ev (Csend_fd _ fd) r => Some (ASend fd r)
  | Ev (Ckill pid sig) _ => Some (AKill pid sig)
  | Ev Cfork pid => Some (AFork pid)
  | Ev (Cumount p) r => Some (AUmount p (r =? 0))
  | Ev (Cg_unlink p) _ => Some (AUnlink p)
  | _ => None
  end.

Abbreviation quiet := (safe (fun e => act e = None)).
Ltac solve_quiet := solve_safe done.

(** What every operation keeps of the configuration, and what those keep that do
    not change the status. *)
Definition based (c c' : cc_oci_config) : Prop :=
  pid_file c' = pid_file c /\ runtime_path (state c') = runtime_path (state c) /\ hooks (oci c') = hooks (oci c).

Definition same (c c' : cc_oci_config) : Prop := based c c' /\ status (state c') = status (state c).

#[export] Instance based_preorder : PreOrder based.
Proof.
  split; [done|]. intros c1 c2 c3 (? & ? & ?) (? & ? & ?). split_and!; congruence.
Qed.

#[export] Instance same_preorder : PreOrder same.
Proof.
  split; [done|]. intros c1 c2 c3 [H1 E1] [H2 E2]. split; [by etrans|congruence].
Qed.

Definition state_path (c : cc_oci_config) : string :=
  c_buf PATH_MAX (runtime_path (state c) +:+ "/" +:+ CC_OCI_STATE_FILE).

(** What those keep that neither record the status nor start the shim. *)
Definition same_pid (c c' : cc_oci_config) : Prop := same c c' /\ workload_pid (state c') = workload_pid (state c).

(** The path of the state file is as it was, or was set. *)
Definition filed (c c' : cc_oci_config) : Prop :=
  runtime_path (state c') = runtime_path (state c) /\
  (state_file_path (state c') = state_file_path (state c) \/ state_file_path (state c') = state_path c).

Lemma same_trans c1 c2 c3 : same c1 c2 -> same c2 c3 -> same c1 c3.
Proof. apply transitivity. Qed.

#[export] Instance filed_preorder : PreOrder filed.
Proof.
  split; [by split; [|left]|]. unfold filed, state_path. intros c1 c2 c3 [R1 H1] [R2 H2]. rewrite R1 in *. split; [done|].
  destruct H2 as [->| ->]; [done|by right].
Qed.

Lemma filed_same c c' : state c' = state c -> filed c c'.
Proof. intros E. unfold filed. rewrite E. by split; [|left]. Qed.

(** ** Quiet components *)

Lemma quiet_close_set fd : quiet (close_set fd).
Proof. unfold close_set. solve_quiet. Qed.
#[export] Hint Resolve quiet_close_set : cc.

Lemma quiet_toggle_cloexec fd b : quiet (cc_oci_fd_toggle_cloexec fd b).
Proof. unfold cc_oci_fd_toggle_cloexec. solve_quiet. Qed.
#[export] Hint Resolve quiet_toggle_cloexec : cc.

Lemma quiet_dup_over_stdio fd : quiet (dup_over_stdio fd).
Proof.
  unfold dup_over_stdio.
  assert (forall n fd, quiet (dup_loop n fd)) by (intros n; induction n; intros ?; cbn [dup_loop]; solve_quiet).
  assert (forall fd l r, quiet (close_loop fd l r)) by (intros fd' l; induction l; intros ?; cbn [close_loop]; solve_quiet).
  solve_quiet.
Qed.
#[export] Hint Resolve quiet_dup_over_stdio : cc.

Lemma quiet_setup_shim c a b d : quiet (cc_oci_setup_shim c a b d).
Proof. unfold cc_oci_setup_shim, cc_oci_close_fds, close_entry. solve_quiet. Qed.
#[export] Hint Resolve quiet_setup_shim : cc.

Lemma quiet_connection_from_fd fd : quiet (cc_oci_socket_connection_from_fd fd).
Proof. unfold cc_oci_socket_connection_from_fd. solve_quiet. Qed.
#[export] Hint Resolve quiet_connection_from_fd : cc.

(** State the goal on the actions of the trace. *)
Ltac wp_goal Q := lazymatch goal with |- wp ?m _ => change (wp m (fun tr o => Q (tr_map act tr) o)) end.

Lemma wp_quiet_then {A B} (m : io A) (k : A -> io B) (Q : list action -> outcome B -> Prop) :
  quiet m -> (forall x, Q [] (Fault x)) -> (forall a, wp (k a) (fun tr o => Q (tr_map act tr) o)) ->
  wp (m ≫= k) (fun tr o => Q (tr_map act tr) o).
Proof. apply wp_quiet_bind. Qed.

Section quiet.
Context `{GL : GLib} `{BD : Build} `{SP : StartPaths} `{RF : RecvFuel} `{NF : NlFuel} `{HL : HypervisorLogs}.

Lemma quiet_connect p : quiet (cc_proxy_connect p).
Proof. unfold cc_proxy_connect. solve_quiet. Qed.
#[local] Hint Resolve quiet_connect : cc.

Lemma quiet_disconnect p : quiet (cc_proxy_disconnect p).
Proof. unfold cc_proxy_disconnect. solve_quiet. Qed.
#[local] Hint Resolve quiet_disconnect : cc.

Lemma quiet_recv_rest n a b c d : quiet (recv_rest n a b c d).
Proof. revert b c d. induction n; intros; cbn [recv_rest]; solve_quiet. Qed.
#[local] Hint Resolve quiet_recv_rest : cc.

Lemma quiet_run_cmd p m w : quiet (cc_proxy_run_cmd p m w).
Proof. unfold cc_proxy_run_cmd, cc_proxy_msg_write, cc_proxy_msg_read. solve_quiet. Qed.
#[local] Hint Resolve quiet_run_cmd : cc.

Lemma quiet_attach p id : quiet (cc_proxy_attach p id).
Proof. unfold cc_proxy_attach. solve_quiet. Qed.
#[local] Hint Resolve quiet_attach : cc.

Lemma quiet_allocate_io p tty : quiet (cc_proxy_cmd_allocate_io p tty).
Proof. unfold cc_proxy_cmd_allocate_io. solve_quiet. Qed.
#[local] Hint Resolve quiet_allocate_io : cc.

Lemma quiet_wait_until_ready c : quiet (cc_proxy_wait_until_ready c).
Proof. unfold cc_proxy_wait_until_ready, cc_proxy_cmd_hello. solve_quiet. Qed.
#[local] Hint Resolve quiet_wait_until_ready : cc.

Lemma quiet_hyper_cmd c cmd p : quiet (cc_proxy_run_hyper_cmd c cmd p).
Proof. unfold cc_proxy_run_hyper_cmd. solve_quiet. Qed.
#[local] Hint Resolve quiet_hyper_cmd : cc.

Lemma quiet_pod_create c : quiet (cc_proxy_hyper_pod_create c).
Proof. unfold cc_proxy_hyper_pod_create. solve_quiet. Qed.
#[local] Hint Resolve quiet_pod_create : cc.

Lemma quiet_netlink_execute h m : quiet (netlink_execute h m).
Proof.
  assert (forall n a b c d, quiet (netlink_recv_loop n a b c d)) by (intros n; induction n; intros; cbn [netlink_recv_loop]; solve_quiet).
  unfold netlink_execute. solve_quiet.
Qed.
#[local] Hint Resolve quiet_netlink_execute : cc.

Lemma quiet_ip_address f a : quiet (cc_net_get_ip_address f a).
Proof. unfold cc_net_get_ip_address. solve_quiet. Qed.
#[local] Hint Resolve quiet_ip_address : cc.

Lemma quiet_run_routes ms f rs : quiet (run_routes ms f rs).
Proof. revert rs. induction ms; intros rs; cbn [run_routes]; unfold process_ipv4_routes, opt_ip; solve_quiet. Qed.
#[local] Hint Resolve quiet_run_routes : cc.

Lemma quiet_get_routes c h f : quiet (netlink_get_routes c h f).
Proof.
  assert (forall n a b c d rs, quiet (netlink_routes_loop n a b c d rs))
    by (intros n; induction n; intros; cbn [netlink_routes_loop]; solve_quiet).
  unfold netlink_get_routes. solve_quiet.
Qed.
#[local] Hint Resolve quiet_get_routes : cc.

Lemma quiet_network_discover c h : quiet (cc_oci_network_discover c h).
Proof. unfold cc_oci_network_discover, discover_one, get_mac_address. solve_quiet. Qed.
#[local] Hint Resolve quiet_network_discover : cc.

Lemma quiet_network_create c h : quiet (cc_oci_network_create c h).
Proof.
  unfold cc_oci_network_create. generalize 0. revert h.
  induction (interfaces (net c)) as [|i l IH]; intros h n; cbn [network_create_loop];
    unfold network_create_one, cc_oci_tap_create, netlink_link_enable, netlink_link_add_bridge, netlink_link_set_master,
      netlink_link_set_addr; solve_quiet.
Qed.
#[local] Hint Resolve quiet_network_create : cc.

Lemma quiet_vm_args_get c e : quiet (cc_oci_vm_args_get c e).
Proof.
  unfold cc_oci_vm_args_get, cc_oci_vm_args_file_path, cc_oci_file_to_strv, cc_oci_expand_cmdline, expand_with, find_command.
  solve_quiet.
Qed.
#[local] Hint Resolve quiet_vm_args_get : cc.

Lemma quiet_shim_child c q iw f : quiet (shim_child c q iw f).
Proof. unfold shim_child, shim_exec, shim_failed, child_failed, exec_or_abort. solve_quiet. Qed.
#[local] Hint Resolve quiet_shim_child : cc.

Lemma quiet_hypervisor_child c a b d e : quiet (hypervisor_child c a b d e).
Proof.
  unfold hypervisor_child, child_failed, exec_or_abort, cc_oci_setup_child, cc_oci_close_fds, close_entry,
    cc_oci_setup_hypervisor_logs, redirect_output. solve_quiet.
Qed.
#[local] Hint Resolve quiet_hypervisor_child : cc.

(** ** What stays the same *)

Lemma post_network_discover c h : post (fun r => same_pid c (snd r)) (cc_oci_network_discover c h).
Proof.
  unfold cc_oci_network_discover. apply post_any. intros [l|]; [|done]. apply post_any. intros i.
  apply (post_bind (fun r => same_pid c (snd r))).
  - unfold netlink_get_routes. solve_post ltac:(by cbn).
  - intros [ok c'] H. apply post_ret. exact H.
Qed.

Lemma post_vm_args_get c e : post (fun r => same_pid c (snd r)) (cc_oci_vm_args_get c e).
Proof.
  unfold cc_oci_vm_args_get. do 2 (apply post_any; intros ?). case_match; [|done].
  apply (post_bind (fun r => same_pid c (snd r))); [|by intros [] ?].
  unfold cc_oci_expand_cmdline, expand_with. solve_post ltac:(by cbn).
Qed.

Lemma post_shim_launch c iw : post (fun r => same c (snd (fst r))) (cc_shim_launch c iw).
Proof. unfold cc_shim_launch. solve_post ltac:(by cbn). Qed.

Lemma post_state_file_create c t : post (fun r => same_pid c (snd r)) (cc_oci_state_file_create c t).
Proof.
  unfold cc_oci_state_file_create, write_state_file, cc_oci_state_file_get. repeat case_match; simplify_eq; done.
Qed.

Lemma post_disconnect c : post (fun r => same_pid c (snd r)) (disconnect c).
Proof. unfold disconnect. solve_post ltac:(by cbn). Qed.

Lemma post_feed_shim c ret f : post (fun r => same_pid c (snd (fst r))) (feed_shim c ret f).
Proof. unfold feed_shim. solve_post ltac:(by cbn). Qed.

(** ** Steps *)

(** What a step is about besides its trace: the pid of the workload, the result
    so far and the path of the state file. *)
Record lview := LView { lv_pid : Z; lv_ret : bool; lv_file : string }.
Definition lstate (v : launch) : lview :=
  LView (workload_pid (state (l_config v))) (l_ret v) (state_file_path (state (l_config v))).

(** What one step does, whether it goes on, and these before and after it; a
    fault does not go on. *)
Abbreviation step_spec := (lview -> list event -> bool -> lview -> Prop).

Definition does (P : step_spec) (v : launch) (m : io (bool * launch)) : Prop :=
  wp m (fun tr o => match o with
                    | Done (go, v') => P (lstate v) tr go (lstate v') /\ same (l_config v) (l_config v')
                    | Fault _ => exists w, P (lstate v) tr false w
                    end).

(** What a sequence of steps does. *)
Inductive segments : list step_spec -> lview -> list event -> lview -> Prop :=
| SegEnd w : segments [] w [] w
| SegGo (P : step_spec) Ps w w1 w2 l l' : P w l true w1 -> segments Ps w1 l' w2 -> segments (P :: Ps) w (l ++ l') w2
| SegStop (P : step_spec) Ps w w' l : P w l false w' -> segments (P :: Ps) w l w'.

Lemma wp_steps c0 l Ps v :
  same c0 (l_config v) ->
  Forall2 (fun s P => forall v, same c0 (l_config v) -> does P v (s v)) l Ps ->
  wp (steps l v) (fun tr o => exists w, segments Ps (lstate v) tr w /\
    forall v', o = Done v' -> same c0 (l_config v') /\ w = lstate v').
Proof.
  intros Hv H. revert v Hv. induction H as [|s P l Ps Hs _ IH]; intros v Hv.
  { eexists. split; [constructor|]. by intros v' [= <-]. }
  cbn [steps]. apply wp_bind. eapply wp_mono; [by apply Hs|].
  intros tr [[go v']|f]; [|intros [w HP]; exists w; split; [by apply SegStop|by intros ? [=]]].
  intros [HP Hv']. pose proof (same_trans _ _ _ Hv Hv') as Hv2. destruct go.
  - eapply wp_mono; [by apply IH|]. intros tr' o (w & Ht & Ho). exists w. split; [by eapply SegGo|done].
  - apply wp_ret. rewrite app_nil_r. eexists. split; [by apply SegStop|]. by intros ? [= <-].
Qed.

(** Steps that leave the pid of the workload alone, and those that leave the
    result alone as well. *)
Definition keeping (P : list action -> bool -> Prop) : step_spec :=
  fun w tr go w' => P (tr_map act tr) go /\ lv_pid w' = lv_pid w.
Definition stable (P : list action -> bool -> Prop) : step_spec :=
  fun w tr go w' => P (tr_map act tr) go /\ lv_pid w' = lv_pid w /\ lv_ret w' = lv_ret w.

Lemma does_keeping P v m :
  wp m (fun tr o => match o with
                    | Done (go, v') => P (tr_map act tr) go /\ same_pid (l_config v) (l_config v')
                    | Fault _ => P (tr_map act tr) false
                    end) ->
  does (keeping P) v m.
Proof.
  intros H. eapply wp_mono; [exact H|]. intros tr [[go v']|f]; [intros (HP & Hs & Hw)|intros HP; by exists (lstate v)].
  split; [by split|done].
Qed.

Lemma does_stable P v m :
  wp m (fun tr o => match o with
                    | Done (go, v') => P (tr_map act tr) go /\ same_pid (l_config v) (l_config v') /\ l_ret v' = l_ret v
                    | Fault _ => P (tr_map act tr) false
                    end) ->
  does (stable P) v m.
Proof.
  intros H. eapply wp_mono; [exact H|]. intros tr [[go v']|f]; [intros (HP & (Hs & Hw) & Hr)|intros HP; by exists (lstate v)].
  split; [by split|done].
Qed.

Definition nothing (l : list action) (go : bool) : Prop := l = [].

Lemma does_nothing v m : quiet m -> post (fun r => same_pid (l_config v) (l_config (snd r))) m -> does (keeping nothing) v m.
Proof.
  intros Hq Hp. apply does_keeping. apply wp_exec. intros tr o He. pose proof (tr_map_quiet _ _ (safe_exec _ _ _ _ Hq He)) as Ht.
  destruct o as [[go v']|f]; [|exact Ht]. split; [exact Ht|]. exact (post_exec _ _ _ _ Hp He).
Qed.

Lemma does_pipes v : does (stable nothing) v (launch_pipes v).
Proof.
  apply does_stable. apply wp_exec. intros tr o He. assert (quiet (launch_pipes v)) as Hq by (unfold launch_pipes; solve_quiet).
  pose proof (tr_map_quiet _ _ (safe_exec _ _ _ _ Hq He)) as Ht. destruct o as [[go v']|f]; [|exact Ht]. split; [exact Ht|].
  assert (post (fun r => same_pid (l_config v) (l_config r.2) /\ l_ret r.2 = l_ret v) (launch_pipes v)) as Hp
    by (unfold launch_pipes; solve_post ltac:(by cbn)).
  exact (post_exec _ _ _ _ Hp He).
Qed.

(** A process is forked, or not; the parent goes on if it was. *)
Definition forks (l : list action) (go : bool) : Prop :=
  (l = [] /\ go = false) \/ exists pid, l = [AFork pid] /\ (go = true -> 0 < pid).

Lemma reported_fault e tr (a : unit) : ~ reported e tr (Done a).
Proof. by intros []. Qed.

Lemma does_hypervisor v : does (stable forks) v (launch_hypervisor v).
Proof.
  apply does_stable. unfold launch_hypervisor. destruct (vm (l_config v)) as [w|]; [|by left]. wp_step. intros pid.
  pose (Q l (o : outcome (bool * launch)) :=
    match o with Done (go, v') => forks (AFork pid :: l) go /\ same_pid (l_config v) (l_config v') /\ l_ret v' = l_ret v | Fault _ => forks (AFork pid :: l) false end).
  wp_goal Q. assert (forall x, Q [] (Fault x)) as Q0 by (intros x; right; by exists pid).
  case_bool_decide as Hp; [split; [right; by exists pid|done]|].
  case_bool_decide as Hz.
  - apply wp_bind. rewrite wp_exec. intros tr o He.
    pose proof (tr_map_quiet _ _ (safe_exec _ _ _ _ (quiet_hypervisor_child _ _ _ _ _) He)) as Ht.
    pose proof (proj1 (wp_exec _ _) (wp_hypervisor_child_reported _ _ _ _ _) _ _ He) as Hr.
    destruct o as [a|x]; [by apply reported_fault in Hr|]. rewrite Ht. apply Q0.
  - do 3 (apply wp_quiet_then; [solve_quiet|apply Q0|intros _]). split; [right; exists pid; split; [done|lia]|done].
Qed.

(** The fork of the shim sets the pid of the workload. *)
Definition forks_pid (w : Z) (l : list action) (go : bool) (w' : Z) : Prop :=
  (l = [] /\ go = false /\ w' = w) \/ (l = [AFork w'] /\ (go = true -> 0 < w')).

Definition forks_shim : step_spec :=
  fun w tr go w' => forks_pid (lv_pid w) (tr_map act tr) go (lv_pid w') /\ lv_ret w' = lv_ret w.

Lemma wp_shim_launch c iw :
  wp (cc_shim_launch c iw) (fun tr o =>
    match o with
    | Done (go, c', _) => forks_pid (workload_pid (state c)) (tr_map act tr) go (workload_pid (state c')) /\ same c c'
    | Fault _ => exists w', forks_pid (workload_pid (state c)) (tr_map act tr) false w'
    end).
Proof.
  pose (Q pre l (o : outcome (bool * cc_oci_config * shim_fds)) :=
    match o with
    | Done (go, c', _) => forks_pid (workload_pid (state c)) (pre ++ l) go (workload_pid (state c')) /\ same c c'
    | Fault _ => exists w', forks_pid (workload_pid (state c)) (pre ++ l) false w'
    end).
  wp_goal (Q []). assert (forall x, Q [] [] (Fault x)) as Q0 by (intros x; exists (workload_pid (state c)); by left).
  assert (forall f, Q [] [] (Done (false, c, f))) as Q1 by (intros f; split; [by left|done]).
  assert (forall q fl, quiet (shim_launch_out q fl)) as Hout by (intros; unfold shim_launch_out; solve_quiet).
  unfold cc_shim_launch. destruct (proxy c); [|exact (Q1 _)]. cbv beta zeta.
  do 3 (apply (wp_quiet_then _ _ (Q [])); [solve_quiet|apply Q0|intros [[? ?]|]]; cbv beta iota; [|apply (wp_quiet_then _ _ (Q [])); [done|apply Q0|intros _; exact (Q1 _)]]).
  apply (wp_quiet_then _ _ (Q [])); [solve_quiet|apply Q0|intros fl].
  case_bool_decide; [apply (wp_quiet_then _ _ (Q [])); [done|apply Q0|intros _; exact (Q1 _)]|].
  wp_step. intros pid. wp_goal (Q [AFork pid]).
  assert (forall x, Q [AFork pid] [] (Fault x)) as Q2 by (intros x; exists pid; by right).
  case_bool_decide as Hp.
  { apply (wp_quiet_then _ _ (Q [AFork pid])); [done|apply Q2|intros _]. split; [by right|done]. }
  case_bool_decide as Hz.
  - apply wp_bind. rewrite wp_exec. intros tr o He.
    pose proof (tr_map_quiet _ _ (safe_exec _ _ _ _ (quiet_shim_child _ _ _ _) He)) as Ht.
    pose proof (proj1 (wp_exec _ _) (wp_shim_child_reported _ _ _ _) _ _ He) as Hr.
    destruct o as [a|x]; [by apply reported_fault in Hr|]. rewrite Ht. apply Q2.
  - apply (wp_quiet_then _ _ (Q [AFork pid])); [solve_quiet|apply Q2|intros _]. apply (wp_quiet_then _ _ (Q [AFork pid])); [done|apply Q2|intros _].
    split; [right; split; [done|cbn; lia]|done].
Qed.

Lemma does_shim v : does forks_shim v (launch_shim v).
Proof.
  unfold does, launch_shim. apply wp_bind. eapply wp_mono; [apply wp_shim_launch|].
  intros tr [[[go c'] f]|x] H; [|destruct H as [w H]; by exists (LView w (l_ret v) EmptyString)].
  apply wp_ret. rewrite app_nil_r. destruct H as [H Hs]. split; [by split|done].
Qed.

Lemma does_network b v : does (keeping nothing) v (launch_network b v).
Proof.
  apply does_nothing; unfold launch_network, cc_oci_vm_netcfg_get, netlink_init, child_failed; [solve_quiet|].
  case_match; [done|]. apply post_any. intros [h|]; [|by apply post_any].
  eapply post_bind; [apply post_network_discover|]. intros [ok c] Hc. case_match; [by apply post_any|].
  apply post_any. intros [ok' h']. case_match; [by apply post_any|done].
Qed.

Lemma does_args v : does (keeping nothing) v (launch_args v).
Proof.
  apply does_nothing; unfold launch_args, send_hypervisor_args; [solve_quiet|].
  eapply post_bind; [apply post_vm_args_get|]. intros [a c] H. case_match; [|done]. by apply post_any.
Qed.

Lemma does_check_child v : does (keeping nothing) v (launch_check_child v).
Proof. apply does_nothing; unfold launch_check_child; [solve_quiet|solve_post ltac:(by cbn)]. Qed.

Lemma does_pod v : does (keeping nothing) v (launch_pod v).
Proof. apply does_nothing; unfold launch_pod; [solve_quiet|solve_post ltac:(by cbn)]. Qed.

Definition writes_state (sf : string) (s : oci_status) (l : list action) (go : bool) : Prop :=
  (l = [] /\ go = false) \/ exists t, records s t /\ l = [AWrite sf t go].

Lemma wp_state_file_create c t :
  wp (cc_oci_state_file_create c t) (fun tr o =>
    exists ok c', o = Done (ok, c') /\ same_pid c c' /\ writes_state (state_path c) (status (state c)) (tr_map act tr) ok /\
      (ok = true -> state_file_path (state c') = state_path c)).
Proof.
  unfold cc_oci_state_file_create, write_state_file, cc_oci_state_file_get.
  repeat case_match; simplify_eq; try (exists false; eexists; split_and!; [done|done|by left|done]).
  wp_step. intros r. exists r. eexists. split_and!; [done|done| |done]. right.
  eexists. split; [|done]. match goal with H : state_to_json _ _ _ _ _ _ = Some _ |- _ => exact (records_written _ _ _ _ _ _ _ H) end.
Qed.

(** The result is that of the last write of the state file. *)
Definition writes_result (sf : string) : step_spec := fun w tr go w' =>
  writes_state sf OCI_STATUS_CREATED (tr_map act tr) go /\ lv_pid w' = lv_pid w /\ lv_ret w' = go /\ (go = true -> lv_file w' = sf).

Lemma does_state t v :
  status (state (l_config v)) = OCI_STATUS_CREATED -> does (writes_result (state_path (l_config v))) v (launch_state t v).
Proof.
  intros Hst. unfold does, launch_state. apply wp_bind. eapply wp_mono; [apply wp_state_file_create|].
  intros tr o (ok & c' & -> & (Hc & Hp) & Hw & Hf). rewrite Hst in Hw. apply wp_ret. rewrite app_nil_r. split; [|done]. by split_and!.
Qed.

Lemma does_state_again t v :
  status (state (l_config v)) = OCI_STATUS_CREATED ->
  does (keeping (writes_state (state_path (l_config v)) OCI_STATUS_CREATED)) v (launch_state t v).
Proof.
  intros Hst. eapply wp_mono; [by apply does_state|]. intros tr [[go v']|x]; [intros ((Hw & Hp & _) & Hs)|intros (w & Hw & Hp & _)].
  - by split; [split|].
  - by exists w.
Qed.

Definition starts_hooks (l : list oci_cfg_hook) (acts : list action) (go : bool) : Prop :=
  exists n, acts = AHook <$> take n (hook_argv <$> l).

Lemma act_run_hook watched h s :
  wp (cc_run_hook watched h s) (fun tr _ => tr_map act tr = if str_nonempty s then [AHook (hook_argv h)] else []).
Proof.
  unfold cc_run_hook, hook_failed, hook_wait. destruct (str_nonempty s); [|done]. cbn [negb].
  pose (Q (l : list action) (o : outcome (bool * list Z)) := [AHook (hook_argv h)] ++ l = [AHook (hook_argv h)]).
  wp_step. intros [[[[pid i] out] err]|]; [|done].
  assert (forall m : io (bool * list Z), quiet m -> wp m (fun tr o => Q (tr_map act tr) o)) as Hq.
  { intros m Hm. eapply wp_mono; [exact Hm|]. intros tr o Ht. unfold Q. by rewrite (tr_map_quiet _ _ Ht). }
  apply Hq. unfold close_outputs. solve_quiet.
Qed.

Lemma act_hooks_loop watched l s stop :
  wp (hooks_loop watched l s stop) (fun tr _ => starts_hooks l (tr_map act tr) true).
Proof.
  revert watched. induction l as [|h l IH]; intros watched; [by exists 0%nat|]. cbn [hooks_loop].
  apply wp_bind. eapply wp_mono; [apply act_run_hook|]. intros tr [[ok w]|f] Ht.
  - destruct (negb ok && stop).
    + apply wp_ret. rewrite app_nil_r, Ht. destruct (str_nonempty s); [by exists 1%nat|by exists 0%nat].
    + destruct (str_nonempty s) eqn:Es.
      * eapply wp_mono; [apply IH|]. intros tr' o [n Hn]. exists (S n). rewrite tr_map_app, Ht, Hn. done.
      * enough (wp (hooks_loop w l s stop) (fun tr' _ => tr_map act tr' = [])) as H.
        { eapply wp_mono; [exact H|]. intros tr' o Hn. exists 0%nat. by rewrite tr_map_app, Ht, Hn. }
        clear -Es. revert w. induction l as [|h l IH]; intros w; [done|]. cbn [hooks_loop]. unfold cc_run_hook.
        rewrite Es. cbn. destruct stop; [done|apply IH].
  - destruct (str_nonempty s); [by exists 1%nat|by exists 0%nat].
Qed.

Lemma act_run_hooks l path stop : wp (cc_run_hooks l path stop) (fun tr _ => starts_hooks l (tr_map act tr) true).
Proof.
  unfold cc_run_hooks. destruct l as [|h l]; [by exists 0%nat|]. wp_step. intros [s|]; [|by exists 0%nat].
  apply act_hooks_loop.
Qed.

(** Hooks that were run: the state file is read; if it has a text, it is given
    to them, see [hooks_spec], otherwise none is started. *)
Definition ran_hooks (path : string) (stop : bool) (l : list oci_cfg_hook) (tr : list event) : Prop :=
  match l with
  | [] => tr = []
  | _ =>
      exists v tr', tr = Ev (Cg_file_get_contents path) v :: tr' /\ starts_hooks l (tr_map act tr') true /\
        match v with
        | None | Some EmptyString => tr' = []
        | Some s => exists ret, hooks_spec (g_strdelimit s newline " ") stop l (tr_map hook_events tr') ret
        end
  end.

Lemma hooks_loop_empty watched l stop : wp (hooks_loop watched l EmptyString stop) (fun tr _ => tr = []).
Proof. induction l as [|h l IH]; [done|]. cbn. by destruct stop. Qed.

Lemma wp_ran_hooks l path stop :
  wp (cc_run_hooks l path stop) (fun tr o =>
    match o with Done _ => ran_hooks path stop l tr | Fault _ => starts_hooks l (tr_map act tr) false end).
Proof.
  unfold cc_run_hooks, ran_hooks. destruct l as [|h l]; [done|]. wp_step.
  intros [s|]; [|eexists _, []; split_and!; [done|by exists 0%nat|done]].
  rewrite wp_exec. intros tr o He. pose proof (proj1 (wp_exec _ _) (act_hooks_loop _ _ _ _) _ _ He) as Ha.
  destruct o as [ret|f]; [|exact Ha]. eexists _, tr. split_and!; [done|done|]. destruct s as [|x s].
  - exact (proj1 (wp_exec _ _) (hooks_loop_empty _ _ _) _ _ He).
  - exists ret. by apply (proj1 (wp_exec _ _) (wp_hooks_loop [] (h :: l) (String x s) stop ltac:(done)) _ _ He).
Qed.

Lemma ran_hooks_starts path stop l tr : ran_hooks path stop l tr -> starts_hooks l (tr_map act tr) true.
Proof. destruct l as [|h l]; [intros ->; by exists 0%nat|]. intros (v & tr' & -> & H & _). exact H. Qed.

(** The prestart hooks: run until one fails, unless the runtime faults. *)
Definition runs_prestart (l : list oci_cfg_hook) : step_spec := fun w tr go w' =>
  lv_pid w' = lv_pid w /\ if go then ran_hooks (lv_file w) true l tr else starts_hooks l (tr_map act tr) false.

Lemma does_prestart v : does (runs_prestart (prestart (hooks (oci (l_config v))))) v (launch_prestart v).
Proof.
  unfold does, launch_prestart. apply wp_bind. eapply wp_mono; [apply wp_ran_hooks|]. intros tr [r|f] H; [|by exists (lstate v)].
  apply wp_ret. rewrite app_nil_r. by split; [split|].
Qed.

Definition feeds_shim (l : list action) (go : bool) : Prop :=
  (l = [] /\ go = false) \/ exists fd ok, l = [ASend fd ok] /\ (go = true -> ok = true).

Lemma act_feed_shim c ret f :
  wp (feed_shim c ret f) (fun tr o =>
    match o with Done (go, _, _, _) => feeds_shim (tr_map act tr) go | Fault _ => feeds_shim (tr_map act tr) false end).
Proof.
  pose (Q l (o : outcome (bool * bool * cc_oci_config * shim_fds)) :=
    match o with Done (go, _, _, _) => feeds_shim l go | Fault _ => feeds_shim l false end).
  change (wp (feed_shim c ret f) (fun tr o => Q (tr_map act tr) o)).
  assert (forall x, Q [] (Fault x)) as Hf by (intros x; by left).
  unfold feed_shim. case_match; [|by left]. case_bool_decide; [by left|].
  apply wp_quiet_then; [solve_quiet|done|intros r1]. case_bool_decide; [by left|].
  apply wp_quiet_then; [solve_quiet|done|intros [[ok io] base]]. case_match; [by left|].
  apply wp_quiet_then; [solve_quiet|done|intros r2]. case_bool_decide; [by left|].
  apply wp_quiet_then; [solve_quiet|done|intros ok2]. case_match; [by left|].
  wp_step. intros sent. case_match; [by right; eexists _, _|].
  cbn [tr_map act]. pose (Q' l o := Q (ASend (default (-1) io) sent :: l) o).
  change (wp (r ← call_ (Cclose (shim_args_fd f));
              bytes ← call_ (Cread (shim_err_fd f) 2);
              if child_reported bytes then mret (false, false, save_io_base (default (-1) base) c, ShimFds (shim_err_fd f) (-1) (shim_socket_fd f))
              else mret (true, true, save_io_base (default (-1) base) c, ShimFds (shim_err_fd f) (-1) (shim_socket_fd f)))
            (fun tr o => Q' (tr_map act tr) o)).
  destruct sent; [|done]. intros r bytes. cbn.
  case_match; right; eexists _, _; done.
Qed.

Lemma does_feed_shim v : does (keeping feeds_shim) v (launch_feed_shim v).
Proof.
  apply does_keeping. unfold launch_feed_shim. apply wp_bind. rewrite wp_exec. intros tr o He.
  pose proof (proj1 (wp_exec _ _) (act_feed_shim _ _ _) _ _ He) as Ha.
  destruct o as [[[[go ret] c] f]|x]; [|exact Ha].
  pose proof (post_exec _ _ _ _ (post_feed_shim _ _ _) He) as Hs.
  apply wp_ret. rewrite app_nil_r. done.
Qed.

Definition writes_pid (pf : cstr) (l : list action) (go : bool) : Prop :=
  l = [] \/ exists p pid ok, pf = Some p /\ l = [AWrite p (fmt_d pid) ok].

Lemma does_finish v : does (keeping (writes_pid (pid_file (l_config v)))) v (launch_finish v).
Proof.
  apply does_keeping. unfold launch_finish. apply wp_bind. rewrite wp_exec. intros tr o He.
  assert (quiet (disconnect (l_config v))) as Hq by (unfold disconnect; solve_quiet).
  pose proof (tr_map_quiet _ _ (safe_exec _ _ _ _ Hq He)) as Ha. destruct o as [[ok c]|x]; [|by left].
  pose proof (post_exec _ _ _ _ (post_disconnect _) He) as Hs. cbn [snd] in Hs.
  case_match eqn:E.
  - unfold cc_oci_create_pidfile. rewrite <- (proj1 (proj1 (proj1 Hs))), E.
    case_match; [apply wp_ret; rewrite app_nil_r; split; [by left|done]|].
    case_match; [apply wp_ret; rewrite app_nil_r; split; [by left|done]|].
    intros r. cbn -[tr_map]. rewrite tr_map_app, Ha. split; [|done]. right. by eexists _, _, _.
  - apply wp_ret. rewrite app_nil_r. split; [by left|done].
Qed.

(** ** The order *)

(** What follows the hooks, and the beginnings of it: the descriptor for the
    shim, the state file again, the pid file. *)
Inductive launch_tail (sf : string) (pf : cstr) : list action -> Prop :=
| LTNothing : launch_tail sf pf []
| LTSend fd ok : launch_tail sf pf [ASend fd ok]
| LTState fd t ok : records OCI_STATUS_CREATED t -> launch_tail sf pf [ASend fd true; AWrite sf t ok]
| LTPid fd t p pid ok :
    records OCI_STATUS_CREATED t -> pf = Some p ->
    launch_tail sf pf [ASend fd true; AWrite sf t true; AWrite p (fmt_d pid) ok].

(** Steps that keep the pid, one after the other. *)
Inductive chain : list (list action -> bool -> Prop) -> list action -> Prop :=
| ChainEnd : chain [] []
| ChainGo (P : list action -> bool -> Prop) Ps l l' : P l true -> chain Ps l' -> chain (P :: Ps) (l ++ l')
| ChainStop (P : list action -> bool -> Prop) Ps l : P l false -> chain (P :: Ps) l.

Lemma segments_cons P Ps w l w' :
  segments (P :: Ps) w l w' ->
  (exists l1 l2 w1, l = l1 ++ l2 /\ P w l1 true w1 /\ segments Ps w1 l2 w') \/ P w l false w'.
Proof. inversion 1; subst; [left; by eexists _, _, _|by right]. Qed.

Lemma segments_chain Ps w tr w' :
  segments (keeping <$> Ps) w tr w' -> chain Ps (tr_map act tr) /\ lv_pid w' = lv_pid w.
Proof.
  revert w tr. induction Ps as [|P Ps IH]; intros w tr; cbn [fmap list_fmap].
  - inversion 1. by repeat constructor.
  - intros [(l1 & l2 & w1 & -> & [Hp Hw] & Hs)|[Hp Hw]]%segments_cons; [|split; [by apply ChainStop|done]].
    apply IH in Hs as [Hs Hw']. rewrite tr_map_app. split; [by constructor|congruence].
Qed.

Lemma chain_nothing Ps l : chain (nothing :: Ps) l -> l = [] \/ chain Ps l.
Proof. inversion 1 as [|P Ps' l1 l2 H1 H2|P Ps' l1 H1]; subst; [right|left; done]. by rewrite (H1 : l1 = []). Qed.

(** The steps after the hooks. *)
Definition tail_specs (sf : string) (pf : cstr) : list (list action -> bool -> Prop) :=
  [nothing; nothing; nothing; nothing; feeds_shim; writes_state sf OCI_STATUS_CREATED; writes_pid pf].

Lemma chain_tail sf pf l : chain (tail_specs sf pf) l -> launch_tail sf pf l.
Proof.
  intros H3. do 4 (apply chain_nothing in H3; destruct H3 as [->|H3]; [constructor|]).
  inversion H3 as [|P Ps l4 l5 Hf H5|P Ps l4 Hf]; subst; clear H3; destruct Hf as [[-> ?]|(fd & ok & -> & Hok)]; try done;
    try constructor. rewrite (Hok eq_refl). clear Hok.
  inversion H5 as [|P Ps l6 l7 Hw H7|P Ps l6 Hw]; subst; clear H5; destruct Hw as [[-> ?]|(t' & Ht' & ->)]; try done;
    try by constructor.
  inversion H7 as [|P Ps l8 l9 Hp H9|P Ps l8 Hp]; subst; clear H7; destruct Hp as [->|(p & pid & ok' & -> & ->)];
    try (inversion H9; subst); by constructor.
Qed.

(** What the steps of a launch do, the pid recorded for the workload before and
    after, and the result: first the processes of the hypervisor and of the
    shim, then the state file and the hooks.  There is no success before the
    state file was written.  The hooks stay unfinished only if the runtime
    faults. *)
Inductive launch_did (sf : string) (pf : cstr) (hs : list oci_cfg_hook) (w : Z) : list event -> Z -> bool -> Prop :=
| LDNothing tr : tr_map act tr = [] -> launch_did sf pf hs w tr w false
| LDHypervisor tr vm : tr_map act tr = [AFork vm] -> launch_did sf pf hs w tr w false
| LDShim tr vm shim : 0 < vm -> tr_map act tr = [AFork vm; AFork shim] -> launch_did sf pf hs w tr shim false
| LDNotRecorded tr vm shim t :
    0 < vm -> 0 < shim -> records OCI_STATUS_CREATED t -> tr_map act tr = [AFork vm; AFork shim; AWrite sf t false] ->
    launch_did sf pf hs w tr shim false
| LDHooksFault tr trh vm shim t ret :
    0 < vm -> 0 < shim -> records OCI_STATUS_CREATED t -> tr_map act tr = [AFork vm; AFork shim; AWrite sf t true] ->
    starts_hooks hs (tr_map act trh) false -> launch_did sf pf hs w (tr ++ trh) shim ret
| LDRest tr trh tr' vm shim t ret :
    0 < vm -> 0 < shim -> records OCI_STATUS_CREATED t -> tr_map act tr = [AFork vm; AFork shim; AWrite sf t true] ->
    ran_hooks sf true hs trh -> launch_tail sf pf (tr_map act tr') ->
    launch_did sf pf hs w (tr ++ trh ++ tr') shim ret.

Lemma segments_launch sf pf hs w tr w' :
  lv_ret w = false ->
  segments (stable nothing :: stable forks :: forks_shim :: writes_result sf :: runs_prestart hs :: (keeping <$> tail_specs sf pf)) w tr w' ->
  launch_did sf pf hs (lv_pid w) tr (lv_pid w') (lv_ret w').
Proof.
  intros Hret [(t1 & ? & w1 & -> & (A1 & P1 & R1) & H)|(A1 & P1 & R1)]%segments_cons; [|rewrite P1, R1, Hret; by apply LDNothing].
  rewrite <- P1. rewrite Hret in R1. clear P1 Hret w. unfold nothing in A1.
  apply segments_cons in H as [(t2 & ? & w2 & -> & (A2 & P2 & R2) & H)|(A2 & P2 & R2)];
    destruct A2 as [[A2 ?]|(vm & A2 & Hvm)]; try done;
    [|rewrite P2, R2, R1; first [by apply LDNothing; rewrite tr_map_app, A1, A2|by apply (LDHypervisor _ _ _ _ _ vm); rewrite tr_map_app, A1, A2]..].
  specialize (Hvm eq_refl). rewrite <- P2. rewrite R1 in R2. clear P2 R1 w1.
  apply segments_cons in H as [(t3 & ? & w3 & -> & (A3 & R3) & H)|(A3 & R3)];
    destruct A3 as [(A3 & ? & P3)|[A3 Hs]]; try done;
    [|rewrite ?P3, R3, R2;
      first [by apply (LDHypervisor _ _ _ _ _ vm); rewrite !tr_map_app, A1, A2, A3|by apply (LDShim _ _ _ _ _ vm); [|rewrite !tr_map_app, A1, A2, A3]]..].
  specialize (Hs eq_refl). rewrite R2 in R3. clear R2.
  apply segments_cons in H as [(t4 & ? & w4 & -> & (A4 & P4 & R4 & F4) & H)|(A4 & P4 & R4 & _)];
    destruct A4 as [[A4 ?]|(t & Ht & A4)]; try done;
    [|rewrite P4, R4;
      first [by apply (LDShim _ _ _ _ _ vm); [|rewrite !tr_map_app, A1, A2, A3, A4]
            |by eapply (LDNotRecorded _ _ _ _ _ vm _ t); [..|rewrite !tr_map_app, A1, A2, A3, A4]]..].
  rewrite <- P4 in *. clear P4 R4. rewrite !app_assoc.
  assert (tr_map act (((t1 ++ t2) ++ t3) ++ t4) = [AFork vm; AFork (lv_pid w4); AWrite sf t true]) as A
    by (rewrite !tr_map_app, A1, A2, A3, A4; done).
  apply segments_cons in H as [(t5 & t6 & w5 & -> & (P5 & A5) & H)|(P5 & A5)]; [|rewrite P5; by eapply LDHooksFault; [..|exact A|]].
  rewrite (F4 eq_refl) in A5. apply segments_chain in H as [Hc%chain_tail ->]. rewrite P5.
  by eapply LDRest; [..|exact A| |].
Qed.

(** A launch that returns a failure kills the workload, if it has one. *)
Definition launch_kills (ret : bool) (pid : Z) : list action :=
  if negb ret && bool_decide (0 < pid) then [AKill pid SIGKILL] else [].

Lemma total_launch_out b v : total (launch_out b v).
Proof. unfold launch_out, netlink_close. solve_total. Qed.

Lemma act_launch_out b v :
  wp (launch_out b v) (fun tr o =>
    exists c', o = Done (l_ret v, c') /\ c' = l_config v /\ tr_map act tr = launch_kills (l_ret v) (workload_pid (state c'))).
Proof.
  pose (Q l (o : outcome (bool * cc_oci_config)) :=
    match o with Done r => r = (l_ret v, l_config v) /\ l = launch_kills (l_ret v) (workload_pid (state (l_config v))) | Fault _ => True end).
  assert (wp (launch_out b v) (fun tr o => Q (tr_map act tr) o)) as H.
  { unfold launch_out, netlink_close. do 8 (apply (wp_quiet_then _ _ Q); [solve_quiet|done|intros _]). unfold Q, launch_kills.
    destruct (negb (l_ret v)); cbn [andb]; [case_bool_decide|]; [intros r|..]; done. }
  rewrite wp_exec. intros tr o He. pose proof (proj1 (wp_exec _ _) H _ _ He) as HQ.
  pose proof (proj1 (wp_exec _ _) (total_launch_out b v) _ _ He) as Ht. destruct o as [r|]; [|done].
  destruct HQ as [-> ->]. by exists (l_config v).
Qed.

(** What a launch does, in its order, and what it keeps of the configuration;
    without a connection to the proxy it does nothing at all. *)
Definition launch_spec (config : cc_oci_config) (tr : list event) (o : outcome (bool * cc_oci_config)) : Prop :=
  match o with
  | Done (ret, c') =>
      based config c' /\
      exists tr1 tr2, tr = tr1 ++ tr2 /\
        launch_did (state_path config) (pid_file config) (prestart (hooks (oci config))) (workload_pid (state config))
          tr1 (workload_pid (state c')) ret /\
        (tr_map act tr2 = launch_kills ret (workload_pid (state c')) \/ (tr2 = [] /\ tr_map act tr1 = [] /\ ret = false))
  | Fault _ =>
      exists w ret, launch_did (state_path config) (pid_file config) (prestart (hooks (oci config))) (workload_pid (state config)) tr w ret
  end.

Lemma launch_spec_fault config tr x : tr_map act tr = [] -> launch_spec config tr (Fault x).
Proof. intros H. eexists _, _. by apply LDNothing. Qed.

Lemma launch_spec_none config tr c' :
  tr_map act tr = [] -> based config c' -> workload_pid (state c') = workload_pid (state config) -> launch_spec config tr (Done (false, c')).
Proof.
  intros Ht Hb Hw. split; [done|]. exists tr, []. rewrite app_nil_r, Hw. split_and!; [done|by apply LDNothing|by right].
Qed.

(** A quiet part in front of a launch. *)
Lemma launch_spec_quiet {A} config (m : io A) (k : A -> io (bool * cc_oci_config)) tr0 :
  tr_map act tr0 = [] -> quiet m ->
  (forall a tr, tr_map act tr = [] -> wp (k a) (fun tr' o => launch_spec config (tr ++ tr') o)) ->
  wp (m ≫= k) (fun tr o => launch_spec config (tr0 ++ tr) o).
Proof.
  intros H0 Hm Hk. apply wp_bind. eapply wp_mono; [exact Hm|]. intros tr [a|x] Ht%tr_map_quiet.
  - eapply wp_mono; [apply (Hk a (tr0 ++ tr)); by rewrite tr_map_app, H0, Ht|]. intros tr' o H. by rewrite app_assoc.
  - apply launch_spec_fault. by rewrite tr_map_app, H0, Ht.
Qed.

Lemma launch_did_quiet sf pf hs w tr0 tr w' ret :
  tr_map act tr0 = [] -> launch_did sf pf hs w tr w' ret -> launch_did sf pf hs w (tr0 ++ tr) w' ret.
Proof.
  intros H0 H.
  assert (forall tr l, tr_map act tr = l -> tr_map act (tr0 ++ tr) = l) as Ha by (intros ? ? <-; by rewrite tr_map_app, H0).
  destruct H; [by eapply LDNothing, Ha|by eapply LDHypervisor, Ha|by eapply LDShim; [|by apply Ha]|by eapply LDNotRecorded; [..|by apply Ha]|..]; rewrite app_assoc.
  - by eapply LDHooksFault; [..|by apply Ha|].
  - by eapply LDRest; [..|by apply Ha| |].
Qed.

Lemma act_launch_steps config c1 net ts :
  based config c1 -> status (state c1) = OCI_STATUS_CREATED -> workload_pid (state c1) = workload_pid (state config) ->
  wp (steps (launch_steps net ts) (Launch c1 false (-1) (-1) (-1) (-1) shim_fds_unset None)) (fun tr o =>
    exists w ret, launch_did (state_path config) (pid_file config) (prestart (hooks (oci config))) (workload_pid (state config)) tr w ret /\
    forall v, o = Done v -> based config (l_config v) /\ w = workload_pid (state (l_config v)) /\ ret = l_ret v).
Proof.
  intros Hb Hst Hw. eapply wp_mono.
  { apply (wp_steps c1 _ (stable nothing :: stable forks :: forks_shim :: writes_result (state_path config) ::
      runs_prestart (prestart (hooks (oci config))) :: (keeping <$> tail_specs (state_path config) (pid_file config)))); [done|].
    unfold launch_steps. repeat constructor; intros v [Hb2 Hst2]; pose proof (transitivity (R := based) Hb Hb2) as (Hpf & Hrt & Hh);
      rewrite Hst in Hst2.
    - apply does_pipes.
    - apply does_hypervisor.
    - apply does_shim.
    - unfold state_path. rewrite <- Hrt. by apply does_state.
    - rewrite <- Hh. apply does_prestart.
    - apply does_network.
    - apply does_args.
    - apply does_check_child.
    - apply does_pod.
    - apply does_feed_shim.
    - unfold state_path. rewrite <- Hrt. by apply does_state_again.
    - rewrite <- Hpf. apply does_finish. }
  intros tr o (w & Hl%segments_launch & Hv); [|done]. cbn [lv_pid lstate l_config] in Hl. rewrite Hw in Hl. eexists _, _. split; [exact Hl|].
  intros v Ho. destruct (Hv v Ho) as [[Hb2 _] ->]. split_and!; [by etrans|done|done].
Qed.

Lemma act_launch config : wp (cc_oci_vm_launch config) (launch_spec config).
Proof.
  unfold cc_oci_vm_launch, cc_oci_enable_networking. change (launch_spec config) with (fun tr o => launch_spec config ([] ++ tr) o).
  apply launch_spec_quiet; [done|solve_quiet|intros net tr1 H1].
  apply launch_spec_quiet; [done|solve_quiet|intros [ts|] tr2 H2].
  - case_match; [|apply wp_ret; rewrite app_nil_r; by apply launch_spec_none].
    apply launch_spec_quiet; [done|solve_quiet|intros [ok p] tr3 H3]. case_match; [apply wp_ret; rewrite app_nil_r; by apply launch_spec_none|].
    apply wp_bind. eapply wp_mono; [by apply (act_launch_steps config)|].
    intros tr4 [v|x] (w & ret & Hl & Hv); [|eexists _, _; by apply launch_did_quiet].
    destruct (Hv v eq_refl) as (Hb & -> & ->). eapply wp_mono; [apply act_launch_out|]. intros tr5 o (c' & -> & -> & Hk).
    split; [done|]. exists (tr3 ++ tr4), tr5. rewrite app_assoc. split_and!; [done|by apply launch_did_quiet|by left].
  - eapply wp_mono; [apply act_launch_out|]. intros tr5 o (c' & -> & -> & Hk). split; [done|]. exists tr2, tr5. split_and!; [done|by apply LDNothing|by left].
Qed.

End quiet.

#[export] Hint Resolve quiet_close_set quiet_toggle_cloexec quiet_dup_over_stdio quiet_setup_shim
  quiet_connection_from_fd quiet_connect quiet_disconnect quiet_recv_rest quiet_run_cmd quiet_attach
  quiet_allocate_io quiet_wait_until_ready quiet_hyper_cmd quiet_pod_create quiet_netlink_execute
  quiet_ip_address quiet_run_routes quiet_get_routes quiet_network_discover quiet_network_create
  quiet_vm_args_get quiet_shim_child quiet_hypervisor_child : cc.

(** ** Witnesses and examples *)

#[local] Existing Instance glib_ref.
#[local] Instance launch_build : Build := {| LOCALSTATEDIR := "/var"; SYSCONFDIR := "/etc"; DEFAULTSDIR := "/usr/share/defaults"; LIBEXECDIR := "/usr/libexec" |}.
#[local] Instance no_paths : StartPaths := {| start_proxy_socket_path := None; start_shim_path := None |}.
#[local] Instance fuel_9 : RecvFuel := 9%nat.
#[local] Instance nl_fuel_9 : NlFuel := 9%nat.
#[local] Instance no_logs : HypervisorLogs := None.

(** A parent whose calls succeed, without privileges.  The state counts the
    answers of the proxy: the third carries the descriptor of the streams. *)
Definition launch_world : handler nat := fun c w =>
  match c return reply c * nat with
  | Ciso8601 => (Some "now", w)
  | Cgeteuid => (1000, w)
  | Csocket_new => (5, w)
  | Cg_unix_socket_address_new _ | Cfcntl_getfd _ | Cfcntl_setfd _ _ | Cconnect _ _ | Cg_socket_close _ => (0, w)
  | Cpoll_out _ => (4, w)
  | Cwrite_chars _ _ | Cflush _ => (1, w)
  | Crecvmsg _ =>
      (if decide (w = 2%nat) then RecvData "F" (Some 9)
       else RecvData (frame (json_generator_to_data (GLib := glib_ref)
              (JObject [("success", JBool true); ("data", JObject [("ioBase", JInt 1)])]) false)) None, S w)
  | Cpipe2 => (Some (10, 11), w)
  | Csocketpair => (Some (12, 13), w)
  | Copen_flags _ _ _ => (7, w)
  | Cfork => (100, w)
  | Cg_file_set_contents _ _ => (true, w)
  | Cg_file_get_contents f => (Some (if decide (f = "/b/hypervisor.args") then "/bin/qemu" +:+ newline +:+ "-kernel @KERNEL@" else "{}"), w)
  | Cg_file_test _ _ => (true, w)
  | Cstat _ => (Some (Stat KReg 0 4096), w)
  | Cread _ _ => (Some EmptyString, w)
  | Cwrite _ s => (Z.of_nat (String.length s), w)
  | Cspawn _ _ => (Some (200, 20, 21, 22), w)
  | Cchild_exit _ => ((200, 0), w)
  | Csocket_from_fd _ => (true, w)
  | Csend_fd _ _ => (true, w)
  | c => (fail_reply c, w)
  end.

Definition launch_example (host : cstr) : cc_oci_config :=
  let c := set_proxy (Some cc_proxy_zero) (set_pid_file (Some "/run/pid") saved_example) in
  let c := set_net (set_net_hostname host (net c)) c in
  let o := set_hooks (Hooks [Hook "/bin/hook" (Some ["net"; "up"]) None 0] [] []) (oci c) in
  set_oci (set_root (set_root_path "/b/rootfs" (root o)) o) c.

(** The actions without the texts written. *)
Definition brief (a : action) : action := match a with AWrite p _ ok => AWrite p EmptyString ok | a => a end.

Definition launched (host : cstr) : list event * outcome (bool * cc_oci_config) :=
  run_tr launch_world (cc_oci_vm_launch (launch_example host)) 0%nat.

(** Without the file of the hypervisor's arguments. *)
Definition no_args_file : handler nat := fun c w =>
  match c return reply c * nat with
  | Cg_file_get_contents f => (if decide (f = "/b/hypervisor.args") then None else Some "{}", w)
  | c => launch_world c w
  end.

Definition not_launched : list event * outcome (bool * cc_oci_config) :=
  run_tr no_args_file (cc_oci_vm_launch (launch_example (Some "h"))) 0%nat.


(** Once the arguments were read, a failure is reported as success: here the
    pod is not created because there is no host name. *)
Example launch_failure_is_success :
  brief <$> tr_map act (fst (launched None)) = [AFork 100; AFork 100; AWrite "/run/c1/state.json" EmptyString true; AHook ["/bin/hook"; "net"; "up"]] /\
  match snd (launched None) with Done (ok, _) => ok = true | Fault _ => False end.
Proof. split; vm_compute; reflexivity. Qed.

(** A hook that fails does not stop the launch. *)
Definition failing_hook : handler nat := fun c w =>
  match c return reply c * nat with Cchild_exit _ => ((200, 256), w) | c => launch_world c w end.

Example prestart_failure_ignored :
  tr_map act (fst (run_tr failing_hook (cc_oci_vm_launch (launch_example (Some "h"))) 0%nat)) = tr_map act (fst (launched (Some "h"))).
Proof. vm_compute. reflexivity. Qed.

(** With privileges, a network that cannot be set up makes the runtime run the
    end of its child's code: it writes to no descriptor and exits, and the
    shim and the process for the hypervisor stay. *)
Definition no_netlink : handler nat := fun c w =>
  match c return reply c * nat with Cgeteuid => (0, w) | c => launch_world c w end.

Example network_failure_exits :
  let '(tr, o) := run_tr no_netlink (cc_oci_vm_launch (launch_example (Some "h"))) 0%nat in
  o = Fault (Exited 1) /\ last tr = Some (Ev (Cwrite (-1) "E") 1) /\
  Forall (fun a => match a with AKill _ _ => False | _ => True end) (tr_map act tr).
Proof. vm_compute. repeat constructor. Qed.

(** When no process can be forked for a command, the runtime sends SIGTERM to
    the pid that [fork] returned, -1, which means every process. *)
Definition no_fork : handler nat := fun c w =>
  match c return reply c * nat with Cfork => (-1, w) | c => launch_world c w end.

Example exec_kills_everything :
  tr_map act (fst (run_tr no_fork (cc_oci_exec_shim (launch_example (Some "h")) 1 8 false) 0%nat)) = [AFork (-1); AKill (-1) SIGTERM].
Proof. vm_compute. reflexivity. Qed.

(** When it fails before, the container's own shim is killed. *)
Definition no_pipes : handler nat := fun c w =>
  match c return reply c * nat with Cpipe2 => (None, w) | c => launch_world c w end.

Example exec_kills_container :
  tr_map act (fst (run_tr no_pipes (cc_oci_exec_shim (launch_example (Some "h")) 1 8 false) 0%nat))
    = [AKill (workload_pid (state (launch_example (Some "h")))) SIGTERM].
Proof. vm_compute. reflexivity. Qed.
