(* ===== verification/EndToEnd.v ===== *)
(** * Across the programs

    What one program sends is what another one gets: the requests and answers
    between the runtime and the proxy, and the streams and descriptors the
    runtime starts the shim with. *)

From S2P Require Import Prelude GLib GLibRef Wire Hyperstart GoProxy Sys Types Util Semver Config State Networking Proxy Hypervisor Logging Shim Process.

(** ** The arguments of the shim *)

(** [getopt_long (argc, argv, "c:p:o:s:e:dh", ...)] on options written as
    single letters, each argument a word of its own. *)
Fixpoint getopt_words (argv : list string) : option (list (ascii * cstr)) :=
  match argv with
  | [] => Some []
  | String "-" (String c EmptyString) :: l =>
      if bool_decide (c ∈ ["c"; "p"; "o"; "s"; "e"]%char) then
        match l with
        | a :: l => cons (c, Some a) <$> getopt_words l
        | [] => None
        end
      else if bool_decide (c ∈ ["d"; "h"]%char) then cons (c, None) <$> getopt_words l
      else None
  | _ :: _ => None
  end.

Lemma parse_numeric_fmt z : LONG_MIN <= z <= LONG_MAX -> parse_numeric_option (Some (fmt_d z)) = z.
Proof.
  intros Hz. unfold parse_numeric_option. destruct (strtoll_fmt_d z Hz) as [-> Hl]. cbn [st_erange st_end st_num orb].
  by rewrite Nat.ltb_irrefl.
Qed.

Ltac pick_option :=
  unfold shim_option; repeat rewrite (bool_decide_false (_ = _ :> ascii)) by discriminate;
  rewrite (bool_decide_true (_ = _ :> ascii)) by done; cbn [container_id proxy_sock_fd proxy_io_fd io_seq_no err_seq_no exiting signal_fd stdin_poll_fd saved_term_settings].

Lemma option_c id i p o s e x g d t :
  shim_option ("c"%char, Some id) (Shim i p o s e x g d t) = mret (Shim (Some id) p o s e x g d t).
Proof. done. Qed.

Lemma option_p z i p o s e x g d t :
  0 <= z <= INT_MAX -> shim_option ("p"%char, Some (fmt_d z)) (Shim i p o s e x g d t) = mret (Shim i z o s e x g d t).
Proof.
  unfold INT_MAX. intros Hz. pick_option. rewrite parse_numeric_fmt by (unfold LONG_MIN, LONG_MAX; lia).
  rewrite s32_small by (unfold INT_MIN, INT_MAX; lia). by rewrite bool_decide_false by lia.
Qed.

Lemma option_o z i p o s e x g d t :
  0 <= z <= INT_MAX -> shim_option ("o"%char, Some (fmt_d z)) (Shim i p o s e x g d t) = mret (Shim i p z s e x g d t).
Proof.
  unfold INT_MAX. intros Hz. pick_option. rewrite parse_numeric_fmt by (unfold LONG_MIN, LONG_MAX; lia).
  rewrite s32_small by (unfold INT_MIN, INT_MAX; lia). by rewrite bool_decide_false by lia.
Qed.

Lemma option_s z i p o s e x g d t :
  0 <= z <= INT_MAX -> shim_option ("s"%char, Some (fmt_d z)) (Shim i p o s e x g d t) = mret (Shim i p o z e x g d t).
Proof.
  unfold INT_MAX. intros Hz. pick_option. rewrite parse_numeric_fmt by (unfold LONG_MIN, LONG_MAX; lia).
  rewrite wrapu_small by lia. by rewrite bool_decide_false by lia.
Qed.

Lemma option_e z i p o s e x g d t :
  0 <= z <= INT_MAX -> shim_option ("e"%char, Some (fmt_d z)) (Shim i p o s e x g d t) = mret (Shim i p o s z x g d t).
Proof.
  unfold INT_MAX. intros Hz. pick_option. rewrite parse_numeric_fmt by (unfold LONG_MIN, LONG_MAX; lia).
  rewrite wrapu_small by lia. by rewrite bool_decide_false by lia.
Qed.

Section shim.
Context `{GL : GLib} `{BD : Build} `{SP : StartPaths} `{RF : RecvFuel} `{NF : NlFuel} `{HL : HypervisorLogs}.

Lemma getopt_shim_argv config id p io base :
  optarg_container_id config = Some id ->
  getopt_words (tail (shim_argv config p io base)) =
    Some ([("c"%char, Some id); ("p"%char, Some (fmt_d p)); ("o"%char, Some (fmt_d io)); ("s"%char, Some (fmt_d base))]
          ++ (if terminal (process (oci config)) then [] else [("e"%char, Some (fmt_d (s32 (base + 1))))])).
Proof. intros H. unfold shim_argv. rewrite H. destruct (terminal _); reflexivity. Qed.

(** C17.  The shim is started with what the runtime got from the proxy.  If the
    runtime wrote its connection and the base of the streams to the child's
    pipe and sent it the descriptor for them, all three above the standard
    descriptors, then the program the child becomes, reading its command
    line, ends up with the container, the connection, the descriptor, the
    base as its sequence number, and the next one for errors unless there is
    a terminal. *)
Theorem shim_handoff config id q initial flock tr argv proxy_fd base io_fd :
  optarg_container_id config = Some id -> 2 < proxy_fd <= INT_MAX -> 0 <= base < INT_MAX -> 2 < io_fd <= INT_MAX ->
  exec (shim_child config q initial flock) tr (Fault (Execed argv)) ->
  tr_map handed tr = [inl (int_bytes proxy_fd); inl (int_bytes base); inr io_fd] ->
  exists opts, getopt_words (tail argv) = Some opts /\
    shim_options opts shim_zero =
      mret (Shim (Some id) proxy_fd io_fd base (if terminal (process (oci config)) then 0 else base + 1)
              false (-1) 0 false).
Proof.
  unfold INT_MAX. intros Hid Hp Hb Hio He Ht.
  destruct (proj1 (wp_exec _ _) (wp_shim_child config q initial flock) _ _ He argv eq_refl)
    as (b1 & b2 & fd & p' & io' & E & Hp' & Hio' & ->).
  rewrite Ht in E. injection E as <- <- <-. rewrite !int_read_bytes in * by lia.
  rewrite (Hp' ltac:(lia)), (Hio' ltac:(lia)). eexists. split; [by apply getopt_shim_argv|].
  rewrite (s32_small (base + 1)) by (unfold INT_MIN, INT_MAX; lia).
  unfold shim_options, shim_zero. cbn [app io_fold].
  rewrite option_c. cbn [io_mbind mbind io_bind mret io_mret]. rewrite option_p by (unfold INT_MAX; lia).
  cbn [io_mbind mbind io_bind mret io_mret]. rewrite option_o by (unfold INT_MAX; lia).
  cbn [io_mbind mbind io_bind mret io_mret]. rewrite option_s by (unfold INT_MAX; lia).
  cbn [io_mbind mbind io_bind mret io_mret]. destruct (terminal _); [done|]. cbn [io_fold].
  rewrite option_e by (unfold INT_MAX; lia). done.
Qed.
End shim.

(** ** The runtime and the proxy *)

(** What is relied on of the two JSON libraries: each reads what the other
    writes. *)
Class JsonAgree `{GLib} `{GoJson} := {
  agree_unmarshal : forall j pretty, json_ok j -> Unmarshal (json_generator_to_data j pretty) = Some j;
  agree_load : forall j, json_ok j -> json_parser_load_from_data (Marshal j) = Some (Some j)
}.

(** The bytes written to a socket. *)
Definition written (l : list sock_event) : string :=
  String.concat EmptyString (omap (fun e => match e with SWrite s => Some s | _ => None end) l).

Section proxy.
Context `{GL : GLib} `{GJ : GoJson} `{JA : !JsonAgree} `{RF : RecvFuel}.

Definition request_json (id : string) (data : list (string * json)) : json :=
  JObject [("id", JString id); ("data", JObject data)].

(** A request of the runtime, as the proxy decodes it. *)
Lemma request_received id data p want fd tr r c conn tail :
  socket p = Some fd -> is_ascii (request id data) -> Z.of_nat (String.length (request id data)) < 2 ^ 32 ->
  json_ok (request_json id data) ->
  exec (cc_proxy_run_cmd p (request id data) want) tr (Done r) ->
  (8 <= String.length c)%nat -> conn_bytes (c :: conn) = written (tr_map sock tr) +:+ tail ->
  exists text conn' j, ReadMessage (c :: conn) = Some (text, conn') /\ conn_bytes conn' = tail /\
    Unmarshal text = Some j /\ unmarshal_request j = Some (MkRequest id (Some (JObject data))).
Proof.
  intros Hs Ha Hl Hj He Hc E. destruct (run_cmd_sends_frame p _ want fd tr r Hs Ha Hl He) as (s1 & s2 & Ht & Hf).
  rewrite Ht in E. change (written [SWrite s1; SWrite s2]) with (s1 +:+ s2) in E. rewrite Hf in E.
  destruct (read_message_frame _ _ _ _ Hl Hc E) as (conn' & Hr & Hc').
  exists (request id data), conn', (request_json id data). split_and!; [done|done| |done].
  by apply agree_unmarshal.
Qed.

Definition hello_data (id ctl io cons : string) : list (string * json) :=
  [("containerId", JString id); ("ctlSerial", JString ctl); ("ioSerial", JString io); ("console", JString cons)].

Lemma hello_handled id ctl io cons e client st :
  id <> EmptyString -> ctl <> EmptyString -> io <> EmptyString -> vms st !! id = None -> connect_err e = None ->
  let '(st', hr) := handleRequest e client (MkRequest "hello" (Some (JObject (hello_data id ctl io cons)))) st in
  hr_err hr = None /\ client_vm st' !! client = Some (vms st' !! id) /\
  exists v m, vms st' !! id = Some v /\ vm_heap st' !! v = Some m /\
    containerID m = id /\ ctlSerial m = ctl /\ ioSerial m = io /\ vm_io_running m = true.
Proof.
  intros Hid Hctl Hio Hst Hce. unfold handleRequest.
  change (handler_start e client _ st) with (hello_start (MkHello id ctl io cons) st).
  unfold hello_start. cbn [h_ContainerID h_CtlSerial h_IoSerial]. rewrite Hst.
  replace (_ || _) with false by (by destruct id, ctl, io). unfold handler_finish, hello_finish. rewrite Hce.
  cbn [h_Console h_ContainerID]. split; [done|].
  assert (forall m, (vm_heap st ++ [m]) !! length (vm_heap st) = Some m) as Hlast
    by (intros m; by rewrite lookup_app_r, Nat.sub_diag).
  destruct (str_nonempty cons && _);
    cbn [set_client_vm set_heap set_vms GoProxy.vms vm_heap client_vm]; rewrite !lookup_insert_eq;
    (split; [done|]); eexists _, _; (split; [done|]);
    rewrite !list_lookup_alter_eq, Hlast; done.
Qed.

(** C18.  A hello of the runtime registers its virtual machine.  If the runtime
    said hello on its connection and the proxy reads what was written, in
    whatever pieces, then the request it decodes, handled in any state where
    the container is unknown and with a VM that can be reached, is answered
    without an error, registers a VM with the sockets the runtime gave the
    hypervisor under the container's name, and makes it the client's VM.  The
    identifier and the paths of the sockets are ASCII: the runtime counts
    the length of a request in characters and the proxy reads as many bytes,
    so that a request with other characters is cut ([utf8_message_truncated]).
    The request is shorter than 2^32 bytes, and its header comes in one piece. *)
Theorem hello_registers p fd id ctl io cons tr c conn tail r :
  socket p = Some fd -> agent_ctl_socket p = Some ctl -> agent_tty_socket p = Some io -> vm_console_socket p = Some cons ->
  id <> EmptyString -> ctl <> EmptyString -> io <> EmptyString ->
  is_ascii (request "hello" (hello_data id ctl io cons)) ->
  Z.of_nat (String.length (request "hello" (hello_data id ctl io cons))) < 2 ^ 32 ->
  json_ok (request_json "hello" (hello_data id ctl io cons)) ->
  exec (cc_proxy_cmd_hello p (Some id)) tr (Done r) ->
  (8 <= String.length c)%nat -> conn_bytes (c :: conn) = written (tr_map sock tr) +:+ tail ->
  exists text conn' j req, ReadMessage (c :: conn) = Some (text, conn') /\ conn_bytes conn' = tail /\
    Unmarshal text = Some j /\ unmarshal_request j = Some req /\
    forall e client st, vms st !! id = None -> connect_err e = None ->
      let '(st', hr) := handleRequest e client req st in
      hr_err hr = None /\ client_vm st' !! client = Some (vms st' !! id) /\
      exists v m, vms st' !! id = Some v /\ vm_heap st' !! v = Some m /\
        containerID m = id /\ ctlSerial m = ctl /\ ioSerial m = io /\ vm_io_running m = true.
Proof.
  intros Hs Hctl Hio Hcons Hid Hc0 Hi0 Ha Hl Hj He Hc E. unfold cc_proxy_cmd_hello in He. rewrite Hs, Hctl, Hio, Hcons in He.
  apply exec_bind in He as [(f & _ & [=])|(tr1 & [[ok msg] oob] & tr2 & -> & He & He2)].
  destruct He2 as [-> _]. rewrite app_nil_r in E.
  destruct (request_received _ _ _ _ _ _ _ _ _ _ Hs Ha Hl Hj He Hc E) as (text & conn' & j & Hr & Hc' & Hu & Hq).
  exists text, conn', j, (MkRequest "hello" (Some (JObject (hello_data id ctl io cons)))). split_and!; [done..|].
  intros e client st Hst Hce. by apply hello_handled.
Qed.

Definition allocate_req (tty : bool) : Request :=
  MkRequest "allocateIO" (Some (JObject [("nStreams", JInt (if tty then 1 else IO_STREAMS_NUMBER))])).

Lemma allocate_handled e client tty st v m f0 conn1 :
  client_vm st !! client = Some (Some v) -> vm_heap st !! v = Some m -> socket_pair e = inr (f0, conn1) ->
  handleRequest e client (allocate_req tty) st =
    let n := if tty then 1 else IO_STREAMS_NUMBER in
    (set_heap (<[v := snd (AllocateIo n client conn1 m)]> (vm_heap st)) st,
     HandlerResponse None [("ioBase", JInt (nextIoBase m))] (Some f0)).
Proof.
  intros Hc Hm He. unfold handleRequest.
  change (handler_start e client (allocate_req tty) st) with
    (let '(p, hr) := allocateIoHandler e client (req_Data (allocate_req tty)) st in (p, Responded hr)).
  unfold allocateIoHandler, allocate_req. cbn [req_Data]. rewrite Hc, He, Hm. destruct tty; reflexivity.
Qed.

Lemma check_response_success data :
  json_ok (JObject (("success", JBool true) :: data)) ->
  cc_proxy_hyper_check_response (Marshal (JObject (("success", JBool true) :: data))) = Some true.
Proof.
  intros H. unfold cc_proxy_hyper_check_response. rewrite agree_load by done.
  change (json_read_member (Some (JObject (("success", JBool true) :: data))) "success") with (Some (JBool true)).
  cbn [fmap option_fmap option_map]. by rewrite json_get_boolean_spec.
Qed.

Lemma run_msg_write fd m w : run recv_script (cc_proxy_msg_write fd m) w = (Done true, w).
Proof. reflexivity. Qed.

Lemma msg_read_wanted fd f acc : cc_proxy_msg_read fd true (Some f) acc = cc_proxy_msg_read fd false (Some f) acc.
Proof. reflexivity. Qed.

(** The answer of the proxy, as the runtime reads it. *)
Lemma run_cmd_answered p fd text m fd' d c l :
  socket p = Some fd -> cc_proxy_hyper_check_response m = Some true ->
  Z.of_nat (String.length m) < 2 ^ 32 -> (8 <= String.length d)%nat -> d +:+ recv_bytes l = frame m ->
  Forall no_error l -> (length l < recv_fuel)%nat ->
  exists l', run recv_script (cc_proxy_run_cmd p text true) (RecvData "F" (Some fd') :: RecvData d c :: l) =
    (Done (true, m, Some fd'), l').
Proof.
  intros Hs Hr Hm Hd E Hl Hf. destruct (msg_read_frame fd (Some fd') m d c l Hm Hd E Hl Hf) as [l' Hrun].
  exists l'. unfold cc_proxy_run_cmd. rewrite Hs, run_bind, run_msg_write. cbn [negb].
  rewrite run_bind. change (run recv_script (cc_proxy_msg_read fd true None EmptyString) (RecvData "F" (Some fd') :: RecvData d c :: l))
    with (Done (WContinue, EmptyString, Some fd'), RecvData d c :: l). cbn beta iota.
  rewrite run_bind, msg_read_wanted, Hrun. cbn beta iota. by rewrite Hr.
Qed.

(** The text of the answer to an allocation. *)
Definition io_answer (base : Z) : json :=
  JObject [("success", JBool true); ("data", JObject [("ioBase", JInt base)])].

Lemma io_answer_ok base : 0 <= base <= INT_MAX -> json_ok (io_answer base).
Proof.
  unfold INT_MAX. intros H. cbn. unfold LONG_MIN, LONG_MAX.
  assert (forall s, is_ascii s -> g_utf8_validate s = true) as U by apply g_utf8_validate_ascii.
  repeat split; try (apply U; repeat constructor); try lia; apply (bool_decide_unpack _); vm_compute; done.
Qed.

(** C19.  The streams the proxy allocates are those the runtime is told.  When
    the proxy handles the runtime's request on behalf of an attached client,
    and the runtime reads the answer, in whatever pieces, after the byte that
    carries the descriptor, then the runtime returns success with the
    descriptor it received and with a base such that every stream the runtime
    asked for, from this base on, is routed to the connection the proxy kept
    for this client.  The next number of the VM is below [INT_MAX], which
    is what the runtime's integer holds; the request is the one that the runtime
    writes, decoded. *)
Theorem allocate_io_agrees p fd tty st client v m e f0 conn1 fd' d c l :
  socket p = Some fd -> client_vm st !! client = Some (Some v) -> vm_heap st !! v = Some m ->
  0 <= nextIoBase m < INT_MAX -> socket_pair e = inr (f0, conn1) ->
  Z.of_nat (String.length (Marshal (io_answer (nextIoBase m)))) < 2 ^ 32 ->
  (8 <= String.length d)%nat -> Forall no_error l -> (length l < recv_fuel)%nat ->
  let '(st', hr) := handleRequest e client (allocate_req tty) st in
  forall pieces, serve_response hr = SendFd f0 :: (SendBytes <$> pieces) ->
  d +:+ recv_bytes l = String.concat EmptyString pieces ->
  (exists l', run recv_script (cc_proxy_cmd_allocate_io p tty) (RecvData "F" (Some fd') :: RecvData d c :: l) =
     (Done (true, Some fd', Some (nextIoBase m)), l')) /\
  exists m', vm_heap st' !! v = Some m' /\
    forall i, 0 <= i < (if tty then 1 else 2) ->
      exists s, findSession m' (nextIoBase m + i) = Some s /\ clientID s = client /\ session_client s = conn1.
Proof.
  intros Hs Hc Hm Hb He Hlen Hd Hl Hf. rewrite (allocate_handled _ _ _ _ _ _ _ _ Hc Hm He). cbn zeta.
  intros pieces Hp E. unfold serve_response in Hp. cbn [hr_file app] in Hp.
  assert (Inj eq eq SendBytes) by (by intros ? ? [= ->]). apply (f_equal (@List.tl _)) in Hp. cbn [List.tl] in Hp.
  apply (inj (fmap SendBytes)) in Hp as <-.
  change (marshal_response _) with (Marshal (io_answer (nextIoBase m))) in E. rewrite write_message_frame in E by done.
  assert (json_ok (io_answer (nextIoBase m))) as Hj by (apply io_answer_ok; lia). split.
  - destruct (run_cmd_answered p fd (request "allocateIO" [("nStreams", JInt (if tty then 1 else IO_STREAMS_NUMBER))])
      _ fd' d c l Hs (check_response_success _ Hj) Hlen Hd E Hl Hf) as [l' Hr].
    exists l'. unfold cc_proxy_cmd_allocate_io. rewrite run_bind, Hr. cbn [negb].
    change (Marshal _) with (Marshal (io_answer (nextIoBase m))). rewrite agree_load by done. cbn beta iota.
    change (json_read_member (Some (io_answer (nextIoBase m))) "data") with (Some (JObject [("ioBase", JInt (nextIoBase m))])). cbn beta iota.
    change (json_read_member (Some (JObject [("ioBase", JInt (nextIoBase m))])) "ioBase") with (Some (JInt (nextIoBase m))).
    cbn beta iota. cbn [run mret io_mret]. rewrite json_get_int_spec, s32_small by (unfold INT_MIN; lia). done.
  - eexists. split; [cbn [set_heap vm_heap]; by rewrite list_lookup_insert_eq by by eapply lookup_lt_Some|].
    unfold INT_MAX in Hb. intros i Hi. unfold findSession, AllocateIo. cbn [snd set_sessions ioSessions].
    rewrite insert_session_lookup by (cbn; unfold IO_STREAMS_NUMBER; destruct tty; lia). cbn [ioBase].
    rewrite decide_True by (unfold IO_STREAMS_NUMBER; destruct tty; lia). by eexists.
Qed.
End proxy.

(** ** Witnesses *)

#[local] Existing Instance glib_ref.
#[local] Instance same_json : GoJson := {| Marshal j := json_encode j; Unmarshal := json_decode |}.
#[local] Instance same_json_agree : JsonAgree.
Proof.
  split.
  - intros j pretty H. apply json_decode_encode. by apply json_ok_no_double.
  - intros j H. cbn. rewrite json_decode_encode; [done|]. by apply json_ok_no_double.
Defined.
#[local] Instance fuel_9 : RecvFuel := 9%nat.

Definition hello_proxy : cc_proxy := Proxy (Some 5) (Some "/ctl") (Some "/tty") (Some "/con").
Definition hello_run : list event * outcome bool := run_tr accepting (cc_proxy_cmd_hello hello_proxy (Some "c1")) tt.
Definition hello_text : string := written (tr_map sock (fst hello_run)).

Lemma hello_registers_witness :
  exists text conn' j req, ReadMessage [str_take 20 hello_text; str_drop 20 hello_text] = Some (text, conn') /\
    conn_bytes conn' = EmptyString /\ Unmarshal text = Some j /\ unmarshal_request j = Some req /\
    forall e client st, vms st !! "c1" = None -> connect_err e = None ->
      let '(st', hr) := handleRequest e client req st in
      hr_err hr = None /\ client_vm st' !! client = Some (vms st' !! "c1") /\
      exists v m, vms st' !! "c1" = Some v /\ vm_heap st' !! v = Some m /\
        containerID m = "c1" /\ ctlSerial m = "/ctl" /\ ioSerial m = "/tty" /\ vm_io_running m = true.
Proof.
  refine (hello_registers hello_proxy 5 "c1" "/ctl" "/tty" "/con" (fst hello_run) (str_take 20 hello_text)
    [str_drop 20 hello_text] EmptyString true eq_refl eq_refl eq_refl eq_refl _ _ _ _ _ _ _ _ _);
    try discriminate.
  - apply (bool_decide_unpack _). vm_compute. done.
  - vm_compute. reflexivity.
  - cbn. repeat split; apply (bool_decide_unpack _); vm_compute; done.
  - apply (run_tr_exec accepting (cc_proxy_cmd_hello hello_proxy (Some "c1")) tt). vm_compute. reflexivity.
  - apply Nat.leb_le. vm_compute. reflexivity.
  - vm_compute. reflexivity.
Defined.

(** One VM, one client attached to it. *)
Definition attached : GoProxy.proxy := GoProxy.Proxy {["c1" := 0%nat]} [newVM "c1" "/ctl" "/tty"] {[7 := Some 0%nat]} false.
Definition answer : string := frame (Marshal (io_answer 1)).

Lemma allocate_io_agrees_witness :
  (exists l', run recv_script (cc_proxy_cmd_allocate_io hello_proxy false)
     [RecvData "F" (Some 12); RecvData (str_take 11 answer) None; RecvErr EAGAIN; RecvData (str_drop 11 answer) None] =
     (Done (true, Some 12, Some 1), l')) /\
  exists m', vm_heap (fst (handleRequest (Env None (inr (30, 31)) None) 7 (allocate_req false) attached)) !! 0%nat = Some m' /\
    forall i, 0 <= i < 2 ->
      exists s, findSession m' (1 + i) = Some s /\ clientID s = 7 /\ session_client s = 31.
Proof.
  refine (allocate_io_agrees hello_proxy 5 false attached 7 0 (newVM "c1" "/ctl" "/tty") (Env None (inr (30, 31)) None) 30 31 12
    (str_take 11 answer) None [RecvErr EAGAIN; RecvData (str_drop 11 answer) None] eq_refl eq_refl eq_refl _ eq_refl _ _ _ _
    (WriteMessage (Marshal (io_answer 1))) _ _).
  - unfold INT_MAX. cbn. lia.
  - vm_compute. reflexivity.
  - apply Nat.leb_le. vm_compute. reflexivity.
  - repeat constructor.
  - cbv. lia.
  - vm_compute. reflexivity.
  - vm_compute. reflexivity.
Defined.

(** A child that is handed a connection, a base and a descriptor. *)
Definition handing : handler (list string) := fun c w =>
  match c return reply c * list string with
  | Cread _ _ => match w with [] => (None, []) | b :: w => (Some b, w) end
  | Csocket_from_fd _ => (true, w)
  | Creceive_fd _ => (9, w)
  | Copendir _ => (Some (4, ["."; ".."; "0"; "5"; "9"; "10"]), w)
  | Cfcntl_getfd _ | Cfcntl_setfd _ _ | Cflock _ | Cexecvp _ | Cclosedir _ | Cclose _ => (0, w)
  | c => (fail_reply c, w)
  end.

#[local] Instance shim_build : Build := {| LOCALSTATEDIR := "/var"; SYSCONFDIR := "/etc"; DEFAULTSDIR := "/usr/share/defaults"; LIBEXECDIR := "/usr/libexec" |}.
#[local] Instance shim_paths : StartPaths := {| start_proxy_socket_path := None; start_shim_path := None |}.

Definition handed_config : cc_oci_config := set_optarg_container_id (Some "c1") cc_oci_config_zero.
Definition handed_run : list event * outcome unit :=
  run_tr handing (shim_child handed_config (ShimPipes 20 21 22 23 24 25) true 8) [int_bytes 5; int_bytes 1].

Lemma shim_handoff_witness :
  exists opts, getopt_words ["-c"; "c1"; "-p"; "5"; "-o"; "9"; "-s"; "1"; "-e"; "2"] = Some opts /\
    shim_options opts shim_zero = mret (Shim (Some "c1") 5 9 1 2 false (-1) 0 false).
Proof.
  refine (shim_handoff handed_config "c1" (ShimPipes 20 21 22 23 24 25) true 8 (fst handed_run)
    ["/usr/libexec/cc-shim"; "-c"; "c1"; "-p"; "5"; "-o"; "9"; "-s"; "1"; "-e"; "2"] 5 1 9 eq_refl _ _ _ _ _);
    try (unfold INT_MAX; lia).
  - unfold handed_run. apply run_tr_exec. vm_compute. reflexivity.
  - vm_compute. reflexivity.
Defined.
