(* ===== verification/Agent.v ===== *)
(** * The agent's end of the protocol

    The structures of src/vendor/github.com/hyperhq/runv/hyperstart/api/json
    (spec.go and types.go), how encoding/json fills them from a parsed document,
    the forwarding of a command by the proxy ([SendMessage] of src/proxy/vm.go,
    called by [hyperHandler]), and what a request of the runtime is when it
    arrives in these structures. *)

From S2P Require Import Prelude GLib GLibRef Wire Hyperstart GoProxy Sys Types Util Semver Config State Networking Proxy Shim EndToEnd.

(** ** Filling structures *)

(** A decoder takes the value a field has and the document; null leaves the
    value alone, and a document of another type is an error. *)
Definition decoder (A : Type) : Type := A -> json -> option A.

Definition dec_string : decoder string := fun cur j => match j with JString s => Some s | JNull => Some cur | _ => None end.
Definition dec_bool : decoder bool := fun cur j => match j with JBool b => Some b | JNull => Some cur | _ => None end.

(** Integers out of the range of the type are errors. *)
Definition dec_range (lo hi : Z) : decoder Z := fun cur j =>
  match j with JInt z => if (lo <=? z) && (z <=? hi) then Some z else None | JNull => Some cur | _ => None end.
Definition dec_int : decoder Z := dec_range LONG_MIN LONG_MAX.
Definition dec_uint (w : Z) : decoder Z := dec_range 0 (2 ^ w - 1).

(** An array replaces what the slice held; null makes it nil. *)
Definition dec_slice {A} (zero : A) (d : decoder A) : decoder (list A) := fun cur j =>
  match j with JArray l => mapM (d zero) l | JNull => Some [] | _ => None end.

(** The members of an object, in order, for the field of this name. *)
Fixpoint field {A} (name : string) (d : decoder A) (m : list (string * json)) (cur : A) : option A :=
  match m with
  | [] => Some cur
  | (k, v) :: m => if key_matches name k then cur ← d cur v; field name d m cur else field name d m cur
  end.

Definition dec_struct {A} (fill : list (string * json) -> A -> option A) : decoder A := fun cur j =>
  match j with JObject m => fill m cur | JNull => Some cur | _ => None end.

(** [map[string]string]: members are added; null makes it nil. *)
Definition dec_strings : decoder (gmap string string) := fun cur j =>
  match j with
  | JObject m => foldl (fun acc kv => acc ← acc; s ← dec_string EmptyString kv.2; Some (<[kv.1 := s]> acc)) (Some cur) m
  | JNull => Some ∅
  | _ => None
  end.

(** A pointer to a structure, allocated when there is something to fill. *)
Definition dec_pointer {A} (zero : A) (d : decoder A) : decoder (option A) := fun cur j =>
  match j with JNull => Some None | _ => Some <$> d (default zero cur) j end.

(** ** spec.go *)

Record VolumeDescriptor := MkVolume {
  vd_Device : string; vd_Addr : string; vd_Mount : string; vd_Fstype : string; vd_ReadOnly : bool; vd_DockerVolume : bool
}.
Definition volume_zero : VolumeDescriptor := MkVolume EmptyString EmptyString EmptyString EmptyString false false.
Definition dec_VolumeDescriptor : decoder VolumeDescriptor := dec_struct (fun m c =>
  a ← field "device" dec_string m (vd_Device c); b ← field "addr" dec_string m (vd_Addr c);
  d ← field "mount" dec_string m (vd_Mount c); e ← field "fstype" dec_string m (vd_Fstype c);
  f ← field "readOnly" dec_bool m (vd_ReadOnly c); g ← field "dockerVolume" dec_bool m (vd_DockerVolume c);
  Some (MkVolume a b d e f g)).

Record FsmapDescriptor := MkFsmap { fd_Source : string; fd_Path : string; fd_ReadOnly : bool; fd_DockerVolume : bool }.
Definition fsmap_zero : FsmapDescriptor := MkFsmap EmptyString EmptyString false false.
Definition dec_FsmapDescriptor : decoder FsmapDescriptor := dec_struct (fun m c =>
  a ← field "source" dec_string m (fd_Source c); b ← field "path" dec_string m (fd_Path c);
  d ← field "readOnly" dec_bool m (fd_ReadOnly c); e ← field "dockerVolume" dec_bool m (fd_DockerVolume c);
  Some (MkFsmap a b d e)).

Record EnvironmentVar := MkEnv { ev_Env : string; ev_Value : string }.
Definition env_zero : EnvironmentVar := MkEnv EmptyString EmptyString.
Definition dec_EnvironmentVar : decoder EnvironmentVar := dec_struct (fun m c =>
  a ← field "env" dec_string m (ev_Env c); b ← field "value" dec_string m (ev_Value c); Some (MkEnv a b)).

Record Process := MkProcess {
  p_User : string; p_Group : string; p_AdditionalGroups : list string; p_Terminal : bool; p_Stdio : Z; p_Stderr : Z;
  p_Args : list string; p_Envs : list EnvironmentVar; p_Workdir : string
}.
Definition process_zero : Process := MkProcess EmptyString EmptyString [] false 0 0 [] [] EmptyString.
Definition dec_Process : decoder Process := dec_struct (fun m c =>
  a ← field "user" dec_string m (p_User c); b ← field "group" dec_string m (p_Group c);
  g ← field "additionalGroups" (dec_slice EmptyString dec_string) m (p_AdditionalGroups c);
  t ← field "terminal" dec_bool m (p_Terminal c);
  i ← field "stdio" (dec_uint 64) m (p_Stdio c); e ← field "stderr" (dec_uint 64) m (p_Stderr c);
  l ← field "args" (dec_slice EmptyString dec_string) m (p_Args c);
  v ← field "envs" (dec_slice env_zero dec_EnvironmentVar) m (p_Envs c);
  w ← field "workdir" dec_string m (p_Workdir c);
  Some (MkProcess a b g t i e l v w)).

Record Port := MkPort { HostPort : Z; ContainerPort : Z; port_Protocol : string }.
Definition port_zero : Port := MkPort 0 0 EmptyString.
Definition dec_Port : decoder Port := dec_struct (fun m c =>
  a ← field "hostPort" dec_int m (HostPort c); b ← field "containerPort" dec_int m (ContainerPort c);
  d ← field "protocol" dec_string m (port_Protocol c); Some (MkPort a b d)).

Record Container := MkContainer {
  c_Id : string; c_Rootfs : string; c_Fstype : string; c_Image : string; c_Addr : string;
  c_Volumes : list VolumeDescriptor; c_Fsmap : list FsmapDescriptor; c_Sysctl : gmap string string; c_Process : Process;
  c_RestartPolicy : string; c_Initialize : bool; c_Ports : list Port
}.
Definition container_zero : Container :=
  MkContainer EmptyString EmptyString EmptyString EmptyString EmptyString [] [] ∅ process_zero EmptyString false [].
Definition dec_Container : decoder Container := dec_struct (fun m c =>
  id ← field "id" dec_string m (c_Id c); r ← field "rootfs" dec_string m (c_Rootfs c);
  f ← field "fstype" dec_string m (c_Fstype c); i ← field "image" dec_string m (c_Image c);
  a ← field "addr" dec_string m (c_Addr c);
  v ← field "volumes" (dec_slice volume_zero dec_VolumeDescriptor) m (c_Volumes c);
  s ← field "fsmap" (dec_slice fsmap_zero dec_FsmapDescriptor) m (c_Fsmap c);
  y ← field "sysctl" dec_strings m (c_Sysctl c);
  p ← field "process" dec_Process m (c_Process c);
  t ← field "restartPolicy" dec_string m (c_RestartPolicy c); n ← field "initialize" dec_bool m (c_Initialize c);
  o ← field "ports" (dec_slice port_zero dec_Port) m (c_Ports c);
  Some (MkContainer id r f i a v s y p t n o)).

Record NetworkInf := MkInf { ni_Device : string; ni_IpAddress : string; ni_NetMask : string }.
Definition inf_zero : NetworkInf := MkInf EmptyString EmptyString EmptyString.
Definition dec_NetworkInf : decoder NetworkInf := dec_struct (fun m c =>
  a ← field "device" dec_string m (ni_Device c); b ← field "ipAddress" dec_string m (ni_IpAddress c);
  d ← field "netMask" dec_string m (ni_NetMask c); Some (MkInf a b d)).

Record Route := MkRoute { r_Dest : string; r_Gateway : string; r_Device : string }.
Definition route_zero : Route := MkRoute EmptyString EmptyString EmptyString.
Definition dec_Route : decoder Route := dec_struct (fun m c =>
  a ← field "dest" dec_string m (r_Dest c); b ← field "gateway" dec_string m (r_Gateway c);
  d ← field "device" dec_string m (r_Device c); Some (MkRoute a b d)).

Record PortmappingWhiteList := MkWhiteList { InternalNetworks : list string; ExternalNetworks : list string }.
Definition whitelist_zero : PortmappingWhiteList := MkWhiteList [] [].
Definition dec_PortmappingWhiteList : decoder PortmappingWhiteList := dec_struct (fun m c =>
  a ← field "internalNetworks" (dec_slice EmptyString dec_string) m (InternalNetworks c);
  b ← field "externalNetworks" (dec_slice EmptyString dec_string) m (ExternalNetworks c);
  Some (MkWhiteList a b)).

Record Pod := MkPod {
  pod_Hostname : string; pod_Containers : list Container; pod_Interfaces : list NetworkInf; pod_Dns : list string;
  pod_Routes : list Route; pod_ShareDir : string; PortmappingWhiteLists : option PortmappingWhiteList
}.
Definition pod_zero : Pod := MkPod EmptyString [] [] [] [] EmptyString None.
Definition dec_Pod : decoder Pod := dec_struct (fun m c =>
  h ← field "hostname" dec_string m (pod_Hostname c);
  l ← field "containers" (dec_slice container_zero dec_Container) m (pod_Containers c);
  i ← field "interfaces" (dec_slice inf_zero dec_NetworkInf) m (pod_Interfaces c);
  d ← field "dns" (dec_slice EmptyString dec_string) m (pod_Dns c);
  r ← field "routes" (dec_slice route_zero dec_Route) m (pod_Routes c);
  s ← field "shareDir" dec_string m (pod_ShareDir c);
  w ← field "portmappingWhiteLists" (dec_pointer whitelist_zero dec_PortmappingWhiteList) m (PortmappingWhiteLists c);
  Some (MkPod h l i d r s w)).

Definition volLookup (c : Container) (mpoint : string) : option VolumeDescriptor :=
  List.find (fun v => bool_decide (vd_Mount v = mpoint)) (c_Volumes c).
Definition mapLookup (c : Container) (mpoint : string) : option FsmapDescriptor :=
  List.find (fun f => bool_decide (fd_Path f = mpoint)) (c_Fsmap c).
Definition RoLookup (c : Container) (mpoint : string) : bool :=
  match volLookup c mpoint with
  | Some v => vd_ReadOnly v
  | None => match mapLookup c mpoint with Some f => fd_ReadOnly f | None => false end
  end.

(** ** types.go *)

Record FileCommand := MkFile { file_Container : string; file_File : string }.
Definition dec_FileCommand : decoder FileCommand := dec_struct (fun m c =>
  a ← field "container" dec_string m (file_Container c); b ← field "file" dec_string m (file_File c); Some (MkFile a b)).

(** [syscall.Signal] is an [int]. *)
Record KillCommand := MkKill { kill_Container : string; kill_Signal : Z }.
Definition kill_zero : KillCommand := MkKill EmptyString 0.
Definition dec_KillCommand : decoder KillCommand := dec_struct (fun m c =>
  a ← field "container" dec_string m (kill_Container c); b ← field "signal" dec_int m (kill_Signal c); Some (MkKill a b)).

Record ExecCommand := MkExec { exec_Container : string; exec_Process : Process }.
Definition exec_zero : ExecCommand := MkExec EmptyString process_zero.
Definition dec_ExecCommand : decoder ExecCommand := dec_struct (fun m c =>
  a ← field "container" dec_string m (exec_Container c); b ← field "process" dec_Process m (exec_Process c); Some (MkExec a b)).

Record Routes := MkRoutes { Routes_Routes : list Route }.
Definition dec_Routes : decoder Routes := dec_struct (fun m c =>
  a ← field "routes" (dec_slice route_zero dec_Route) m (Routes_Routes c); Some (MkRoutes a)).

Record WindowSizeMessage := MkWindowSize { ws_Seq : Z; ws_Row : Z; ws_Column : Z }.
Definition winsize_zero : WindowSizeMessage := MkWindowSize 0 0 0.
Definition dec_WindowSizeMessage : decoder WindowSizeMessage := dec_struct (fun m c =>
  a ← field "seq" (dec_uint 64) m (ws_Seq c); b ← field "row" (dec_uint 16) m (ws_Row c);
  d ← field "column" (dec_uint 16) m (ws_Column c); Some (MkWindowSize a b d)).

Definition ToBuffer (tm : TtyMessage) : string :=
  let length := (String.length (tty_message tm) + 12)%nat in
  be_bytes 8 (tty_session tm) +:+ be_bytes 4 (u32 (Z.of_nat length)) +:+ tty_message tm.

(** ** Forwarding *)

(** [json.Unmarshal (data, &hyper)] and [vm.SendMessage]: whether it worked, the
    bytes written, and the rest of the control channel.  [raw] is the text of
    the member ["data"], which a [json.RawMessage] keeps as it is, and is empty
    without the member. *)
Definition SendMessage (write_ok : bool) (cmd data : string) (ctl : go_conn) : bool * string * go_conn :=
  SendCtlMessage write_ok cmd data ctl.

Definition hyper_send (write_ok : bool) (raw : string) (d : option json) (ctl : go_conn) : option (bool * string * go_conn) :=
  m ← object_members d;
  name ← string_field "hyperName" m EmptyString;
  Some (SendMessage write_ok name raw ctl).

(** The structure declared for the data of a command. *)
Inductive agent_command :=
| AStartPod (p : Pod)
| ANewContainer (c : Container)
| AExecCmd (e : ExecCommand)
| AKillContainer (k : KillCommand)
| AWinSize (w : WindowSizeMessage).

Definition agent_decode (code : Z) (j : json) : option agent_command :=
  if bool_decide (code = INIT_STARTPOD) then AStartPod <$> dec_Pod pod_zero j
  else if bool_decide (code = INIT_NEWCONTAINER) then ANewContainer <$> dec_Container container_zero j
  else if bool_decide (code = INIT_EXECCMD) then AExecCmd <$> dec_ExecCommand exec_zero j
  else if bool_decide (code = INIT_KILLCONTAINER) then AKillContainer <$> dec_KillCommand kill_zero j
  else if bool_decide (code = INIT_WINSIZE) then AWinSize <$> dec_WindowSizeMessage winsize_zero j
  else None.

(** ** Lookups and buffers *)

(** A mount point is read only when its volume is, or, without a volume, when
    its shared directory is. *)
Lemma RoLookup_true c mpoint :
  RoLookup c mpoint = true <->
  (exists v, volLookup c mpoint = Some v /\ vd_ReadOnly v = true) \/
  (volLookup c mpoint = None /\ exists f, mapLookup c mpoint = Some f /\ fd_ReadOnly f = true).
Proof. unfold RoLookup. destruct (volLookup c mpoint), (mapLookup c mpoint); naive_solver. Qed.

(** The library sends the buffer of a message, when it is short enough. *)
Lemma ToBuffer_sent tm bytes : SendIoMessageWithConn tm = Some bytes -> bytes = ToBuffer tm.
Proof.
  unfold SendIoMessageWithConn, ToBuffer, ttyHdrSize. destruct (Nat.ltb_spec max_message (String.length (tty_message tm) + 12)) as [|H]; [done|].
  intros [= <-]. rewrite wrapu_small; [done|]. unfold max_message in H. lia.
Qed.

(** ** Requests of the runtime in the structures *)

Lemma mapM_strings (l : list string) : mapM (dec_string EmptyString) (JString <$> l) = Some l.
Proof. induction l as [|s l IH]; [done|]. cbn. by rewrite IH. Qed.

Definition env_of (kv : string * string) : EnvironmentVar := MkEnv (fst kv) (snd kv).

Lemma mapM_envs (kvs : list (string * string)) :
  mapM (dec_EnvironmentVar env_zero) ((fun kv => env_object (fst kv) (snd kv)) <$> kvs) = Some (env_of <$> kvs).
Proof.
  induction kvs as [|[k x] kvs IH]; [done|]. rewrite !fmap_cons. cbn [mapM].
  change (dec_EnvironmentVar env_zero (env_object (k, x).1 (k, x).2)) with (Some (env_of (k, x))). cbn. by rewrite IH.
Qed.

(** The process of a configuration in the agent's structure: there is no user in
    what the runtime sends. *)
Definition agent_process (p : oci_cfg_process) (kvs : list (string * string)) : Process :=
  MkProcess EmptyString EmptyString [] (terminal p) (stdio_stream p) (stderr_stream p) (default [] (args p)) (env_of <$> kvs) (cwd p).

Definition streams_ok (p : oci_cfg_process) : Prop := 0 <= stdio_stream p <= INT_MAX /\ 0 <= stderr_stream p <= INT_MAX.

Lemma dec_stream z cur : 0 <= z <= INT_MAX -> dec_uint 64 cur (JInt z) = Some z.
Proof.
  unfold INT_MAX. intros H. unfold dec_uint, dec_range. destruct (Z.leb_spec 0 z), (Z.leb_spec z (2 ^ 64 - 1)); lia || done.
Qed.

Lemma dec_cstr (s : cstr) : dec_string EmptyString (json_of_cstr s) = Some (default EmptyString s).
Proof. by destruct s. Qed.

(** The members of a request are those of the fields with their names. *)
Ltac match_keys :=
  repeat (cbn [field]; match goal with |- context [key_matches ?a ?b] => let v := eval vm_compute in (key_matches a b) in change (key_matches a b) with v end);
  cbn [field mbind option_bind].

Lemma dec_process_node (p : oci_cfg_process) (kvs : list (string * string)) :
  streams_ok p ->
  dec_Process process_zero (JObject
    [("terminal", JBool (terminal p)); ("stdio", JInt (stdio_stream p)); ("stderr", JInt (stderr_stream p));
     ("workdir", JString (cwd p)); ("args", JArray (JString <$> default [] (args p)));
     ("envs", JArray ((fun kv => env_object (fst kv) (snd kv)) <$> kvs))]) = Some (agent_process p kvs).
Proof.
  intros [Hi He]. unfold dec_Process. cbn [dec_struct]. match_keys. rewrite !dec_stream by done. cbn [mbind option_bind dec_bool dec_string dec_slice].
  by rewrite mapM_strings, mapM_envs.
Qed.

Lemma dec_newcontainer id rootfs image p kvs :
  streams_ok p ->
  dec_Container container_zero
    (JObject (newcontainer_payload id rootfs image p ((fun kv => env_object (fst kv) (snd kv)) <$> kvs)))
  = Some (MkContainer (default EmptyString id) (default EmptyString rootfs) EmptyString (default EmptyString image) EmptyString
            [] [] ∅ (agent_process p kvs) "never" false []).
Proof.
  intros Hp. unfold dec_Container, newcontainer_payload. cbn [dec_struct]. match_keys.
  change (c_Process container_zero) with process_zero. rewrite (dec_process_node p kvs Hp).
  change (c_Id container_zero) with EmptyString. change (c_Rootfs container_zero) with EmptyString. change (c_Image container_zero) with EmptyString.
  by rewrite !dec_cstr.
Qed.

(** Without a working directory the member is left out, which is the same. *)
Lemma dec_execcmd id p kvs :
  streams_ok p ->
  dec_ExecCommand exec_zero (JObject (execcmd_payload id p ((fun kv => env_object (fst kv) (snd kv)) <$> kvs)))
  = Some (MkExec (default EmptyString id) (agent_process p kvs)).
Proof.
  intros [Hi He]. unfold dec_ExecCommand, execcmd_payload. cbn [dec_struct]. match_keys.
  change (exec_Container exec_zero) with EmptyString. change (exec_Process exec_zero) with process_zero. rewrite dec_cstr.
  cbn [mbind option_bind]. unfold dec_Process, agent_process. cbn [dec_struct].
  destruct (cwd p) as [|ch w]; cbn [str_nonempty app]; match_keys; rewrite !dec_stream by done;
    cbn [mbind option_bind dec_bool dec_string dec_slice]; by rewrite mapM_strings, mapM_envs.
Qed.

(** Interfaces arrive with their device only: the structure has no member for
    their new names and for lists of addresses. *)
Definition agent_inf (i : nat) (c : cc_oci_net_if_cfg) : NetworkInf := MkInf (get_pcie_ifname (Z.of_nat i)) EmptyString EmptyString.

Definition agent_route (r : cc_oci_net_ipv4_route) : option Route :=
  d ← rt_dest r; Some (MkRoute d (default EmptyString (rt_gateway r)) (default EmptyString (rt_ifname r))).

Lemma dec_iface i c : dec_NetworkInf inf_zero (iface_to_json i c) = Some (agent_inf i c).
Proof. unfold dec_NetworkInf, iface_to_json. cbn [dec_struct]. match_keys. done. Qed.

Lemma dec_route r j : route_to_json r = Some j -> exists x, agent_route r = Some x /\ dec_Route route_zero j = Some x.
Proof.
  unfold route_to_json, agent_route. destruct (rt_dest r) as [d|]; [|done]. intros [= <-]. eexists. split; [done|].
  unfold dec_Route. cbn [dec_struct]. destruct (rt_gateway r), (rt_ifname r); cbn [app]; match_keys; done.
Qed.

Lemma mapM_ifaces k l : mapM (dec_NetworkInf inf_zero) (imap (fun i => iface_to_json (k + i)) l) = Some (imap (fun i => agent_inf (k + i)) l).
Proof.
  revert k. induction l as [|c l IH]; intros k; [done|]. rewrite !imap_cons. cbn [mapM]. rewrite dec_iface. cbn [mbind option_bind].
  rewrite (imap_ext _ (fun i => iface_to_json (S k + i))) by (intros i x _; cbn; f_equal; lia).
  rewrite (imap_ext (_ ∘ S) (fun i => agent_inf (S k + i))) by (intros i x _; cbn; f_equal; lia). by rewrite IH.
Qed.

Lemma mapM_routes l : mapM (dec_Route route_zero) (omap route_to_json l) = Some (omap agent_route l).
Proof.
  induction l as [|r l IH]; [done|]. cbn [omap list_omap]. destruct (route_to_json r) as [j|] eqn:E.
  - destruct (dec_route r j E) as (x & -> & Hx). cbn [mapM]. rewrite Hx. cbn [mbind option_bind]. by rewrite IH.
  - unfold route_to_json in E. unfold agent_route at 1. destruct (rt_dest r); [done|]. exact IH.
Qed.

Lemma dec_startpod hostname n :
  dec_Pod pod_zero (JObject (startpod_payload hostname n))
  = Some (MkPod hostname [] (imap agent_inf (interfaces n)) [] (omap agent_route (routes n)) "rootfs" None).
Proof.
  unfold dec_Pod, startpod_payload. cbn [dec_struct]. match_keys. cbn [dec_string dec_slice mapM mbind option_bind].
  rewrite (mapM_ifaces 0). cbn [mbind option_bind]. by rewrite mapM_routes.
Qed.

(** ** From the runtime to the agent *)

(** What the agent's end of the control channel reads. *)
Definition agent_reads (bytes : string) (code : Z) (raw : string) : Prop := forall peer rest,
  conn_bytes peer = bytes +:+ rest -> exists peer', readCtlMessage peer = Some (Decoded code raw, peer') /\ conn_bytes peer' = rest.

(** A command goes out whole, or not at all when it is too long. *)
Lemma SendCtlMessage_bytes cmd code data ctl :
  codeFromCmd cmd = Some code ->
  let '(ok, bytes, ctl') := SendCtlMessage true cmd data ctl in
  if (max_message <? String.length data + ctlHdrSize)%nat then ok = false /\ bytes = EmptyString /\ ctl' = ctl
  else agent_reads bytes code data.
Proof.
  intros Hc. unfold SendCtlMessage. rewrite Hc. destruct (writeCtlMessage (Decoded code data)) as [bytes|] eqn:Hw.
  - assert ((max_message <? String.length data + ctlHdrSize)%nat = false) as ->
      by (unfold writeCtlMessage in Hw; cbn [dm_message] in Hw; by destruct (_ <? _)%nat).
    cbn [negb]. destruct (expectReadingCmd INIT_ACK ctl) as [e ctl']. intros peer rest Hp.
    eapply ctl_message_roundtrip; [|exact Hw|exact Hp]. by eapply codeFromCmd_range.
  - unfold writeCtlMessage in Hw. cbn [dm_message] in Hw. by destruct (_ <? _)%nat.
Qed.

Lemma envs_to_json_joined `{GL : GLib} (kvs : list (string * string)) :
  Forall (fun kv => str_free "=" (fst kv)) kvs ->
  envs_to_json ((fun kv => fst kv +:+ String "=" (snd kv)) <$> kvs) = Some ((fun kv => env_object (fst kv) (snd kv)) <$> kvs).
Proof.
  intros Hk. apply envs_to_json_iff. apply Forall2_fmap. induction Hk as [|[k x] kvs Hf _ IH]; [constructor|]. constructor; [|done].
  apply env_to_json_iff. by exists k, x.
Qed.

Section delivery.
Context `{GL : GLib} `{GJ : GoJson} `{JA : !JsonAgree} `{RF : RecvFuel}.

(** The proxy got this command with this payload, and [bytes] is what it writes
    on the control channel for it. *)
Definition forwards (d : option json) (cmd : string) (payload : list (string * json)) : Prop :=
  forall raw ctl, Unmarshal raw = Some (JObject payload) -> hyper_send true raw d ctl = Some (SendMessage true cmd raw ctl).

Definition hyper_data (cmd : string) (payload : list (string * json)) : list (string * json) :=
  [("hyperName", JString cmd); ("data", JObject payload)].

Lemma hyper_received config p fd cmd payload tr b c conn tail :
  proxy config = Some p -> socket p = Some fd ->
  is_ascii (request "hyper" (hyper_data cmd payload)) -> Z.of_nat (String.length (request "hyper" (hyper_data cmd payload))) < 2 ^ 32 ->
  json_ok (request_json "hyper" (hyper_data cmd payload)) ->
  exec (cc_proxy_run_hyper_cmd config cmd payload) tr (Done b) ->
  (8 <= String.length c)%nat -> conn_bytes (c :: conn) = written (tr_map sock tr) +:+ tail ->
  exists text conn' j d, ReadMessage (c :: conn) = Some (text, conn') /\ conn_bytes conn' = tail /\
    Unmarshal text = Some j /\ unmarshal_request j = Some (MkRequest "hyper" d) /\ forwards d cmd payload.
Proof.
  intros Hp Hs Ha Hl Hj He Hc E. unfold cc_proxy_run_hyper_cmd in He. rewrite Hp in He.
  apply exec_bind in He as [(f & _ & [=])|(tr1 & [[ok msg] oob] & tr2 & -> & He & [-> _])]. rewrite app_nil_r in E.
  destruct (request_received _ _ _ _ _ _ _ _ _ _ Hs Ha Hl Hj He Hc E) as (text & conn' & j & Hr & Hc' & Hu & Hq).
  exists text, conn', j, (Some (JObject (hyper_data cmd payload))). split_and!; [done..|]. by intros raw ctl _.
Qed.

(** C20.  A new container reaches the agent.  If the runtime asked for a container
    and the proxy reads what was written, in whatever pieces, then the request
    it decodes forwards the command to the control channel; and what the agent
    reads there, in whatever pieces, is the command for a new container whose
    data fill the agent's structure with the identifier, the root and image, the
    streams, the terminal, the arguments, the working directory and the
    environment of the configuration, one variable for each, split at its first
    equal sign.  No user is sent.  A command that is too long for the channel is
    refused, and nothing is written for it.  This is for a container whose
    request is ASCII, identifier, paths, arguments and environment included: the
    runtime counts the length of a request in characters and the proxy reads as
    many bytes, so that a request with other characters is cut
    ([utf8_message_truncated]).  The request is shorter than 2^32 bytes, its header
    comes in one piece, every variable has an equal sign, and the stream
    numbers are not negative. *)
Theorem container_reaches_agent config p fd id rootfs image tr b config' kvs c conn tail :
  let pr := process (oci config') in
  let payload := newcontainer_payload id rootfs image pr ((fun kv => env_object (fst kv) (snd kv)) <$> kvs) in
  proxy config = Some p -> socket p = Some fd -> streams_ok pr ->
  default [] (env pr) = (fun kv => fst kv +:+ String "=" (snd kv)) <$> kvs -> Forall (fun kv => str_free "=" (fst kv)) kvs ->
  is_ascii (request "hyper" (hyper_data "newcontainer" payload)) ->
  Z.of_nat (String.length (request "hyper" (hyper_data "newcontainer" payload))) < 2 ^ 32 ->
  json_ok (request_json "hyper" (hyper_data "newcontainer" payload)) ->
  exec (cc_proxy_run_hyper_new_container config id rootfs image) tr (Done (b, config')) ->
  (8 <= String.length c)%nat -> conn_bytes (c :: conn) = written (tr_map sock tr) +:+ tail ->
  exists text conn' j d, ReadMessage (c :: conn) = Some (text, conn') /\ conn_bytes conn' = tail /\
    Unmarshal text = Some j /\ unmarshal_request j = Some (MkRequest "hyper" d) /\
    forall raw ctl, Unmarshal raw = Some (JObject payload) ->
    exists ok bytes ctl', hyper_send true raw d ctl = Some (ok, bytes, ctl') /\
      if (max_message <? String.length raw + ctlHdrSize)%nat then ok = false /\ bytes = EmptyString
      else agent_reads bytes INIT_NEWCONTAINER raw /\
        (Unmarshal raw ≫= agent_decode INIT_NEWCONTAINER) =
          Some (ANewContainer (MkContainer (default EmptyString id) (default EmptyString rootfs) EmptyString
                  (default EmptyString image) EmptyString [] [] ∅ (agent_process pr kvs) "never" false [])).
Proof.
  intros pr payload Hp Hs Hst Hv Hk Ha Hl Hj He Hc E. unfold cc_proxy_run_hyper_new_container in He.
  apply exec_bind in He as [(f & _ & [=])|(tr0 & config1 & tr1 & -> & He0 & He)].
  destruct (proj1 (wp_exec _ _) (wp_set_env_home config) _ _ He0) as [Ht0 (config2 & [= <-] & Hhome)].
  assert (proxy config1 = Some p) as Hp1 by (destruct (env (process (oci config))); [destruct Hhome as (? & -> & _)|subst]; done).
  rewrite tr_map_app, Ht0 in E. cbn [app] in E. cbv zeta in He.
  destruct (envs_to_json (default [] (env (process (oci config1))))) as [js|] eqn:Ej.
  2: { destruct He as [-> [= <- <-]]. subst pr. rewrite Hv, envs_to_json_joined in Ej; done. }
  apply exec_bind in He as [(f & _ & [=])|(tr2 & ok & tr3 & -> & He & [-> [= <- <-]])]. rewrite app_nil_r in E.
  fold pr in Ej, He. rewrite Hv, envs_to_json_joined in Ej by done. injection Ej as <-.
  destruct (hyper_received _ _ _ _ _ _ _ _ _ _ Hp1 Hs Ha Hl Hj He Hc E) as (text & conn' & j & d & Hr & Hc' & Hu & Hq & Hf).
  exists text, conn', j, d. split_and!; [done..|]. intros raw ctl Hraw. rewrite (Hf raw ctl Hraw).
  pose proof (SendCtlMessage_bytes "newcontainer" INIT_NEWCONTAINER raw ctl eq_refl) as Hb. unfold SendMessage.
  destruct (SendCtlMessage true "newcontainer" raw ctl) as [[sent bytes] ctl']. exists sent, bytes, ctl'. split; [done|].
  destruct (_ <? _)%nat; [by destruct Hb as (-> & -> & _)|]. split; [exact Hb|]. rewrite Hraw. cbn [mbind option_bind].
  change (agent_decode INIT_NEWCONTAINER ?x) with (ANewContainer <$> dec_Container container_zero x).
  unfold payload. by rewrite dec_newcontainer.
Qed.
End delivery.

(** The client is told of a success exactly when the command was acknowledged,
    or its answer was lost. *)
Lemma hyper_answer e client v d raw p ctl ok bytes ctl' err :
  client_vm p !! client = Some (Some v) -> hyper_send true raw d ctl = Some (ok, bytes, ctl') ->
  send_err e = (if ok then None else Some err) ->
  hr_err (hyperHandler e client d p) = None <-> ok = true.
Proof.
  intros Hc Hs He. unfold hyper_send in Hs. apply bind_Some in Hs as (m & Hm & Hs). apply bind_Some in Hs as (name & Hn & _).
  unfold hyperHandler. rewrite Hm. cbn [mbind option_bind]. rewrite Hn, Hc. cbn. rewrite He. by destruct ok.
Qed.

(** The signal of the runtime's request to kill a container is a text, where the
    structure has a number: the agent's structure cannot be filled. *)
Lemma runtime_kill_undecoded id signum :
  agent_decode INIT_KILLCONTAINER (JObject [("container", json_of_cstr id); ("signal", JString (fmt_d signum))]) = None.
Proof.
  change (agent_decode INIT_KILLCONTAINER ?x) with (AKillContainer <$> dec_KillCommand kill_zero x).
  unfold dec_KillCommand. cbn [dec_struct]. match_keys. by destruct id.
Qed.

(** The shim's request, whose signal is a number, fills it. *)
Lemma shim_kill_decoded id sig :
  INT_MIN <= sig <= INT_MAX ->
  agent_decode INIT_KILLCONTAINER (JObject [("container", JString id); ("signal", JInt sig)]) = Some (AKillContainer (MkKill id sig)).
Proof.
  unfold INT_MIN, INT_MAX. intros H. change (agent_decode INIT_KILLCONTAINER ?x) with (AKillContainer <$> dec_KillCommand kill_zero x).
  unfold dec_KillCommand. cbn [dec_struct]. match_keys. unfold dec_int, dec_range, LONG_MIN, LONG_MAX.
  by destruct (Z.leb_spec (- 2 ^ 63) sig), (Z.leb_spec sig (2 ^ 63 - 1)); try lia.
Qed.

(** ** Witness *)

#[local] Existing Instance glib_ref.
#[local] Instance agent_json : GoJson := {| Marshal j := json_encode j; Unmarshal := json_decode |}.
#[local] Instance agent_json_agree : JsonAgree.
Proof.
  split.
  - intros j pretty H. apply json_decode_encode. by apply json_ok_no_double.
  - intros j H. cbn. rewrite json_decode_encode; [done|]. by apply json_ok_no_double.
Defined.
#[local] Instance agent_fuel : RecvFuel := 9%nat.

Definition agent_config : cc_oci_config := container_example connected.
Definition agent_config' : cc_oci_config := with_env (Some ["HOME=/root"; "TERM=vt100"]) agent_config.
Definition agent_kvs : list (string * string) := [("HOME", "/root"); ("TERM", "vt100")].
Definition agent_run : list event * outcome (bool * cc_oci_config) :=
  run_tr accepting (cc_proxy_run_hyper_new_container agent_config (Some "c1") (Some EmptyString) (Some EmptyString)) tt.
Definition agent_text : string := written (tr_map sock (fst agent_run)).
Definition agent_payload : list (string * json) :=
  newcontainer_payload (Some "c1") (Some EmptyString) (Some EmptyString) (process (oci agent_config'))
    ((fun kv => env_object (fst kv) (snd kv)) <$> agent_kvs).

Lemma container_reaches_agent_witness :
  exists text conn' j d, ReadMessage [str_take 20 agent_text; str_drop 20 agent_text] = Some (text, conn') /\
    conn_bytes conn' = EmptyString /\ Unmarshal text = Some j /\ unmarshal_request j = Some (MkRequest "hyper" d) /\
    forall raw ctl, Unmarshal raw = Some (JObject agent_payload) ->
    exists ok bytes ctl', hyper_send true raw d ctl = Some (ok, bytes, ctl') /\
      if (max_message <? String.length raw + ctlHdrSize)%nat then ok = false /\ bytes = EmptyString
      else agent_reads bytes INIT_NEWCONTAINER raw /\
        (Unmarshal raw ≫= agent_decode INIT_NEWCONTAINER) =
          Some (ANewContainer (MkContainer "c1" EmptyString EmptyString EmptyString EmptyString [] [] ∅
                  (agent_process (process (oci agent_config')) agent_kvs) "never" false [])).
Proof.
  refine (container_reaches_agent agent_config connected 5 (Some "c1") (Some EmptyString) (Some EmptyString) (fst agent_run) true
    agent_config' agent_kvs (str_take 20 agent_text) [str_drop 20 agent_text] EmptyString eq_refl eq_refl _ eq_refl _ _ _ _ _ _ _).
  - vm_compute. split; split; congruence.
  - apply (bool_decide_unpack _). vm_compute. done.
  - apply (bool_decide_unpack _). vm_compute. done.
  - vm_compute. reflexivity.
  - apply json_okb_ok. vm_compute. reflexivity.
  - apply (run_tr_exec accepting (cc_proxy_run_hyper_new_container agent_config (Some "c1") (Some EmptyString) (Some EmptyString)) tt).
    vm_compute. reflexivity.
  - apply Nat.leb_le. vm_compute. reflexivity.
  - vm_compute. reflexivity.
Defined.
