(* ===== verification/Lifecycle.v ===== *)
(** * The life of a container (src/src/oci.c)

    The functions behind the commands: create, start, run, kill, stop, pause,
    resume, exec and list.  They work on a configuration and on the state read
    from the container's state file.  Members of the state that are moved to
    the configuration become NULL in the state. *)

From S2P Require Import Prelude GLib GLibRef Sys Types Util Json Namespace Semver Config SpecHandlers Mount State Status Wire Networking Proxy Qmp Hypervisor Logging Process Launch.

Definition SIGSTOP : Z := 19.

(** A value that may be a fault. *)
Definition of_outcome {A} (o : outcome A) : io A := match o with Done a => mret a | Fault f => Halt f end.

Section lifecycle.
Context `{GL : GLib} `{BD : Build} `{SP : StartPaths} `{RF : RecvFuel} `{NF : NlFuel} `{HL : HypervisorLogs} `{QF : QmpFuel}.

Definition set_config_status (s : oci_status) (c : cc_oci_config) : cc_oci_config := set_state (set_status s (state c)) c.

(** The path of the configuration file, the configuration and the state, on
    success; the configuration in any case. *)
Definition cc_oci_get_config_and_state (config : cc_oci_config) : io (option (string * oci_state) * cc_oci_config) :=
  match cc_oci_runtime_path_get config with
  | None => mret (None, config)
  | Some config =>
      match cc_oci_state_file_get config with
      | None => mret (None, config)
      | Some config =>
          st ← cc_oci_state_file_read (Some (state_file_path (state config)));
          match st with
          | None => mret (None, config)
          | Some st =>
              let config := set_bundle_path (s_bundle_path st) config in
              let cs := set_workload_pid (s_pid st) (state config) in
              let cs := set_status (s_status st) cs in
              let cs := match s_comms_path st with Some p => set_comms_path (c_buf PATH_MAX p) cs | None => cs end in
              let cs := match s_procsock_path st with Some p => set_procsock_path (c_buf PATH_MAX p) cs | None => cs end in
              let config := set_state cs config in
              match cc_oci_config_file_path (s_bundle_path st) with
              | None => mret (None, config)
              | Some file => mret (Some (file, st), config)
              end
          end
      end
  end.

(** [cc_oci_state_file_create (config, state->create_time)] *)
Definition record_status (s : oci_status) (config : cc_oci_config) (st : oci_state) : io (bool * cc_oci_config) :=
  cc_oci_state_file_create (set_config_status s config) (s_create_time st).

Definition cc_oci_kill (config : cc_oci_config) (st : oci_state) (signum : Z) : io (bool * cc_oci_config) :=
  let last_status := status (state config) in
  if cc_pod_is_sandbox config then
    '(ok, config) ← record_status OCI_STATUS_STOPPED config st;
    mret (if ok : bool then (true, config) else (false, set_config_status last_status config))
  else
    '(ok, config) ← record_status OCI_STATUS_STOPPING config st;
    if negb (ok : bool) then mret (false, set_config_status last_status config)
    else
      r ← call_ (Ckill (s_pid st) signum);
      if bool_decide (r < 0) then '(_, config) ← record_status last_status config st; mret (false, config)
      else
        '(ok, config) ← (if bool_decide (signum = SIGKILL \/ signum = SIGSTOP)
                         then cc_proxy_hyper_kill_container config signum
                         else mret (true, config));
        if negb (ok : bool) then mret (false, config)
        else
          let last_status := status (state config) in
          '(ok, config) ← record_status OCI_STATUS_STOPPED config st;
          mret (if ok : bool then (true, config) else (false, set_config_status last_status config)).

Definition cc_oci_vm_running (st : oci_state) : io bool :=
  match s_vm st with
  | None => mret false
  | Some v =>
      if bool_decide (vm_pid v = 0) then mret false
      else r ← call_ (Ckill (vm_pid v) 0); mret (bool_decide (r = 0))
  end.

Definition cc_oci_cleanup (config : cc_oci_config) : io bool :=
  ok ← cc_oci_handle_unmounts config;
  if negb ok then mret false
  else
    ok ← cc_oci_state_file_delete config;
    if negb ok then mret false else cc_oci_runtime_dir_delete config.

Definition cc_oci_config_file_parse (config : cc_oci_config) : io (bool * cc_oci_config) :=
  match bundle_path config with
  | None => mret (false, config)
  | Some bundle =>
      match cc_oci_config_file_path (Some bundle) with
      | None => mret (false, config)
      | Some config_file =>
          cwd ← call_ Cgetcwd;
          match cwd with
          | None => mret (false, config)
          | Some cwd =>
              r ← call_ (Cchdir bundle);
              if bool_decide (r <> 0) then mret (false, config)
              else
                root ← cc_oci_json_parse (Some config_file);
                '(ret, config) ←
                  match root with
                  | None => mret (false, config)
                  | Some root =>
                      '(ok, config, _) ← cc_oci_process_config root config statics_zero start_spec_handlers;
                      if negb (ok : bool) then mret (false, config) else get_spec_vm_from_cfg_file config
                  end;
                _ ← call_ (Cchdir cwd);
                mret (ret, config)
          end
      end
  end.

Definition cc_oci_create (config : cc_oci_config) : io (bool * cc_oci_config) :=
  '(ok, config) ← cc_oci_config_file_parse config;
  if negb (ok : bool) then mret (false, config)
  else
    ok ← of_outcome (cc_oci_config_check config);
    if negb ok then mret (false, config)
    else
      '(ok, config) ← cc_oci_runtime_dir_setup config;
      if negb (ok : bool) then
        (* which message is printed *)
        _ ← call_ (Cg_file_test (runtime_path (state config)) FT_EXISTS_OR_DIR); mret (false, config)
      else
        ok ← cc_oci_ns_setup (Some config);
        if negb ok then mret (false, config)
        else
          '(ok, config) ← cc_oci_handle_mounts config;
          if negb (ok : bool) then mret (false, config)
          else if dry_run_mode config then mret (true, config)
          else if cc_pod_is_vm config then cc_oci_vm_launch config
          else cc_pod_container_create config.

(** The configuration and the state after the transfer. *)
Definition cc_oci_config_update (config : cc_oci_config) (st : oci_state) : cc_oci_config * oci_state :=
  let '(config, st) :=
    match s_mounts st with
    | [] => (config, st)
    | l => (set_oci (set_mounts l (oci config)) config, set_s_mounts [] st)
    end in
  let '(config, st) :=
    match s_process st, args (process (oci config)) with
    | Some p, None => (set_oci (set_process p (oci config)) config, set_s_process None st)
    | _, _ => (config, st)
    end in
  let '(config, st) :=
    match s_console st with Some c => (set_console (Some c) config, set_s_console None st) | None => (config, st) end in
  let '(config, st) :=
    match s_vm st with Some v => (set_vm (Some v) config, set_s_vm None st) | None => (config, st) end in
  let '(config, st) :=
    match s_proxy st with Some p => (set_proxy (Some p) config, set_s_proxy None st) | None => (config, st) end in
  let '(config, st) :=
    match s_pod st with Some p => (set_pod (Some p) config, set_s_pod None st) | None => (config, st) end in
  match s_procsock_path st with
  | Some p => (set_state (set_procsock_path (c_buf PATH_MAX p) (state config)) config, st)
  | None => (config, st)
  end.

(** What is done in the VM, by the kind of container; a failure to start a
    sandbox is ignored. *)
Definition start_container (config : cc_oci_config) : io (bool * cc_oci_config) :=
  match pod config with
  | None => cc_proxy_hyper_new_container config
  | Some _ =>
      if cc_pod_is_sandbox config then
        '(_, config) ← cc_proxy_hyper_new_pod_container config (optarg_container_id config) (optarg_container_id config)
                         (Some "rootfs") (optarg_container_id config);
        mret (true, config)
      else cc_pod_container_start config
  end.

(** The end of an interactive start: wait for the socket, then for the shim,
    and clean up unless somebody else stopped the container. *)
Definition start_wait (config : cc_oci_config) (monitored : bool) : io (bool * cc_oci_config) :=
  _ ← (if monitored then call_ (Cwait_changed (procsock_path (state config))) else mret 0 : io Z);
  fd ← call_ (Copen_flags (runtime_path (state config) +:+ "/" +:+ CC_OCI_SHIM_LOCK_FILE) 0 0);
  if bool_decide (fd < 0) then mret (false, config)
  else
    let close ret config := (_ ← call_ (Cclose fd); mret (ret, config)) in
    r ← call_ (Cflock fd);
    if bool_decide (r < 0) then close false config
    else
      '(found, config) ← cc_oci_get_config_and_state config;
      match found with
      | None => close false config
      | Some _ =>
          if bool_decide (status (state config) <> OCI_STATUS_STOPPED /\ status (state config) <> OCI_STATUS_STOPPING)
          then ret ← cc_oci_cleanup config; close ret config
          else close true config
      end.

(** Whether a file monitor is needed, [None] when it cannot be created. *)
Definition start_monitor (config : cc_oci_config) (wait : bool) : io (option bool) :=
  if negb wait then mret (Some false)
  else
    st ← call_ (Cstat (procsock_path (state config)));
    match st with
    | Some _ => mret (Some false)
    | None =>
        m ← call_ (Cfile_monitor (procsock_path (state config)));
        mret (if bool_decide (m < 0) then None else Some true)
    end.

(** [start_bundle] is [start_data.bundle]. *)
Definition cc_oci_start (start_bundle : cstr) (config : cc_oci_config) (st : oci_state) : io (bool * cc_oci_config) :=
  match s_status st with
  | OCI_STATUS_RUNNING =>
      (* only the message depends on the answer *)
      _ ← cc_oci_vm_running st; mret (false, config)
  | OCI_STATUS_CREATED =>
      config ← match start_bundle with
               | None => mret config
               | Some b => p ← cc_oci_resolve_path (Some b); mret (set_bundle_path p config)
               end;
      tty ← call_ (Cisatty 0);
      let wait := tty && negb (detached_mode config) && bool_decide (pod config = None) in
      monitored ← start_monitor config wait;
      match monitored with
      | None => mret (false, config)
      | Some monitored =>
          '(ok, config) ← start_container config;
          if negb (ok : bool) then mret (false, config)
          else
            '(ok, config) ← record_status OCI_STATUS_RUNNING config st;
            if negb (ok : bool) then mret (false, config)
            else
              _ ← cc_run_hooks (poststart (hooks (oci config))) (state_file_path (state config)) false;
              if wait then start_wait config monitored else mret (true, config)
      end
  | _ => mret (false, config)
  end.

Definition cc_oci_run (start_bundle : cstr) (config : cc_oci_config) : io (bool * cc_oci_config) :=
  '(ok, config) ← cc_oci_create config;
  if negb (ok : bool) then mret (false, config)
  else
    st ← cc_oci_state_file_read (Some (state_file_path (state config)));
    match st with
    | None => mret (false, config)
    | Some st => let '(config, st) := cc_oci_config_update config st in cc_oci_start start_bundle config st
    end.

Definition cc_oci_stop (config : cc_oci_config) (st : oci_state) : io (bool * cc_oci_config) :=
  running ← cc_oci_vm_running st;
  '(ok, config) ← (if running : bool then cc_proxy_hyper_destroy_pod config else mret (true, config));
  if negb (ok : bool) then mret (false, config)
  else
    let '(config, st) := cc_oci_config_update config st in
    '(ok, config) ←
      (if cc_pod_is_vm config then
         match proxy config with
         | None => mret (false, config)
         | Some p => '(ok, p) ← cc_proxy_cmd_bye p (optarg_container_id config); mret (ok, set_proxy (Some p) config)
         end
       else mret (true, config));
    if negb (ok : bool) then mret (false, config)
    else
      _ ← cc_run_hooks (poststop (hooks (oci config))) (state_file_path (state config)) false;
      ret ← cc_oci_cleanup config;
      mret (ret, config).

Definition cc_oci_toggle (config : cc_oci_config) (st : oci_state) (pause : bool) : io (bool * cc_oci_config) :=
  let dest_status := if pause then OCI_STATUS_PAUSED else OCI_STATUS_RUNNING in
  if bool_decide (s_status st = dest_status) then mret (true, config)
  else
    '(ret, _) ← (if pause then cc_oci_vm_pause else cc_oci_vm_resume) false (s_comms_path st) (s_pid st);
    if negb (ret : bool) then mret (false, config) else record_status dest_status config st.

(** The handler's verdict is not looked at. *)
Definition cc_oci_process_exec_file (process_json : string) (p : oci_cfg_process) : io (bool * oci_cfg_process) :=
  root ← cc_oci_json_parse (Some process_json);
  match root with
  | None => mret (false, p)
  | Some root => '(_, p) ← of_outcome (process_parse root p); mret (true, p)
  end.

Definition cc_oci_exec (start_pid_file : cstr) (config : cc_oci_config) (st : oci_state) (process_json : cstr)
    : io (bool * cc_oci_config) :=
  '(ok, config) ← match process_json with
                  | None => mret (true, config)
                  | Some f =>
                      '(ok, p) ← cc_oci_process_exec_file f (process (oci config));
                      mret (ok, set_oci (set_process p (oci config)) config)
                  end;
  if negb (ok : bool) then mret (false, config)
  else
    let config := match s_pod st with Some p => set_pod (Some p) config | None => config end in
    '(ok, config) ← cc_oci_vm_connect config;
    if negb (ok : bool) then mret (false, config)
    else
      match start_pid_file with
      | None => mret (true, config)
      | Some f => ret ← cc_oci_create_pidfile (Some f) (workload_pid (state config)); mret (ret, config)
      end.

(** ** Listing *)

(** [struct format_options]; the array is returned separately. *)
Record format_options := FormatOptions {
  fo_json : bool; show_all : bool; id_width : Z; pid_width : Z; status_width : Z; bundle_width : Z;
  created_width : Z; hypervisor_width : Z; image_width : Z; kernel_width : Z
}.

(** [%-*s]: padded on the right. *)
Definition pad (width : Z) (s : string) : string :=
  s +:+ String.concat EmptyString (replicate (Z.to_nat width - String.length s) " ").

(** The status shown: a container whose VM does not run is stopped. *)
Definition shown_status (st : oci_state) : io cstr :=
  running ← cc_oci_vm_running st;
  mret (cc_oci_status_to_str (if running : bool then s_status st else OCI_STATUS_STOPPED)).

Definition vm_strings (st : oci_state) : option (string * string * string) :=
  (fun v => (hypervisor_path v, kernel_path v, image_path v)) <$> s_vm st.

(** The line of a container, or its element of the array. *)
Definition cc_oci_list_vm (o : format_options) (st : oci_state) : io (option json) :=
  status ← shown_status st;
  if negb (fo_json o) then
    _ ← call_ (Cg_print (pad (id_width o) (fmt_s (s_id st)) +:+ " "));
    _ ← call_ (Cg_print (if bool_decide (s_pid st = 0) then pad (pid_width o) (str_take (Z.to_nat (pid_width o)) "0") +:+ " "
                         else pad (pid_width o) (fmt_d (u32 (s_pid st))) +:+ " "));
    _ ← call_ (Cg_print (pad (status_width o) (fmt_s status) +:+ " " +:+ pad (bundle_width o) (fmt_s (s_bundle_path st)) +:+ " "
                         +:+ pad (created_width o) (fmt_s (s_create_time st)) +:+ (if show_all o then " " else newline)));
    if show_all o then
      match vm_strings st with
      | None => Halt NullDeref
      | Some (h, k, i) =>
          _ ← call_ (Cg_print (pad (hypervisor_width o) h +:+ " " +:+ pad (kernel_width o) k +:+ " "
                               +:+ pad (image_width o) i +:+ newline));
          mret None
      end
    else mret None
  else
    let m := [("id", json_of_cstr (s_id st)); ("pid", JInt (s_pid st)); ("status", json_of_cstr status);
              ("bundle", json_of_cstr (s_bundle_path st)); ("created", json_of_cstr (s_create_time st))] in
    if show_all o then
      match vm_strings st with
      | None => Halt NullDeref
      | Some (h, k, i) => mret (Some (JObject (m ++ [("hypervisor", JString h); ("kernel", JString k); ("image", JString i)])))
      end
    else mret (Some (JObject m)).

Definition cc_oci_vm_get_state (name : string) (root_dir : cstr) : io (option oci_state) :=
  match root_dir with
  | None => mret None
  | Some dir =>
      let config := set_root_dir (Some dir) (set_optarg_container_id (Some name) cc_oci_config_create) in
      match cc_oci_runtime_path_get config with
      | None => mret None
      | Some config =>
          match cc_oci_state_file_get config with
          | None => mret None
          | Some config => cc_oci_state_file_read (Some (state_file_path (state config)))
          end
      end
  end.

(** [g_string_assign] of a NULL keeps the string. *)
Definition widen (w : Z) (s : string) : Z := Z.max w (Z.of_nat (String.length s)).

(** The static [status_max] is set by the first container, together with the
    width of its column. *)
Definition cc_oci_update_options (status_max : Z) (st : oci_state) (o : format_options) : outcome (Z * format_options) :=
  match s_vm st with
  | None => Fault AssertFailed
  | Some v =>
      let '(status_max, status_width) :=
        if bool_decide (status_max = 0) then (cc_oci_status_length, cc_oci_status_length) else (status_max, status_width o) in
      let id := default EmptyString (s_id st) in
      let pid := fmt_d (u32 (s_pid st)) in
      let bundle := default pid (s_bundle_path st) in
      let created := default bundle (s_create_time st) in
      Done (status_max,
            FormatOptions (fo_json o) (show_all o) (widen (id_width o) id) (widen (widen (pid_width o) pid) "PID") status_width
              (widen (bundle_width o) bundle) (widen (created_width o) created) (widen (hypervisor_width o) (hypervisor_path v))
              (widen (image_width o) (image_path v)) (widen (kernel_width o) (kernel_path v)))
  end.

(** The loop over the directory: the containers found, in its order, and the
    widths. *)
Fixpoint list_loop (dirname : string) (names : list string) (status_max : Z) (o : format_options) (vms : list oci_state)
    : io (format_options * list oci_state) :=
  match names with
  | [] => mret (o, vms)
  | name :: names =>
      ok ← call_ (Cg_file_test (g_build_path dirname name) FT_IS_DIR);
      if negb ok then list_loop dirname names status_max o vms
      else
        st ← cc_oci_vm_get_state name (Some dirname);
        match st with
        | None => list_loop dirname names status_max o vms
        | Some st =>
            if fo_json o then list_loop dirname names status_max o (vms ++ [st])
            else
              '(status_max, o) ← of_outcome (cc_oci_update_options status_max st o);
              list_loop dirname names status_max o (vms ++ [st])
        end
  end.

Definition list_header (o : format_options) : io unit :=
  _ ← call_ (Cg_print (pad (id_width o) "ID" +:+ " " +:+ pad (pid_width o) "PID" +:+ " " +:+ pad (status_width o) "STATUS" +:+ " "
                       +:+ pad (bundle_width o) "BUNDLE" +:+ " " +:+ pad (created_width o) "CREATED"
                       +:+ (if show_all o then " " else newline)));
  if show_all o then
    _ ← call_ (Cg_print (pad (hypervisor_width o) "HYPERVISOR" +:+ " " +:+ pad (kernel_width o) "KERNEL" +:+ " "
                         +:+ pad (image_width o) "IMAGE" +:+ newline));
    mret tt
  else mret tt.

Definition cc_oci_list (config : cc_oci_config) (format : cstr) (show_all : bool) : io bool :=
  let dirname := default CC_OCI_RUNTIME_DIR_PREFIX (root_dir config) in
  let o json := FormatOptions json show_all 0 0 0 0 0 0 0 0 in
  match format with
  | None => mret false
  | Some f =>
      if negb (str_nonempty f) then mret false
      else if negb (g_streq format (Some "json") || g_streq format (Some "table")) then mret false
      else
        let o := o (g_streq format (Some "json")) in
        dir ← call_ (Cg_dir_open dirname);
        '(o, vms) ← match dir with None => mret (o, []) | Some names => list_loop dirname names 0 o [] end;
        if fo_json o then
          match vms with
          | [] => _ ← call_ (Cg_print "null"); mret true
          | _ =>
              rows ← io_fold (fun rows st => r ← cc_oci_list_vm o st; mret (rows ++ match r with Some j => [j] | None => [] end)) vms [];
              _ ← call_ (Cg_print (json_generator_to_data (JArray rows) false +:+ newline));
              mret true
          end
        else
          _ ← list_header o;
          _ ← io_fold (fun _ st => _ ← cc_oci_list_vm o st; mret tt) vms tt;
          mret true
  end.
End lifecycle.

(** ** What is recorded *)

Section lifecycle_facts.
Context `{GL : GLib} `{BD : Build} `{SP : StartPaths} `{RF : RecvFuel} `{NF : NlFuel} `{HL : HypervisorLogs} `{QF : QmpFuel}.

(** What recording a status does: nothing, or one write of the state file. *)
Definition recorded (sf : string) (s : oci_status) (acts : list action) (ok : bool) : Prop :=
  (acts = [] /\ ok = false) \/ exists t, records s t /\ acts = [AWrite sf t ok].

Lemma wp_record_status s c st :
  wp (record_status s c st) (fun tr o => exists ok cs, o = Done (ok, set_state cs c) /\ based c (set_state cs c) /\ status cs = s /\
    recorded (state_path c) s (tr_map act tr) ok /\ (ok = true -> state_file_path cs = state_path c)).
Proof.
  unfold record_status, cc_oci_state_file_create, write_state_file, cc_oci_state_file_get, set_config_status.
  repeat case_match; simplify_eq; try (exists false; eexists; split_and!; [reflexivity|done|done|by left|done]).
  wp_step. intros r. exists r. eexists. split_and!; [reflexivity|done|done| |done]. right. eexists. split; [|done].
  match goal with H : state_to_json _ _ _ _ _ _ = Some _ |- _ => exact (records_written _ _ _ _ _ _ _ H) end.
Qed.

Lemma quiet_kill_container c n : quiet (cc_proxy_hyper_kill_container c n).
Proof.
  pose proof quiet_connect. pose proof quiet_attach. pose proof quiet_hyper_cmd. pose proof quiet_disconnect.
  unfold cc_proxy_hyper_kill_container, and_disconnect. solve_quiet.
Qed.

Lemma post_kill_container c n : post (fun r => same c (snd r)) (cc_proxy_hyper_kill_container c n).
Proof. unfold cc_proxy_hyper_kill_container, and_disconnect. solve_post ltac:(by cbn). Qed.

(** ** Kill *)

(** The VM is asked for SIGKILL and SIGSTOP: the trace is a session with the
    proxy for this container, see [kill_container_session] for one that
    succeeds, and [ok] says whether it did.  For other signals it is not. *)
Definition asks_vm (config : cc_oci_config) (sig : Z) (tr : list event) (ok : bool) : Prop :=
  if decide (sig = SIGKILL \/ sig = SIGSTOP) then
    exists c c', proxy c = proxy config /\ pod c = pod config /\ optarg_container_id c = optarg_container_id config /\
      exec (cc_proxy_hyper_kill_container c sig) tr (Done (ok, c'))
  else tr = [] /\ ok = true.

(** What a kill does, its result and the status of the configuration after
    it: the trace begins with recording the status stopping; [kill] is called
    with the pid and the signal, and what follows depends on its result and
    then on the answer of the VM. *)
Inductive kill_spec (config : cc_oci_config) (pid sig : Z) : list event -> bool -> oci_status -> Prop :=
| KillNotRecorded tr :
    recorded (state_path config) OCI_STATUS_STOPPING (tr_map act tr) false ->
    kill_spec config pid sig tr false (status (state config))
| KillNotSent tr1 r tr2 ok :
    recorded (state_path config) OCI_STATUS_STOPPING (tr_map act tr1) true -> r < 0 ->
    recorded (state_path config) (status (state config)) (tr_map act tr2) ok ->
    kill_spec config pid sig (tr1 ++ Ev (Ckill pid sig) r :: tr2) false (status (state config))
| KillRefused tr1 r tr2 :
    recorded (state_path config) OCI_STATUS_STOPPING (tr_map act tr1) true -> 0 <= r ->
    asks_vm config sig tr2 false ->
    kill_spec config pid sig (tr1 ++ Ev (Ckill pid sig) r :: tr2) false OCI_STATUS_STOPPING
| KillSent tr1 r tr2 tr3 (ok : bool) :
    recorded (state_path config) OCI_STATUS_STOPPING (tr_map act tr1) true -> 0 <= r ->
    asks_vm config sig tr2 true -> recorded (state_path config) OCI_STATUS_STOPPED (tr_map act tr3) ok ->
    kill_spec config pid sig (tr1 ++ Ev (Ckill pid sig) r :: tr2 ++ tr3) ok (if ok then OCI_STATUS_STOPPED else OCI_STATUS_STOPPING).

Lemma recorded_true sf s acts : recorded sf s acts true -> exists t, records s t /\ acts = [AWrite sf t true].
Proof. by intros [[_ [=]]|?]. Qed.

Lemma state_path_based c c' : based c c' -> state_path c' = state_path c.
Proof. unfold state_path. by intros (_ & -> & _). Qed.

Lemma asks_vm_quiet config sig tr ok : asks_vm config sig tr ok -> tr_map act tr = [].
Proof.
  unfold asks_vm. case_decide; [|by intros [-> _]]. intros (c & c' & _ & _ & _ & He).
  exact (tr_map_quiet _ _ (safe_exec _ _ _ _ (quiet_kill_container _ _) He)).
Qed.

(** The end of a kill, once the signal was sent and the VM has agreed. *)
Lemma wp_kill_end config pid sig tr1 r tr2 c st :
  recorded (state_path config) OCI_STATUS_STOPPING (tr_map act tr1) true -> 0 <= r -> asks_vm config sig tr2 true ->
  state_path c = state_path config -> status (state c) = OCI_STATUS_STOPPING ->
  wp ('(ok, c') ← record_status OCI_STATUS_STOPPED c st;
      mret (if ok : bool then (true, c') else (false, set_config_status (status (state c)) c')))
    (fun tr o => forall ret c', o = Done (ret, c') ->
       kill_spec config pid sig (tr1 ++ Ev (Ckill pid sig) r :: tr2 ++ tr) ret (status (state c'))).
Proof.
  intros H1 Hr H2 Hsf Hc. apply wp_bind. eapply wp_mono; [apply wp_record_status|].
  intros tr o (ok & cs & -> & _ & Hs & Hrec & _). rewrite Hsf in Hrec. apply wp_ret. rewrite app_nil_r.
  assert (kill_spec config pid sig (tr1 ++ Ev (Ckill pid sig) r :: tr2 ++ tr) ok (if ok then OCI_STATUS_STOPPED else OCI_STATUS_STOPPING))
    as Hk by by apply KillSent.
  destruct ok; intros ret c' [= <- <-]; cbn; [by rewrite Hs|by rewrite Hc].
Qed.

Lemma act_kill config st signum :
  cc_pod_is_sandbox config = false ->
  wp (cc_oci_kill config st signum) (fun tr o => forall ret c', o = Done (ret, c') ->
    kill_spec config (s_pid st) signum tr ret (status (state c'))).
Proof.
  intros Hsb. unfold cc_oci_kill. rewrite Hsb. apply wp_bind. eapply wp_mono; [apply wp_record_status|].
  intros tr1 o (ok & cs & -> & Hb & Hst & Hr & _). destruct ok; cbn [negb].
  2:{ apply wp_ret. rewrite app_nil_r. intros ? ? [= <- <-]. cbn. by apply KillNotRecorded. }
  wp_step. intros r. case_bool_decide as Hneg.
  { apply wp_bind. eapply wp_mono; [apply wp_record_status|]. intros tr2 o (ok & cs2 & -> & _ & Hst2 & Hr2 & _).
    apply wp_ret. rewrite app_nil_r. intros ? ? [= <- <-]. cbn [state set_state] in *. rewrite Hst2.
    rewrite (state_path_based _ _ Hb) in Hr2. by eapply KillNotSent. }
  apply wp_bind. rewrite wp_exec. intros tr2 o He. set (c1 := set_state cs config) in *.
  assert (forall ok c2, o = Done (ok, c2) -> asks_vm config signum tr2 ok /\ same c1 c2) as Hk.
  { intros ok c2 ->. unfold asks_vm. revert He. case_bool_decide as Hsig; case_decide; try done; [|by intros [-> [= -> ->]]].
    intros He. split; [|exact (post_exec _ _ _ _ (post_kill_container _ _) He)]. by exists c1, c2. }
  destruct o as [[ok c2]|f]; [|by intros ? ? [=]]. destruct (Hk _ _ eq_refl) as (Hvm & [Hb2 Hst2]). destruct ok; cbn [negb].
  - eapply wp_mono; [apply (wp_kill_end config (s_pid st) signum tr1 r tr2 c2 st Hr ltac:(lia) Hvm)|].
    + by rewrite (state_path_based c1), (state_path_based config).
    + by rewrite Hst2.
    + done.
  - apply wp_ret. rewrite app_nil_r. intros ? ? [= <- <-]. rewrite Hst2. cbn [c1 state set_state]. rewrite Hst.
    apply KillRefused; (done || lia).
Qed.


(** ** Start *)

Lemma quiet_set_env_home c : quiet (set_env_home c).
Proof. unfold set_env_home, get_user_home_dir. solve_quiet. Qed.

Lemma quiet_new_pod_container c a b d e : quiet (cc_proxy_hyper_new_pod_container c a b d e).
Proof.
  pose proof quiet_connect. pose proof quiet_attach. pose proof quiet_hyper_cmd. pose proof quiet_disconnect.
  pose proof quiet_set_env_home.
  unfold cc_proxy_hyper_new_pod_container, and_disconnect, cc_proxy_run_hyper_new_container. solve_quiet.
Qed.

Lemma post_set_env_home c : post (fun c' => same c c' /\ proxy c' = proxy c) (set_env_home c).
Proof. unfold set_env_home. solve_post ltac:(by cbn). Qed.

Lemma post_new_pod_container c a b d e : post (fun r => same c (snd r)) (cc_proxy_hyper_new_pod_container c a b d e).
Proof.
  unfold cc_proxy_hyper_new_pod_container, and_disconnect. case_match; [|done].
  apply post_any. intros [ok p]. case_match; [solve_post ltac:(by cbn)|].
  apply post_any. intros ok2. case_match; [solve_post ltac:(by cbn)|].
  case_match; [solve_post ltac:(by cbn)|].
  apply (post_bind (fun r => same c (snd r))).
  - unfold cc_proxy_run_hyper_new_container. eapply post_bind; [apply post_set_env_home|]. intros c1 [Hk _].
    solve_post ltac:(by eapply same_trans).
  - intros [ok3 c1] Hk. solve_post ltac:(by cbn).
Qed.

Lemma quiet_start_container c : quiet (start_container c).
Proof.
  pose proof quiet_new_pod_container. unfold start_container, cc_proxy_hyper_new_container, cc_pod_container_start. solve_quiet.
Qed.

Lemma post_start_container c : post (fun r => same c (snd r)) (start_container c).
Proof.
  unfold start_container, cc_proxy_hyper_new_container, cc_pod_container_start.
  case_match; [|apply post_new_pod_container]. case_match.
  - eapply post_bind; [apply post_new_pod_container|]. by intros [].
  - repeat case_match; try done. apply post_new_pod_container.
Qed.

(** A clean-up unmounts file systems, then removes the state file. *)
Definition cleans (acts : list action) : Prop :=
  exists ms rest, acts = ms ++ rest /\ Forall (fun a => exists p ok, a = AUmount p ok) ms /\
    (rest = [] \/ exists p, rest = [AUnlink p]).

Lemma cleans_nil : cleans [].
Proof. exists [], []. split; [done|]. split; [constructor|by left]. Qed.

(** What a successful clean-up does. *)
Definition cleaned (c : cc_oci_config) : list action :=
  ((fun m => AUmount (dest m) true) <$> filter (fun m => ignore_mount m = false) (mounts (oci c)))
  ++ [AUnlink (state_file_path (state c))].

Lemma act_umount_loop l :
  wp (umount_loop l) (fun tr o => Forall (fun a => exists p ok, a = AUmount p ok) (tr_map act tr) /\
    exists ok, o = Done ok /\
    (ok = true -> tr_map act tr = (fun m => AUmount (dest m) true) <$> filter (fun m => ignore_mount m = false) l)).
Proof.
  induction l as [|m l IH]; [split; [constructor|by exists true]|]. cbn [umount_loop]. destruct (ignore_mount m) eqn:Em.
  - rewrite filter_cons_False by congruence. exact IH.
  - rewrite filter_cons_True by done. unfold cc_oci_perform_unmount. apply wp_bind. wp_step. intros r. apply wp_ret.
    destruct (r =? 0) eqn:Er.
    + eapply wp_mono; [exact IH|]. intros tr o (Hf & ok & -> & Hok). cbn [tr_map act app]. rewrite Er.
      split; [constructor; [by eexists _, _|done]|]. exists ok. split; [done|]. intros H. by rewrite (Hok H).
    + cbn [tr_map act app]. rewrite Er. split; [repeat constructor; by eexists _, _|]. by exists false.
Qed.

Lemma act_handle_unmounts c :
  wp (cc_oci_handle_unmounts c) (fun tr o => Forall (fun a => exists p ok, a = AUmount p ok) (tr_map act tr) /\
    (o = Done true -> tr_map act tr = (fun m => AUmount (dest m) true) <$> filter (fun m => ignore_mount m = false) (mounts (oci c)))).
Proof.
  assert (forall l, quiet (delete_created_loop l)) as Hd
    by (induction l; cbn [delete_created_loop]; unfold cc_oci_rm_rf; solve_quiet).
  unfold cc_oci_handle_unmounts. apply wp_bind. eapply wp_mono; [apply act_umount_loop|].
  intros tr1 o (Hf & ok & -> & Hok). destruct ok; [|by apply wp_ret; rewrite app_nil_r].
  apply wp_bind. eapply wp_mono; [apply Hd|]. intros tr2 o Ht2%tr_map_quiet. destruct o as [u|f].
  - apply wp_ret. rewrite app_nil_r, tr_map_app, Ht2, app_nil_r. auto.
  - by rewrite tr_map_app, Ht2, app_nil_r.
Qed.

Lemma act_state_delete c :
  wp (ok ← cc_oci_state_file_delete c; if negb ok then mret false else cc_oci_runtime_dir_delete c)
    (fun tr o => (tr_map act tr = [] \/ exists p, tr_map act tr = [AUnlink p]) /\
       (o = Done true -> tr_map act tr = [AUnlink (state_file_path (state c))])).
Proof.
  assert (quiet (cc_oci_runtime_dir_delete c)) as Hq by (unfold cc_oci_runtime_dir_delete, cc_oci_rm_rf; solve_quiet).
  unfold cc_oci_state_file_delete. case_match; [by split; [left|]|]. apply wp_bind. wp_step. intros r. apply wp_ret.
  case_match; [apply wp_ret; cbn; split; [right; by eexists|done]|].
  eapply wp_mono; [exact Hq|]. intros tr o Ht%tr_map_quiet. cbn [app tr_map act]. rewrite Ht. split; [right; by eexists|done].
Qed.

Lemma act_cleanup c :
  wp (cc_oci_cleanup c) (fun tr o => cleans (tr_map act tr) /\ (o = Done true -> tr_map act tr = cleaned c)).
Proof.
  unfold cc_oci_cleanup. apply wp_bind. eapply wp_mono; [apply act_handle_unmounts|]. intros tr1 o [Hf Hok].
  destruct o as [[]|f].
  - eapply wp_mono; [apply act_state_delete|]. intros tr2 o [Hr Ho]. rewrite tr_map_app, (Hok eq_refl). split.
    + exists (tr_map act tr1), (tr_map act tr2). rewrite (Hok eq_refl) in *. done.
    + intros H. by rewrite (Ho H).
  - apply wp_ret. rewrite app_nil_r. split; [|done]. exists (tr_map act tr1), []. rewrite app_nil_r. split; [done|]. split; [done|by left].
  - split; [|done]. exists (tr_map act tr1), []. rewrite app_nil_r. split; [done|]. split; [done|by left].
Qed.

Lemma quiet_get_config_and_state c : quiet (cc_oci_get_config_and_state c).
Proof. unfold cc_oci_get_config_and_state, cc_oci_state_file_read, cc_oci_json_parse. solve_quiet. Qed.

Lemma act_start_wait c b : wp (start_wait c b) (fun tr _ => cleans (tr_map act tr)).
Proof.
  pose (Q l (_ : outcome (bool * cc_oci_config)) := cleans l). pose proof cleans_nil.
  wp_goal Q. unfold start_wait.
  do 2 (apply wp_quiet_then; [solve_quiet|done|intros ?]). case_match; [done|].
  apply wp_quiet_then; [solve_quiet|done|intros ?].
  case_match; [apply wp_quiet_then; [solve_quiet|done|done]|].
  apply wp_quiet_then; [apply quiet_get_config_and_state|done|intros [[found|] c1]];
    [|apply wp_quiet_then; [solve_quiet|done|done]].
  case_match; [|apply wp_quiet_then; [solve_quiet|done|done]].
  apply wp_bind. eapply wp_mono; [apply act_cleanup|]. intros tr [ret|f] [Hu _]; [|exact Hu].
  intros v. unfold Q. cbn -[tr_map]. by rewrite tr_map_app, app_nil_r.
Qed.

(** What a start does and its result: the container is recorded as running
    before the first hook; at the end of an interactive start there may be a
    clean-up. *)
Inductive start_spec (sf : string) (hs : list oci_cfg_hook) : list event -> bool -> Prop :=
| StartFailed tr : recorded sf OCI_STATUS_RUNNING (tr_map act tr) false -> start_spec sf hs tr false
| StartDone tr t trh tr' ret :
    records OCI_STATUS_RUNNING t -> tr_map act tr = [AWrite sf t true] -> ran_hooks sf false hs trh -> cleans (tr_map act tr') ->
    start_spec sf hs (tr ++ trh ++ tr') ret.

Lemma start_spec_quiet sf hs tr0 tr ret : tr_map act tr0 = [] -> start_spec sf hs tr ret -> start_spec sf hs (tr0 ++ tr) ret.
Proof.
  intros H0 [tr1 H|tr1 t trh tr' ret1 Ht H Hh Hc].
  - apply StartFailed. by rewrite tr_map_app, H0.
  - rewrite app_assoc. eapply StartDone; [done| |done..]. by rewrite tr_map_app, H0.
Qed.

Lemma wp_quiet_post {A B} (R : A -> Prop) (m : io A) (k : A -> io B) (Q : list action -> outcome B -> Prop) :
  quiet m -> post R m -> (forall x, Q [] (Fault x)) ->
  (forall a, R a -> wp (k a) (fun tr o => Q (tr_map act tr) o)) -> wp (m ≫= k) (fun tr o => Q (tr_map act tr) o).
Proof.
  intros Hq Hp Hf Hk. apply wp_bind. rewrite wp_exec. intros tr o He.
  pose proof (tr_map_quiet _ _ (safe_exec _ _ _ _ Hq He)) as Ht. destruct o as [a|x]; [|by rewrite Ht].
  eapply wp_mono; [apply Hk; exact (post_exec _ _ _ _ Hp He)|]. intros tr' o'. by rewrite tr_map_app, Ht.
Qed.

(** A quiet part in front of a start. *)
Lemma start_quiet_post {A} (R : A -> Prop) sf hs (m : io A) (k : A -> io (bool * cc_oci_config)) :
  quiet m -> post R m ->
  (forall a, R a -> wp (k a) (fun tr o => forall ret c', o = Done (ret, c') -> start_spec sf hs tr ret)) ->
  wp (m ≫= k) (fun tr o => forall ret c', o = Done (ret, c') -> start_spec sf hs tr ret).
Proof.
  intros Hq Hp Hk. apply wp_bind. rewrite wp_exec. intros tr o He.
  pose proof (tr_map_quiet _ _ (safe_exec _ _ _ _ Hq He)) as Ht. destruct o as [a|x]; [|by intros ? ? [=]].
  eapply wp_mono; [apply Hk; exact (post_exec _ _ _ _ Hp He)|]. intros tr' o' H ret c' Ho. by eapply start_spec_quiet, H.
Qed.

Lemma start_quiet {A} sf hs (m : io A) (k : A -> io (bool * cc_oci_config)) :
  quiet m -> (forall a, wp (k a) (fun tr o => forall ret c', o = Done (ret, c') -> start_spec sf hs tr ret)) ->
  wp (m ≫= k) (fun tr o => forall ret c', o = Done (ret, c') -> start_spec sf hs tr ret).
Proof. intros Hq Hk. apply (start_quiet_post (fun _ => True)); [done|apply wp_exec; by intros ? []|by intros]. Qed.

Lemma wp_start_created bundle config st :
  s_status st = OCI_STATUS_CREATED ->
  wp (cc_oci_start bundle config st) (fun tr o => forall ret c', o = Done (ret, c') ->
    start_spec (state_path config) (poststart (hooks (oci config))) tr ret).
Proof.
  intros Hst. unfold cc_oci_start. rewrite Hst.
  assert (start_spec (state_path config) (poststart (hooks (oci config))) [] false) as Q0 by (apply StartFailed; by left).
  apply (start_quiet_post (same config)); [unfold cc_oci_resolve_path; solve_quiet|solve_post ltac:(by cbn)|].
  intros c1 H1. apply start_quiet; [solve_quiet|intros tty].
  apply start_quiet; [unfold start_monitor; solve_quiet|intros [monitored|]]; [|by intros ? ? [= <- <-]].
  apply (start_quiet_post (fun r => same c1 (snd r))); [apply quiet_start_container|apply post_start_container|].
  intros [ok c2] H2. cbn [snd] in H2. pose proof (same_trans _ _ _ H1 H2) as [Hs _]. clear H1 H2. case_match; [by intros ? ? [= <- <-]|].
  apply wp_bind. eapply wp_mono; [apply wp_record_status|]. intros tr1 o (ok3 & cs & -> & Hs3 & _ & Hr & Hf).
  rewrite (state_path_based _ _ Hs) in Hr, Hf. destruct ok3; cbn [negb].
  2:{ apply wp_ret. rewrite app_nil_r. intros ret c' [= <- <-]. by apply StartFailed. }
  apply recorded_true in Hr as (t & Ht & Ha). apply wp_bind. eapply wp_mono; [apply wp_ran_hooks|].
  pose proof (transitivity (R := based) Hs Hs3) as (_ & _ & Hh). rewrite Hh. cbn [state set_state]. rewrite (Hf eq_refl).
  intros tr2 [r|f] Hhooks; [|by intros ? ? [=]]. case_match.
  - eapply wp_mono; [apply act_start_wait|]. intros tr3 o Hu ret c' Ho. by eapply StartDone.
  - apply wp_ret. rewrite app_nil_r. intros ret c' [= <- <-]. rewrite <- (app_nil_r tr2). by eapply StartDone; [..|apply cleans_nil].
Qed.

(** C11.  Only a created container is started.  For any other status the start
    fails, changes nothing, and at most asks whether the VM lives.  A created
    container is recorded as running before the poststart hooks run, all of
    them in their order, with the text of the state file (none of them when
    the file has no text to give them); success means that this was recorded.
    (What the VM answers is not part of this: a sandbox is recorded as running
    also when the VM does not start it, see [sandbox_start_ignored].) *)
Theorem start_protocol bundle config st tr ret c' :
  exec (cc_oci_start bundle config st) tr (Done (ret, c')) ->
  match s_status st with
  | OCI_STATUS_CREATED => start_spec (state_path config) (poststart (hooks (oci config))) tr ret
  | _ => ret = false /\ c' = config /\ (tr_map act tr = [] \/ exists pid, tr_map act tr = [AKill pid 0])
  end.
Proof.
  exec_to_wp. destruct (s_status st) eqn:Est.
  1:{ eapply wp_mono; [by apply wp_start_created|]. intros tr' o H ->. by eapply H. }
  all: unfold cc_oci_start; rewrite Est; try (intros [= <- <-]; split_and!; [done|done|by left]).
  unfold cc_oci_vm_running. case_match; [|intros [= <- <-]; split_and!; [done|done|by left]].
  case_match; [intros [= <- <-]; split_and!; [done|done|by left]|].
  intros r [= <- <-]. split_and!; [done|done|]. right. by eexists.
Qed.

(** ** Stop *)

Lemma act_vm_running st :
  wp (cc_oci_vm_running st) (fun tr o => (tr_map act tr = [] \/ exists pid, tr_map act tr = [AKill pid 0]) /\
    exists b, o = Done b).
Proof.
  unfold cc_oci_vm_running. repeat case_match; try (by split; [left|eexists]).
  intros r. split; [right; by eexists|by eexists].
Qed.

Lemma quiet_destroy_pod c : quiet (cc_proxy_hyper_destroy_pod c).
Proof.
  pose proof quiet_connect. pose proof quiet_attach. pose proof quiet_hyper_cmd. pose proof quiet_disconnect.
  unfold cc_proxy_hyper_destroy_pod, and_disconnect. solve_quiet.
Qed.

Lemma post_destroy_pod c : post (fun r => oci (snd r) = oci c /\ state (snd r) = state c) (cc_proxy_hyper_destroy_pod c).
Proof. unfold cc_proxy_hyper_destroy_pod, and_disconnect. solve_post ltac:(by cbn). Qed.

Lemma quiet_bye p id : quiet (cc_proxy_cmd_bye p id).
Proof. pose proof quiet_connect. pose proof quiet_run_cmd. unfold cc_proxy_cmd_bye. solve_quiet. Qed.

(** The mounts a stop undoes: those of the state file, if it has any. *)
Definition stop_mounts (config : cc_oci_config) (st : oci_state) : list cc_oci_mount :=
  match s_mounts st with [] => mounts (oci config) | l => l end.

(** What the transfer does to the configuration and to the state. *)
Definition updated (c : cc_oci_config) (st : oci_state) (r : cc_oci_config * oci_state) : Prop :=
  mounts (oci r.1) = stop_mounts c st /\ hooks (oci r.1) = hooks (oci c) /\
  runtime_path (state r.1) = runtime_path (state c) /\ (status (state r.1) = status (state c)) /\
  s_status r.2 = s_status st.

Lemma config_update_keeps c st : updated c st (cc_oci_config_update c st).
Proof.
  unfold updated, cc_oci_config_update, stop_mounts. generalize (c_buf PATH_MAX). intros buf.
  destruct st as [? ? ? ? ? sock ? ? ms ? cs v p pd pr]. cbn.
  destruct ms, pr, (args _), cs, v, p, pd, sock; done.
Qed.

Lemma config_update_file c st : state_file_path (state (cc_oci_config_update c st).1) = state_file_path (state c).
Proof.
  unfold cc_oci_config_update. generalize (c_buf PATH_MAX). intros buf. destruct st as [? ? ? ? ? sock ? ? ms ? cs v p pd pr]. cbn.
  destruct ms, pr, (args _), cs, v, p, pd, sock; done.
Qed.

(** The end of a stop: the hooks and the clean-up. *)
Lemma wp_stop_end c hs mts path :
  hooks (oci c) = hs -> mounts (oci c) = mts -> state_file_path (state c) = path ->
  wp (_ ← cc_run_hooks (poststop (hooks (oci c))) (state_file_path (state c)) false; ret ← cc_oci_cleanup c; mret (ret, c))
    (fun tr o => forall c', o = Done (true, c') ->
       mounts (oci c') = mts /\ state_file_path (state c') = path /\
       exists trh tr2, tr = trh ++ tr2 /\ ran_hooks path false (poststop hs) trh /\ tr_map act tr2 = cleaned c').
Proof.
  intros <- <- <-. apply wp_bind. eapply wp_mono; [apply wp_ran_hooks|]. intros tr1 [r|f] Hh; [|by intros ? [=]].
  apply wp_bind. eapply wp_mono; [apply act_cleanup|]. intros tr2 [ret|f] [_ Hcl]; [|by intros ? [=]].
  apply wp_ret. rewrite app_nil_r. intros c' [= -> <-]. split_and!; [done..|]. exists tr1, tr2. by rewrite (Hcl eq_refl).
Qed.

End lifecycle_facts.

#[export] Hint Resolve quiet_kill_container quiet_set_env_home quiet_new_pod_container quiet_start_container quiet_get_config_and_state quiet_destroy_pod quiet_bye : cc.

(** ** Witnesses and examples *)

#[local] Existing Instance glib_ref.
#[local] Instance life_build : Build := {| LOCALSTATEDIR := "/var"; SYSCONFDIR := "/etc"; DEFAULTSDIR := "/usr/share/defaults"; LIBEXECDIR := "/usr/libexec" |}.
#[local] Instance life_paths : StartPaths := {| start_proxy_socket_path := None; start_shim_path := None |}.
#[local] Instance life_fuel : RecvFuel := 9%nat.
#[local] Instance life_nl_fuel : NlFuel := 9%nat.
#[local] Instance life_qmp_fuel : QmpFuel := 9%nat.
#[local] Instance life_logs : HypervisorLogs := None.

(** An environment in which processes can be signalled, file systems unmounted
    and files removed, and in which the proxy accepts every command. *)
Definition life_world : handler nat := fun c w =>
  match c return reply c * nat with
  | Ckill _ _ | Cumount _ | Cg_unlink _ | Csystem _ => (0, w)
  | Crecvmsg _ =>
      (RecvData (frame (json_generator_to_data (GLib := glib_ref) (JObject [("success", JBool true)]) false)) None, w)
  | c => launch_world c w
  end.

Definition life_config : cc_oci_config :=
  let c := launch_example (Some "h") in
  let c := set_state (set_state_file_path "/run/c1/state.json" (state c)) c in
  set_oci (set_hooks (Hooks [] [Hook "/bin/up" None None 0] [Hook "/bin/down" None None 0]) (oci c)) c.

Definition life_state (s : oci_status) : oci_state :=
  State None (Some "c1") 41 (Some "/b") None None s (Some "now") [] [] None
    (Some (VmCfg "/usr/bin/qemu" "/img" "/vmlinuz" "/r/w" None 40)) (Some cc_proxy_zero) None None.

(** The actions of a run, its trace and its outcome. *)
Abbreviation acts_of r := (brief <$> tr_map act (fst r)).

Definition killed := run_tr life_world (cc_oci_kill life_config (life_state OCI_STATUS_RUNNING) SIGKILL) 0%nat.
Definition started := run_tr life_world (cc_oci_start None life_config (life_state OCI_STATUS_CREATED)) 0%nat.
Definition stopped := run_tr life_world (cc_oci_stop life_config (life_state OCI_STATUS_STOPPED)) 0%nat.

Definition result_of (r : list event * outcome (bool * cc_oci_config)) : option (bool * oci_status) :=
  match snd r with Done (ok, c) => Some (ok, status (state c)) | Fault _ => None end.


Lemma start_protocol_witness :
  acts_of started = [AWrite "/run/c1/state.json" EmptyString true; AHook ["/bin/up"; "/bin/up"]] /\
  start_spec (state_path life_config) [Hook "/bin/up" None None 0] (fst started) true.
Proof.
  split; [vm_compute; reflexivity|].
  eapply (start_protocol None life_config (life_state OCI_STATUS_CREATED) (fst started)).
  unfold started. apply run_tr_exec. vm_compute. reflexivity.
Defined.


(** A container of any status can be paused, also one that is stopped. *)
Definition pausable : handler (list string) := fun c w =>
  match c return reply c * list string with
  | Cg_file_set_contents _ _ => (true, w)
  | Ciso8601 => (Some "now", w)
  | c => monitor c w
  end.

Definition toggled (s : oci_status) : list event * outcome (bool * cc_oci_config) :=
  run_tr pausable (cc_oci_toggle life_config (set_s_comms_path (Some "/q") (life_state s)) true)
    [stream ["hi"]; stream [ret_ok]; stream [ev_stop]; stream [ret_ok]].

Example stopped_container_pauses :
  acts_of (toggled OCI_STATUS_STOPPED) = [AWrite "/run/c1/state.json" EmptyString true] /\
  result_of (toggled OCI_STATUS_STOPPED) = Some (true, OCI_STATUS_PAUSED).
Proof. split; vm_compute; reflexivity. Qed.

(** A sandbox that the VM does not start is recorded as running. *)
Definition sandbox_config : cc_oci_config := set_pod (Some (Pod true (Some "c1") "/run/workloads")) life_config.

Definition deaf_proxy : handler nat := fun c w =>
  match c return reply c * nat with Cconnect _ _ => (-1, w) | c => life_world c w end.

Definition sandbox_started : list event * outcome (bool * cc_oci_config) :=
  run_tr deaf_proxy (cc_oci_start None sandbox_config (life_state OCI_STATUS_CREATED)) 0%nat.

Example sandbox_start_ignored : result_of sandbox_started = Some (true, OCI_STATUS_RUNNING).
Proof. vm_compute. reflexivity. Qed.
