(* ===== verification/Events.v ===== *)
(** * Statistics of a container (src/src/events.c)

    What the events command prints: once, or every few seconds until the
    container's process socket is removed.  The main loop is a sequence of
    calls that give what woke it up. *)

From S2P Require Import Prelude GLib GLibRef Sys Types Util Json Config.

#[export] Instance loop_event_eq : EqDecision loop_event.
Proof. solve_decision. Defined.

(** Bound on what wakes up the main loop. *)
Class EventsFuel := events_fuel : nat.

Section events.
Context `{GL : GLib} `{BD : Build}.

(** Whether the main loop ends: only for the process socket of the directory
    that is watched. *)
Definition watcher_destroyed_vm (e : loop_event) : bool :=
  match e with
  | LoopDeleted (Some path) => g_streq (Some CC_OCI_PROCESS_SOCKET) (Some (g_path_get_basename path))
  | _ => false
  end.

Definition get_container_stats (config : cc_oci_config) : cstr :=
  if bool_decide (status (state config) <> OCI_STATUS_RUNNING) then None
  else
    let resources := [("cpu_stats", JObject []); ("memory_stats", JObject [])] in
    cc_oci_json_obj_to_string
      (Some [("type", JString "stats"); ("id", json_of_cstr (optarg_container_id config));
             ("data", JObject [("CgroupStats", JObject resources)])]) false.

(** Whether the timer stays. *)
Definition show_interval_stats (config : cc_oci_config) : io bool :=
  match get_container_stats config with
  | None => mret false
  | Some s => _ ← call_ (Cg_print s); mret true
  end.

Fixpoint events_loop (fuel : nat) (config : cc_oci_config) (interval : Z) (timer : bool) : io unit :=
  match fuel with
  | O => Halt Blocked
  | S fuel =>
      e ← call_ (Cloop_event interval);
      match e with
      | LoopTimer =>
          timer ← (if timer then show_interval_stats config else mret false : io bool);
          events_loop fuel config interval timer
      | e => if watcher_destroyed_vm e then mret tt else events_loop fuel config interval timer
      end
  end.

Context `{EF : EventsFuel}.

Definition show_container_stats (config : cc_oci_config) (interval : Z) : io bool :=
  if bool_decide (interval <> 0) then
    r ← call_ (Cmonitor_directory (runtime_path (state config)));
    if bool_decide (r < 0) then mret false
    else _ ← events_loop events_fuel config interval true; mret true
  else show_interval_stats config.
End events.

(** ** The main loop ends with the container *)

(** An environment that delivers the events of its state and keeps what is
    printed. *)
Definition watched_world : handler (list loop_event * list string) := fun c w =>
  match c return reply c * (list loop_event * list string) with
  | Cloop_event _ => match w.1 with [] => (LoopChanged, w) | e :: l => (e, (l, w.2)) end
  | Cg_print s => (0, (w.1, w.2 ++ [s]))
  | Cmonitor_directory _ => (0, w)
  | c => (fail_reply c, w)
  end.

Section events_facts.
Context `{GL : GLib} `{BD : Build} `{EF : EventsFuel}.

(** The text of the statistics of a container: no resource is measured. *)
Definition stats_text (id : cstr) : string :=
  json_generator_to_data
    (JObject [("type", JString "stats"); ("id", json_of_cstr id);
              ("data", JObject [("CgroupStats", JObject [("cpu_stats", JObject []); ("memory_stats", JObject [])])])]) false.

(** What is printed for these events: the text once for every tick if the
    container runs, nothing otherwise. *)
Definition stats_printed (config : cc_oci_config) (evs : list loop_event) : list string :=
  if decide (status (state config) = OCI_STATUS_RUNNING)
  then replicate (length (filter (fun e => e = LoopTimer) evs)) (stats_text (optarg_container_id config))
  else [].

(** The process socket was removed. *)
Definition socket_removed (e : loop_event) : Prop :=
  exists p, e = LoopDeleted (Some p) /\ g_path_get_basename p = CC_OCI_PROCESS_SOCKET.

Lemma watcher_removed e : watcher_destroyed_vm e = true <-> socket_removed e.
Proof.
  unfold socket_removed. destruct e as [|[p|]|]; cbn; [naive_solver| |naive_solver..]. rewrite g_streq_lit, bool_decide_eq_true. naive_solver.
Qed.

Lemma stats_running config :
  get_container_stats config =
    if decide (status (state config) = OCI_STATUS_RUNNING) then Some (stats_text (optarg_container_id config)) else None.
Proof. unfold get_container_stats. case_decide; [by rewrite bool_decide_false by tauto|by rewrite bool_decide_true]. Qed.

Lemma run_events_loop fuel config interval evs e rest out timer :
  (length evs < fuel)%nat -> Forall (fun e => watcher_destroyed_vm e = false) evs -> watcher_destroyed_vm e = true ->
  (timer = false -> get_container_stats config = None) ->
  run watched_world (events_loop fuel config interval timer) (evs ++ e :: rest, out)
    = (Done tt, (rest, out ++ match get_container_stats config with
                              | None => []
                              | Some s => replicate (length (filter (fun e => e = LoopTimer) evs)) s
                              end)).
Proof.
  intros Hf He Hd. revert fuel out timer Hf. induction He as [|e' evs Hn _ IH]; intros [|fuel] out timer Hf Ht; cbn in Hf; try lia.
  - cbn. destruct e; [done| |done]. cbn in Hd |- *. rewrite Hd.
    destruct (get_container_stats config); cbn; by rewrite app_nil_r.
  - specialize (IH fuel). cbn [events_loop app run]. destruct e' as [|p|].
    + unfold show_interval_stats in *. cbn -[watched_world]. unfold watched_world at 1.
      destruct (get_container_stats config) as [s|] eqn:Es.
      * destruct timer; [|by specialize (Ht eq_refl)]. cbn -[events_loop].
        rewrite (IH (out ++ [s]) true) by (done || lia). cbn. by rewrite <- app_assoc.
      * transitivity (run watched_world (events_loop fuel config interval false) (evs ++ e :: rest, out));
          [by destruct timer|]. rewrite (IH out false) by (done || lia). done.
    + cbn -[events_loop watcher_destroyed_vm]. rewrite Hn, IH by (done || lia). done.
    + cbn -[events_loop]. rewrite IH by (done || lia). done.
Qed.

(** C16.  The events command ends with the container.  The main loop of the
    command, with an interval, returns at the first event that says that a file
    whose last component is the name of the process socket was removed, and at
    no event before: neither at the removal of another file, nor at another
    change.  What was printed until then is the statistics of the container,
    which name it and have no values, once for every tick of the timer if its
    status is running; otherwise nothing is printed. *)
Theorem events_end_with_container config interval evs e rest out :
  interval <> 0 -> (length evs < events_fuel)%nat ->
  Forall (fun e => ~ socket_removed e) evs -> socket_removed e ->
  run watched_world (show_container_stats config interval) (evs ++ e :: rest, out)
    = (Done true, (rest, out ++ stats_printed config evs)).
Proof.
  intros Hi Hf He Hp. unfold show_container_stats. rewrite bool_decide_eq_true_2 by done.
  rewrite run_bind. cbn [run call_ watched_world]. rewrite bool_decide_eq_false_2 by lia.
  rewrite run_bind, run_events_loop; [|done| |by apply watcher_removed|done].
  - unfold stats_printed. rewrite stats_running. by case_decide.
  - eapply Forall_impl; [exact He|]. intros e' Hn. apply not_true_is_false. by rewrite watcher_removed.
Qed.
End events_facts.

#[local] Existing Instance glib_ref.
#[local] Instance events_build : Build := {| LOCALSTATEDIR := "/var"; SYSCONFDIR := "/etc"; DEFAULTSDIR := "/usr/share/defaults"; LIBEXECDIR := "/usr/libexec" |}.
#[local] Instance events_fuel_9 : EventsFuel := 9%nat.

Definition running_config : cc_oci_config :=
  let c := set_optarg_container_id (Some "c1") cc_oci_config_zero in
  set_state (set_status OCI_STATUS_RUNNING (state c)) c.

Lemma events_end_with_container_witness :
  length (stats_printed running_config [LoopTimer; LoopDeleted (Some "/run/c1/state.json"); LoopTimer]) = 2%nat /\
  run watched_world (show_container_stats running_config 5)
    ([LoopTimer; LoopDeleted (Some "/run/c1/state.json"); LoopTimer] ++ [LoopDeleted (Some "/run/c1/process.sock")], [])
    = (Done true, ([], stats_printed running_config [LoopTimer; LoopDeleted (Some "/run/c1/state.json"); LoopTimer])).
Proof.
  split; [vm_compute; reflexivity|].
  apply (events_end_with_container running_config 5 _ (LoopDeleted (Some "/run/c1/process.sock")) [] []); [done| | |].
  - unfold events_fuel. vm_compute. lia.
  - repeat constructor; intros (p & [=] & Hp). subst p. vm_compute in Hp. discriminate.
  - exists "/run/c1/process.sock". split; [reflexivity|vm_compute; reflexivity].
Defined.
