(* ===== verification/Commands.v ===== *)
(** * The command line (src/src/main.c, command.c, priv.c, commands/)

    The global options, the choice of a command, its options and its handler.
    The parser of options is GLib's: it tells which options of a table were
    given, in their order, and what remains of the arguments.  What an option
    assigns is part of the table.  Variables that options assign are records
    here, and messages that are only logged are left out. *)

From S2P Require Import Prelude GLib GLibRef Sys Types Util Json Namespace Semver Config SpecHandlers Mount State Wire Networking Proxy Qmp Hypervisor Logging Process Launch Lifecycle Events.

Definition SIGPIPE : Z := 13.
Definition ENOENT : Z := 2.
Definition DEFAULT_INTERVAL : Z := 5.
Definition MIN_EXEC_ARGS : Z := 1.

(** ** Options *)

(** [GOptionEntry], without its texts. *)
Inductive option_arg := ARG_NONE | ARG_STRING | ARG_INT | ARG_STRING_ARRAY | ARG_CALLBACK.
Record option_entry := Entry { long_name : string; short_name : option ascii; arg : option_arg; optional_arg : bool }.

(** The value of an option that was given. *)
Inductive option_value := NoValue | StringValue (s : string) | IntValue (z : Z).

Inductive parse_result :=
| ParseError
(** the text of the automatic help, after which the parser exits *)
| ParseHelp (text : string)
| Parsed (opts : list (string * option_value)) (argv : list string).

(** GLib's parser.  The first element of the vector is the program's name and
    stays. *)
Class OptionParser := {
  (** [g_option_context_parse], with the settings "strict POSIX" and "help
      enabled" of the context *)
  g_option_context_parse : list option_entry -> bool -> bool -> list string -> parse_result;
  g_option_context_get_help : list option_entry -> string;
  (** the automatic help, unless an entry has the same name *)
  g_option_help_spec entries posix prog h rest :
    h = "--help" \/ h = "-h" -> Forall (fun e => short_name e <> Some "h"%char) entries ->
    exists text, g_option_context_parse entries posix true (prog :: h :: rest) = ParseHelp text
}.

(** The entries with what they do to the variables; a callback may refuse. *)
Definition option_table (V : Type) : Type := list (option_entry * (option_value -> V -> option V)).

Definition assign {V} (l : option_table V) (o : string * option_value) (v : V) : option V :=
  match list_find (fun e => long_name e.1 = o.1) l with
  | Some (_, (_, f)) => f o.2 v
  | None => Some v
  end.

Fixpoint assign_all {V} (l : option_table V) (opts : list (string * option_value)) (v : V) : option V :=
  match opts with
  | [] => Some v
  | o :: opts => v ← assign l o v; assign_all l opts v
  end.

(** The destinations of the entries, by the type of their argument. *)
Definition flag_to {V} (f : bool -> V -> V) : option_value -> V -> option V := fun _ v => Some (f true v).
Definition string_to {V} (f : cstr -> V -> V) : option_value -> V -> option V := fun x v =>
  match x with StringValue s => Some (f (Some s) v) | _ => Some v end.
Definition int_to {V} (f : Z -> V -> V) : option_value -> V -> option V := fun x v =>
  match x with IntValue z => Some (f z v) | _ => Some v end.
Definition nothing_to {V} : option_value -> V -> option V := fun _ v => Some v.

(** [struct start_data], without the paths given by global options, and the
    variables that only one command uses. *)
Record start_data := StartData {
  sd_bundle : cstr; sd_console : cstr; sd_pid_file : cstr; sd_detach : bool; sd_dry_run_mode : bool;
  sd_allocate_tty : bool; sd_user : oci_cfg_user;
  x_cwd : cstr; x_env : option (list string); x_process_json : cstr;
  x_run_once : bool; x_interval : Z; x_format : cstr; x_show_all : bool
}.

Definition start_data_zero : start_data :=
  StartData None None None false false false (User 0 0) None None None false DEFAULT_INTERVAL None false.

Definition set_sd_bundle (b : cstr) (v : start_data) : start_data :=
  StartData b (sd_console v) (sd_pid_file v) (sd_detach v) (sd_dry_run_mode v) (sd_allocate_tty v) (sd_user v)
    (x_cwd v) (x_env v) (x_process_json v) (x_run_once v) (x_interval v) (x_format v) (x_show_all v).
Definition set_sd_console (c : cstr) (v : start_data) : start_data :=
  StartData (sd_bundle v) c (sd_pid_file v) (sd_detach v) (sd_dry_run_mode v) (sd_allocate_tty v) (sd_user v)
    (x_cwd v) (x_env v) (x_process_json v) (x_run_once v) (x_interval v) (x_format v) (x_show_all v).
Definition set_sd_pid_file (f : cstr) (v : start_data) : start_data :=
  StartData (sd_bundle v) (sd_console v) f (sd_detach v) (sd_dry_run_mode v) (sd_allocate_tty v) (sd_user v)
    (x_cwd v) (x_env v) (x_process_json v) (x_run_once v) (x_interval v) (x_format v) (x_show_all v).
Definition set_sd_detach (b : bool) (v : start_data) : start_data :=
  StartData (sd_bundle v) (sd_console v) (sd_pid_file v) b (sd_dry_run_mode v) (sd_allocate_tty v) (sd_user v)
    (x_cwd v) (x_env v) (x_process_json v) (x_run_once v) (x_interval v) (x_format v) (x_show_all v).
Definition set_sd_dry_run (b : bool) (v : start_data) : start_data :=
  StartData (sd_bundle v) (sd_console v) (sd_pid_file v) (sd_detach v) b (sd_allocate_tty v) (sd_user v)
    (x_cwd v) (x_env v) (x_process_json v) (x_run_once v) (x_interval v) (x_format v) (x_show_all v).
Definition set_sd_tty (b : bool) (v : start_data) : start_data :=
  StartData (sd_bundle v) (sd_console v) (sd_pid_file v) (sd_detach v) (sd_dry_run_mode v) b (sd_user v)
    (x_cwd v) (x_env v) (x_process_json v) (x_run_once v) (x_interval v) (x_format v) (x_show_all v).
Definition set_sd_user (u : oci_cfg_user) (v : start_data) : start_data :=
  StartData (sd_bundle v) (sd_console v) (sd_pid_file v) (sd_detach v) (sd_dry_run_mode v) (sd_allocate_tty v) u
    (x_cwd v) (x_env v) (x_process_json v) (x_run_once v) (x_interval v) (x_format v) (x_show_all v).
Definition set_x_cwd (c : cstr) (v : start_data) : start_data :=
  StartData (sd_bundle v) (sd_console v) (sd_pid_file v) (sd_detach v) (sd_dry_run_mode v) (sd_allocate_tty v) (sd_user v)
    c (x_env v) (x_process_json v) (x_run_once v) (x_interval v) (x_format v) (x_show_all v).
Definition set_x_process_json (f : cstr) (v : start_data) : start_data :=
  StartData (sd_bundle v) (sd_console v) (sd_pid_file v) (sd_detach v) (sd_dry_run_mode v) (sd_allocate_tty v) (sd_user v)
    (x_cwd v) (x_env v) f (x_run_once v) (x_interval v) (x_format v) (x_show_all v).
(** An array option adds an element each time it is given. *)
Definition add_x_env (e : cstr) (v : start_data) : start_data :=
  StartData (sd_bundle v) (sd_console v) (sd_pid_file v) (sd_detach v) (sd_dry_run_mode v) (sd_allocate_tty v) (sd_user v)
    (x_cwd v) (Some (default [] (x_env v) ++ from_option (fun s => [s]) [] e)) (x_process_json v) (x_run_once v) (x_interval v)
    (x_format v) (x_show_all v).
Definition set_x_run_once (b : bool) (v : start_data) : start_data :=
  StartData (sd_bundle v) (sd_console v) (sd_pid_file v) (sd_detach v) (sd_dry_run_mode v) (sd_allocate_tty v) (sd_user v)
    (x_cwd v) (x_env v) (x_process_json v) b (x_interval v) (x_format v) (x_show_all v).
Definition set_x_interval (i : Z) (v : start_data) : start_data :=
  StartData (sd_bundle v) (sd_console v) (sd_pid_file v) (sd_detach v) (sd_dry_run_mode v) (sd_allocate_tty v) (sd_user v)
    (x_cwd v) (x_env v) (x_process_json v) (x_run_once v) i (x_format v) (x_show_all v).
Definition set_x_format (f : cstr) (v : start_data) : start_data :=
  StartData (sd_bundle v) (sd_console v) (sd_pid_file v) (sd_detach v) (sd_dry_run_mode v) (sd_allocate_tty v) (sd_user v)
    (x_cwd v) (x_env v) (x_process_json v) (x_run_once v) (x_interval v) f (x_show_all v).
Definition set_x_show_all (b : bool) (v : start_data) : start_data :=
  StartData (sd_bundle v) (sd_console v) (sd_pid_file v) (sd_detach v) (sd_dry_run_mode v) (sd_allocate_tty v) (sd_user v)
    (x_cwd v) (x_env v) (x_process_json v) (x_run_once v) (x_interval v) (x_format v) b.

Definition dquote : string := String (Ascii.ascii_of_nat 34) EmptyString.
Definition tab : string := String (Ascii.ascii_of_nat 9) EmptyString.

(** [%8s]: padded on the left. *)
Definition pad_left (width : Z) (s : string) : string :=
  String.concat EmptyString (replicate (Z.to_nat width - String.length s) " ") +:+ s.

(** [PACKAGE_NAME], [PACKAGE_VERSION] and [GIT_COMMIT], set by the build. *)
Class Package := { PACKAGE_NAME : string; PACKAGE_VERSION : string; GIT_COMMIT : string }.

Section commands.
Context `{GL : GLib} `{BD : Build} `{SP : StartPaths} `{RF : RecvFuel} `{NF : NlFuel} `{HL : HypervisorLogs} `{QF : QmpFuel}.
Context `{EF : EventsFuel} `{PK : Package} `{OP : OptionParser}.

(** ** src/src/command.c *)

(** Without an argument the option changes nothing. *)
Definition handle_option_console (value : option_value) (v : start_data) : option start_data :=
  match value with StringValue s => Some (set_sd_console (Some s) v) | _ => Some v end.

(** The value is [<uid>[:<gid>]]; both are cut to the width of [uid_t]. *)
Definition handle_option_user (value : option_value) (v : start_data) : option start_data :=
  match value with
  | StringValue s =>
      match g_strsplit s ":" 2 with
      | [] => None
      | struid :: ids =>
          let uid := g_ascii_strtoll struid in
          if bool_decide (st_end uid = 0%nat) then None
          else
            gid ← match ids with
                  | [] => Some 0
                  | strgid :: _ =>
                      let gid := g_ascii_strtoll strgid in
                      if bool_decide (st_end gid = 0%nat) then None else Some (st_num gid)
                  end;
            if bool_decide (st_num uid < 0 \/ gid < 0) then None
            else Some (set_sd_user (User (u32 (st_num uid)) (u32 gid)) v)
      end
  | _ => None
  end.

(** [Some ret] when the arguments have been handled. *)
Definition handle_default_usage (argv : list string) (cmd : string) (min_argc : Z) (extra : cstr) : io (option bool) :=
  let argc := Z.of_nat (length argv) in
  let help := match argv with
              | a :: _ => g_streq (Some a) (Some "--help") || g_streq (Some a) (Some "-h")
              | [] => false
              end in
  if help || bool_decide (argc = 0 \/ argc < min_argc) then
    _ ← call_ (Cg_print ("Usage: " +:+ cmd +:+ " <container-id>"
                         +:+ match extra with Some e => " " +:+ e | None => EmptyString end +:+ newline));
    mret (Some (if help then bool_decide (argc = 1) else bool_decide (min_argc <= argc)))
  else mret None.

(** The handler with the container id, once usage has been dealt with. *)
Definition with_usage (argv : list string) (cmd : string) (min_argc : Z) (extra : cstr)
    (k : string -> list string -> io bool) : io bool :=
  handled ← handle_default_usage argv cmd min_argc extra;
  match handled, argv with
  | Some ret, _ => mret ret
  | None, id :: rest => k id rest
  (* argv[0] is NULL; usage handles this case *)
  | None, [] => Halt NullDeref
  end.

Definition handle_command_toggle (name : string) (config : cc_oci_config) (argv : list string) (pause : bool) : io bool :=
  with_usage argv name 1 None (fun id _ =>
    let config := set_optarg_container_id (Some id) config in
    '(found, config) ← cc_oci_get_config_and_state config;
    match found with
    | None => mret false
    | Some (_, st) =>
        let '(config, st) := cc_oci_config_update config st in
        '(ret, config) ← cc_oci_toggle config st pause;
        if negb (ret : bool) then mret false
        else
          _ ← call_ (Cg_print ((if pause then "pause" else "resume") +:+ "d container " +:+ id +:+ newline));
          mret true
    end).

Definition stop_spec_handlers : list spec_handler := [hooks_spec_handler].

(** A configuration that cannot be parsed leaves the result of the call
    before, which is true. *)
Definition handle_command_stop (name : string) (config : cc_oci_config) (argv : list string) : io bool :=
  with_usage argv name 1 None (fun id _ =>
    let config := set_optarg_container_id (Some id) config in
    '(exists_, config) ← cc_oci_state_file_exists config;
    if negb (exists_ : bool) then mret true
    else
      '(found, config) ← cc_oci_get_config_and_state config;
      match found with
      | None => mret false
      | Some (config_file, st) =>
          root ← cc_oci_json_parse (Some config_file);
          match root with
          | None => mret true
          | Some root =>
              '(ok, config, _) ← cc_oci_process_config root config statics_zero stop_spec_handlers;
              if negb (ok : bool) then mret true
              else
                '(ret, config) ← cc_oci_stop config st;
                if negb (ret : bool) then mret false
                else _ ← call_ (Cg_print ("stopped container " +:+ id +:+ newline)); mret true
          end
      end).

(** Success, the configuration, and the variables: the bundle is consumed. *)
Definition handle_command_setup (name : string) (v : start_data) (config : cc_oci_config) (argv : list string)
    : io (bool * cc_oci_config * start_data) :=
  handled ← handle_default_usage argv name 1 None;
  match handled, argv with
  | Some ret, _ => mret (ret, config, v)
  | None, [] => Halt NullDeref
  | None, id :: rest =>
      let config := set_optarg_container_id (Some id) config in
      let finish config v :=
        mret (true, set_console (sd_console v) (set_pid_file (sd_pid_file v)
                      (set_dry_run_mode (sd_dry_run_mode v) (set_detached_mode (sd_detach v) config))), v) in
      match sd_bundle v, rest with
      | Some b, [] => p ← cc_oci_resolve_path (Some b); finish (set_bundle_path p config) (set_sd_bundle None v)
      | None, [b] => p ← cc_oci_resolve_path (Some b); finish (set_bundle_path p config) v
      | _, _ => mret (false, config, v)
      end
  end.

(** ** src/src/commands *)

Definition options_create : option_table start_data :=
  [(Entry "bundle" (Some "b"%char) ARG_STRING false, string_to set_sd_bundle);
   (Entry "console" None ARG_CALLBACK true, handle_option_console);
   (Entry "no-pivot" None ARG_NONE false, nothing_to);
   (Entry "pid-file" None ARG_STRING false, string_to set_sd_pid_file)].

Definition options_run : option_table start_data :=
  [(Entry "bundle" (Some "b"%char) ARG_STRING false, string_to set_sd_bundle);
   (Entry "console" None ARG_CALLBACK true, handle_option_console);
   (Entry "detach" (Some "d"%char) ARG_NONE false, flag_to set_sd_detach);
   (Entry "dry-run" None ARG_NONE false, flag_to set_sd_dry_run);
   (Entry "no-pivot" None ARG_NONE false, nothing_to);
   (Entry "no-subreaper" None ARG_NONE false, nothing_to);
   (Entry "pid-file" None ARG_STRING false, string_to set_sd_pid_file)].

Definition options_start : option_table start_data :=
  [(Entry "bundle" (Some "b"%char) ARG_STRING false, string_to set_sd_bundle)].

Definition options_events : option_table start_data :=
  [(Entry "stats" None ARG_NONE false, flag_to set_x_run_once);
   (Entry "interval" None ARG_INT false, int_to set_x_interval)].

Definition options_list : option_table start_data :=
  [(Entry "all" (Some "a"%char) ARG_NONE false, flag_to set_x_show_all);
   (Entry "format" (Some "f"%char) ARG_STRING false, string_to set_x_format)].

(** The variables of options that are not implemented are not read. *)
Definition options_exec : option_table start_data :=
  [(Entry "apparmor" None ARG_STRING false, nothing_to);
   (Entry "cap" (Some "c"%char) ARG_STRING false, nothing_to);
   (Entry "console" None ARG_CALLBACK true, handle_option_console);
   (Entry "cwd" None ARG_STRING false, string_to set_x_cwd);
   (Entry "detach" (Some "d"%char) ARG_NONE false, flag_to set_sd_detach);
   (Entry "env" (Some "e"%char) ARG_STRING_ARRAY false, string_to add_x_env);
   (Entry "no-new-privs" None ARG_NONE false, nothing_to);
   (Entry "no-subreaper" None ARG_NONE false, nothing_to);
   (Entry "pid-file" None ARG_STRING false, string_to set_sd_pid_file);
   (Entry "process" (Some "p"%char) ARG_STRING false, string_to set_x_process_json);
   (Entry "tty" (Some "0"%char) ARG_NONE false, flag_to set_sd_tty);
   (Entry "user" (Some "u"%char) ARG_CALLBACK false, handle_option_user)].

(** The container id is not set: the state file is never found. *)
Definition handler_checkpoint (name : string) (v : start_data) (config : cc_oci_config) (argv : list string) : io bool :=
  with_usage argv name 1 None (fun _ _ => '(ok, _) ← cc_oci_state_file_exists config; mret ok).

Definition handler_restore (name : string) (v : start_data) (config : cc_oci_config) (argv : list string) : io bool :=
  with_usage argv name 1 None (fun _ _ => '(ok, _) ← cc_oci_state_file_exists config; mret ok).

Definition handler_ps (name : string) (v : start_data) (config : cc_oci_config) (argv : list string) : io bool :=
  with_usage argv name 1 (Some "<ps options>") (fun id _ =>
    '(ok, _) ← cc_oci_state_file_exists (set_optarg_container_id (Some id) config); mret ok).

Definition handler_update (name : string) (v : start_data) (config : cc_oci_config) (argv : list string) : io bool :=
  with_usage argv name 1 None (fun id _ =>
    '(ok, _) ← cc_oci_state_file_exists (set_optarg_container_id (Some id) config); mret ok).

Definition handler_create (name : string) (v : start_data) (config : cc_oci_config) (argv : list string) : io bool :=
  '(ok, config, v) ← handle_command_setup name v config argv;
  if negb (ok : bool) then mret false else '(ret, _) ← cc_oci_create config; mret ret.

Definition handler_run (name : string) (v : start_data) (config : cc_oci_config) (argv : list string) : io bool :=
  '(ok, config, v) ← handle_command_setup name v config argv;
  if negb (ok : bool) then mret false else '(ret, _) ← cc_oci_run (sd_bundle v) config; mret ret.

Definition handler_start (name : string) (v : start_data) (config : cc_oci_config) (argv : list string) : io bool :=
  with_usage argv name 1 None (fun id _ =>
    '(found, config) ← cc_oci_get_config_and_state (set_optarg_container_id (Some id) config);
    match found with
    | None => mret false
    | Some (_, st) =>
        let '(config, st) := cc_oci_config_update config st in
        '(ret, _) ← cc_oci_start (sd_bundle v) config st; mret ret
    end).

Definition handler_pause (name : string) (v : start_data) (config : cc_oci_config) (argv : list string) : io bool :=
  handle_command_toggle name config argv true.

Definition handler_resume (name : string) (v : start_data) (config : cc_oci_config) (argv : list string) : io bool :=
  handle_command_toggle name config argv false.

Definition handler_stop (name : string) (v : start_data) (config : cc_oci_config) (argv : list string) : io bool :=
  handle_command_stop name config argv.

Definition handler_events (name : string) (v : start_data) (config : cc_oci_config) (argv : list string) : io bool :=
  with_usage argv name (-1) None (fun id _ =>
    if bool_decide (x_interval v <= 0) then mret false
    else
      '(found, config) ← cc_oci_get_config_and_state (set_optarg_container_id (Some id) config);
      match found with
      | None => mret false
      | Some _ => show_container_stats config (if x_run_once v then 0 else x_interval v)
      end).

(** The signal to send; [None] for one that is not valid.  A third argument
    makes the second one ignored. *)
Definition kill_signal (rest : list string) : option Z :=
  match rest with
  | [signame] =>
      let signum := atoi signame in
      let signum := if bool_decide (signum <= 0) then cc_oci_get_signum (Some signame) else signum in
      if bool_decide (signum < 0) then None else Some signum
  | _ => Some SIGTERM
  end.

Definition handler_kill (name : string) (v : start_data) (config : cc_oci_config) (argv : list string) : io bool :=
  with_usage argv name 1 (Some "[<signal>]") (fun id rest =>
    match kill_signal rest with
    | None => mret false
    | Some signum =>
        '(found, config) ← cc_oci_get_config_and_state (set_optarg_container_id (Some id) config);
        match found with
        | None => mret false
        | Some (_, st) =>
            let '(config, st) := cc_oci_config_update config st in
            '(ret, _) ← cc_oci_kill config st signum; mret ret
        end
    end).

Definition handler_list (name : string) (v : start_data) (config : cc_oci_config) (argv : list string) : io bool :=
  cc_oci_list config (Some (default "table" (x_format v))) (x_show_all v).

Definition handler_state (name : string) (v : start_data) (config : cc_oci_config) (argv : list string) : io bool :=
  with_usage argv name 1 None (fun id _ =>
    match cc_oci_runtime_path_get (set_optarg_container_id (Some id) config) with
    | None => mret false
    | Some config =>
        match cc_oci_state_file_get config with
        | None => mret false
        | Some config =>
            contents ← call_ (Cg_file_get_contents (state_file_path (state config)));
            match contents with
            | None => mret false
            | Some c => _ ← call_ (Cg_print (c_str c +:+ newline)); mret true
            end
        end
    end).

(** The process to run, from the options and the arguments after the id. *)
Definition exec_process (v : start_data) (args : list string) (p : oci_cfg_process) : oci_cfg_process :=
  let p := set_user (sd_user v) p in
  let p := set_env (x_env v) p in
  let p := set_terminal (match sd_console v with Some c => str_nonempty c | None => false end) p in
  let p := match x_cwd v with Some d => set_cwd (c_buf PATH_MAX d) p | None => p end in
  match args with [] => p | _ => set_args (Some args) p end.

Definition handler_exec (name : string) (v : start_data) (config : cc_oci_config) (argv : list string) : io bool :=
  with_usage argv name MIN_EXEC_ARGS (Some "<cmd> [args]") (fun id args =>
    let config := set_optarg_container_id (Some id) config in
    if bool_decide (args = [] /\ x_process_json v = None) then
      _ ← call_ (Cg_print ("Usage: " +:+ name +:+ " <container-id> <cmd> [args]" +:+ newline)); mret false
    else
      let config := set_oci (set_process (exec_process v args (process (oci config))) (oci config)) config in
      '(found, config) ← cc_oci_get_config_and_state config;
      match found with
      | None => mret false
      | Some (_, st) =>
          '(ret, _) ← cc_oci_exec (sd_pid_file v) (set_console (sd_console v) config) st (x_process_json v); mret ret
      end).

(** The names and descriptions of the commands, for the help text. *)
Definition descriptions : list (string * string) :=
  [("checkpoint", "checkpoint a running container"); ("create", "create and start a container, but do not run workload");
   ("delete", "delete resources held by a container"); ("events", "shows container resource usage statistics");
   ("exec", "execute a new task inside an existing container"); ("help", "show this help");
   ("kill", "send a signal to the container (signal may be symbolic (" +:+ dquote +:+ "SIGKILL" +:+ dquote +:+ "/" +:+ dquote +:+ "KILL"
            +:+ dquote +:+ ") or numeric (" +:+ dquote +:+ "9" +:+ dquote +:+ "))");
   ("list", "list all container details"); ("pause", "pause all the tasks inside a container");
   ("ps", "display the processes running inside a container"); ("restore", "restore a container from a previous checkpoint");
   ("resume", "resume a previously paused container"); ("run", "create and run a new container");
   ("start", "run workload in a created container"); ("state", "shows the state of a container"); ("stop", "destroy a container");
   ("update", "update container resource constraints");
   ("version", "shows the program version and OCI spec supported version")].

Definition usage : io unit :=
  _ ← call_ (Cg_print ("Usage:" +:+ newline));
  _ ← call_ (Cg_print (PACKAGE_NAME +:+ " [global options] [command] [command options]" +:+ newline));
  _ ← call_ (Cg_print newline);
  _ ← call_ (Cg_print ("Supported commands:" +:+ newline));
  io_fold (fun _ d => _ ← call_ (Cg_print (tab +:+ pad 15 d.1 +:+ " " +:+ pad_left 8 d.2 +:+ newline)); mret tt) descriptions tt.

Definition handler_help (name : string) (v : start_data) (config : cc_oci_config) (argv : list string) : io bool :=
  _ ← usage; mret true.

Definition show_version : io unit :=
  _ ← call_ (Cg_print (PACKAGE_NAME +:+ " version: " +:+ PACKAGE_VERSION +:+ newline));
  _ ← call_ (Cg_print ("spec version: " +:+ CC_OCI_SUPPORTED_SPEC_VERSION +:+ newline));
  _ ← call_ (Cg_print ("commit: " +:+ GIT_COMMIT +:+ newline));
  mret tt.

Definition handler_version (name : string) (v : start_data) (config : cc_oci_config) (argv : list string) : io bool :=
  _ ← show_version; mret true.

(** ** The table of commands *)

Record subcommand := Subcommand {
  sub_name : string; sub_options : option (option_table start_data);
  sub_handler : string -> start_data -> cc_oci_config -> list string -> io bool
}.

Definition subcommands : list subcommand :=
  [Subcommand "checkpoint" None handler_checkpoint; Subcommand "create" (Some options_create) handler_create;
   Subcommand "delete" None handler_stop; Subcommand "events" (Some options_events) handler_events;
   Subcommand "exec" (Some options_exec) handler_exec; Subcommand "help" None handler_help;
   Subcommand "kill" None handler_kill; Subcommand "list" (Some options_list) handler_list;
   Subcommand "pause" None handler_pause; Subcommand "ps" None handler_ps; Subcommand "restore" None handler_restore;
   Subcommand "resume" None handler_resume; Subcommand "run" (Some options_run) handler_run;
   Subcommand "start" (Some options_start) handler_start; Subcommand "state" None handler_state;
   Subcommand "stop" None handler_stop; Subcommand "update" None handler_update;
   Subcommand "version" None handler_version].

(** ** src/src/main.c *)

Definition get_subcmd (cmd : string) : option subcommand :=
  snd <$> list_find (fun s => g_streq (Some cmd) (Some (sub_name s))) subcommands.

(** The vector starts with the name of the command. *)
Definition handle_sub_commands (argv : list string) (sub : subcommand) (config : cc_oci_config) : io bool :=
  match argv with
  | [] => Halt AssertFailed
  | _ =>
      let run v argv := sub_handler sub (sub_name sub) v config (tail argv) in
      match sub_options sub with
      | None => run start_data_zero argv
      | Some table =>
          match g_option_context_parse (fst <$> table) false true argv with
          | ParseError => mret false
          | ParseHelp text => _ ← call_ (Cg_print text); Halt (Exited 0)
          | Parsed opts argv =>
              match assign_all table opts start_data_zero with
              | None => mret false
              | Some v => run v argv
              end
          end
      end
  end.
End commands.

(** ** src/src/priv.c *)

(** 1: privileges are needed; 0: they are not; -1: nothing is to be set up. *)
Definition cc_oci_get_priv_level `{GLib} (argv : list string) (name : string) (config : cc_oci_config) : io Z :=
  if g_streq (Some name) (Some "help") || g_streq (Some name) (Some "version") then mret (-1)
  else if match argv with _ :: a :: _ => g_streq (Some a) (Some "--help") || g_streq (Some a) (Some "-h") | _ => false end
  then mret (-1)
  else
    match root_dir config with
    | None => mret 1
    | Some dir =>
        r ← call_ (Caccess dir);
        if bool_decide (r = 0) then mret 0
        else
          e ← call_ Cerrno;
          if bool_decide (e = ENOENT) then
            r ← call_ (Caccess (g_path_get_dirname dir));
            mret (if bool_decide (r = 0) then 0 else 1)
          else mret 1
    end.

(** What the global options assign. *)
Record globals := Globals {
  g_log : cc_log_options; g_format : cstr; g_show_version : bool; g_show_help : bool; g_root_dir : cstr;
  g_shim_path : cstr; g_proxy_socket_path : cstr
}.

Definition globals_zero : globals := Globals (LogOptions false None None None false) None false false None None None.

Definition set_g_log (o : cc_log_options) (g : globals) : globals :=
  Globals o (g_format g) (g_show_version g) (g_show_help g) (g_root_dir g) (g_shim_path g) (g_proxy_socket_path g).
Definition set_debug (b : bool) (g : globals) : globals :=
  let o := g_log g in set_g_log (LogOptions b (filename o) (global_logfile o) (opt_hypervisor_log_dir o) (use_json o)) g.
Definition set_global_log (f : cstr) (g : globals) : globals :=
  let o := g_log g in set_g_log (LogOptions (enable_debug o) (filename o) f (opt_hypervisor_log_dir o) (use_json o)) g.
Definition set_hypervisor_log (f : cstr) (g : globals) : globals :=
  let o := g_log g in set_g_log (LogOptions (enable_debug o) (filename o) (global_logfile o) f (use_json o)) g.
Definition set_log_file (f : cstr) (g : globals) : globals :=
  let o := g_log g in set_g_log (LogOptions (enable_debug o) f (global_logfile o) (opt_hypervisor_log_dir o) (use_json o)) g.
Definition set_g_format (f : cstr) (g : globals) : globals :=
  Globals (g_log g) f (g_show_version g) (g_show_help g) (g_root_dir g) (g_shim_path g) (g_proxy_socket_path g).
Definition set_g_version (b : bool) (g : globals) : globals :=
  Globals (g_log g) (g_format g) b (g_show_help g) (g_root_dir g) (g_shim_path g) (g_proxy_socket_path g).
Definition set_g_help (b : bool) (g : globals) : globals :=
  Globals (g_log g) (g_format g) (g_show_version g) b (g_root_dir g) (g_shim_path g) (g_proxy_socket_path g).
Definition set_g_root (d : cstr) (g : globals) : globals :=
  Globals (g_log g) (g_format g) (g_show_version g) (g_show_help g) d (g_shim_path g) (g_proxy_socket_path g).
Definition set_g_shim (f : cstr) (g : globals) : globals :=
  Globals (g_log g) (g_format g) (g_show_version g) (g_show_help g) (g_root_dir g) f (g_proxy_socket_path g).
Definition set_g_proxy_socket (f : cstr) (g : globals) : globals :=
  Globals (g_log g) (g_format g) (g_show_version g) (g_show_help g) (g_root_dir g) (g_shim_path g) f.

Definition options_global : option_table globals :=
  [(Entry "criu" None ARG_STRING false, nothing_to);
   (Entry "debug" (Some "d"%char) ARG_NONE false, flag_to set_debug);
   (Entry "global-log" None ARG_STRING false, string_to set_global_log);
   (Entry "hypervisor-log-dir" None ARG_STRING false, string_to set_hypervisor_log);
   (Entry "log" None ARG_STRING false, string_to set_log_file);
   (Entry "log-format" None ARG_STRING false, string_to set_g_format);
   (Entry "root" None ARG_STRING false, string_to set_g_root);
   (Entry "systemd-cgroup" None ARG_NONE false, nothing_to);
   (Entry "version" (Some "v"%char) ARG_NONE false, flag_to set_g_version);
   (Entry "help" (Some "h"%char) ARG_NONE false, flag_to set_g_help);
   (Entry "shim-path" None ARG_STRING false, string_to set_g_shim);
   (Entry "proxy-socket-path" None ARG_STRING false, string_to set_g_proxy_socket)].

Section main.
Context `{GL : GLib} `{BD : Build} `{RF : RecvFuel} `{NF : NlFuel} `{QF : QmpFuel} `{EF : EventsFuel} `{PK : Package}.
Context `{OP : OptionParser}.

Definition setup_logging (options : cc_log_options) : io (bool * cstr) := cc_oci_log_init options.

Definition global_paths (g : globals) : StartPaths :=
  {| start_proxy_socket_path := g_proxy_socket_path g; start_shim_path := g_shim_path g |}.

(** What is set up before a command, as its privileges allow: success and the
    directory for the hypervisor's output. *)
Definition command_setup (g : globals) (priv_level : Z) : io (bool * cstr) :=
  uid ← (if bool_decide (priv_level = 1) then call_ Cgetuid else mret 0 : io Z);
  if bool_decide (uid <> 0) then mret (false, None)
  else if bool_decide (0 <= priv_level) then
    '(ok, dir) ← setup_logging (g_log g);
    if negb (ok : bool) then _ ← call_ (Cstderr ("failed to setup logging" +:+ newline)); mret (false, None)
    else mret (true, dir)
  else mret (true, None).

(** The choice and the run of a command. *)
Definition run_command (g : globals) (config : cc_oci_config) (argv : list string) : io bool :=
  match argv with
  | [] => handler_help "help" start_data_zero config argv
  | cmd :: _ =>
      let find (dir : cstr) := get_subcmd (SP := global_paths g) (HL := dir) cmd in
      let config := match g_root_dir g with Some d => set_root_dir (Some d) config | None => config end in
      match find None with
      | None => _ ← call_ (Cg_print ("no such command: " +:+ cmd +:+ newline)); mret false
      | Some sub =>
          priv_level ← cc_oci_get_priv_level argv (sub_name sub) config;
          '(ok, dir) ← command_setup g priv_level;
          match ok : bool, find dir with
          | true, Some sub => handle_sub_commands argv sub config
          | _, _ => mret false
          end
      end
  end.

Definition handle_arguments (argv : list string) : io bool :=
  match g_option_context_parse (fst <$> options_global) true false argv with
  | ParseError | ParseHelp _ => mret false
  | Parsed opts argv =>
      match assign_all options_global opts globals_zero with
      | None => mret false
      | Some g =>
          _ ← (if g_show_help g then call_ (Cg_print (g_option_context_get_help (fst <$> options_global))) else mret 0 : io Z);
          let o := g_log g in
          let g := if g_streq (g_format g) (Some "json")
                   then set_g_log (LogOptions (enable_debug o) (filename o) (global_logfile o) (opt_hypervisor_log_dir o) true) g
                   else g in
          if g_show_version g then handler_version "version" start_data_zero cc_oci_config_create []
          else run_command g cc_oci_config_create (tail argv)
      end
  end.

Definition cc_oci_handle_signals : io bool := r ← call_ (Csigaction SIGPIPE); mret (negb (bool_decide (r < 0))).

Definition main (argv : list string) : io unit :=
  ok ← cc_oci_handle_signals;
  ret ← (if ok : bool then handle_arguments argv else mret false : io bool);
  Halt (Exited (if ret : bool then 0 else 1)).
End main.

(** ** What a user without privileges can cause *)

(** Asking who the user is, and telling them something. *)
Definition harmless (e : event) : Prop :=
  match e with
  | Ev (Cg_print _) _ | Ev (Cstderr _) _ | Ev (Caccess _) _ | Ev Cerrno _ | Ev Cgetuid _ => True
  | _ => False
  end.

Section privileges.
Context `{GL : GLib} `{BD : Build} `{SP : StartPaths} `{RF : RecvFuel} `{NF : NlFuel} `{HL : HypervisorLogs} `{QF : QmpFuel}.
Context `{EF : EventsFuel} `{PK : Package} `{OP : OptionParser}.

(** The user is root, or may write to the directory given for the runtime's
    files or, to create it, to its parent. *)
Definition grants (root : cstr) (e : event) : Prop :=
  match e with
  | Ev Cgetuid r => r = 0
  | Ev (Caccess p) r => r = 0 /\ exists d, root = Some d /\ (p = d \/ p = g_path_get_dirname d)
  | _ => False
  end.

Definition permitted (root : cstr) (tr : list event) : Prop :=
  Forall harmless tr \/
  exists pre post, tr = pre ++ post /\ Forall harmless pre /\ Exists (grants root) pre.

(** A command that only describes something. *)
Definition describes (argv : list string) (name : string) : Prop :=
  name = "help" \/ name = "version" \/ exists cmd h rest, argv = cmd :: h :: rest /\ (h = "--help" \/ h = "-h").

Lemma permitted_app root pre tr : Forall harmless pre -> permitted root tr -> permitted root (pre ++ tr).
Proof.
  intros Hp [H|(p & q & -> & Hf & He)]; [left; by apply Forall_app|].
  right. exists (pre ++ p), q. rewrite app_assoc. split; [done|]. split; [by apply Forall_app|]. apply Exists_app. by right.
Qed.

Lemma granted_app root pre tr : Forall harmless pre -> Exists (grants root) pre -> permitted root (pre ++ tr).
Proof. intros Hp He. right. by exists pre, tr. Qed.

Lemma safe_permitted {A} root (m : io A) : safe harmless m -> wp m (fun tr _ => permitted root tr).
Proof. intros H. eapply wp_mono; [exact H|]. by left. Qed.

Lemma safe_with_usage argv name n extra k :
  (exists h rest, argv = h :: rest /\ (h = "--help" \/ h = "-h")) -> safe harmless (with_usage argv name n extra k).
Proof.
  intros (h & rest & -> & Hh). unfold with_usage, handle_default_usage. rewrite !g_streq_lit.
  assert (bool_decide (h = "--help") || bool_decide (h = "-h") = true) as -> by (by destruct Hh as [-> | ->]).
  solve_safe done.
Qed.

(** What a command asked for help does. *)
Definition help_harmless (sub : subcommand) : Prop :=
  forall cmd h rest config, h = "--help" \/ h = "-h" -> safe harmless (handle_sub_commands (cmd :: h :: rest) sub config).

Lemma help_harmless_options name table f :
  Forall (fun e => short_name e <> Some "h"%char) (fst <$> table) -> help_harmless (Subcommand name (Some table) f).
Proof.
  intros Hs cmd h rest config Hh. unfold handle_sub_commands. cbn [sub_options].
  destruct (g_option_help_spec (fst <$> table) false cmd h rest Hh Hs) as [text ->]. solve_safe done.
Qed.

Lemma safe_usage : safe harmless usage.
Proof. unfold usage. solve_safe done. Qed.

Lemma safe_version : safe harmless show_version.
Proof. unfold show_version. solve_safe done. Qed.

Lemma subcommands_help : Forall help_harmless subcommands.
Proof.
  pose proof safe_usage. pose proof safe_version.
  repeat constructor; try (apply help_harmless_options; cbn; repeat constructor; discriminate);
    intros cmd h rest config Hh; unfold handle_sub_commands; cbn [sub_options sub_handler sub_name tail];
    (* the handlers without options start with the usage *)
    first [apply safe_with_usage; by eexists _, _
          |solve [unfold handler_help, handler_version; solve_safe done]].
Qed.

Lemma subcommands_describe :
  Forall (fun sub => sub_name sub = "help" \/ sub_name sub = "version" ->
    forall argv config, argv <> [] -> safe harmless (handle_sub_commands argv sub config)) subcommands.
Proof.
  pose proof safe_usage. pose proof safe_version.
  repeat constructor; cbn [sub_name]; intros [[=]|[=]] [|a argv] config Ha; try done;
    cbn; unfold handler_help, handler_version; solve_safe done.
Qed.

Lemma get_subcmd_in cmd sub : get_subcmd cmd = Some sub -> sub ∈ subcommands /\ cmd = sub_name sub.
Proof.
  unfold get_subcmd. destruct (list_find _ subcommands) as [[i s]|] eqn:E; [|done]. intros [= <-].
  apply list_find_Some in E as (Hl & Hn & _). rewrite g_streq_lit in Hn. apply bool_decide_unpack in Hn.
  split; [by eapply list_elem_of_lookup_2|done].
Qed.

Lemma safe_describes cmd rest sub config :
  get_subcmd cmd = Some sub -> describes (cmd :: rest) (sub_name sub) ->
  safe harmless (handle_sub_commands (cmd :: rest) sub config).
Proof.
  intros [Hin _]%get_subcmd_in Hd. pose proof (proj1 (Forall_forall _ _) subcommands_help _ Hin) as Hh.
  pose proof (proj1 (Forall_forall _ _) subcommands_describe _ Hin) as Hn.
  destruct Hd as [Hd|[Hd|(c & h & r & [= <- ->] & Hd)]]; auto; (apply Hn; [auto|done]).
Qed.
End privileges.

Section unprivileged.
Context `{GL : GLib} `{BD : Build} `{RF : RecvFuel} `{NF : NlFuel} `{QF : QmpFuel} `{EF : EventsFuel} `{PK : Package}.
Context `{OP : OptionParser}.

(** The directory given by the global options. *)
Definition root_given (argv : list string) : cstr :=
  match g_option_context_parse (fst <$> options_global) true false argv with
  | Parsed opts _ => assign_all options_global opts globals_zero ≫= g_root_dir
  | _ => None
  end.

Lemma wp_priv_level argv name config :
  wp (cc_oci_get_priv_level argv name config) (fun tr o => Forall harmless tr /\
    exists l, o = Done l /\ ((l = -1 /\ describes argv name) \/ l = 1 \/ (l = 0 /\ Exists (grants (root_dir config)) tr))).
Proof.
  unfold cc_oci_get_priv_level. rewrite !g_streq_lit.
  destruct (bool_decide (name = "help") || bool_decide (name = "version")) eqn:En.
  { apply wp_ret. split; [constructor|]. eexists. split; [done|]. left. split; [done|].
    apply orb_prop in En as [En|En]; apply bool_decide_eq_true_1 in En; [by left|right; by left]. }
  destruct (match argv with _ :: a :: _ => _ | _ => false end) eqn:Ea.
  { apply wp_ret. split; [constructor|]. eexists. split; [done|]. left. split; [done|]. right; right.
    destruct argv as [|cmd [|h rest]]; [done..|]. rewrite !g_streq_lit in Ea. exists cmd, h, rest. split; [done|].
    apply orb_prop in Ea as [Ea|Ea]; apply bool_decide_eq_true_1 in Ea; auto. }
  clear En Ea. destruct (root_dir config) as [d|]; [|apply wp_ret; split; [constructor|]; eexists; split; [done|]; right; by left].
  wp_step. intros r. case_bool_decide as Hr.
  { apply wp_ret. split; [by repeat constructor|]. eexists. split; [done|]. right; right. split; [done|].
    constructor. split; [done|]. exists d. auto. }
  wp_step. intros e. case_bool_decide; [|apply wp_ret; split; [by repeat constructor|]; eexists; split; [done|]; right; by left].
  wp_step. intros r2. case_bool_decide; (split; [by repeat constructor|]; eexists; split; [done|]).
  - right; right. split; [done|]. do 2 apply Exists_cons_tl. constructor. split; [done|]. exists d. auto.
  - right; by left.
Qed.

(** What follows the question for the user's id. *)
Lemma wp_command_setup root g (k : bool * cstr -> io bool) :
  (forall dir, safe harmless (k (false, dir))) ->
  wp (command_setup g 1 ≫= k) (fun tr _ => permitted root tr).
Proof.
  intros Hk. apply wp_bind. unfold command_setup. rewrite (bool_decide_eq_true_2 (1 = 1)) by done. wp_step.
  intros r. case_bool_decide as Hr.
  - apply wp_ret. eapply wp_mono; [apply Hk|]. intros tr o Ht. left. by constructor.
  - rewrite wp_exec. intros tr [a|f] _;
      [rewrite wp_exec; intros tr' o' _|]; right; exists [Ev Cgetuid r]; eexists;
      (split; [done|]; split; [by repeat constructor|by constructor]).
Qed.

Lemma permitted_run_command g config argv :
  root_dir config = None ->
  wp (run_command g config argv) (fun tr _ => permitted (g_root_dir g) tr).
Proof.
  intros Hc. unfold run_command. destruct argv as [|cmd rest].
  { pose proof safe_usage. apply safe_permitted. unfold handler_help. solve_safe done. }
  set (config' := match g_root_dir g with Some d => _ | None => _ end).
  assert (root_dir config' = g_root_dir g) as Hroot by (unfold config'; destruct (g_root_dir g); done).
  destruct (get_subcmd cmd) as [sub|] eqn:Es; [|wp_step; intros r; left; by repeat constructor].
  apply wp_bind. eapply wp_mono; [apply wp_priv_level|]. rewrite Hroot. intros tr1 o (H1 & l & -> & Hl).
  destruct Hl as [[-> Hd]|[->|[-> Hg]]].
  - change (command_setup g (-1)) with (mret (true, None) : io (bool * cstr)). cbn -[get_subcmd handle_sub_commands].
    rewrite Es. eapply wp_mono; [by apply (safe_describes cmd rest sub config' Es)|]. intros tr o Ht. left. by apply Forall_app.
  - eapply wp_mono; [apply (wp_command_setup (g_root_dir g)); intros dir; apply safe_ret|].
    intros tr o. by apply permitted_app.
  - rewrite wp_exec. intros tr o _. by apply granted_app.
Qed.

(** C14.  A user without privileges changes nothing.  Whatever the arguments,
    before the runtime does anything but print and ask about the user, it
    has found that the user is root, or that the user may write to the
    directory given with --root or, where that does not exist, to its parent.
    Commands that only describe something (help, version, or any command asked
    for its help) do nothing but print. *)
Theorem unprivileged_harmless argv tr o :
  exec (handle_arguments argv) tr o -> permitted (root_given argv) tr.
Proof.
  revert tr o. apply wp_exec. unfold handle_arguments, root_given.
  destruct (g_option_context_parse _ _ _ argv) as [|text|opts rest]; [by left; constructor..|].
  destruct (assign_all options_global opts globals_zero) as [g|]; [|by left; constructor]. cbn [option_bind mbind].
  apply wp_bind. eapply wp_mono; [refine (_ : safe harmless _); solve_safe done|].
  intros tr1 [r|f] H1; [|by left]. set (g' := if g_streq _ _ then _ else _).
  assert (g_root_dir g' = g_root_dir g) as Hr by (unfold g'; by destruct (g_streq _ _)).
  destruct (g_show_version g').
  - pose proof safe_version. eapply wp_mono; [apply (safe_permitted (g_root_dir g)); unfold handler_version; solve_safe done|].
    intros tr o. by apply permitted_app.
  - rewrite <- Hr. eapply wp_mono; [by apply permitted_run_command|]. intros tr o. by apply permitted_app.
Qed.
End unprivileged.

(** ** Numbers of users and groups *)

Lemma fmt_d_free_signed c z : ascii_is_digit c = false -> c <> "-"%char -> str_free c (fmt_d z).
Proof.
  intros Hd Hm. destruct z as [|p|p]; [by apply fmt_d_free..|].
  change (fmt_d (Z.neg p)) with (String "-"%char (fmt_d (Z.pos p))). constructor; [done|]. by apply fmt_d_free.
Qed.

Section users.
Context `{GL : GLib}.

(** C15.  A user and a group given by their numbers, each of which fits in 64 bits
    with its sign, are accepted exactly if neither is negative, and are then cut to 32 bits: numbers below 2^32 are
    those of the process, and larger ones are taken modulo 2^32. *)
Theorem option_user_numbers uid gid v :
  LONG_MIN <= uid <= LONG_MAX -> LONG_MIN <= gid <= LONG_MAX ->
  handle_option_user (StringValue (fmt_d uid +:+ ":" +:+ fmt_d gid)) v =
    (if bool_decide (uid < 0 \/ gid < 0) then None else Some (set_sd_user (User (uid mod 2 ^ 32) (gid mod 2 ^ 32)) v)) /\
  (0 <= uid < 2 ^ 32 -> uid mod 2 ^ 32 = uid).
Proof.
  intros Hu Hg. destruct (strtoll_fmt_d uid Hu) as [Eu Lu], (strtoll_fmt_d gid Hg) as [Eg Lg].
  assert (fmt_d gid <> EmptyString) as Hne by (intros E; rewrite E in Lg; cbn in Lg; lia).
  split; [|intros ?; by apply Z.mod_small].
  unfold handle_option_user. rewrite (g_strsplit_step ":"%char (fmt_d uid) (fmt_d gid) 2); [|lia| |done].
  2:{ by apply fmt_d_free_signed. }
  rewrite g_strsplit_last by auto. rewrite !g_ascii_strtoll_spec, Eu, Eg. cbn [st_end st_num].
  rewrite !bool_decide_eq_false_2 by lia. cbn [option_bind mbind]. done.
Qed.
End users.

(** ** Witnesses and examples *)

#[local] Existing Instance glib_ref.
#[local] Instance cmd_build : Build := {| LOCALSTATEDIR := "/var"; SYSCONFDIR := "/etc"; DEFAULTSDIR := "/usr/share/defaults"; LIBEXECDIR := "/usr/libexec" |}.
#[local] Instance cmd_fuel : RecvFuel := 9%nat.
#[local] Instance cmd_nl_fuel : NlFuel := 9%nat.
#[local] Instance cmd_qmp_fuel : QmpFuel := 9%nat.
#[local] Instance cmd_events_fuel : EventsFuel := 9%nat.
#[local] Instance cmd_package : Package := {| PACKAGE_NAME := "cc-oci-runtime"; PACKAGE_VERSION := "2"; GIT_COMMIT := "0" |}.

Lemma option_user_numbers_witness :
  handle_option_user (StringValue "1000:100") start_data_zero = Some (set_sd_user (User 1000 100) start_data_zero) /\
  handle_option_user (StringValue "4294967296:0") start_data_zero = Some (set_sd_user (User 0 0) start_data_zero).
Proof.
  assert (forall z, (LONG_MIN <=? z) && (z <=? LONG_MAX) = true -> LONG_MIN <= z <= LONG_MAX) as H
    by (intros z [?%Z.leb_le ?%Z.leb_le]%andb_prop; done).
  split.
  - exact (proj1 (option_user_numbers 1000 100 start_data_zero (H 1000 eq_refl) (H 100 eq_refl))).
  - exact (proj1 (option_user_numbers 4294967296 0 start_data_zero (H 4294967296 eq_refl) (H 0 eq_refl))).
Defined.

(** A parser of options: long options with their value after an equals sign or
    in the next argument, and short ones. *)
Definition option_given (e : option_entry) (value : cstr) (rest : list string) : option (option_value * list string) :=
  let val s := match arg e with ARG_INT => IntValue (atoi s) | _ => StringValue s end in
  match arg e, value, rest with
  | ARG_NONE, _, _ => Some (NoValue, rest)
  | _, Some s, _ => Some (val s, rest)
  | _, None, s :: rest => if optional_arg e then Some (NoValue, s :: rest) else Some (val s, rest)
  | _, None, [] => if optional_arg e then Some (NoValue, []) else None
  end.

Definition find_option (entries : list option_entry) (a : string) : option (option_entry * cstr) :=
  if String.prefix "--" a then
    let name := str_drop 2 a in
    let '(name, value) := match strstr name "=" with
                          | Some i => (str_take i name, Some (str_drop (S i) name))
                          | None => (name, None)
                          end in
    (fun e => (e.2, value)) <$> list_find (fun e => long_name e = name) entries
  else
    match str_drop 1 a with
    | String c s =>
        (fun e => (e.2, if str_nonempty s then Some s else None)) <$> list_find (fun e => short_name e = Some c) entries
    | EmptyString => None
    end.

Fixpoint parse_args (fuel : nat) (entries : list option_entry) (posix help : bool) (args : list string) : parse_result :=
  match fuel, args with
  | O, _ => ParseError
  | _, [] => Parsed [] []
  | S fuel, a :: rest =>
      if help && bool_decide (a = "--help" \/ a = "-h") then ParseHelp "help"
      else if negb (String.prefix "-" a) then
        if posix then Parsed [] args
        else match parse_args fuel entries posix help rest with
             | Parsed opts l => Parsed opts (a :: l)
             | r => r
             end
      else
        match find_option entries a with
        | None => ParseError
        | Some (e, value) =>
            match option_given e value rest with
            | None => ParseError
            | Some (x, rest) =>
                match parse_args fuel entries posix help rest with
                | Parsed opts l => Parsed ((long_name e, x) :: opts) l
                | r => r
                end
            end
        end
  end.

#[local] Instance option_parser_ref : OptionParser.
Proof.
  refine {|
  g_option_context_parse entries posix help argv :=
    match argv with
    | [] => ParseError
    | prog :: args =>
        match parse_args (S (length args)) entries posix help args with
        | Parsed opts l => Parsed opts (prog :: l)
        | r => r
        end
    end;
  g_option_context_get_help entries := String.concat newline (long_name <$> entries)
|}.
  intros entries posix prog h rest Hh _. destruct Hh as [-> | ->]; exists "help"; reflexivity.
Defined.

(** The files and processes of the container c1, for the user of the state. *)
Definition user_world : handler Z := fun c w =>
  match c return reply c * Z with
  | Cgetuid => (w, w)
  | Caccess p => (if decide (p = "/home") then 0 else -1, w)
  | Cerrno => (ENOENT, w)
  | Cjson_load p => (Some (Some state_example), w)
  | Cg_file_set_contents _ _ => (true, w)
  | Cg_file_test _ _ => (true, w)
  | Ckill _ _ => (0, w)
  | Cg_print _ | Cstderr _ | Csigaction _ => (0, w)
  | c => (fail_reply c, w)
  end.

Definition killed_by (uid : Z) (argv : list string) : list event * outcome bool :=
  run_tr user_world (handle_arguments argv) uid.


Definition kill_argv (options : list string) : list string := ["cc"] ++ options ++ ["kill"; "c1"; "TERM"].

Lemma unprivileged_harmless_witness :
  snd (killed_by 1000 (kill_argv ["--root"; "/home/cc"])) = Done true /\
  permitted (Some "/home/cc") (fst (killed_by 1000 (kill_argv ["--root"; "/home/cc"]))) /\
  permitted None (fst (killed_by 1000 (kill_argv []))).
Proof.
  split; [vm_compute; reflexivity|].
  assert (root_given (kill_argv ["--root"; "/home/cc"]) = Some "/home/cc") as <- by (vm_compute; reflexivity).
  assert (root_given (kill_argv []) = None) as <- by (vm_compute; reflexivity). split.
  - apply (unprivileged_harmless (kill_argv ["--root"; "/home/cc"]) _ (snd (killed_by 1000 (kill_argv ["--root"; "/home/cc"])))).
    unfold killed_by. apply run_tr_exec. vm_compute. reflexivity.
  - apply (unprivileged_harmless (kill_argv []) _ (snd (killed_by 1000 (kill_argv [])))).
    unfold killed_by. apply run_tr_exec. vm_compute. reflexivity.
Defined.

(** The same command of the user root and of another one. *)
Example kill_command :
  tr_map (fun e => match e with Ev (Ckill pid sig) _ => Some (pid, sig) | _ => None end)
    (fst (killed_by 0 ["cc"; "kill"; "c1"; "TERM"])) = [(41, SIGTERM)] /\
  killed_by 1000 ["cc"; "kill"; "c1"; "TERM"] = ([Ev Cgetuid 1000], Done false).
Proof. split; vm_compute; reflexivity. Qed.

(** A third argument makes the signal that was given ignored. *)
Example kill_third_argument : kill_signal ["KILL"; "x"] = Some SIGTERM /\ kill_signal ["KILL"] = Some SIGKILL.
Proof. split; vm_compute; reflexivity. Qed.

(** Without a container the events command prints its usage and succeeds. *)
Example events_without_container : snd (run_tr user_world (main ["cc"; "events"]) 0) = Fault (Exited 0).
Proof. vm_compute. reflexivity. Qed.

(** A checkpoint fails for every container, without looking for it. *)
Example checkpoint_never_finds : killed_by 0 ["cc"; "checkpoint"; "c1"] = ([Ev Cgetuid 0], Done false).
Proof. vm_compute. reflexivity. Qed.

(** A global request for help does not keep the command from running. *)
Example help_runs_command :
  snd (killed_by 0 ["cc"; "--help"; "kill"; "c1"]) = Done true.
Proof. vm_compute. reflexivity. Qed.

(** With a configuration file that cannot be parsed, a stop succeeds and has
    done nothing. *)
Definition no_config : handler Z := fun c w =>
  match c return reply c * Z with
  | Cjson_load p => (if decide (p = "/b/config.json") then None else Some (Some state_example), w)
  | c => user_world c w
  end.

Example stop_without_config :
  let '(tr, o) := run_tr no_config (handle_arguments ["cc"; "stop"; "c1"]) 0 in
  o = Done true /\ tr_map act tr = [] /\ last tr = Some (Ev (Cjson_load "/b/config.json") None).
Proof. vm_compute. repeat split. Qed.
