(* ===== verification/Sessions.v ===== *)
(** * The status of a container over its commands (src/src/oci.c, src/src/commands)

    Every command works on the state file of a container: it reads the status,
    decides, and records others.  The machine of this file says which statuses
    each command may record, from the status it finds; a sequence of commands
    that return is shown to follow it, as far as the file is read back as it was
    written and nobody else changes it. *)

From S2P Require Import Prelude GLib GLibRef Sys Types Util Json Namespace Semver Config SpecHandlers Mount State Status Wire Networking Proxy Qmp Hypervisor Logging Process Launch Lifecycle Events Commands.

(** ** The machine *)

(** What a command is, as far as its effect on the status depends on it: for a
    run, whether its configuration has no path of a state file yet, which is
    so at the start of the program; for a kill, whether the container is the
    sandbox of a pod. *)
Inductive label := LCreate | LStart | LRun (clean : bool) | LKill (sandbox : bool) | LPause | LResume | LStop | LOther.

#[export] Instance label_eq : EqDecision label.
Proof. solve_decision. Defined.

(** The status in the state file; [None] when there is no file. *)
Abbreviation fstatus := (option oci_status).

(** The state file is removed, or not. *)
Abbreviation removals := (Forall (eq (@None oci_status))).
Abbreviation creations := (Forall (eq (Some OCI_STATUS_CREATED))).

(** The status after some changes. *)
Definition ends (s : fstatus) (hs : list fstatus) : fstatus := default s (last hs).

(** What a command makes of the file, one after the other, from a status.
    Nothing, or:
    - a create records created;
    - a start records running, from created, and may remove the file at the
      end of an interactive container;
    - a run records created, and once created stands in the file, running;
    - a kill of a sandbox records stopped at once;
    - any other kill records stopping, and after that stopped, or the status
      there was before;
    - a pause records paused and a resume running, from any other status;
    - a stop or delete removes the file. *)
Inductive moves : label -> fstatus -> list fstatus -> Prop :=
| MNone l s : moves l s []
| MCreate s hs : creations hs -> moves LCreate s hs
| MStart rm : removals rm -> moves LStart (Some OCI_STATUS_CREATED) (Some OCI_STATUS_RUNNING :: rm)
| MRun clean s hs : creations hs -> moves (LRun clean) s hs
| MRunStart (clean : bool) s hs rm :
    creations hs -> removals rm -> (clean = true -> ends s hs = Some OCI_STATUS_CREATED) ->
    moves (LRun clean) s (hs ++ Some OCI_STATUS_RUNNING :: rm)
| MKillSandbox s : moves (LKill true) (Some s) [Some OCI_STATUS_STOPPED]
| MKillStopping s : moves (LKill false) (Some s) [Some OCI_STATUS_STOPPING]
| MKillNotSent s : moves (LKill false) (Some s) [Some OCI_STATUS_STOPPING; Some s]
| MKill s : moves (LKill false) (Some s) [Some OCI_STATUS_STOPPING; Some OCI_STATUS_STOPPED]
| MPause s : s <> OCI_STATUS_PAUSED -> moves LPause (Some s) [Some OCI_STATUS_PAUSED]
| MResume s : s <> OCI_STATUS_RUNNING -> moves LResume (Some s) [Some OCI_STATUS_RUNNING]
| MStop s hs : removals hs -> moves LStop s hs.

(** The changes a sequence of commands may make. *)
Inductive path : list label -> fstatus -> list fstatus -> Prop :=
| PNil s : path [] s []
| PCons l ls s hs hs' : moves l s hs -> path ls (ends s hs) hs' -> path (l :: ls) s (hs ++ hs').

(** ** An invariant of the machine *)

(** Neither running nor about to. *)
Definition over (s : fstatus) : Prop := s <> Some OCI_STATUS_CREATED /\ s <> Some OCI_STATUS_RUNNING.

(** Commands that may bring a container to life again. *)
Definition revives (l : label) : Prop := l = LCreate \/ l = LRun true \/ l = LRun false \/ l = LResume.

Lemma over_moves l s hs : moves l s hs -> ~ revives l -> over s -> Forall over hs.
Proof.
  unfold revives. intros Hm Hl Hs. assert (forall rm, removals rm -> Forall over rm) as Hrm.
  { intros rm H. eapply Forall_impl; [exact H|]. by intros ? <-. }
  destruct Hm as [| | |[]|[]| | | | | | |]; try tauto; auto; [by destruct Hs as [[] _]|..];
    repeat (apply Forall_cons; split; [first [done|by split]|]); apply Forall_nil; done.
Qed.

Lemma over_path ls s hs : path ls s hs -> Forall (fun l => ~ revives l) ls -> over s -> Forall over hs.
Proof.
  induction 1 as [|l ls s hs hs' Hm _ IH]; intros Hl Hs; [constructor|]. apply Forall_cons in Hl as [Hl Hls].
  pose proof (over_moves _ _ _ Hm Hl Hs) as Ho. apply Forall_app. split; [done|]. apply IH; [done|].
  unfold ends. destruct (last hs) as [s'|] eqn:E; [|done]. rewrite Forall_forall in Ho. by apply Ho, last_Some_elem_of.
Qed.

(** ** The state file *)

Section file.
Context `{GL : GLib} `{BD : Build} `{SP : StartPaths} `{RF : RecvFuel} (sf : string).

(** What an event makes of the file: a new text, or nothing. *)
Definition effect (e : event) : option cstr :=
  match e with
  | Ev (Cg_file_set_contents p t) r => if decide (p = sf) then if r then Some (Some t) else None else None
  | Ev (Cg_unlink p) r => if decide (p = sf /\ r = 0) then Some None else None
  | _ => None
  end.

Abbreviation changes := (tr_map effect).

(** The file is read as it was written: a read fails, or gives the document
    whose text the file has. *)
Definition sees (c : cstr) (e : event) : Prop :=
  match e with
  | Ev (Cjson_load p) r =>
      p = sf ->
      match c with
      | None => r = None
      | Some t =>
          r = None \/ forall m, t = json_generator_to_data (JObject m) true -> json_ok (JObject m) -> r = Some (Some (JObject m))
      end
  | _ => True
  end.

Definition after (c : cstr) (e : event) : cstr := default c (effect e).

Fixpoint faithful (c : cstr) (tr : list event) : Prop :=
  match tr with [] => True | e :: tr => sees c e /\ faithful (after c e) tr end.

(** The documents written can be read back, see [json_ok]. *)
Definition readable (t : string) : Prop :=
  forall m, t = json_generator_to_data (JObject m) true -> json_ok (JObject m).

Definition writes_readable (e : event) : Prop := forall t, effect e = Some (Some t) -> readable t.

(** The text of the file has this status. *)
Definition holds (c : cstr) (s : fstatus) : Prop :=
  match c, s with
  | None, None => True
  | Some t, Some s => records s t /\ readable t
  | _, _ => False
  end.

(** The changes of a trace have these statuses. *)
Definition shows (tr : list event) (hs : list fstatus) : Prop := Forall2 holds (changes tr) hs.

(** What a command that returns does to the file is a move of the machine, from
    a status and from any one. *)
Definition tracks_from (l : label) (s : fstatus) (tr : list event) : Prop :=
  forall c, holds c s -> faithful c tr -> Forall writes_readable tr -> exists hs, shows tr hs /\ moves l s hs.

Definition follows_from {A} (l : label) (s : fstatus) (m : io A) : Prop :=
  wp m (fun tr o => forall a, o = Done a -> tracks_from l s tr).

Definition follows {A} (l : label) (m : io A) : Prop := forall s, follows_from l s m.

(** *** Traces *)

Lemma shows_app tr1 tr2 h1 h2 : shows tr1 h1 -> shows tr2 h2 -> shows (tr1 ++ tr2) (h1 ++ h2).
Proof. unfold shows. rewrite tr_map_app. apply Forall2_app. Qed.

Abbreviation spares := (safe (fun e => effect e = None)).

Lemma faithful_app c tr1 tr2 :
  faithful c (tr1 ++ tr2) <-> faithful c tr1 /\ faithful (default c (last (changes tr1))) tr2.
Proof.
  revert c. induction tr1 as [|e tr1 IH]; intros c; cbn [app faithful tr_map]; [by cbn; tauto|].
  rewrite IH. unfold after. destruct (effect e) as [c'|]; cbn [default]; [|tauto].
  rewrite last_cons. destruct (last (changes tr1)); cbn [default]; tauto.
Qed.

Lemma tracks_none l s tr : changes tr = [] -> tracks_from l s tr.
Proof. intros H c _ _ _. exists []. unfold shows. rewrite H. split; constructor. Qed.

Lemma tracks_from_app l s tr1 tr2 :
  changes tr1 = [] -> (forall c, holds c s -> faithful c tr1 -> tracks_from l s tr2) -> tracks_from l s (tr1 ++ tr2).
Proof.
  intros H1 H2 c Hc [Hf1 Hf2]%faithful_app [_ Hw]%Forall_app. rewrite H1 in Hf2.
  destruct (H2 c Hc Hf1 c Hc Hf2 Hw) as (hs & Hs & Hm). exists hs. split; [|done]. by apply (shows_app _ _ []); [unfold shows; rewrite H1|].
Qed.

Lemma spares_follows {A} l (m : io A) : spares m -> follows l m.
Proof. intros H s. eapply wp_mono; [exact H|]. intros tr o Ht%tr_map_quiet a _. by apply tracks_none. Qed.

(** Parts of a command that change nothing. *)
Lemma spares_post_then {A B} l s (R : A -> Prop) (m : io A) (k : A -> io B) :
  spares m -> post R m -> (forall a, R a -> follows_from l s (k a)) -> follows_from l s (m ≫= k).
Proof.
  intros Hm Hr Hk. apply wp_bind. rewrite wp_exec. intros tr o He.
  pose proof (tr_map_quiet _ _ (safe_exec _ _ _ _ Hm He)) as Ht. destruct o as [a|f]; [|by intros ? [=]].
  eapply wp_mono; [exact (Hk a (post_exec _ _ _ _ Hr He))|]. intros tr' o H b Ho.
  apply tracks_from_app; [done|]. intros _ _ _. by eapply H.
Qed.

Lemma spares_then {A B} l s (m : io A) (k : A -> io B) :
  spares m -> (forall a, follows_from l s (k a)) -> follows_from l s (m ≫= k).
Proof. intros Hm Hk. apply (spares_post_then _ _ (fun _ => True)); [done|apply wp_exec; by intros ? []|by intros]. Qed.

Lemma then_spares {A B} l s (m : io A) (k : A -> io B) :
  follows_from l s m -> (forall a, spares (k a)) -> follows_from l s (m ≫= k).
Proof.
  intros Hm Hk. apply wp_bind. eapply wp_mono; [exact Hm|]. intros tr [a|f] Ht; [|by intros ? [=]].
  eapply wp_mono; [apply Hk|]. intros tr' o Ht'%tr_map_quiet b _ c Hc [Hf _]%faithful_app [Hw _]%Forall_app.
  destruct (Ht a eq_refl c Hc Hf Hw) as (hs & Hs & Hm'). exists hs. split; [|done].
  rewrite <- (app_nil_r hs). apply shows_app; [done|]. unfold shows. by rewrite Ht'.
Qed.

Lemma act_effect e : act e = None -> effect e = None.
Proof. by destruct e as [[] v]. Qed.

Lemma quiet_spares {A} (m : io A) : quiet m -> spares m.
Proof. intros H. by eapply safe_mono, act_effect. Qed.

(** *** Actions *)

(** What actions may have made of the file. *)
Inductive effects : list action -> list cstr -> Prop :=
| ENil : effects [] []
| EWrite t l h : effects l h -> effects (AWrite sf t true :: l) (Some t :: h)
| EUnlink l h : effects l h -> effects (AUnlink sf :: l) (None :: h)
| EOther a l h : (forall t, a <> AWrite sf t true) -> effects l h -> effects (a :: l) h.

Lemma effects_changes tr : effects (tr_map act tr) (changes tr).
Proof.
  induction tr as [|e tr IH]; [constructor|].
  destruct e as [[] v]; cbn [tr_map act effect]; try exact IH; try (by apply EOther).
  - case_decide as H; [destruct H as [-> _]; by constructor|by apply EOther].
  - case_decide as H; [subst|by apply EOther; [intros ? [=]|]]. destruct v; [by constructor|by apply EOther].
Qed.

Lemma effects_app l1 l2 h : effects (l1 ++ l2) h -> exists h1 h2, h = h1 ++ h2 /\ effects l1 h1 /\ effects l2 h2.
Proof.
  revert h. induction l1 as [|a l1 IH]; intros h; cbn; [exists [], h; split_and!; [done|constructor|done]|].
  inversion 1 as [|t l h' H'|l h' H'|a' l h' Ha H']; subst; destruct (IH _ H') as (h1 & h2 & -> & H1 & H2).
  - exists (Some t :: h1), h2. split_and!; [done|by constructor|done].
  - exists (None :: h1), h2. split_and!; [done|by constructor|done].
  - exists h1, h2. split_and!; [done|by constructor|done].
Qed.

Lemma effects_write p t ok l h :
  effects (AWrite p t ok :: l) h ->
  (exists h', h = Some t :: h' /\ p = sf /\ ok = true /\ effects l h') \/ ((p <> sf \/ ok = false) /\ effects l h).
Proof.
  inversion 1 as [|t' l' h' H'|l' h' H'|a' l' h' Ha H']; subst; [left; by eexists|]. right. split; [|done].
  destruct (decide (p = sf)) as [->|]; [|by left]. right. destruct ok; [|done]. by destruct (Ha t).
Qed.

(** Actions that leave the file alone, and actions that at most remove it. *)
Definition inert (a : action) : Prop := match a with AWrite p _ _ => p <> sf | AUnlink _ => False | _ => True end.
Definition removes (a : action) : Prop := match a with AWrite p _ _ => p <> sf | _ => True end.

Lemma effects_inert l h : Forall inert l -> effects l h -> h = [].
Proof. intros Hl. induction 1 as [|t l h H IH|l h H IH|a l h Ha H IH]; inversion Hl; subst; (done || auto). Qed.

Lemma effects_removes l h : Forall removes l -> effects l h -> Forall (eq None) h.
Proof. intros Hl. induction 1 as [|t l h H IH|l h H IH|a l h Ha H IH]; inversion Hl; subst; try done; auto. Qed.

(** *** From what was done to the moves *)

Definition texts_readable (h : list cstr) : Prop := Forall (fun c => forall t, c = Some t -> readable t) h.

Lemma changes_readable tr : Forall writes_readable tr -> texts_readable (changes tr).
Proof.
  induction 1 as [|e tr He _ IH]; [constructor|]. cbn. destruct (effect e) as [c|] eqn:E; [|done].
  constructor; [|done]. intros t ->. by apply He.
Qed.

(** What a command did makes it a move. *)
Lemma tracks_from_acts l s tr :
  (forall h, effects (tr_map act tr) h -> texts_readable h -> exists hs, Forall2 holds h hs /\ moves l s hs) ->
  tracks_from l s tr.
Proof. intros H c _ _ Hw. apply H; [apply effects_changes|by apply changes_readable]. Qed.

Lemma holds_removals h : Forall (eq None) h -> exists rm, Forall2 holds h rm /\ removals rm.
Proof. induction 1 as [|c h <- _ (rm & H1 & H2)]; [exists []; by split; constructor|]. exists (None :: rm). by split; constructor. Qed.

Lemma holds_records s t h : texts_readable (Some t :: h) -> records s t -> holds (Some t) (Some s).
Proof. intros H%Forall_inv Ht. split; [done|]. by apply H. Qed.

Lemma effects_recorded s acts ok h :
  recorded sf s acts ok -> effects acts h -> texts_readable h ->
  (h = [] /\ ok = false) \/ (exists t, h = [Some t] /\ ok = true /\ holds (Some t) (Some s)).
Proof.
  intros [[-> ->]|(t & Ht & ->)] He Hr; [inversion He; by left|].
  apply effects_write in He as [(h' & -> & _ & -> & He)|[Hn He]]; inversion He; subst.
  - right. exists t. split_and!; try done. by eapply holds_records.
  - left. split; [done|]. by destruct Hn.
Qed.

Lemma kill_moves config pid sig tr ret s' h :
  state_path config = sf -> kill_spec config pid sig tr ret s' -> effects (tr_map act tr) h -> texts_readable h ->
  exists hs, Forall2 holds h hs /\ moves (LKill false) (Some (status (state config))) hs.
Proof.
  assert (forall tr1 r tr2 h, recorded sf OCI_STATUS_STOPPING (tr_map act tr1) true ->
    effects (tr_map act (tr1 ++ Ev (Ckill pid sig) r :: tr2)) h -> texts_readable h ->
    exists t h', h = Some t :: h' /\ effects (tr_map act tr2) h' /\ texts_readable h' /\
      holds (Some t) (Some OCI_STATUS_STOPPING)) as Hfirst.
  { intros tr1 r tr2 h0 (t & Ht & Ha)%recorded_true He Hr. rewrite tr_map_app, Ha in He.
    apply effects_write in He as [(h' & -> & _ & _ & He)|[[|] _]]; [|done..].
    inversion He; subst. exists t, h'. split_and!; try done; [by apply Forall_inv_tail in Hr|by eapply holds_records]. }
  intros Hsf Hk He Hr. destruct Hk as [tr Ha|tr1 r tr2 ok H1 Hn Ha|tr1 r tr2 H1 Hn Ha|tr1 r tr2 tr3 ok H1 Hn Hv Ha]; rewrite Hsf in *.
  - destruct (effects_recorded _ _ _ _ Ha He Hr) as [[-> _]|(t & _ & [=] & _)]. exists []. split; constructor.
  - destruct (Hfirst _ _ _ _ H1 He Hr) as (t & h' & -> & He' & Hr' & Hh).
    destruct (effects_recorded _ _ _ _ Ha He' Hr') as [[-> _]|(t' & -> & _ & Ht')];
      eexists; (split; [by repeat constructor|constructor]).
  - destruct (Hfirst _ _ _ _ H1 He Hr) as (t & h' & -> & He' & Hr' & Hh).
    rewrite (asks_vm_quiet _ _ _ _ Ha) in He'. inversion He'; subst.
    eexists; (split; [by repeat constructor|constructor]).
  - destruct (Hfirst _ _ _ _ H1 He Hr) as (t & h' & -> & He' & Hr' & Hh).
    rewrite tr_map_app, (asks_vm_quiet _ _ _ _ Hv) in He'.
    destruct (effects_recorded _ _ _ _ Ha He' Hr') as [[-> _]|(t' & -> & _ & Ht')];
      eexists; (split; [by repeat constructor|constructor]).
Qed.

Lemma cleans_removes acts : cleans acts -> Forall removes acts.
Proof.
  intros (ms & rest & -> & Hm & Hr). apply Forall_app. split.
  - eapply Forall_impl; [exact Hm|]. by intros a (p & ok & ->).
  - destruct Hr as [->|(p & ->)]; by repeat constructor.
Qed.

Lemma hooks_inert path stop l tr : ran_hooks path stop l tr -> Forall inert (tr_map act tr).
Proof. intros (n & ->)%ran_hooks_starts. apply Forall_fmap, Forall_true. done. Qed.

Lemma start_moves hs tr ret h :
  start_spec sf hs tr ret -> effects (tr_map act tr) h -> texts_readable h ->
  exists st, Forall2 holds h st /\ moves LStart (Some OCI_STATUS_CREATED) st /\
    (st = [] \/ exists rm, removals rm /\ st = Some OCI_STATUS_RUNNING :: rm).
Proof.
  intros [tr1 Ha|tr1 t trh tr2 ret' Ht Ha Hl Hc] He Hr.
  - destruct (effects_recorded _ _ _ _ Ha He Hr) as [[-> _]|(t & _ & [=] & _)]. exists []. split_and!; [constructor..|by left].
  - rewrite !tr_map_app, Ha in He. apply effects_write in He as [(h' & -> & _ & _ & He)|[[|] _]]; [|done..].
    apply effects_app in He as (h1 & h2 & -> & H1 & H2). rewrite (effects_inert _ _ (hooks_inert _ _ _ _ Hl) H1) in *.
    destruct (holds_removals _ (effects_removes _ _ (cleans_removes _ Hc) H2)) as (rm & Hrm & Hnone).
    exists (Some OCI_STATUS_RUNNING :: rm). split_and!; [constructor; [by eapply holds_records|done]|by constructor|].
    right. by exists rm.
Qed.

(** Actions that at most record the container as created. *)
Definition creates (a : action) : Prop :=
  match a with AWrite p t _ => p = sf -> records OCI_STATUS_CREATED t | AUnlink _ => False | _ => True end.

Lemma effects_creates l h :
  Forall creates l -> effects l h -> texts_readable h -> exists st, Forall2 holds h st /\ creations st.
Proof.
  intros Hl. induction 1 as [|t l h H IH|l h H IH|a l h Ha H IH]; inversion Hl; subst; intros Hr; try done; auto.
  - exists []. split; constructor.
  - destruct IH as (st & Hs1 & Hs2); [done|by apply Forall_inv_tail in Hr|].
    exists (Some OCI_STATUS_CREATED :: st). split; constructor; try done. eapply holds_records; eauto.
Qed.

Lemma launch_creates pf hs w tr w' ret : launch_did sf pf hs w tr w' ret -> pf <> Some sf -> Forall creates (tr_map act tr).
Proof.
  intros H Hpf. assert (forall l b, starts_hooks hs l b -> Forall creates l) as Hh.
  { intros l b (n & ->). apply Forall_fmap, Forall_true. done. }
  assert (forall vm shim t ok, records OCI_STATUS_CREATED t -> Forall creates [AFork vm; AFork shim; AWrite sf t ok]) as Hw
    by (intros; repeat (apply Forall_cons; split; [first [done|by intros _]|]); apply Forall_nil; done).
  destruct H as [tr H|tr vm H|tr vm shim _ H|tr vm shim t _ _ Ht H|tr trh vm shim t ret _ _ Ht H Hl|tr trh tr' vm shim t ret _ _ Ht H Hl Htl];
    rewrite ?tr_map_app, H; try (by repeat constructor); try by apply Hw.
  - apply Forall_app. split; [by apply Hw|by eapply Hh].
  - apply Forall_app. split; [by apply Hw|]. apply Forall_app. split; [by eapply Hh, ran_hooks_starts|].
    destruct Htl as [|fd ok|fd t2 ok Ht2|fd t2 p pid ok Ht2 E]; repeat (apply Forall_cons; split; [first [done|by intros _]|]); try (by apply Forall_nil).
    apply Forall_singleton. intros ->. by rewrite E in Hpf.
Qed.
End file.

(** ** Programs all of whose actions satisfy a predicate *)

Definition acts {A} (P : action -> Prop) (m : io A) : Prop := wp m (fun tr _ => Forall P (tr_map act tr)).

Lemma acts_bind {A B} P (m : io A) (k : A -> io B) : acts P m -> (forall a, acts P (k a)) -> acts P (m ≫= k).
Proof.
  intros Hm Hk. apply wp_bind. eapply wp_mono; [exact Hm|]. intros tr [a|f] Htr; [|done].
  eapply wp_mono; [apply Hk|]. intros tr' o Htr'. rewrite tr_map_app. by apply Forall_app.
Qed.

Lemma acts_quiet {A} P (m : io A) : quiet m -> acts P m.
Proof. intros H. eapply wp_mono; [exact H|]. intros tr o Ht%tr_map_quiet. by rewrite Ht. Qed.

(** ... and all of whose results do. *)
Definition runs {A} (P : action -> Prop) (R : A -> Prop) (m : io A) : Prop := acts P m /\ post R m.

Lemma runs_bind {A B} P (S : A -> Prop) (R : B -> Prop) (m : io A) (k : A -> io B) :
  runs P S m -> (forall a, S a -> runs P R (k a)) -> runs P R (m ≫= k).
Proof.
  intros [Hm Hr] Hk. split; [|eapply post_bind; [exact Hr|apply Hk]]. apply wp_bind. rewrite wp_exec. intros tr [a|f] He.
  - eapply wp_mono; [exact (proj1 (Hk _ (post_exec _ _ _ _ Hr He)))|]. intros tr' o Htr'. rewrite tr_map_app. apply Forall_app.
    split; [|done]. exact (proj1 (wp_exec _ _) Hm _ _ He).
  - exact (proj1 (wp_exec _ _) Hm _ _ He).
Qed.

Lemma runs_ret {A} P (R : A -> Prop) a : R a -> runs P R (mret a).
Proof. intros H. split; [constructor|done]. Qed.

Lemma runs_mono {A} P (R R' : A -> Prop) (m : io A) : runs P R m -> (forall a, R a -> R' a) -> runs P R' m.
Proof. intros [Ha Hr] H. split; [done|]. eapply wp_mono; [apply Hr|]. intros tr []; [apply H|done]. Qed.

Lemma runs_quiet {A} P (R : A -> Prop) (m : io A) : quiet m -> post R m -> runs P R m.
Proof. intros Hq Hr. split; [by apply acts_quiet|done]. Qed.

Lemma runs_quiet_then {A B} P (R : B -> Prop) (m : io A) (k : A -> io B) :
  quiet m -> (forall a, runs P R (k a)) -> runs P R (m ≫= k).
Proof. intros Hq Hk. split; [apply acts_bind; [by apply acts_quiet|apply Hk]|apply post_any, Hk]. Qed.

Lemma runs_steps {V} P (I : V -> Prop) l v :
  I v -> Forall (fun s => forall v, I v -> runs P (fun r => I r.2) (s v)) l -> runs P I (steps l v).
Proof.
  intros Hv Hl. revert v Hv. induction Hl as [|s l Hs _ IH]; intros v Hv; [by apply runs_ret|]. cbn [steps].
  eapply runs_bind; [by apply Hs|]. intros [[] v'] Hv'; [by apply IH|by apply runs_ret].
Qed.

(** ** The commands *)

#[local] Opaque c_buf.

Section commands_follow.
Context `{GL : GLib} `{BD : Build} `{SP : StartPaths} `{RF : RecvFuel} `{NF : NlFuel} `{HL : HypervisorLogs} `{QF : QmpFuel}.
Context `{EF : EventsFuel} `{PK : Package} `{OP : OptionParser}.
Context (root : cstr) (id : string).

(** The directory and the state file of the container. *)
Definition container_dir : string := c_buf PATH_MAX (default CC_OCI_RUNTIME_DIR_PREFIX root +:+ "/" +:+ id).
Definition container_file : string := c_buf PATH_MAX (container_dir +:+ "/" +:+ CC_OCI_STATE_FILE).

Abbreviation sf := container_file.
Abbreviation changes := (tr_map (effect sf)).
Abbreviation spares := (safe (fun e => effect sf e = None)).

Definition of_container (c : cc_oci_config) : Prop := optarg_container_id c = Some id /\ root_dir c = root.
Definition located (c : cc_oci_config) : Prop := runtime_path (state c) = container_dir.

(** The documents read from the state file. *)
Definition loaded (e : event) : option json :=
  match e with
  | Ev (Cjson_load p) r => if decide (p = sf) then match r with Some (Some doc) => Some doc | _ => None end else None
  | _ => None
  end.

(** Whether the container is the sandbox of a pod, by the state file that was
    read first, or, if that says nothing of a pod, by the configuration. *)
Definition sandbox_seen (config : cc_oci_config) (tr : list event) : bool :=
  match tr_map loaded tr with
  | [] => false
  | doc :: _ =>
      match state_of_tree (GNode None (cc_oci_json_parse_aux doc false)) with
      | Done (Some st) => match s_pod st with Some p => sandbox p | None => cc_pod_is_sandbox config end
      | _ => false
      end
  end.

(** Which of the labels a command of the table has. *)
Definition label_of (name : string) (config : cc_oci_config) (tr : list event) : label :=
  if decide (name = "create") then LCreate
  else if decide (name = "start") then LStart
  else if decide (name = "run") then LRun (negb (str_nonempty (state_file_path (state config))))
  else if decide (name = "kill") then LKill (sandbox_seen config tr)
  else if decide (name = "pause") then LPause
  else if decide (name = "resume") then LResume
  else if decide (name = "stop" \/ name = "delete") then LStop
  else LOther.

Lemma located_path c : located c -> state_path c = sf.
Proof. unfold state_path. by intros ->. Qed.

(** What was read is the status of the file. *)
Lemma read_status c s doc name st :
  holds c s -> sees sf c (Ev (Cjson_load sf) (Some (Some doc))) ->
  state_of_tree (GNode name (cc_oci_json_parse_aux doc false)) = Done (Some st) -> s = Some (s_status st).
Proof.
  intros Hc Hs Hst. specialize (Hs eq_refl). destruct c as [t|]; [|done]. destruct s as [s|]; [|done].
  destruct Hc as [(m & -> & _ & <-) Hr], Hs as [|Hs]; [done|]. specialize (Hs m eq_refl (Hr m eq_refl)).
  injection Hs as ->. by rewrite (read_doc_status _ _ _ Hst).
Qed.

Lemma wp_state_file_read f :
  wp (cc_oci_state_file_read (Some f)) (fun tr o => changes tr = [] /\
    forall st, o = Done (Some st) -> exists doc name, tr = [Ev (Cjson_load f) (Some (Some doc))] /\
      state_of_tree (GNode name (cc_oci_json_parse_aux doc false)) = Done (Some st)).
Proof.
  unfold cc_oci_state_file_read, cc_oci_json_parse. destruct (str_nonempty f); cbn [negb]; [|by split].
  intros [[doc|]|]; [|by split..]. cbn. destruct (state_of_tree _) as [[st|]|] eqn:E; [|by split..].
  split; [done|]. intros st' [= <-]. by eexists _, _.
Qed.

Lemma wp_get_config_and_state config :
  of_container config ->
  wp (cc_oci_get_config_and_state config) (fun tr o => changes tr = [] /\
    forall file st c', o = Done (Some (file, st), c') ->
      located c' /\ status (state c') = s_status st /\ pod c' = pod config /\
      exists doc name, tr = [Ev (Cjson_load sf) (Some (Some doc))] /\
        state_of_tree (GNode name (cc_oci_json_parse_aux doc false)) = Done (Some st)).
Proof.
  intros [Hid Hr]. unfold cc_oci_get_config_and_state, cc_oci_runtime_path_get. rewrite Hid, Hr. fold container_dir.
  unfold cc_oci_state_file_get. cbn [state set_state runtime_path set_runtime_path]. fold container_file.
  destruct (str_nonempty container_dir); cbn [negb]; [|by split]. apply wp_bind.
  eapply wp_mono; [apply wp_state_file_read|]. intros tr [[st|]|f] [Ht Hread]; [|apply wp_ret; rewrite app_nil_r; by split|by split].
  case_match; apply wp_ret; rewrite app_nil_r; [|by split]. split; [done|]. intros file st' c' [= <- <- <-].
  split_and!; [by repeat case_match|by repeat case_match|by repeat case_match|]. by apply Hread.
Qed.

(** A command that starts by reading the state. *)
Lemma follows_read {A} l config (k : option (string * oci_state) * cc_oci_config -> io A) :
  of_container config -> (forall c, follows sf l (k (None, c))) ->
  (forall file st c, located c -> status (state c) = s_status st ->
     follows_from sf l (Some (s_status st)) (k (Some (file, st), c))) ->
  follows sf l (cc_oci_get_config_and_state config ≫= k).
Proof.
  intros Hc Hnone Hsome s. apply wp_bind. eapply wp_mono; [by apply wp_get_config_and_state|].
  intros tr [[[[file st]|] c]|f] [Ht Hf]; [| |by intros ? [=]].
  - destruct (Hf _ _ _ eq_refl) as (Hl & Hs & _ & doc & name & -> & Hst).
    eapply wp_mono; [by apply Hsome|]. intros tr' o H a Ho. apply tracks_from_app; [done|].
    intros c0 Hh [Hsees _]. rewrite (read_status _ _ _ _ _ Hh Hsees Hst). by eapply H.
  - eapply wp_mono; [apply (Hnone c s)|]. intros tr' o H a Ho. apply tracks_from_app; [done|]. intros _ _ _. by eapply H.
Qed.

(** The usage message is no change. *)
Lemma follows_with_usage l argv name n extra k :
  (forall id' rest, argv = id' :: rest -> follows sf l (k id' rest)) -> follows sf l (with_usage argv name n extra k).
Proof.
  intros H s. unfold with_usage. apply spares_then; [unfold handle_default_usage; solve_safe done|].
  intros [ret|]; [by apply spares_follows, safe_ret|]. destruct argv as [|id' rest]; [by intros ? [=]|]. by apply H.
Qed.

(** *** Kill, pause, resume and start *)

(** What was done, from the status that was read. *)
Lemma wp_tracks {A} l s (m : io A) (R : list event -> A -> Prop) :
  wp m (fun tr o => forall a, o = Done a -> R tr a) ->
  (forall tr a h, R tr a -> effects sf (tr_map act tr) h -> texts_readable h -> exists hs, Forall2 holds h hs /\ moves l s hs) ->
  follows_from sf l s m.
Proof.
  intros Hm HR. eapply wp_mono; [exact Hm|]. intros tr o H a Ho. apply tracks_from_acts. intros h He Hr.
  by eapply HR; [apply H|..].
Qed.

Lemma kill_follows_from c st signum :
  located c -> status (state c) = s_status st ->
  follows_from sf (LKill (cc_pod_is_sandbox c)) (Some (s_status st)) (cc_oci_kill c st signum).
Proof.
  intros Hl Hs. rewrite <- Hs. destruct (cc_pod_is_sandbox c) eqn:Esb.
  - unfold cc_oci_kill. rewrite Esb. apply then_spares; [|intros []; apply safe_ret].
    apply (wp_tracks _ _ _ (fun tr r => recorded sf OCI_STATUS_STOPPED (tr_map act tr) r.1)).
    + eapply wp_mono; [apply wp_record_status|]. intros tr o (ok & cs & -> & _ & _ & Hrec & _) a [= <-].
      by rewrite (located_path c) in Hrec.
    + intros tr a h Ha He Ht. destruct (effects_recorded _ _ _ _ _ Ha He Ht) as [[-> _]|(t & -> & _ & Hh)];
        eexists; (split; [by repeat constructor|constructor]).
  - apply (wp_tracks _ _ _ (fun tr r => kill_spec c (s_pid st) signum tr r.1 (status (state r.2)))).
    + eapply wp_mono; [by apply act_kill|]. intros tr o H [ret c2] Ho. by apply H.
    + intros tr a h. by apply kill_moves, located_path.
Qed.

Lemma config_update_pod c st : pod (cc_oci_config_update c st).1 = match s_pod st with Some p => Some p | None => pod c end.
Proof.
  unfold cc_oci_config_update. destruct st as [? ? ? ? ? sock ? ? ms ? cs v p pd pr]. cbn.
  destruct ms, pr, (args _), cs, v, p, pd, sock; done.
Qed.

(** The label of a kill depends on what was read. *)
Lemma follows_kill name v config rest s :
  root_dir config = root ->
  wp (handler_kill name v config (id :: rest)) (fun tr o => forall a, o = Done a ->
    tracks_from sf (LKill (sandbox_seen config tr)) s tr).
Proof.
  intros Hr. unfold handler_kill, with_usage. apply wp_bind.
  assert (safe (fun e => effect sf e = None /\ loaded e = None) (handle_default_usage (id :: rest) name 1 (Some "[<signal>]"))) as Hu
    by (unfold handle_default_usage; solve_safe done).
  eapply wp_mono; [exact Hu|]. intros tr0 o H0.
  assert (changes tr0 = [] /\ tr_map loaded tr0 = []) as [Hc0 Hl0].
  { split; apply tr_map_quiet; (eapply Forall_impl; [exact H0|]); by intros e []. }
  destruct o as [[ret|]|]; [intros a _; rewrite app_nil_r; by apply tracks_none| |by intros ? [=]].
  destruct (kill_signal rest) as [signum|]; [|intros a _; rewrite app_nil_r; by apply tracks_none].
  apply wp_bind. eapply wp_mono; [by apply wp_get_config_and_state|].
  intros tr1 [[[[file st]|] c]|f] [Ht1 Hf]; [| |by intros ? [=]].
  2:{ intros a _. rewrite app_nil_r. apply tracks_none. by rewrite tr_map_app, Hc0, Ht1. }
  destruct (Hf _ _ _ eq_refl) as (Hl & Hs & Hp & doc & nm & -> & Hst). cbn [pod set_optarg_container_id] in Hp.
  pose proof (config_update_keeps c st) as (_ & _ & Hrt & Hs1 & Hs2). pose proof (config_update_pod c st) as Hpod.
  destruct (cc_oci_config_update c st) as [c1 st1]. cbn [fst snd] in *.
  apply wp_bind. eapply wp_mono; [apply (kill_follows_from c1 st1 signum); unfold located in *; congruence|].
  intros tr2 [[ret c2]|f] H2; [|by intros ? [=]]. apply wp_ret. rewrite app_nil_r. intros a _.
  assert (sandbox_seen config (tr0 ++ [Ev (Cjson_load sf) (Some (Some doc))] ++ tr2) = cc_pod_is_sandbox c1) as ->.
  { unfold sandbox_seen. rewrite tr_map_app, Hl0. cbn [app tr_map loaded]. rewrite decide_True by done.
    change (state_of_tree (GNode None ?l)) with (state_of_tree (GNode nm l)). rewrite Hst.
    unfold cc_pod_is_sandbox. rewrite Hpod, Hp. by destruct (s_pod st). }
  apply tracks_from_app; [done|]. intros c0 Hh _. apply tracks_from_app; [done|]. intros c0' Hh' [Hsees _].
  rewrite (read_status _ _ _ _ _ Hh' Hsees Hst), <- Hs2. by eapply H2.
Qed.

Lemma quiet_vm_toggle (pause : bool) b path pid : quiet ((if pause then cc_oci_vm_pause else cc_oci_vm_resume) b path pid).
Proof.
  assert (forall n fd k t r l, quiet (recv_loop n fd k t r l)) as Hr
    by (induction n; intros; cbn [recv_loop]; solve_quiet).
  destruct pause; unfold cc_oci_vm_pause, cc_oci_vm_resume, vm_toggle, cc_oci_vm_conn_new, cc_oci_qmp_check_welcome,
    cc_oci_qmp_pause, cc_oci_qmp_resume, cc_oci_qmp_msg_send, qmp_capabilities, cc_oci_qmp_msg_recv; solve_quiet.
Qed.

Lemma follows_toggle name config rest (pause : bool) :
  root_dir config = root ->
  follows sf (if pause then LPause else LResume) (handle_command_toggle name config (id :: rest) pause).
Proof.
  intros Hr. apply follows_with_usage. intros id' rest' [= <- <-].
  apply follows_read; [done|intros c; by apply spares_follows, safe_ret|]. intros file st c Hl Hs.
  pose proof (config_update_keeps c st) as (_ & _ & Hp & _ & Hst). destruct (cc_oci_config_update c st) as [c1 st1]. cbn [fst snd] in *.
  apply then_spares; [|intros []; solve_safe done]. unfold cc_oci_toggle. rewrite Hst.
  case_bool_decide as Hd; [by apply spares_follows, safe_ret|].
  apply spares_then; [apply quiet_spares, quiet_vm_toggle|]. intros [[] ?]; [|by apply spares_follows, safe_ret].
  apply (wp_tracks _ _ _ (fun tr r => recorded sf (if pause then OCI_STATUS_PAUSED else OCI_STATUS_RUNNING) (tr_map act tr) r.1)).
  - eapply wp_mono; [apply wp_record_status|]. intros tr o (ok & cs & -> & _ & _ & Hrec & _) a [= <-].
    by rewrite (located_path c1) in Hrec by (unfold located in *; congruence).
  - intros tr a h Ha He Ht. destruct (effects_recorded _ _ _ _ _ Ha He Ht) as [[-> _]|(t & -> & _ & Hh)];
      eexists; (split; [by repeat constructor|destruct pause; by constructor]).
Qed.

Lemma act_start_other bundle config st :
  s_status st <> OCI_STATUS_CREATED -> acts (inert sf) (cc_oci_start bundle config st).
Proof.
  intros Hs. unfold cc_oci_start. destruct (s_status st); try done; try (by constructor).
  apply acts_bind; [|constructor]. eapply wp_mono; [apply act_vm_running|]. intros tr o [[->|(pid & ->)] _]; by repeat constructor.
Qed.

Lemma start_follows_from bundle config st :
  located config -> follows_from sf LStart (Some (s_status st)) (cc_oci_start bundle config st).
Proof.
  intros Hl. destruct (decide (s_status st = OCI_STATUS_CREATED)) as [E|E].
  - rewrite E. apply (wp_tracks _ _ _ (fun tr r => start_spec sf (poststart (hooks (oci config))) tr r.1)).
    + eapply wp_mono; [by apply wp_start_created|]. intros tr o H [ret c2] Ho. rewrite <- (located_path config) by done. by eapply H.
    + intros tr a h H He Hr. destruct (start_moves _ _ _ _ _ H He Hr) as (hs & H1 & H2 & _). by exists hs.
  - eapply wp_mono; [by apply act_start_other|]. intros tr o Ha a _. apply tracks_none.
    exact (effects_inert _ _ _ Ha (effects_changes _ _)).
Qed.

Lemma follows_start name v config rest :
  root_dir config = root -> follows sf LStart (Commands.handler_start name v config (id :: rest)).
Proof.
  intros Hr. apply follows_with_usage. intros id' rest' [= <- <-].
  apply follows_read; [done|intros c; by apply spares_follows, safe_ret|]. intros file st c Hl Hs.
  pose proof (config_update_keeps c st) as (_ & _ & Hp & _ & Hst). destruct (cc_oci_config_update c st) as [c1 st1]. cbn [fst snd] in *.
  apply then_spares; [|intros []; apply safe_ret]. rewrite <- Hst. apply start_follows_from. unfold located in *. congruence.
Qed.

(** *** Stop *)

Lemma quiet_vm_section n c : quiet (vm_handle_section n c).
Proof.
  unfold vm_handle_section, handle_vm_section, handle_kernel_section, cc_oci_resolve_path, path_exists. solve_quiet.
Qed.

Lemma quiet_process_config l hs c st : quiet (process_config_nodes l hs c st).
Proof.
  pose proof quiet_vm_section.
  revert c st. induction l as [|n l IH]; intros c st; cbn [process_config_nodes]; [apply safe_ret|].
  case_match; [|apply IH]. destruct (List.find _ hs) as [h|]; [|apply IH].
  apply safe_bind; [|intros [[[] c1] st1]; [apply IH|apply safe_ret]].
  destruct h; cbn [handle_section]; unfold root_handle_section, handle_root_section, cc_oci_resolve_path; solve_quiet.
Qed.

Lemma acts_hooks (P : action -> Prop) l path b :
  (forall argv, P (AHook argv)) -> acts P (cc_run_hooks l path b).
Proof.
  intros HP. eapply wp_mono; [apply act_run_hooks|]. intros tr o (n & ->). apply Forall_fmap, Forall_true. intros argv. apply HP.
Qed.

Lemma acts_stop config st : acts (removes sf) (cc_oci_stop config st).
Proof.
  unfold cc_oci_stop. apply acts_bind.
  { eapply wp_mono; [apply act_vm_running|]. intros tr o [[->|(pid & ->)] _]; by repeat constructor. }
  intros running. apply acts_bind; [apply acts_quiet; solve_quiet|]. intros [ok c1]. case_match; [constructor|].
  destruct (cc_oci_config_update c1 st) as [c2 st2]. apply acts_bind; [apply acts_quiet; solve_quiet|]. intros [ok2 c3]. case_match; [constructor|].
  apply acts_bind; [by apply acts_hooks|]. intros _. apply acts_bind; [|constructor].
  eapply wp_mono; [apply act_cleanup|]. intros tr o [Hc _]. by apply cleans_removes.
Qed.

Lemma follows_stop name config argv : follows sf LStop (handle_command_stop name config argv).
Proof.
  assert (acts (removes sf) (handle_command_stop name config argv)) as Ha.
  { unfold handle_command_stop, with_usage, handle_default_usage. apply acts_bind; [apply acts_quiet; solve_quiet|].
    intros [ret|]; [constructor|]. case_match; [constructor|].
    apply acts_bind; [apply acts_quiet; unfold cc_oci_state_file_exists; solve_quiet|]. intros [ok c1]. case_match; [constructor|].
    apply acts_bind; [apply acts_quiet; solve_quiet|]. intros [[[file st]|] c2]; [|constructor].
    apply acts_bind; [apply acts_quiet; unfold cc_oci_json_parse; solve_quiet|]. intros [tree|]; [|constructor].
    apply acts_bind; [apply acts_quiet, quiet_process_config|]. intros [[ok2 c3] st3]. case_match; [constructor|].
    apply acts_bind; [apply acts_stop|]. intros [ret c4]. apply acts_quiet. solve_quiet. }
  intros s. eapply wp_mono; [exact Ha|]. intros tr o Ht a _. apply tracks_from_acts. intros h He Hr.
  destruct (holds_removals _ (effects_removes _ _ _ Ht He)) as (rm & H1 & H2). exists rm. split; [done|by constructor].
Qed.

(** *** Create and run *)

(** What parsing the configuration leaves alone. *)
Definition named (c c' : cc_oci_config) : Prop :=
  optarg_container_id c' = optarg_container_id c /\ root_dir c' = root_dir c /\ pid_file c' = pid_file c /\ state c' = state c.

#[local] Instance named_preorder : PreOrder named.
Proof. split; [done|]. intros c1 c2 c3 (? & ? & ? & ?) (? & ? & ? & ?). split_and!; congruence. Qed.

Lemma named_set_oci o c : named c (set_oci o c).
Proof. done. Qed.

Lemma named_annotations n c : named c (annotations_handle_section n c).2.
Proof.
  cbn. apply (fold_left_inv (named c)); [done|]. intros c1 x H1. etrans; [exact H1|].
  unfold handle_annotation, cc_pod_handle_annotations. by repeat case_match.
Qed.

Lemma named_vm_section n c : post (fun r => named c r.2) (vm_handle_section n c).
Proof. unfold vm_handle_section. solve_post ltac:(by cbn). Qed.

Lemma named_section h n c st : post (fun r => named c r.1.2) (handle_section h n c st).
Proof.
  destruct h; cbn [handle_section]; try apply post_ret.
  - apply named_annotations.
  - unfold hooks_handle_section; by repeat case_match.
  - unfold mounts_handle_section; by repeat case_match.
  - unfold platform_handle_section; by repeat case_match.
  - unfold process_handle_section. by repeat case_match; simplify_eq.
  - apply (post_bind (fun r => named c r.2)); [unfold root_handle_section; solve_post ltac:(by cbn)|by intros].
  - apply (post_bind (fun r => named c r.2)); [apply named_vm_section|by intros].
  - unfold linux_handle_section; by repeat case_match.
Qed.

Lemma named_process_config l hs c st : post (fun r => named c r.1.2) (process_config_nodes l hs c st).
Proof.
  revert c st. induction l as [|n l IH]; intros c st; cbn [process_config_nodes]; [done|].
  case_match; [|apply IH]. assert (named c (set_version_hostname n c)) as H1 by (unfold set_version_hostname; by repeat case_match).
  revert H1. generalize (set_version_hostname n c). intros c1 H1.
  destruct (List.find _ hs) as [h|]; [|eapply wp_mono; [apply IH|]; intros tr [r|]; [intros; by etrans|done]].
  eapply post_bind; [apply named_section|]. intros [[[] c2] st2] H2; [|by apply post_ret; etrans; [exact H1|exact H2]].
  eapply wp_mono; [apply IH|]. intros tr [r|]; [|done]. intros H3. etrans; [exact H1|]. etrans; [exact H2|exact H3].
Qed.

Lemma named_vm_from_file c : post (fun r => named c r.2) (get_spec_vm_from_cfg_file c).
Proof.
  unfold get_spec_vm_from_cfg_file. case_match; [done|]. do 2 (apply post_any; intros ?). repeat case_match; try done.
  eapply post_bind; [apply named_vm_section|]. by intros [? ?].
Qed.

Lemma named_file_parse c : post (fun r => named c r.2) (cc_oci_config_file_parse c).
Proof.
  unfold cc_oci_config_file_parse. repeat case_match; try done. apply post_any; intros [cwd|]; [|done].
  apply post_any; intros r. case_match; [done|]. apply post_any; intros tree.
  apply (post_bind (fun r => named c r.2)); [|intros [? ?] Hn; by apply post_any].
  case_match; [|done]. eapply post_bind; [apply named_process_config|]. intros [[ok c1] st1] Hn. case_match; [done|].
  eapply wp_mono; [apply named_vm_from_file|]. intros tr [a|]; [|done]. intros Hn2. etrans; [exact Hn|exact Hn2].
Qed.

(** Before the runtime directory is set up, and after. *)
Definition placed (c : cc_oci_config) : Prop :=
  of_container c /\ pid_file c <> Some sf /\ str_nonempty (runtime_path (state c)) = false.

Lemma placed_named c c' : named c c' -> placed c -> placed c'.
Proof. unfold placed, of_container. intros (-> & -> & -> & ->). done. Qed.

Lemma located_dir_setup c :
  placed c -> post (fun r => r.1 = true -> located r.2 /\ pid_file r.2 = pid_file c /\
    state_file_path (state r.2) = state_file_path (state c)) (cc_oci_runtime_dir_setup c).
Proof.
  intros ([Hid Hr] & _ & He). unfold cc_oci_runtime_dir_setup. rewrite He. unfold cc_oci_runtime_path_get. rewrite Hid, Hr.
  solve_post ltac:(by intros _).
Qed.

Lemma located_mounts c : post (fun r => state r.2 = state c /\ pid_file r.2 = pid_file c) (cc_oci_handle_mounts c).
Proof. unfold cc_oci_handle_mounts. solve_post ltac:(by cbn). Qed.

Lemma quiet_handle_mounts c : quiet (cc_oci_handle_mounts c).
Proof.
  assert (forall n p, quiet (first_parent_created n p)) as Hp
    by (induction n; intros; cbn [first_parent_created]; solve_quiet).
  assert (forall d dry l, quiet (handle_mounts_loop d dry l)) as Hl.
  { induction l as [|m l IH]; cbn [handle_mounts_loop]; unfold handle_mount_one, mount_at, cc_oci_perform_mount; solve_quiet. }
  unfold cc_oci_handle_mounts. solve_quiet.
Qed.

Lemma quiet_ns_setup c : quiet (cc_oci_ns_setup c).
Proof.
  assert (forall l, quiet (ns_setup_loop l)) as Hl by (induction l; cbn [ns_setup_loop]; unfold ns_setup_one; solve_quiet).
  unfold cc_oci_ns_setup. solve_quiet.
Qed.

Lemma quiet_vm_from_file c : quiet (get_spec_vm_from_cfg_file c).
Proof. pose proof quiet_vm_section. unfold get_spec_vm_from_cfg_file, cc_oci_json_parse. cbv zeta. solve_quiet. Qed.

Lemma quiet_file_parse c : quiet (cc_oci_config_file_parse c).
Proof.
  pose proof quiet_process_config. pose proof quiet_vm_from_file.
  unfold cc_oci_config_file_parse, cc_oci_json_parse, cc_oci_process_config. solve_quiet.
Qed.

(** *** Where the state file is *)

Lemma filed_shim_launch c iw : post (fun r => filed c r.1.2) (cc_shim_launch c iw).
Proof. unfold cc_shim_launch. solve_post ltac:(by split; [|left]). Qed.

Lemma filed_state_create c t : post (fun r => filed c r.2) (cc_oci_state_file_create c t).
Proof.
  unfold cc_oci_state_file_create, write_state_file, cc_oci_state_file_get.
  repeat case_match; simplify_eq; try (by split; [|left]); try (by split; [|right]).
Qed.

Lemma filed_disconnect c : post (fun r => filed c r.2) (disconnect c).
Proof. unfold disconnect. solve_post ltac:(by apply filed_same). Qed.

Lemma filed_feed_shim c ret f : post (fun r => filed c r.1.2) (feed_shim c ret f).
Proof. unfold feed_shim. solve_post ltac:(by apply filed_same). Qed.

Lemma filed_network_discover c h : post (fun r => filed c r.2) (cc_oci_network_discover c h).
Proof.
  unfold cc_oci_network_discover. apply post_any. intros [l|]; [|by apply filed_same]. apply post_any. intros i.
  apply (post_bind (fun r => filed c r.2)).
  - unfold netlink_get_routes. solve_post ltac:(by apply filed_same).
  - intros [ok c'] H. apply post_ret. exact H.
Qed.

Lemma filed_vm_args_get c e : post (fun r => filed c r.2) (cc_oci_vm_args_get c e).
Proof.
  unfold cc_oci_vm_args_get. do 2 (apply post_any; intros ?). case_match; [|by apply filed_same].
  apply (post_bind (fun r => filed c r.2)); [|by intros [] ?].
  unfold cc_oci_expand_cmdline, expand_with. solve_post ltac:(by apply filed_same).
Qed.

Lemma post_steps {V} (I : V -> Prop) l v :
  I v -> Forall (fun s => forall v, I v -> post (fun r => I r.2) (s v)) l -> post I (steps l v).
Proof.
  intros Hv Hl. revert v Hv. induction Hl as [|s l Hs _ IH]; intros v Hv; [done|]. cbn [steps].
  eapply post_bind; [by apply Hs|]. intros [[] v'] Hv'; [by apply IH|done].
Qed.

Lemma filed_launch_steps net ts c :
  Forall (fun s => forall v, filed c (l_config v) -> post (fun r => filed c (l_config r.2)) (s v)) (launch_steps net ts).
Proof.
  unfold launch_steps. rewrite !Forall_cons. split_and!; [..|constructor]; intros v Hv.
  - unfold launch_pipes. solve_post ltac:(by cbn).
  - unfold launch_hypervisor. solve_post ltac:(by cbn).
  - unfold launch_shim. eapply post_bind; [apply filed_shim_launch|]. intros [[ok c'] f] H. apply post_ret. by etrans.
  - unfold launch_state. eapply post_bind; [apply filed_state_create|]. intros [ok c'] H. apply post_ret. by etrans.
  - unfold launch_prestart. by apply post_any.
  - unfold launch_network, cc_oci_vm_netcfg_get, child_failed. case_match; [done|]. apply post_any. intros [h|]; [|by apply post_any].
    eapply post_bind; [apply filed_network_discover|]. intros [ok c'] Hc. case_match; [by apply post_any|].
    apply post_any. intros [ok' h']. case_match; [by apply post_any|]. apply post_ret. by etrans.
  - unfold launch_args. eapply post_bind; [apply filed_vm_args_get|]. intros [a c'] H. assert (filed c c') by by etrans.
    case_match; [|done]. by apply post_any.
  - unfold launch_check_child. solve_post ltac:(by cbn).
  - unfold launch_pod. solve_post ltac:(by cbn).
  - unfold launch_feed_shim. eapply post_bind; [apply filed_feed_shim|]. intros [[[go ret] c'] f] H. apply post_ret. by etrans.
  - unfold launch_state. eapply post_bind; [apply filed_state_create|]. intros [ok c'] H. apply post_ret. by etrans.
  - unfold launch_finish. eapply post_bind; [apply filed_disconnect|]. intros [ok c'] H. assert (filed c c') by by etrans.
    case_match; [by apply post_any|done].
Qed.

Lemma filed_launch c : post (fun r => filed c r.2) (cc_oci_vm_launch c).
Proof.
  assert (forall b v, filed c (l_config v) -> post (fun r => filed c r.2) (launch_out b v)) as Ho
    by (intros; unfold launch_out; do 9 (apply post_any; intros _); done).
  unfold cc_oci_vm_launch. do 2 (apply post_any; intros ?). case_match; [|apply Ho; by apply filed_same].
  case_match; [|by split; [|left]]. apply post_any. intros [ok p]. case_match; [by split; [|left]|].
  apply (post_bind (fun v => filed c (l_config v))); [|intros w Hw; by apply Ho].
  apply post_steps; [by split; [|left]|apply filed_launch_steps].
Qed.

Lemma filed_pod_create c : post (fun r => filed c r.2) (cc_pod_container_create c).
Proof.
  unfold cc_pod_container_create. repeat case_match; try (by apply filed_same). apply post_any. intros [time|]; [|by apply filed_same].
  apply (post_bind (fun v => filed c (p_config v))); [apply post_steps; [by split; [|left]|]|].
  2:{ intros v Hv. do 3 (apply post_any; intros _). exact Hv. }
  rewrite !Forall_cons. split_and!; [..|constructor]; intros v Hv.
  - unfold pod_connect. solve_post ltac:(by cbn).
  - unfold pod_shim. eapply post_bind; [apply filed_shim_launch|]. intros [[ok c'] f] Hk. apply post_ret. by etrans.
  - unfold pod_pidfile. solve_post ltac:(by cbn).
  - unfold pod_feed_shim. eapply post_bind; [apply filed_feed_shim|]. intros [[[go ret] c'] f] Hk. apply post_ret. by etrans.
  - unfold pod_state. eapply post_bind; [apply filed_state_create|]. intros [ok c'] Hk. apply post_ret. by etrans.
  - unfold pod_disconnect. eapply post_bind; [apply filed_disconnect|]. intros [ok c'] Hk. apply post_ret. by etrans.
Qed.

(** *** What a creation writes *)

(** The steps of a container of a pod write its pid file and its state. *)
Lemma runs_pod_steps p time c1 :
  state_path c1 = sf -> pid_file c1 <> Some sf -> status (state c1) = OCI_STATUS_CREATED ->
  Forall (fun s => forall v, same c1 (p_config v) -> runs (creates sf) (fun r => same c1 (p_config r.2)) (s v))
    [pod_connect p; pod_shim; pod_pidfile; pod_feed_shim; pod_state time; pod_disconnect].
Proof.
  intros Hsf1 Hpf1 Hs1. rewrite !Forall_cons. split_and!; [..|constructor]; intros v Hv.
  - apply runs_quiet; unfold pod_connect; [solve_quiet|solve_post ltac:(by cbn)].
  - unfold pod_shim. split.
    + apply acts_bind; [|intros [[] ?]; constructor]. eapply wp_mono; [apply wp_shim_launch|]. intros tr o H.
      assert (exists w w' go, forks_pid w (tr_map act tr) go w') as (w & w' & go & [[-> _]|[-> _]])
        by (destruct o as [[[? ?] ?]|]; [destruct H as [H _]|destruct H as [? H]]; by eexists _, _, _); by repeat constructor.
    + eapply post_bind; [apply post_shim_launch|]. intros [[ok c2] f] H2. apply post_ret. by etrans.
  - split; [|unfold pod_pidfile; solve_post ltac:(by cbn)]. destruct Hv as [(Hp & _) _].
    unfold pod_pidfile, cc_oci_create_pidfile. rewrite Hp. destruct (pid_file c1) as [f|]; [|constructor].
    repeat case_match; try by constructor. intros r. constructor; [|constructor]. intros ->. done.
  - unfold pod_feed_shim. split.
    + apply acts_bind; [|intros [[[] ?] ?]; constructor]. eapply wp_mono; [apply act_feed_shim|]. intros tr o H.
      assert (exists go, feeds_shim (tr_map act tr) go) as [go [[-> _]|(fd & ok & -> & _)]]
        by (destruct o as [[[[? ?] ?] ?]|]; by eexists); by repeat constructor.
    + eapply post_bind; [apply post_feed_shim|]. intros [[[ok ret] c2] f] [H2 _]. apply post_ret. by etrans.
  - unfold pod_state. split.
    + apply acts_bind; [|intros []; constructor]. destruct Hv as [_ Hs].
      eapply wp_mono; [apply wp_state_file_create|]. intros tr o (ok & c2 & _ & _ & [[-> _]|(t & Ht & ->)] & _); [constructor|].
      constructor; [|constructor]. intros _. by rewrite <- Hs1, <- Hs.
    + eapply post_bind; [apply post_state_file_create|]. intros [ok c2] [H2 _]. apply post_ret. by etrans.
  - apply runs_quiet; [unfold pod_disconnect, disconnect; solve_quiet|].
    unfold pod_disconnect. eapply post_bind; [apply post_disconnect|]. intros [ok c2] [H2 _]. apply post_ret. by etrans.
Qed.

(** A configuration whose file is the container's, or which has the path it
    came with. *)
Definition at_file (f : string) (c : cc_oci_config) : Prop :=
  located c /\ (state_file_path (state c) = f \/ state_file_path (state c) = sf).

Lemma at_file_filed c c' : located c -> filed c c' -> at_file (state_file_path (state c)) c'.
Proof. intros Hl [Hr Hf]. split; [exact (eq_trans Hr Hl)|]. by rewrite <- (located_path c). Qed.

Lemma runs_pod_create c :
  located c -> pid_file c <> Some sf -> runs (creates sf) (fun r => at_file (state_file_path (state c)) r.2) (cc_pod_container_create c).
Proof.
  intros Hl Hpf. split; [|eapply wp_mono; [apply filed_pod_create|]; intros tr [r|]; [by apply at_file_filed|done]].
  enough (runs (creates sf) (fun _ => True) (cc_pod_container_create c)) as [H _] by exact H.
  unfold cc_pod_container_create. destruct (pod c) as [p|]; [|by apply runs_ret].
  destruct (proxy c); [|by apply runs_ret]. apply runs_quiet_then; [solve_quiet|]. intros [time|]; [|by apply runs_ret].
  set (c1 := set_state (set_status OCI_STATUS_CREATED (state c)) c).
  eapply runs_bind; [apply (runs_steps _ (fun v => same c1 (p_config v))); [done|by apply runs_pod_steps; [apply located_path|..]]|].
  intros v _. do 3 (apply runs_quiet_then; [solve_quiet|intros _]). by apply runs_ret.
Qed.

Lemma runs_launch c :
  located c -> pid_file c <> Some sf -> runs (creates sf) (fun r => at_file (state_file_path (state c)) r.2) (cc_oci_vm_launch c).
Proof.
  intros Hl Hpf. split; [|eapply wp_mono; [apply filed_launch|]; intros tr [r|]; [by apply at_file_filed|done]].
  eapply wp_mono; [apply act_launch|]. intros tr [[ret c']|f]; unfold launch_spec; rewrite (located_path c Hl).
  - intros (_ & tr1 & tr2 & -> & Hla & Hk). rewrite tr_map_app. apply Forall_app. split; [by eapply launch_creates|].
    destruct Hk as [->|(-> & _)]; [|constructor]. unfold launch_kills. case_match; by repeat constructor.
  - intros (w & ret & Hla). by eapply launch_creates.
Qed.

(** A container that was created is where it was placed. *)
Lemma runs_create c :
  placed c -> runs (creates sf) (fun r => r.1 = true -> at_file (state_file_path (state c)) r.2) (cc_oci_create c).
Proof.
  intros Hc. unfold cc_oci_create. eapply runs_bind; [apply runs_quiet; [apply quiet_file_parse|apply named_file_parse]|].
  intros [ok c1] Hn. assert (state c1 = state c) as Est by apply Hn. rewrite <- Est.
  apply (placed_named _ _ Hn) in Hc. cbn [snd] in Hc. clear Hn Est. case_match; [by apply runs_ret|].
  apply runs_quiet_then; [unfold of_outcome; solve_quiet|]. intros ok2. case_match; [by apply runs_ret|].
  eapply runs_bind; [apply runs_quiet; [unfold cc_oci_runtime_dir_setup; solve_quiet|by apply located_dir_setup]|].
  intros [[] c2] Hl; cbn [negb]; [|apply runs_quiet; [solve_quiet|solve_post ltac:(by cbn)]].
  destruct (Hl eq_refl) as (Hl2 & Hp2 & Hf2). cbn [snd] in Hl2, Hp2, Hf2.
  apply runs_quiet_then; [apply quiet_ns_setup|]. intros ok3. case_match; [by apply runs_ret|].
  eapply runs_bind; [apply runs_quiet; [apply quiet_handle_mounts|apply located_mounts]|].
  intros [ok4 c3] [Hs3 Hp3]. cbn [snd] in Hs3, Hp3.
  assert (located c3) as Hl3 by (unfold located in *; congruence).
  assert (pid_file c3 <> Some sf) as Hpf by (rewrite Hp3, Hp2; apply Hc).
  rewrite <- Hf2, <- Hs3. case_match; [by apply runs_ret|].
  case_match; [apply runs_ret; intros _; split; [done|by left]|].
  case_match; (eapply runs_mono; [by apply runs_launch || by apply runs_pod_create|done]).
Qed.

(** The configuration a command starts with. *)
Definition fresh (c : cc_oci_config) : Prop :=
  root_dir c = root /\ bundle_path c = None /\ str_nonempty (runtime_path (state c)) = false.

(** After a usage message there is no bundle. *)
Definition set_up (c : cc_oci_config) : Prop := placed c \/ bundle_path c = None.

Lemma post_command_setup name v config rest :
  fresh config -> sd_pid_file v <> Some sf ->
  post (fun r => r.1.1 = true -> set_up r.1.2 /\ state_file_path (state r.1.2) = state_file_path (state config))
    (handle_command_setup name v config (id :: rest)).
Proof.
  intros (Hr & Hb & Hp) Hv. unfold handle_command_setup. apply post_any. intros [ret|]; [by split; [right|]|].
  repeat case_match; try (by apply post_ret); (apply post_any; intros ?; apply post_ret; by split; [left|]).
Qed.

Lemma quiet_command_setup name v config argv : quiet (handle_command_setup name v config argv).
Proof. unfold handle_command_setup, handle_default_usage, cc_oci_resolve_path. solve_quiet. Qed.

Lemma create_no_bundle c : bundle_path c = None -> cc_oci_create c = mret (false, c).
Proof. intros H. unfold cc_oci_create, cc_oci_config_file_parse. by rewrite H. Qed.

Lemma runs_set_up c :
  set_up c -> runs (creates sf) (fun r => r.1 = true -> at_file (state_file_path (state c)) r.2) (cc_oci_create c).
Proof. intros [Hc|Hb]; [by apply runs_create|]. rewrite create_no_bundle by done. by apply runs_ret. Qed.

Lemma follows_create name v config rest :
  fresh config -> sd_pid_file v <> Some sf -> follows sf LCreate (handler_create name v config (id :: rest)).
Proof.
  intros Hc Hv.
  assert (runs (creates sf) (fun _ => True) (handler_create name v config (id :: rest))) as [Ha _].
  { unfold handler_create. eapply runs_bind; [apply runs_quiet; [apply quiet_command_setup|by apply post_command_setup]|].
    intros [[[] c1] v1] Hs; cbn [negb]; [|by apply runs_ret].
    eapply runs_bind; [apply runs_set_up; by apply Hs|]. intros [ret c2] _. by apply runs_ret. }
  intros s. eapply wp_mono; [exact Ha|]. intros tr o Ht a _. apply tracks_from_acts. intros h He Hr.
  destruct (effects_creates _ _ _ Ht He Hr) as (st & H1 & H2). exists st. split; [done|by constructor].
Qed.

Lemma holds_last c s h hs : holds c s -> Forall2 holds h hs -> holds (default c (last h)) (ends s hs).
Proof.
  intros Hc H. unfold ends. revert c s Hc. induction H as [|x y h hs Hx _ IH]; intros c s Hc; [done|].
  specialize (IH x y Hx). rewrite !last_cons. by destruct (last h), (last hs).
Qed.

Lemma shows_creates tr :
  Forall (creates sf) (tr_map act tr) -> Forall (writes_readable sf) tr -> exists hs, shows sf tr hs /\ creations hs.
Proof. intros Ha Hw. exact (effects_creates _ _ _ Ha (effects_changes _ _) (changes_readable _ _ Hw)). Qed.

(** A start in a run, from the status that the state file read has. *)
Lemma tracks_run_start clean s tr1 tr2 tr3 f doc nm st hs ret :
  Forall (creates sf) (tr_map act tr1) -> tr2 = [Ev (Cjson_load f) (Some (Some doc))] ->
  state_of_tree (GNode nm (cc_oci_json_parse_aux doc false)) = Done (Some st) -> s_status st = OCI_STATUS_CREATED ->
  (clean = true -> f = sf) -> start_spec sf hs tr3 ret ->
  tracks_from sf (LRun clean) s (tr1 ++ tr2 ++ tr3).
Proof.
  intros H1 -> Hst Es Hf H3 c Hc [Hf1 Hf2]%faithful_app [Hw1 Hw2]%Forall_app.
  apply faithful_app in Hf2 as [[Hsees _] Hf3]. apply Forall_app in Hw2 as [_ Hw3].
  destruct (shows_creates _ H1 Hw1) as (h1 & Hs1 & Hcr). pose proof (holds_last _ _ _ _ Hc Hs1) as Hl.
  destruct (start_moves _ _ _ _ _ H3 (effects_changes _ _) (changes_readable _ _ Hw3)) as (h3 & Hs3 & _ & Hh3).
  assert (shows sf (tr1 ++ [Ev (Cjson_load f) (Some (Some doc))] ++ tr3) (h1 ++ [] ++ h3)) as Hsh
    by (apply shows_app; [done|]; apply shows_app; [by constructor|done]).
  exists (h1 ++ [] ++ h3). split; [done|]. destruct Hh3 as [->|(rm & Hrm & ->)]; [rewrite !app_nil_r; by apply MRun|].
  apply MRunStart; [done|done|]. intros Ecl. specialize (Hf Ecl). subst f. rewrite <- Es.
  exact (read_status _ _ _ _ _ Hl Hsees Hst).
Qed.

Lemma tracks_creates clean s tr : Forall (creates sf) (tr_map act tr) -> tracks_from sf (LRun clean) s tr.
Proof. intros H c _ _ Hw. destruct (shows_creates _ H Hw) as (hs & Hs & Hc). exists hs. split; [done|by apply MRun]. Qed.

Lemma tracks_creates_inert clean s tr1 tr2 tr3 :
  Forall (creates sf) (tr_map act tr1) -> tr_map act tr2 = [] -> Forall (inert sf) (tr_map act tr3) ->
  tracks_from sf (LRun clean) s (tr1 ++ tr2 ++ tr3).
Proof.
  intros H1 H2 H3. apply tracks_creates. rewrite !tr_map_app, H2. apply Forall_app. split; [done|].
  eapply Forall_impl; [exact H3|]. intros [] Ha; cbn in *; naive_solver.
Qed.

Lemma run_follows_from bundle c s :
  set_up c -> follows_from sf (LRun (negb (str_nonempty (state_file_path (state c))))) s (cc_oci_run bundle c).
Proof.
  intros Hc. unfold cc_oci_run. destruct (runs_set_up c Hc) as [Ha Hp]. set (clean := negb _). apply wp_bind. rewrite wp_exec. intros tr1 o He.
  pose proof (proj1 (wp_exec _ _) Ha _ _ He) as H1. cbn in H1.
  destruct o as [[ok c1]|f]; [|by intros ? [=]]. pose proof (post_exec _ _ _ _ Hp He) as Hl. destruct ok; cbn [negb].
  2:{ intros a _. rewrite app_nil_r. by apply tracks_creates. }
  destruct (Hl eq_refl) as [Hl1 Hf1]. cbn [snd] in Hl1, Hf1. apply wp_bind.
  rewrite wp_exec. intros tr2 o2 He2. pose proof (proj1 (wp_exec _ _) (wp_state_file_read _) _ _ He2) as [Ht2 Hr2].
  assert (quiet (cc_oci_state_file_read (Some (state_file_path (state c1))))) as Hq
    by (unfold cc_oci_state_file_read, cc_oci_json_parse; solve_quiet).
  pose proof (tr_map_quiet _ _ (safe_exec _ _ _ _ Hq He2)) as Hq2. destruct o2 as [[st|]|f]; [| |by intros ? [=]].
  2:{ intros a _. rewrite app_nil_r, <- (app_nil_r tr2). apply tracks_creates_inert; [done|done|constructor]. }
  destruct (Hr2 st eq_refl) as (doc & nm & Htr2 & Hst).
  assert (str_nonempty (state_file_path (state c1)) = true) as Hne.
  { revert He2. unfold cc_oci_state_file_read, cc_oci_json_parse. destruct (str_nonempty (state_file_path (state c1))); [done|].
    cbn. by intros [_ [=]]. }
  assert (clean = true -> state_file_path (state c1) = sf) as Hclean.
  { unfold clean. intros E. destruct Hf1 as [Hf|Hf]; [|done]. by rewrite <- Hf, Hne in E. }
  pose proof (config_update_keeps c1 st) as (_ & _ & Hr & _ & Hs2). destruct (cc_oci_config_update c1 st) as [c2 st2]. cbn [fst snd] in Hr, Hs2.
  assert (located c2) as Hl2 by (unfold located in *; congruence).
  destruct (decide (s_status st2 = OCI_STATUS_CREATED)) as [E|E].
  - eapply wp_mono; [by apply wp_start_created|]. intros tr3 o H [ret c3] Ho. rewrite (located_path c2 Hl2) in H.
    eapply tracks_run_start; [done|exact Htr2|exact Hst|congruence|exact Hclean|by eapply H].
  - eapply wp_mono; [by apply act_start_other|]. intros tr3 o H r _. by apply tracks_creates_inert.
Qed.

Lemma follows_run name v config rest :
  fresh config -> sd_pid_file v <> Some sf ->
  follows sf (LRun (negb (str_nonempty (state_file_path (state config))))) (handler_run name v config (id :: rest)).
Proof.
  intros Hc Hv s. unfold handler_run.
  eapply spares_post_then; [apply quiet_spares, quiet_command_setup|by apply post_command_setup|].
  intros [[ok c1] v1] Hs. destruct ok; cbn [negb]; [|by apply spares_follows, safe_ret]. destruct (Hs eq_refl) as [Hs1 Hs2]. cbn [fst snd] in Hs1, Hs2.
  apply then_spares; [|intros []; apply safe_ret]. rewrite <- Hs2. by apply run_follows_from.
Qed.

(** *** The other commands *)

#[local] Hint Resolve quiet_spares : cc.
Ltac solve_spares := solve_safe done.

Lemma spares_shim_launch c iw : spares (cc_shim_launch c iw).
Proof. unfold cc_shim_launch, shim_launch_out. cbv zeta. solve_spares. Qed.

Lemma spares_vm_connect c : spares (cc_oci_vm_connect c).
Proof.
  pose proof quiet_set_env_home. pose proof spares_shim_launch.
  unfold cc_oci_vm_connect, cc_proxy_hyper_exec_command, cc_oci_exec_shim, cc_oci_is_attach_mode. cbv zeta. solve_spares.
Qed.

Lemma spares_exec f c st json : f <> Some sf -> spares (cc_oci_exec f c st json).
Proof.
  intros Hf. pose proof spares_vm_connect.
  unfold cc_oci_exec, cc_oci_process_exec_file, cc_oci_json_parse, of_outcome, cc_oci_create_pidfile. solve_spares.
  all: apply safe_call; intros r; cbn; rewrite decide_False by congruence; done.
Qed.

Lemma spares_events c i : spares (show_container_stats c i).
Proof.
  assert (forall n timer, spares (events_loop n c i timer)) as He
    by (induction n; intros; cbn [events_loop]; unfold show_interval_stats; solve_spares).
  unfold show_container_stats, show_interval_stats. solve_spares.
Qed.

Lemma spares_list c f all : spares (cc_oci_list c f all).
Proof.
  assert (forall d l m o vms, spares (list_loop d l m o vms)) as Hl.
  { induction l; intros; cbn [list_loop]; unfold cc_oci_vm_get_state, cc_oci_state_file_read, cc_oci_json_parse, of_outcome; solve_spares. }
  unfold cc_oci_list, list_header, cc_oci_list_vm, shown_status, cc_oci_vm_running. cbv zeta. solve_spares.
Qed.

(** *** The table *)

Lemma spares_other sub v config rest :
  sub ∈ subcommands -> (forall tr, label_of (sub_name sub) config tr = LOther) -> sd_pid_file v <> Some sf ->
  spares (sub_handler sub (sub_name sub) v config (id :: rest)).
Proof.
  intros Hin Hl Hv. pose proof spares_events. pose proof spares_list.
  assert (forall c st, spares (cc_oci_exec (sd_pid_file v) c st (x_process_json v))) as Hx by (intros; by apply spares_exec).
  unfold subcommands in Hin. repeat (apply elem_of_cons in Hin as [->|Hin]); [..|by apply not_elem_of_nil in Hin]; try by specialize (Hl []).
  all: cbn [sub_name sub_handler].
  all: unfold handler_checkpoint, handler_events, handler_exec, handler_help, handler_list, handler_ps, handler_restore,
    handler_state, handler_update, handler_version, with_usage, handle_default_usage, cc_oci_state_file_exists, usage, show_version.
  all: cbv zeta; solve_spares.
Qed.

Lemma follows_subcommand sub v config rest s :
  sub ∈ subcommands -> fresh config -> sd_pid_file v <> Some sf ->
  wp (sub_handler sub (sub_name sub) v config (id :: rest)) (fun tr o => forall a, o = Done a ->
    tracks_from sf (label_of (sub_name sub) config tr) s tr).
Proof.
  intros Hin Hc Hv. pose proof (spares_other sub v config rest Hin) as Hother. assert (root_dir config = root) as Hr by apply Hc.
  unfold subcommands in Hin. repeat (apply elem_of_cons in Hin as [->|Hin]); [..|by apply not_elem_of_nil in Hin];
    cbn [sub_name sub_handler] in *; try (by apply (spares_follows _ LOther), Hother); clear Hother.
  - by apply (follows_create "create").
  - apply (follows_stop "delete").
  - by apply (follows_kill "kill").
  - by apply (follows_toggle "pause" _ _ true).
  - by apply (follows_toggle "resume" _ _ false).
  - by apply (follows_run "run").
  - by apply (follows_start "start").
  - apply (follows_stop "stop").
Qed.

(** ** Sessions *)

(** A sequence of commands for the container, each of which returns, and what
    they do, one after the other. *)
Inductive session : list label -> list event -> Prop :=
| SNil : session [] []
| SCons sub v config rest tr ret ls trs :
    sub ∈ subcommands -> fresh config -> sd_pid_file v <> Some sf ->
    exec (sub_handler sub (sub_name sub) v config (id :: rest)) tr (Done ret) ->
    session ls trs -> session (label_of (sub_name sub) config tr :: ls) (tr ++ trs).

Lemma session_path ls tr c s :
  session ls tr -> holds c s -> faithful sf c tr -> Forall (writes_readable sf) tr ->
  exists hs, shows sf tr hs /\ path ls s hs.
Proof.
  intros Hs. revert c s. induction Hs as [|sub v config rest tr ret ls trs Hin Hf Hv He _ IH]; intros c s Hc Hfaith Hw.
  { exists []. split; constructor. }
  apply faithful_app in Hfaith as [Hf1 Hf2]. apply Forall_app in Hw as [Hw1 Hw2].
  pose proof (proj1 (wp_exec _ _) (follows_subcommand sub v config rest s Hin Hf Hv) _ _ He ret eq_refl) as Ht.
  destruct (Ht c Hc Hf1 Hw1) as (hs & Hsh & Hm).
  destruct (IH _ _ (holds_last _ _ _ _ Hc Hsh) Hf2 Hw2) as (hs' & Hsh' & Hp).
  exists (hs ++ hs'). split; [by apply shows_app|by constructor].
Qed.

(** C3.  The state file of a container follows the machine.  Take any sequence
    of commands for a container that return, whatever their options, arguments
    and results and whatever happens around them, where the state file is
    changed by them alone and read as it was written: what they write to it is,
    in this order, a path of the machine [moves].  So a start records running
    only from created; a run records running only once created stands in the
    file (if its configuration has no other path of a state file at the start,
    as it is in the program); a resume records running from any other status.
    A kill of a container that is not a sandbox records stopping first, and
    only then stopped, or what was there before; a kill of a sandbox records
    stopped at once.  Stop and delete only remove the file, and the commands
    that are not named change nothing. *)
Theorem lifecycle_refines ls tr c s :
  session ls tr -> holds c s -> faithful sf c tr -> Forall (writes_readable sf) tr ->
  exists hs, shows sf tr hs /\ path ls s hs.
Proof. apply session_path. Qed.

(** C13.  A container that is over stays over.  Once the state file is removed,
    or says stopping, stopped or paused, no sequence of start, kill, pause,
    stop, delete, exec and the other commands that neither create nor resume
    records the container as created or as running again. *)
Theorem over_stays_over ls tr c s :
  session ls tr -> Forall (fun l => ~ revives l) ls -> holds c s -> over s ->
  faithful sf c tr -> Forall (writes_readable sf) tr ->
  exists hs, shows sf tr hs /\ Forall over hs.
Proof.
  intros Hs Hl Hc Ho Hf Hw. destruct (session_path ls tr c s Hs Hc Hf Hw) as (hs & Hsh & Hp).
  exists hs. split; [done|]. by eapply over_path.
Qed.
End commands_follow.


(** ** Witnesses *)

#[local] Existing Instance glib_ref.
#[local] Instance session_build : Build := {| LOCALSTATEDIR := "/var"; SYSCONFDIR := "/etc"; DEFAULTSDIR := "/usr/share/defaults"; LIBEXECDIR := "/usr/libexec" |}.
#[local] Instance session_paths : StartPaths := {| start_proxy_socket_path := None; start_shim_path := None |}.
#[local] Instance session_fuel : RecvFuel := 9%nat.
#[local] Instance session_nl_fuel : NlFuel := 9%nat.
#[local] Instance session_qmp_fuel : QmpFuel := 9%nat.
#[local] Instance session_logs : HypervisorLogs := None.
#[local] Instance session_events_fuel : EventsFuel := 9%nat.
#[local] Instance session_package : Package := {| PACKAGE_NAME := "cc"; PACKAGE_VERSION := "1"; GIT_COMMIT := "0" |}.

(** Files that keep what is written; everything else as for [life_world]. *)
Definition files_world : handler (gmap string string) := fun c w =>
  match c return reply c * gmap string string with
  | Cg_file_set_contents p s => (true, <[p:=s]> w)
  | Cjson_load p => (s ← w !! p; Some <$> json_decode s, w)
  | Cg_unlink p => (0, delete p w)
  | Cstat p => (match w !! p with Some _ => Some (Stat KReg 0 0) | None => None end, w)
  | Cg_file_test p FT_EXISTS => (bool_decide (is_Some (w !! p)), w)
  | c => (fst (life_world c 0%nat), w)
  end.

(** What is read in this world is what was written. *)
Lemma files_faithful {A} sf (m : io A) w :
  faithful sf (w !! sf) (fst (run_tr files_world m w)) /\
  snd (run files_world m w) !! sf = default (w !! sf) (last (tr_map (effect sf) (fst (run_tr files_world m w)))).
Proof.
  revert w. induction m as [a|f|c k IH]; intros w; [done..|]. cbn [run_tr run].
  destruct (files_world c w) as [v w'] eqn:E. specialize (IH v w'). destruct (run_tr files_world (k v) w') as [tr o] eqn:Er.
  cbn [fst faithful tr_map] in *.
  assert (sees sf (w !! sf) (Ev c v) /\ after sf (w !! sf) (Ev c v) = w' !! sf) as [Hs Ha].
  { destruct c; cbn in E; try (by injection E as _ <-).
    - destruct t; cbn in E; by injection E as _ <-.
    - injection E as <- <-. split; [done|]. unfold after. cbn. destruct (decide (path0 = sf)) as [->|Hn].
      + rewrite decide_True by done. by rewrite lookup_delete_eq.
      + rewrite decide_False by naive_solver. by rewrite lookup_delete_ne.
    - injection E as <- <-. split; [done|]. unfold after. cbn. case_decide as Hn; [subst; by rewrite lookup_insert_eq|by rewrite lookup_insert_ne].
    - injection E as <- <-. split; [|done]. intros ->. destruct (w !! sf) as [t|] eqn:Et; [|done]. right. intros m -> Hm. cbn.
      by rewrite json_decode_encode by by apply json_ok_no_double. }
  rewrite Ha. destruct IH as [Hf ->]. split; [done|]. rewrite <- Ha. unfold after.
  destruct (effect sf (Ev c v)) as [t|]; [|done]. rewrite last_cons. by destruct (last _).
Qed.

(** A text of [glib_ref] that can be read back. *)
Fixpoint tree_no_double (t : gen_tree (string + Z)) : bool :=
  match t with GenLeaf _ => true | GenNode n l => negb (n =? 2)%nat && forallb tree_no_double l end.

Lemma tree_no_double_json j : tree_no_double (json_to_tree j) = json_no_double j.
Proof.
  induction j as [| | | | |l IH|m IH] using json_ind'; try done; cbn.
  - induction IH as [|j l Hj _ IHl]; [done|]. cbn. by rewrite Hj, IHl.
  - induction IH as [|[k j] m Hj _ IHm]; [done|]. cbn in *. by rewrite Hj, IHm, !andb_true_r.
Qed.

Definition readableb (t : string) : bool :=
  match decode (pos_of_bits t) with Some tree => tree_no_double tree && json_okb (json_of_tree tree) | None => true end.

Lemma readableb_readable t : readableb t = true -> readable t.
Proof.
  intros H m ->. revert H. change (json_generator_to_data (JObject m) true) with (json_encode (JObject m)).
  unfold readableb, json_encode. rewrite pos_of_to_bits, decode_encode.
  rewrite tree_no_double_json. intros [Hd Ho]%andb_prop. rewrite json_of_to_tree in Ho by done. by apply json_okb_ok.
Qed.

Definition writes_readableb (sf : string) (e : event) : bool :=
  match effect sf e with Some (Some t) => readableb t | _ => true end.

Lemma writes_readableb_all sf tr : forallb (writes_readableb sf) tr = true -> Forall (writes_readable sf) tr.
Proof.
  rewrite Forall_forall, forallb_forall. intros H e He t Ht. apply list_elem_of_In, H in He. unfold writes_readableb in He.
  rewrite Ht in He. by apply readableb_readable.
Qed.

(** A container that runs, and its state file. *)
Definition session_file : string := "/run/c1/state.json".

Definition session_text : string :=
  match fst (run_tr files_world (cc_oci_state_file_create (set_bundle_path (Some "/b") saved_example) (Some "now")) ∅) with
  | [Ev (Cg_file_set_contents _ t) _] => t
  | _ => EmptyString
  end.

Definition session_world : gmap string string :=
  <[session_file := session_text]> {[ "/b/config.json" := json_encode (JObject []) ]}.

Definition session_config : cc_oci_config := set_root_dir (Some "/run") cc_oci_config_create.

(** Commands by their names, each with the rest of its arguments. *)
Definition find_command (name : string) : option subcommand := List.find (fun s => bool_decide (sub_name s = name)) subcommands.

Definition command (c : string * list string) : io bool :=
  match find_command c.1 with
  | Some sub => sub_handler sub (sub_name sub) start_data_zero session_config ("c1" :: c.2)
  | None => Halt AssertFailed
  end.

Fixpoint commands_tr (l : list (string * list string)) (w : gmap string string) : list event :=
  match l with
  | [] => []
  | c :: l => fst (run_tr files_world (command c) w) ++ commands_tr l (snd (run files_world (command c) w))
  end.

Fixpoint commands_return (l : list (string * list string)) (w : gmap string string) : bool :=
  match l with
  | [] => true
  | c :: l =>
      match snd (run_tr files_world (command c) w) with Done _ => commands_return l (snd (run files_world (command c) w)) | _ => false end
  end.

Lemma commands_faithful l w : faithful session_file (w !! session_file) (commands_tr l w).
Proof.
  revert w. induction l as [|c l IH]; intros w; [done|]. cbn [commands_tr]. apply faithful_app.
  destruct (files_faithful session_file (command c) w) as [Hf <-]. split; [done|apply IH].
Qed.

(** Their labels. *)
Fixpoint commands_labels (l : list (string * list string)) (w : gmap string string) : list label :=
  match l with
  | [] => []
  | c :: l =>
      label_of (Some "/run") "c1" c.1 session_config (fst (run_tr files_world (command c) w))
        :: commands_labels l (snd (run files_world (command c) w))
  end.

Lemma commands_session l w :
  commands_return l w = true -> session (Some "/run") "c1" (commands_labels l w) (commands_tr l w).
Proof.
  revert w. induction l as [|c l IH]; intros w; [constructor|]. cbn [commands_return commands_tr commands_labels].
  destruct (snd (run_tr files_world (command c) w)) as [ret|] eqn:E; [|done]. intros Hr.
  apply run_tr_exec in E. unfold command in E at 1. destruct (find_command c.1) as [sub|] eqn:Ef; [|by destruct E as [_ [=]]].
  apply find_some in Ef as [Hin Hn%bool_decide_eq_true]. rewrite <- Hn.
  eapply (SCons _ _ sub start_data_zero session_config c.2); [by apply list_elem_of_In|by split_and!|done|exact E|by apply IH].
Qed.

(** Kill the container, try to start it, and stop it. *)
Definition last_commands : list (string * list string) := [("kill", ["TERM"]); ("start", []); ("stop", [])].

Lemma session_file_eq : container_file (Some "/run") "c1" = session_file.
Proof. vm_compute. reflexivity. Qed.

Lemma session_holds : holds (session_world !! session_file) (Some OCI_STATUS_RUNNING).
Proof.
  unfold session_world. rewrite lookup_insert_eq. split; [|apply readableb_readable; vm_compute; reflexivity].
  exists (match json_decode session_text with Some (JObject m) => m | _ => [] end).
  split; [vm_compute; reflexivity|]. split; [by eexists|vm_compute; reflexivity].
Qed.

Lemma last_labels : commands_labels last_commands session_world = [LKill false; LStart; LStop].
Proof. vm_compute. reflexivity. Qed.

Lemma lifecycle_refines_witness :
  exists hs, shows session_file (commands_tr last_commands session_world) hs /\
    path [LKill false; LStart; LStop] (Some OCI_STATUS_RUNNING) hs.
Proof.
  rewrite <- session_file_eq, <- last_labels.
  apply (lifecycle_refines (Some "/run") "c1" (commands_labels last_commands session_world) (commands_tr last_commands session_world)
    (session_world !! session_file)).
  - apply (commands_session last_commands session_world). vm_compute. reflexivity.
  - apply session_holds.
  - rewrite session_file_eq. apply commands_faithful.
  - apply writes_readableb_all. vm_compute. reflexivity.
Defined.

(** The container again, once it was killed. *)
Definition killed_world : gmap string string := snd (run files_world (command ("kill", ["TERM"])) session_world).

Lemma killed_holds : holds (killed_world !! session_file) (Some OCI_STATUS_STOPPED).
Proof.
  unfold killed_world. rewrite (proj2 (files_faithful session_file _ _)). 
  replace (last _) with (Some (Some (default EmptyString (killed_world !! session_file)))) by (vm_compute; reflexivity).
  split; [|apply readableb_readable; vm_compute; reflexivity].
  exists (match json_decode (default EmptyString (killed_world !! session_file)) with Some (JObject m) => m | _ => [] end).
  split; [vm_compute; reflexivity|]. split; [by eexists|vm_compute; reflexivity].
Qed.

Definition later_commands : list (string * list string) := [("start", []); ("state", []); ("kill", ["TERM"]); ("start", []); ("stop", [])].

Lemma later_labels : commands_labels later_commands killed_world = [LStart; LOther; LKill false; LStart; LStop].
Proof. vm_compute. reflexivity. Qed.

Lemma over_stays_over_witness :
  exists hs, shows session_file (commands_tr later_commands killed_world) hs /\ Forall over hs.
Proof.
  rewrite <- session_file_eq.
  apply (over_stays_over (Some "/run") "c1" (commands_labels later_commands killed_world) (commands_tr later_commands killed_world)
    (killed_world !! session_file) (Some OCI_STATUS_STOPPED)).
  - apply commands_session. vm_compute. reflexivity.
  - rewrite later_labels. repeat constructor; intros [|[|[|]]]; done.
  - apply killed_holds.
  - by split.
  - rewrite session_file_eq. apply commands_faithful.
  - apply writes_readableb_all. vm_compute. reflexivity.
Defined.
